(** * impatient_cloud_enum: the concurrent probing core

    A shallow embedding of [enum_tools] (rate governor, domain validator,
    DNS batch resolver, HTTP batch prober, wordlist cleaning, custom
    nameservers), of the candidates and callbacks of the AWS, Azure and
    GCP checks, and of the name building of the command line.

    Go [int] and [int64] are modelled as [Z] with 64-bit two's-complement
    wrap-around, Go strings as [string] (sequences of bytes), slices as
    lists, maps as [gmap], and the goroutines of a batch as an
    interleaving step function driven by a scheduler action. *)

From stdpp Require Import base list strings gmap.
From Stdlib Require Import ZArith Lia Ascii.

Local Open Scope Z_scope.

(** ** Go primitives *)

Module Go.

(** [len(s)] of a Go string: its number of bytes. *)
Definition len (s : string) : Z := Z.of_nat (String.length s).

(** Two's-complement wrap-around of a 64-bit signed integer. *)
Definition wrap64 (z : Z) : Z := (z + 2 ^ 63) mod 2 ^ 64 - 2 ^ 63.

Definition maxInt64 : Z := 2 ^ 63 - 1.

Definition dot : ascii := "."%char.

(** [strings.Split(s, ".")]: the substrings between dots; never empty,
    and [[""]] for the empty string. *)
Fixpoint Split (s : string) : list string :=
  match s with
  | EmptyString => [EmptyString]
  | String c r =>
      if Ascii.eqb c dot then EmptyString :: Split r
      else match Split r with
           | h :: t => String c h :: t
           | [] => [String c EmptyString]
           end
  end.

(** [strings.Join(ls, ".")]. *)
Fixpoint Join (ls : list string) : string :=
  match ls with
  | [] => EmptyString
  | [l] => l
  | l :: rest => String.append l (String dot (Join rest))
  end.

Fixpoint dot_free (s : string) : bool :=
  match s with
  | EmptyString => true
  | String c r => negb (Ascii.eqb c dot) && dot_free r
  end.

End Go.

(** ** Domain helpers *)

Module Domain.
Import Go.

(** The body of the [for _, label := range ...] loop of [IsValidDomain],
    with its early [return false]. *)
Fixpoint labelsOK (labels : list string) : bool :=
  match labels with
  | [] => true
  | label :: rest =>
      let l := len label in
      if (l <? 1) || (l >? 63) then false else labelsOK rest
  end.

Definition IsValidDomain (domain : string) : bool :=
  if len domain >? 253 then false else labelsOK (Split domain).

(** The validator as the specification words it: [ls] are the
    dot-separated labels of [name] when they are dot-free, non-empty as a
    list, and joining them with dots gives [name] back. *)
Definition DotLabels (name : string) (ls : list string) : Prop :=
  ls ≠ [] ∧ Forall (λ l, dot_free l = true) ls ∧ Join ls = name.

Definition ValidCandidate (name : string) : Prop :=
  len name ≤ 253 ∧
  ∀ ls, DotLabels name ls → Forall (λ l, 1 ≤ len l ≤ 63) ls.

(** The filter loop at the head of both batch engines: the entries that
    pass [IsValidDomain], appended one by one. *)
Definition filterValid (names : list string) : list string :=
  fold_left (λ acc n, if IsValidDomain n then acc ++ [n] else acc) names [].

End Domain.

(** ** Rate-limiter globals *)

Module RateLimiter.
Import Go.

(** The package-level variables [rlCount], [rlThreshold], [rlSleep]
    (in seconds) and [rlPaused]. *)
Record RateState := mkRate {
  rlCount : Z;
  rlThreshold : Z;
  rlSleep : Z;
  rlPaused : Z
}.

(** What a call of [rateLimitCheck] does besides counting. *)
Inductive rlEvent :=
| RlStorePaused (v : Z)
| RlPrint (count sleep : Z)
| RlSleepFor (sleep : Z).

Definition zeroRate : RateState := mkRate 0 0 0 0.

Definition InitRateLimiter (threshold sleep : Z) (s : RateState) : RateState :=
  mkRate (rlCount s) (wrap64 threshold) sleep (rlPaused s).

(** One call of [rateLimitCheck] by a goroutine running alone. [None]
    stands for the spin-wait that never ends: the flag is set and no other
    goroutine is there to clear it. *)
Definition rateLimitCheck (s : RateState) : option (RateState * list rlEvent) :=
  if rlThreshold s <=? 0 then Some (s, [])
  else if negb (rlPaused s =? 0) then None
  else
    let count := wrap64 (rlCount s + 1) in
    if Z.rem count (rlThreshold s) =? 0 then
      Some (mkRate count (rlThreshold s) (rlSleep s) 0,
            [RlStorePaused 1; RlPrint count (rlSleep s);
             RlSleepFor (rlSleep s); RlStorePaused 0])
    else Some (mkRate count (rlThreshold s) (rlSleep s) (rlPaused s), []).

(** [n] requests admitted one after the other by a single worker. *)
Fixpoint admitRequests (n : nat) (s : RateState) : option (RateState * list rlEvent) :=
  match n with
  | O => Some (s, [])
  | S k =>
      match admitRequests k s with
      | Some (s1, tr1) =>
          match rateLimitCheck s1 with
          | Some (s2, tr2) => Some (s2, tr1 ++ tr2)
          | None => None
          end
      | None => None
      end
  end.

Definition isSleep (e : rlEvent) : bool :=
  match e with RlSleepFor _ => true | _ => false end.

(** Number of pause events of a trace, and the request counts at which
    they were announced. *)
Definition pauses (tr : list rlEvent) : Z :=
  Z.of_nat (length (filter (λ e, isSleep e = true) tr)).

Definition pausedAt (tr : list rlEvent) : list Z :=
  omap (λ e, match e with RlPrint c _ => Some c | _ => None end) tr.

(** The multiples of [T] up to [k * T], in increasing order. *)
Definition multiples (T : Z) (k : nat) : list Z :=
  map (λ i, Z.of_nat (S i) * T) (seq 0 k).

(** The counter after a batch or a scan that issued [n] requests, started
    with the limiter [r]: untouched without a threshold, [n] higher with
    one. *)
Definition countAfter (r : RateState) (n : nat) : Z :=
  if rlThreshold r <=? 0 then rlCount r else wrap64 (rlCount r + Z.of_nat n).

(** The values of an [int64]. *)
Definition inInt64 (z : Z) : Prop := - 2 ^ 63 ≤ z ≤ maxInt64.

End RateLimiter.

(** ** DNS helpers *)

Module DNS.
Import Go Domain.

(** The fields of [*net.DNSError] that [dnsLookup] reads. *)
Record DNSError := mkDNSError { IsNotFound : bool; IsTimeout : bool }.

(** A non-nil Go [error] as [dnsLookup] can tell them apart: a
    [*net.DNSError], a value with an [Unwrap() error] method, or any other
    error. *)
Inductive error :=
| ErrDNS (e : DNSError)
| ErrWrap (inner : error)
| ErrOther.

(** The sentinel returned for fatal errors. *)
Definition breakout : string := "-#BREAKOUT_DNS_ERROR#-".

(** The two type assertions that look for a [*net.DNSError]: on the error
    itself, then one [Unwrap] deep. *)
Definition asDNSError (err : error) : option DNSError :=
  match err with
  | ErrDNS e => Some e
  | ErrWrap (ErrDNS e2) => Some e2
  | _ => None
  end.

(** [useCustomNS] reports whether a non-default nameserver was supplied. *)
Definition useCustomNS (nameserver nameserverFile : string) : bool :=
  negb (String.eqb nameserverFile "") ||
  (negb (String.eqb nameserver "") && negb (String.eqb nameserver "1.1.1.1")).

(** The default of the [-ns] flag in [parseArguments]. *)
Definition nsFlagDefault : string := "1.1.1.1".

(** The three outcomes of the specification, and how [FastDNSLookup]'s
    consuming loop reads them off the returned string. *)
Inductive ResolutionOutcome :=
| Resolved (name : string)
| NotFound
| Fatal.

Definition encode (o : ResolutionOutcome) : string :=
  match o with
  | Resolved name => name
  | NotFound => ""
  | Fatal => breakout
  end.

Definition outcomeOf (res : string) : ResolutionOutcome :=
  if String.eqb res "" then NotFound
  else if String.eqb res breakout then Fatal
  else Resolved res.

(** [dnsConcurrency] as [FastDNSLookup] computes it from [threads] and
    the number of names left after filtering. *)
Definition dnsConcurrency (threads total : Z) : Z :=
  let c := wrap64 (threads * 10) in
  let c := if c >? 500 then 500 else c in
  if c >? total then total else c.

Section Resolver.
(** A [*net.Resolver] is a state [R] (the round-robin index of
    [newResolver], caches) and [LookupHost], which answers [None] for a
    nil error; the addresses are dropped by [dnsLookup]. *)
Context {R : Type}.
Variable LookupHost : R → string → Z → option error * R.

(** The [for tries := 0; tries < 2; tries++] loop, counted down. *)
Fixpoint dnsLookupLoop (triesLeft : nat) (r : R) (name : string) (timeout : Z)
  : string * R :=
  match triesLeft with
  | O => ("", r)
  | S k =>
      let '(err, r1) := LookupHost r name timeout in
      match err with
      | None => (name, r1)
      | Some e =>
          match asDNSError e with
          | Some dnsErr =>
              if IsNotFound dnsErr then ("", r1)
              else if IsTimeout dnsErr then dnsLookupLoop k r1 name timeout
              else (breakout, r1)
          | None => ("", r1)
          end
      end
  end.

Definition dnsLookup (r : R) (name : string) (timeout : Z) : string * R :=
  dnsLookupLoop 2 r name timeout.

(** The per-name policy in the words of the specification, over the
    class of each attempt's answer. *)
Inductive attempt := Success | NameNotFound | Timeout | OtherDNSError | NonDNSError.

Definition classify (err : option error) : attempt :=
  match err with
  | None => Success
  | Some e =>
      match asDNSError e with
      | Some d =>
          if IsNotFound d then NameNotFound
          else if IsTimeout d then Timeout
          else OtherDNSError
      | None => NonDNSError
      end
  end.

(** The policy as the specification states it: every error that is
    neither not-found nor a timeout is fatal. *)
Definition specOutcome (name : string) (first second : attempt) : ResolutionOutcome :=
  match first with
  | Success => Resolved name
  | NameNotFound => NotFound
  | Timeout =>
      match second with
      | Success => Resolved name
      | NameNotFound | Timeout => NotFound
      | OtherDNSError | NonDNSError => Fatal
      end
  | OtherDNSError | NonDNSError => Fatal
  end.

(** The policy of the code: an error that is not a DNS error is
    skipped as not-found. *)
Definition codeOutcome (name : string) (first second : attempt) : ResolutionOutcome :=
  match first with
  | Success => Resolved name
  | NameNotFound | NonDNSError => NotFound
  | Timeout =>
      match second with
      | Success => Resolved name
      | NameNotFound | Timeout | NonDNSError => NotFound
      | OtherDNSError => Fatal
      end
  | OtherDNSError => Fatal
  end.

(** What [dnsLookup] returns for [name] when the resolver gives the
    answer [oracle name] every time it is asked. *)
Definition resolveWith (oracle : string → option error) (name : string) : string :=
  encode (codeOutcome name (classify (oracle name)) (classify (oracle name))).

(** ** Resolver selection *)

Variable systemResolver : R.
Variable newResolver : list string → R.
(** [ReadNameservers]; [None] when it ends the process (file missing or
    without entries). *)
Variable ReadNameservers : string → option (list string).

Inductive selection :=
| UseResolver (custom : bool) (resolver : R) (lookupTimeout : Z)
| SelectionExit (code : Z).

Definition selectResolver (nameserver nameserverFile : string) : selection :=
  if useCustomNS nameserver nameserverFile then
    if negb (String.eqb nameserverFile "") then
      match ReadNameservers nameserverFile with
      | Some nsList => UseResolver true (newResolver nsList) 3
      | None => SelectionExit 1
      end
    else UseResolver true (newResolver [nameserver]) 3
  else UseResolver false systemResolver 5.

End Resolver.

End DNS.

(** ** The DNS batch: feeder, worker pool, closer, ticker, consumer *)

Module DNSBatch.
Import Go Domain DNS.

(** What the batch prints. *)
Inductive line :=
| OutCustomNS
| OutBruteForcing (total : Z)
| OutProgress (done total : Z)
| OutComplete (total : Z)
| OutClearLine
| OutErrorQuerying
| OutTrySettingNS.

(** Where a resolver worker stands in its loop body. *)
Inductive wstate :=
| WRange
| WLookup (name : string)
| WSend (res : string)
| WDone.

Inductive phase := Running | Exited (code : Z) | Returned.

(** Which goroutine moves next. *)
Inductive action := AFeeder | AWorker (i : nat) | ACloser | ATicker | AConsumer.

(** What [FastDNSLookup] amounts to for its caller. *)
Inductive result := Return (names : list string) | Exit (code : Z) | Panic.

(** Per-batch constants. *)
Record config := mkConfig {
  cap : Z;
  total : Z;
  lookupTimeout : Z;
  hasCallback : bool
}.

Section Batch.
Context {R : Type}.
Variable LookupHost : R → string → Z → option error * R.
Variable systemResolver : R.
Variable newResolver : list string → R.
Variable ReadNameservers : string → option (list string).

(** The shared state of the goroutines of one batch. [looked] and
    [received] are history: the names handed to [dnsLookup] and the
    values the consuming loop took from [resultsCh], in order. *)
Record state := mkState {
  resolver : R;
  feed : list string;
  jobsClosed : bool;
  jobs : list string;
  workers : list wstate;
  results : list string;
  resultsClosed : bool;
  done : Z;
  validNames : list string;
  called : list string;
  output : list line;
  status : phase;
  looked : list string;
  received : list string
}.

(** Field updates. *)
Definition set_resolver (v : R) (s : state) : state :=
  mkState v (feed s) (jobsClosed s) (jobs s) (workers s) (results s)
    (resultsClosed s) (done s) (validNames s) (called s) (output s) (status s)
    (looked s) (received s).

Definition set_feed (v : list string) (s : state) : state :=
  mkState (resolver s) v (jobsClosed s) (jobs s) (workers s) (results s)
    (resultsClosed s) (done s) (validNames s) (called s) (output s) (status s)
    (looked s) (received s).

Definition set_jobsClosed (v : bool) (s : state) : state :=
  mkState (resolver s) (feed s) v (jobs s) (workers s) (results s) (resultsClosed s)
    (done s) (validNames s) (called s) (output s) (status s) (looked s) (received s)
    .

Definition set_jobs (v : list string) (s : state) : state :=
  mkState (resolver s) (feed s) (jobsClosed s) v (workers s) (results s)
    (resultsClosed s) (done s) (validNames s) (called s) (output s) (status s)
    (looked s) (received s).

Definition set_workers (v : list wstate) (s : state) : state :=
  mkState (resolver s) (feed s) (jobsClosed s) (jobs s) v (results s)
    (resultsClosed s) (done s) (validNames s) (called s) (output s) (status s)
    (looked s) (received s).

Definition set_results (v : list string) (s : state) : state :=
  mkState (resolver s) (feed s) (jobsClosed s) (jobs s) (workers s) v
    (resultsClosed s) (done s) (validNames s) (called s) (output s) (status s)
    (looked s) (received s).

Definition set_resultsClosed (v : bool) (s : state) : state :=
  mkState (resolver s) (feed s) (jobsClosed s) (jobs s) (workers s) (results s) v
    (done s) (validNames s) (called s) (output s) (status s) (looked s) (received s)
    .

Definition set_done (v : Z) (s : state) : state :=
  mkState (resolver s) (feed s) (jobsClosed s) (jobs s) (workers s) (results s)
    (resultsClosed s) v (validNames s) (called s) (output s) (status s) (looked s)
    (received s).

Definition set_validNames (v : list string) (s : state) : state :=
  mkState (resolver s) (feed s) (jobsClosed s) (jobs s) (workers s) (results s)
    (resultsClosed s) (done s) v (called s) (output s) (status s) (looked s)
    (received s).

Definition set_called (v : list string) (s : state) : state :=
  mkState (resolver s) (feed s) (jobsClosed s) (jobs s) (workers s) (results s)
    (resultsClosed s) (done s) (validNames s) v (output s) (status s) (looked s)
    (received s).

Definition set_output (v : list line) (s : state) : state :=
  mkState (resolver s) (feed s) (jobsClosed s) (jobs s) (workers s) (results s)
    (resultsClosed s) (done s) (validNames s) (called s) v (status s) (looked s)
    (received s).

Definition set_status (v : phase) (s : state) : state :=
  mkState (resolver s) (feed s) (jobsClosed s) (jobs s) (workers s) (results s)
    (resultsClosed s) (done s) (validNames s) (called s) (output s) v (looked s)
    (received s).

Definition set_looked (v : list string) (s : state) : state :=
  mkState (resolver s) (feed s) (jobsClosed s) (jobs s) (workers s) (results s)
    (resultsClosed s) (done s) (validNames s) (called s) (output s) (status s) v
    (received s).

Definition set_received (v : list string) (s : state) : state :=
  mkState (resolver s) (feed s) (jobsClosed s) (jobs s) (workers s) (results s)
    (resultsClosed s) (done s) (validNames s) (called s) (output s) (status s)
    (looked s) v.

Definition isDone (w : wstate) : bool :=
  match w with WDone => true | _ => false end.

(** The feeder goroutine: one send on [jobs], or [close(jobs)]. *)
Definition stepFeeder (c : config) (s : state) : option state :=
  match feed s with
  | n :: rest =>
      if Z.of_nat (length (jobs s)) <? cap c
      then Some (set_feed rest (set_jobs (jobs s ++ [n]) s))
      else None
  | [] => if jobsClosed s then None else Some (set_jobsClosed true s)
  end.

(** Worker [i]: receive from [jobs], call [dnsLookup], or send the
    answer on [resultsCh] and count it in [done]. *)
Definition stepWorker (c : config) (i : nat) (s : state) : option state :=
  match workers s !! i with
  | Some WRange =>
      match jobs s with
      | name :: rest =>
          Some (set_jobs rest (set_workers (<[i := WLookup name]> (workers s)) s))
      | [] =>
          if jobsClosed s
          then Some (set_workers (<[i := WDone]> (workers s)) s)
          else None
      end
  | Some (WLookup name) =>
      let '(res, r') := dnsLookup LookupHost (resolver s) name (lookupTimeout c) in
      Some (set_resolver r' (set_looked (looked s ++ [name])
             (set_workers (<[i := WSend res]> (workers s)) s)))
  | Some (WSend res) =>
      if Z.of_nat (length (results s)) <? cap c
      then Some (set_results (results s ++ [res]) (set_done (wrap64 (done s + 1))
             (set_workers (<[i := WRange]> (workers s)) s)))
      else None
  | Some WDone | None => None
  end.

(** The closer: [workerWg.Wait()] then [close(resultsCh)]. *)
Definition stepCloser (s : state) : option state :=
  if resultsClosed s then None
  else if forallb isDone (workers s) then Some (set_resultsClosed true s)
  else None.

Definition stepTicker (c : config) (s : state) : option state :=
  Some (set_output (output s ++ [OutProgress (done s) (total c)]) s).

(** The body of the consuming loop for one received value. *)
Definition consumeOne (c : config) (name : string) (s : state) : state :=
  if String.eqb name "" then s
  else if String.eqb name breakout then
    set_status (Exited 1)
      (set_output (output s ++ [OutErrorQuerying; OutTrySettingNS]) s)
  else
    let s1 := if hasCallback c then set_called (called s ++ [name]) s else s in
    set_validNames (validNames s1 ++ [name]) s1.

Definition stepConsumer (c : config) (s : state) : option state :=
  match results s with
  | name :: rest =>
      Some (consumeOne c name (set_results rest (set_received (received s ++ [name]) s)))
  | [] =>
      if resultsClosed s
      then Some (set_status Returned
             (set_output (output s ++ [OutComplete (total c); OutClearLine]) s))
      else None
  end.

(** One step of the batch. Nothing runs once the process has exited or
    the function has returned. *)
Definition step (c : config) (a : action) (s : state) : option state :=
  match status s with
  | Running =>
      match a with
      | AFeeder => stepFeeder c s
      | AWorker i => stepWorker c i s
      | ACloser => stepCloser s
      | ATicker => stepTicker c s
      | AConsumer => stepConsumer c s
      end
  | _ => None
  end.

Fixpoint run (c : config) (acts : list action) (s : state) : option state :=
  match acts with
  | [] => Some s
  | a :: rest =>
      match step c a s with
      | Some s' => run c rest s'
      | None => None
      end
  end.

(** The sequential prologue of [FastDNSLookup]: either an early result,
    or the configuration and first state of the pipeline. *)
Definition start (names : list string) (nameserver nameserverFile : string)
    (callback : bool) (threads : Z) : result + config * state :=
  if Z.of_nat (length names) =? 0 then inl (Return [])
  else
    match selectResolver systemResolver newResolver ReadNameservers
            nameserver nameserverFile with
    | SelectionExit code => inl (Exit code)
    | UseResolver custom resolver timeout =>
        let out := (if custom then [OutCustomNS] else [])
                     ++ [OutBruteForcing (Z.of_nat (length names))] in
        let filtered := filterValid names in
        let total := Z.of_nat (length filtered) in
        if total =? 0 then inl (Return [])
        else
          let n := dnsConcurrency threads total in
          let cap := wrap64 (n * 2) in
          if cap <? 0 then inl Panic
          else inr (mkConfig cap total timeout callback,
                    mkState resolver filtered false [] (replicate (Z.to_nat n) WRange)
                            [] false 0 [] [] out Running [] [])
    end.

(** [FastDNSLookup] under the schedule [sched]; [None] when [sched] is
    not a complete execution (a goroutine is asked to move while
    blocked, or the batch is still running at the end). *)
Definition FastDNSLookup (names : list string) (nameserver nameserverFile : string)
    (callback : bool) (threads : Z) (sched : list action) : option result :=
  match start names nameserver nameserverFile callback threads with
  | inl res => Some res
  | inr (c, s0) =>
      match run c sched s0 with
      | Some s =>
          match status s with
          | Returned => Some (Return (validNames s))
          | Exited code => Some (Exit code)
          | Running => None
          end
      | None => None
      end
  end.

(** The names workers are looking up, and the answers they hold. *)
Definition lookingOf (ws : list wstate) : list string :=
  omap (λ w, match w with WLookup n => Some n | _ => None end) ws.

Definition sendingOf (ws : list wstate) : list string :=
  omap (λ w, match w with WSend res => Some res | _ => None end) ws.

(** The values the consuming loop keeps: neither [""] nor the sentinel. *)
Definition isName (res : string) : bool :=
  negb (String.eqb res "") && negb (String.eqb res breakout).

(** Two calls agree: both return, with the same names up to order, or
    both end the process with the same code, or both panic. *)
Definition sameOutcome (r1 r2 : result) : Prop :=
  match r1, r2 with
  | Return l1, Return l2 => l1 ≡ₚ l2
  | Exit c1, Exit c2 => c1 = c2
  | Panic, Panic => True
  | _, _ => False
  end.

Definition kept (l : list string) : list string :=
  filter (λ x, isName x = true) l.

(** What the consuming loop has done with the values it received: while
    no sentinel came, every name among them was passed to the callback
    and appended to [validNames]; the sentinel is the last value ever
    received, and ends the process with code 1 after the two lines of
    guidance. *)
Definition consumerInv (c : config) (s : state) : Prop :=
  match status s with
  | Exited code =>
      code = 1 ∧
      ∃ pre out, received s = pre ++ [breakout] ∧ (breakout ∉ pre) ∧
                 validNames s = kept pre ∧
                 called s = (if hasCallback c then kept pre else []) ∧
                 output s = out ++ [OutErrorQuerying; OutTrySettingNS]
  | _ =>
      (breakout ∉ received s) ∧ validNames s = kept (received s) ∧
      called s = (if hasCallback c then kept (received s) else [])
  end.

(** Every name that is or was on its way to [dnsLookup]. *)
Definition handled (s : state) : list string :=
  looked s ++ lookingOf (workers s) ++ jobs s ++ feed s.

(** Every progress line shows the batch's [total]. *)
Definition showsTotal (c : config) (l : line) : Prop :=
  match l with
  | OutProgress _ t | OutComplete t => t = total c
  | _ => True
  end.

(** The books of the pipeline, against a resolver under which
    [dnsLookup] answers [resolve name]: every filtered name is, as a
    name or as its answer, in exactly one place (the feeder's list, the
    job queue, a worker, the result queue, or the consuming loop's
    history); channels are closed in order; [n] workers exist. *)
Record pipelineInv (resolve : string → string) (filtered : list string) (n : nat)
    (s : state) : Prop := mkPipelineInv {
  inv_perm :
    (resolve <$> (feed s ++ jobs s ++ lookingOf (workers s)))
      ++ sendingOf (workers s) ++ results s ++ received s
    ≡ₚ resolve <$> filtered;
  inv_workers : length (workers s) = n;
  inv_jobsClosed : jobsClosed s = true → feed s = [];
  inv_done : ∀ i, workers s !! i = Some WDone → jobsClosed s = true ∧ jobs s = [];
  inv_resultsClosed :
    resultsClosed s = true → ∀ i w, workers s !! i = Some w → w = WDone;
  inv_returned : status s = Returned → results s = [] ∧ resultsClosed s = true;
  inv_idle : n = 0%nat → results s = [] ∧ received s = []
}.

(** What a complete execution of the pipeline amounts to, whatever the
    schedule, when [dnsLookup] answers [resolve name]. *)
Definition expected (resolve : string → string) (names : list string) (threads : Z)
  : result :=
  let filtered := filterValid names in
  if Z.to_nat (dnsConcurrency threads (Z.of_nat (length filtered))) is O then Return []
  else if decide (breakout ∈ resolve <$> filtered) then Exit 1
  else Return (kept (resolve <$> filtered)).

(** Between two names of the one-by-one schedule: queues empty, channels
    open, every worker waiting for a job. *)
Definition quiescent (n : nat) (s : state) : Prop :=
  status s = Running ∧ jobs s = [] ∧ results s = [] ∧ jobsClosed s = false
  ∧ resultsClosed s = false ∧ workers s = replicate n WRange.

(** The schedule that handles one name at a time with worker 0. *)
Definition oneByOne (n : nat) : list action :=
  concat (replicate n [AFeeder; AWorker 0; AWorker 0; AWorker 0; AConsumer]).

Definition shutdown (workers : nat) : list action :=
  [AFeeder] ++ map AWorker (seq 0 workers) ++ [ACloser; AConsumer].

End Batch.

End DNSBatch.

(** ** The HTTP batch: feeder, worker pool, closer, ticker, consumer *)

Module HTTPBatch.
Import Go Domain RateLimiter.

(** [HttpResult] is the data handed to HTTP-callback functions. *)
Record HttpResult := mkHttpResult {
  URL : string;
  StatusCode : Z;
  Reason : string;
  Body : string;
  OriginalURL : string
}.

(** What [client.Get] answers: a transport error (and whether its text
    contains "context canceled"), or a response with the final URL, the
    status code, the status line and the bytes read into the 8 KB buffer. *)
Inductive reply :=
| TransportError (canceled : bool)
| Response (finalURL : string) (code : Z) (statusLine : string) (read : string).

(** [extractReason]: the text after the first space of the status line,
    or the whole line when it has no space. *)
Fixpoint afterSpace (s : string) : option string :=
  match s with
  | EmptyString => None
  | String c r => if Ascii.eqb c " "%char then Some r else afterSpace r
  end.

Definition extractReason (status : string) : string :=
  match afterSpace status with
  | Some reason => reason
  | None => status
  end.

Inductive line :=
| OutRateLimit (count sleep : Z)
| OutConnError (url : string)
| OutProgress (done total : Z)
| OutComplete (total : Z)
| OutClearLine.

(** Where an HTTP worker stands in its loop body; [WRate], [WRateAdd],
    [WRateStore] and [WRateSleep] are inside [rateLimitCheck]. *)
Inductive wstate :=
| WRange
| WCheck (url : string)
| WRate (url : string)
| WRateAdd (url : string)
| WRateStore (url : string) (count : Z)
| WRateSleep (url : string)
| WGet (url : string)
| WFlight (url : string)
| WSend (r : HttpResult)
| WDone.

Inductive phase := Running | Returned.

(** Which goroutine moves next; a worker's move comes with what the
    network answers, should the worker be waiting for it. *)
Inductive action :=
| AFeeder
| AWorker (i : nat) (net : reply)
| ACloser
| ATicker
| AConsumer.

Record config := mkConfig {
  cap : Z;
  total : Z;
  proto : string
}.

Section Batch.
(** The callback decides on breakout and may keep a state of its own
    (the findings it has printed, the accounts it has collected). *)
Context {CB : Type}.
Variable callback : HttpResult → CB → bool * CB.

(** The shared state of the goroutines of one batch, with the
    process-wide rate limiter. [dispatched], [late] and [delivered] are
    history: the URLs requested, those requested while [aborted] was
    set, and the results handed to the callback. *)
Record state := mkState {
  rate : RateState;
  aborted : Z;
  feed : list string;
  feedChecked : bool;
  jobsClosed : bool;
  jobs : list string;
  workers : list wstate;
  results : list HttpResult;
  resultsClosed : bool;
  done : Z;
  cbState : CB;
  output : list line;
  status : phase;
  dispatched : list string;
  late : list string;
  delivered : list HttpResult
}.

(** Field updates. *)
Definition set_rate (v : RateState) (s : state) : state :=
  mkState v (aborted s) (feed s) (feedChecked s) (jobsClosed s) (jobs s) (workers s)
    (results s) (resultsClosed s) (done s) (cbState s) (output s) (status s)
    (dispatched s) (late s) (delivered s).

Definition set_aborted (v : Z) (s : state) : state :=
  mkState (rate s) v (feed s) (feedChecked s) (jobsClosed s) (jobs s) (workers s)
    (results s) (resultsClosed s) (done s) (cbState s) (output s) (status s)
    (dispatched s) (late s) (delivered s).

Definition set_feed (v : list string) (s : state) : state :=
  mkState (rate s) (aborted s) v (feedChecked s) (jobsClosed s) (jobs s) (workers s)
    (results s) (resultsClosed s) (done s) (cbState s) (output s) (status s)
    (dispatched s) (late s) (delivered s).

Definition set_feedChecked (v : bool) (s : state) : state :=
  mkState (rate s) (aborted s) (feed s) v (jobsClosed s) (jobs s) (workers s)
    (results s) (resultsClosed s) (done s) (cbState s) (output s) (status s)
    (dispatched s) (late s) (delivered s).

Definition set_jobsClosed (v : bool) (s : state) : state :=
  mkState (rate s) (aborted s) (feed s) (feedChecked s) v (jobs s) (workers s)
    (results s) (resultsClosed s) (done s) (cbState s) (output s) (status s)
    (dispatched s) (late s) (delivered s).

Definition set_jobs (v : list string) (s : state) : state :=
  mkState (rate s) (aborted s) (feed s) (feedChecked s) (jobsClosed s) v (workers s)
    (results s) (resultsClosed s) (done s) (cbState s) (output s) (status s)
    (dispatched s) (late s) (delivered s).

Definition set_workers (v : list wstate) (s : state) : state :=
  mkState (rate s) (aborted s) (feed s) (feedChecked s) (jobsClosed s) (jobs s) v
    (results s) (resultsClosed s) (done s) (cbState s) (output s) (status s)
    (dispatched s) (late s) (delivered s).

Definition set_results (v : list HttpResult) (s : state) : state :=
  mkState (rate s) (aborted s) (feed s) (feedChecked s) (jobsClosed s) (jobs s)
    (workers s) v (resultsClosed s) (done s) (cbState s) (output s) (status s)
    (dispatched s) (late s) (delivered s).

Definition set_resultsClosed (v : bool) (s : state) : state :=
  mkState (rate s) (aborted s) (feed s) (feedChecked s) (jobsClosed s) (jobs s)
    (workers s) (results s) v (done s) (cbState s) (output s) (status s)
    (dispatched s) (late s) (delivered s).

Definition set_done (v : Z) (s : state) : state :=
  mkState (rate s) (aborted s) (feed s) (feedChecked s) (jobsClosed s) (jobs s)
    (workers s) (results s) (resultsClosed s) v (cbState s) (output s) (status s)
    (dispatched s) (late s) (delivered s).

Definition set_cbState (v : CB) (s : state) : state :=
  mkState (rate s) (aborted s) (feed s) (feedChecked s) (jobsClosed s) (jobs s)
    (workers s) (results s) (resultsClosed s) (done s) v (output s) (status s)
    (dispatched s) (late s) (delivered s).

Definition set_output (v : list line) (s : state) : state :=
  mkState (rate s) (aborted s) (feed s) (feedChecked s) (jobsClosed s) (jobs s)
    (workers s) (results s) (resultsClosed s) (done s) (cbState s) v (status s)
    (dispatched s) (late s) (delivered s).

Definition set_status (v : phase) (s : state) : state :=
  mkState (rate s) (aborted s) (feed s) (feedChecked s) (jobsClosed s) (jobs s)
    (workers s) (results s) (resultsClosed s) (done s) (cbState s) (output s) v
    (dispatched s) (late s) (delivered s).

Definition set_dispatched (v : list string) (s : state) : state :=
  mkState (rate s) (aborted s) (feed s) (feedChecked s) (jobsClosed s) (jobs s)
    (workers s) (results s) (resultsClosed s) (done s) (cbState s) (output s)
    (status s) v (late s) (delivered s).

Definition set_late (v : list string) (s : state) : state :=
  mkState (rate s) (aborted s) (feed s) (feedChecked s) (jobsClosed s) (jobs s)
    (workers s) (results s) (resultsClosed s) (done s) (cbState s) (output s)
    (status s) (dispatched s) v (delivered s).

Definition set_delivered (v : list HttpResult) (s : state) : state :=
  mkState (rate s) (aborted s) (feed s) (feedChecked s) (jobsClosed s) (jobs s)
    (workers s) (results s) (resultsClosed s) (done s) (cbState s) (output s)
    (status s) (dispatched s) (late s) v.

Definition isDone (w : wstate) : bool :=
  match w with WDone => true | _ => false end.

Definition setWorker (i : nat) (w : wstate) (s : state) : state :=
  set_workers (<[i := w]> (workers s)) s.

Definition countDone (s : state) : state :=
  set_done (wrap64 (done s + 1)) s.

(** The feeder goroutine: the test of [aborted], the send on [jobs],
    and [close(jobs)] after the loop or the [break]. *)
Definition stepFeeder (c : config) (s : state) : option state :=
  match feed s with
  | u :: rest =>
      if feedChecked s then
        if Z.of_nat (length (jobs s)) <? cap c
        then Some (set_feedChecked false (set_feed rest (set_jobs (jobs s ++ [u]) s)))
        else None
      else if negb (aborted s =? 0) then Some (set_feed [] s)
      else Some (set_feedChecked true s)
  | [] => if jobsClosed s then None else Some (set_jobsClosed true s)
  end.

(** Worker [i], one operation at a time. *)
Definition stepWorker (c : config) (i : nat) (net : reply) (s : state) : option state :=
  match workers s !! i with
  | Some WRange =>
      match jobs s with
      | url :: rest => Some (set_jobs rest (setWorker i (WCheck url) s))
      | [] => if jobsClosed s then Some (setWorker i WDone s) else None
      end
  | Some (WCheck url) =>
      if negb (aborted s =? 0)
      then Some (countDone (setWorker i WRange s))
      else Some (setWorker i (WRate url) s)
  | Some (WRate url) =>
      if rlThreshold (rate s) <=? 0 then Some (setWorker i (WGet url) s)
      else if negb (rlPaused (rate s) =? 0) then Some s
      else Some (setWorker i (WRateAdd url) s)
  | Some (WRateAdd url) =>
      let count := wrap64 (rlCount (rate s) + 1) in
      let r := mkRate count (rlThreshold (rate s)) (rlSleep (rate s)) (rlPaused (rate s)) in
      if Z.rem count (rlThreshold (rate s)) =? 0
      then Some (set_rate r (setWorker i (WRateStore url count) s))
      else Some (set_rate r (setWorker i (WGet url) s))
  | Some (WRateStore url count) =>
      let r := mkRate (rlCount (rate s)) (rlThreshold (rate s)) (rlSleep (rate s)) 1 in
      Some (set_rate r (set_output (output s ++ [OutRateLimit count (rlSleep (rate s))])
             (setWorker i (WRateSleep url) s)))
  | Some (WRateSleep url) =>
      let r := mkRate (rlCount (rate s)) (rlThreshold (rate s)) (rlSleep (rate s)) 0 in
      Some (set_rate r (setWorker i (WGet url) s))
  | Some (WGet url) =>
      Some (set_dispatched (dispatched s ++ [url])
             (set_late (if negb (aborted s =? 0) then late s ++ [url] else late s)
               (setWorker i (WFlight url) s)))
  | Some (WFlight url) =>
      match net with
      | TransportError canceled =>
          Some (countDone
                 (set_output (if canceled then output s else output s ++ [OutConnError url])
                   (setWorker i WRange s)))
      | Response finalURL code statusLine read =>
          Some (setWorker i
                 (WSend (mkHttpResult finalURL code (extractReason statusLine)
                           (String.substring 0 (Z.to_nat 8192) read)
                           (String.append (proto c) url))) s)
      end
  | Some (WSend r) =>
      if Z.of_nat (length (results s)) <? cap c
      then Some (countDone (set_results (results s ++ [r]) (setWorker i WRange s)))
      else None
  | Some WDone | None => None
  end.

Definition stepCloser (s : state) : option state :=
  if resultsClosed s then None
  else if forallb isDone (workers s) then Some (set_resultsClosed true s)
  else None.

Definition stepTicker (c : config) (s : state) : option state :=
  Some (set_output (output s ++ [OutProgress (done s) (total c)]) s).

(** The consuming loop: the callback on one result, and [aborted] set
    when it asks for breakout. *)
Definition stepConsumer (c : config) (s : state) : option state :=
  match results s with
  | r :: rest =>
      let '(stop, cb') := callback r (cbState s) in
      let s1 := set_cbState cb' (set_delivered (delivered s ++ [r]) (set_results rest s)) in
      Some (if stop then set_aborted 1 s1 else s1)
  | [] =>
      if resultsClosed s
      then Some (set_status Returned
             (set_output (output s ++ [OutComplete (total c); OutClearLine]) s))
      else None
  end.

Definition step (c : config) (a : action) (s : state) : option state :=
  match status s with
  | Running =>
      match a with
      | AFeeder => stepFeeder c s
      | AWorker i net => stepWorker c i net s
      | ACloser => stepCloser s
      | ATicker => stepTicker c s
      | AConsumer => stepConsumer c s
      end
  | Returned => None
  end.

Fixpoint run (c : config) (acts : list action) (s : state) : option state :=
  match acts with
  | [] => Some s
  | a :: rest =>
      match step c a s with
      | Some s' => run c rest s'
      | None => None
      end
  end.

(** What a call of [GetURLBatch] leaves behind: the rate limiter, the
    callback's state and the requests it has put on the network; or a
    panic ([make] of a channel of negative size). *)
Inductive result :=
| Finished (r : RateState) (cb : CB) (requested : list string)
| Panic.

(** The sequential prologue of [GetURLBatch]. [make] panics on a
    negative capacity; that it also fails on a capacity too large for the
    runtime to allocate is not modelled. *)
Definition start (urlList : list string) (useSSL : bool) (threads : Z)
    (r : RateState) (cb : CB) : result + config * state :=
  if Z.of_nat (length urlList) =? 0 then inl (Finished r cb [])
  else
    let valid := filterValid urlList in
    let total := Z.of_nat (length valid) in
    if total =? 0 then inl (Finished r cb [])
    else
      let cap := wrap64 (threads * 2) in
      if cap <? 0 then inl Panic
      else inr (mkConfig cap total (if useSSL then "https://" else "http://"),
                mkState r 0 valid false false [] (replicate (Z.to_nat threads) WRange)
                        [] false 0 cb [] Running [] [] []).

(** [GetURLBatch] under the schedule [sched]; [None] when [sched] is not
    a complete execution. *)
Definition GetURLBatch (urlList : list string) (useSSL : bool) (threads : Z)
    (sched : list action) (r : RateState) (cb : CB) : option result :=
  match start urlList useSSL threads r cb with
  | inl res => Some res
  | inr (c, s0) =>
      match run c sched s0 with
      | Some s =>
          match status s with
          | Returned => Some (Finished (rate s) (cbState s) (dispatched s))
          | Running => None
          end
      | None => None
      end
  end.

(** The URLs workers hold between the test of [aborted] and the
    request. *)
Definition admitted (w : wstate) : bool :=
  match w with
  | WRate _ | WRateAdd _ | WRateStore _ _ | WRateSleep _ | WGet _ => true
  | _ => false
  end.

Definition urlOf (w : wstate) : option string :=
  match w with
  | WCheck u | WRate u | WRateAdd u | WRateStore u _ | WRateSleep u | WGet u => Some u
  | _ => None
  end.

(** Every URL that is or was on its way to a request. *)
Definition handled (s : state) : list string :=
  dispatched s ++ omap urlOf (workers s) ++ jobs s ++ feed s.

(** Every progress line shows the batch's [total]. *)
Definition showsTotal (c : config) (l : line) : Prop :=
  match l with
  | OutProgress _ t | OutComplete t => t = total c
  | _ => True
  end.

(** The URL a printed line is about. *)
Definition mentions (l : line) : option string :=
  match l with
  | OutConnError u => Some u
  | _ => None
  end.

Definition quietInv (s : state) : Prop :=
  (∀ u, u ∈ omap mentions (output s) → u ∈ dispatched s) ∧
  (∀ i u, workers s !! i = Some (WFlight u) → u ∈ dispatched s).

(** What a trace of [rateLimitCheck] prints. *)
Definition printedBy (tr : list rlEvent) : list line :=
  omap (λ e, match e with RlPrint count sleep => Some (OutRateLimit count sleep) | _ => None end)
       tr.

Definition countAdmitted (ws : list wstate) : nat :=
  length (filter (λ w, admitted w = true) ws).

(** Requests issued after [aborted] was set come from workers that had
    passed the test before: together with the workers still between
    test and request they are no more than the pool. *)
Definition abortInv (s : state) : Prop :=
  (aborted s = 0 → late s = []) ∧
  (length (late s) + countAdmitted (workers s) ≤ length (workers s))%nat.

(** Workers that have counted their request in [rlCount] and not yet
    issued it. *)
Definition counted (w : wstate) : bool :=
  match w with
  | WRateStore _ _ | WRateSleep _ | WGet _ => true
  | _ => false
  end.

Definition countCounted (ws : list wstate) : nat :=
  length (filter (λ w, counted w = true) ws).

(** The rate limiter during a batch started with the limiter [r0]:
    threshold and sleep are untouched, and with a threshold configured
    the counter is [r0]'s plus one for every request issued or about to
    be; channels are closed in order. *)
Definition inRate (w : wstate) : bool :=
  match w with
  | WRateAdd _ | WRateStore _ _ | WRateSleep _ => true
  | _ => false
  end.

Definition rateInv (r0 : RateState) (s : state) : Prop :=
  rlThreshold (rate s) = rlThreshold r0 ∧ rlSleep (rate s) = rlSleep r0 ∧
  (if rlThreshold r0 <=? 0
   then rlCount (rate s) = rlCount r0 ∧ rlPaused (rate s) = rlPaused r0
        ∧ ∀ i w, workers s !! i = Some w → inRate w = false
   else rlCount (rate s)
        = wrap64 (rlCount r0 + Z.of_nat (length (dispatched s))
                  + Z.of_nat (countCounted (workers s)))) ∧
  (resultsClosed s = true → ∀ i w, workers s !! i = Some w → w = WDone) ∧
  (status s = Returned → resultsClosed s = true).

End Batch.

End HTTPBatch.

(** ** Cloud Functions checks *)

Module GCP.
Import Go Domain RateLimiter HTTPBatch.

Definition funcURL : string := "cloudfunctions.net".

(** [GCPRegions], the active subset of regions. *)
Definition GCPRegions : list string := ["us-central1"].

(** The package-level variables the cloud-function checks touch: the rate
    limiter, shared with every other batch of the run, and [hasFuncs]. *)
Record globals := mkGlobals {
  rl : RateState;
  hasFuncs : list string
}.

(** What [checkFunctions] amounts to: the globals it leaves and the
    requests its batches have issued, or a panic. *)
Inductive outcome :=
| Done (g : globals) (requested : list string)
| Panicked.

(** [printFunctionsResponse1] on [hasFuncs]: a 302 records the URL; its
    printing is left out. It never asks for breakout. *)
Definition printFunctionsResponse1 (result : HttpResult) (funcs : list string)
  : bool * list string :=
  (false, if StatusCode result =? 302 then funcs ++ [URL result] else funcs).

(** [printFunctionsResponse2] only prints. *)
Definition printFunctionsResponse2 (result : HttpResult) (funcs : list string)
  : bool * list string :=
  (false, funcs).

Fixpoint stripPrefix (p s : string) : option string :=
  match p, s with
  | EmptyString, _ => Some s
  | String a p', String b s' => if Ascii.eqb a b then stripPrefix p' s' else None
  | String _ _, EmptyString => None
  end.

(** [strings.TrimPrefix]. *)
Definition TrimPrefix (s p : string) : string :=
  match stripPrefix p s with
  | Some rest => rest
  | None => s
  end.

Definition candidates (names : list string) : list string :=
  flat_map (λ region,
    map (λ n, String.append region
                (String.append "-" (String.append n (String.append "." funcURL))))
        names) GCPRegions.

(** The statement [hasFuncs = nil] under its mutex: the one reset in
    [checkFunctions]. *)
Definition resetHasFuncs (g : globals) : globals := mkGlobals (rl g) [].

(** The loop over [found]: one batch per project/region with functions,
    each under its own schedule. *)
Fixpoint bruteForce (found bruteStrings : list string) (threads : Z)
    (scheds : list (list action)) (g : globals) (requested : list string)
  : option outcome :=
  match found with
  | [] => Some (Done g requested)
  | fn :: rest =>
      match scheds with
      | [] => None
      | sched :: scheds' =>
          let fn := TrimPrefix (TrimPrefix fn "http://") "https://" in
          let c := map (λ b, String.append fn (String.append b "/")) bruteStrings in
          match GetURLBatch printFunctionsResponse2 c false threads sched
                  (rl g) (hasFuncs g) with
          | Some (Finished r funcs reqs) =>
              bruteForce rest bruteStrings threads scheds' (mkGlobals r funcs)
                (requested ++ reqs)
          | Some Panic => Some Panicked
          | None => None
          end
      end
  end.

(** [checkFunctions]; [bruteStrings] stands for [GetBrute(bruteData, 1,
    63)], [sched] schedules the first batch and [scheds] the batches of
    the loop. *)
Definition checkFunctions (names bruteStrings : list string) (quickscan : bool)
    (threads : Z) (sched : list action) (scheds : list (list action)) (g : globals)
  : option outcome :=
  let g0 := resetHasFuncs g in
  match GetURLBatch printFunctionsResponse1 (candidates names) false threads sched
          (rl g0) (hasFuncs g0) with
  | Some (Finished r funcs reqs) =>
      let found := funcs in
      if Z.of_nat (length found) =? 0 then Some (Done (mkGlobals r funcs) reqs)
      else if quickscan then Some (Done (mkGlobals r funcs) reqs)
      else bruteForce found bruteStrings threads scheds (mkGlobals r funcs) reqs
  | Some Panic => Some Panicked
  | None => None
  end.

End GCP.

(** ** Mock resolvers and schedules for the scenarios *)

Module Mock.
Import Go Domain RateLimiter DNS DNSBatch.

(** A resolver that counts its queries: the first one times out, every
    later one resolves. *)
Definition retryLookup (asked : nat) (_ : string) (_ : Z) : option error * nat :=
  (match asked with
   | O => Some (ErrDNS (mkDNSError false true))
   | S _ => None
   end, S asked).

(** A resolver that resolves every name. *)
Definition okLookup (r : unit) (_ : string) (_ : Z) : option error * unit :=
  (None, r).

(** A resolver that answers every query with a DNS error that is neither
    not-found nor a timeout. *)
Definition fatalLookup (r : unit) (_ : string) (_ : Z) : option error * unit :=
  (Some (ErrDNS (mkDNSError false false)), r).

(** The resolver of the scenario: ["foo.example.com"] resolves, every
    other name is not found. *)
Definition fooOracle (name : string) : option error :=
  if String.eqb name "foo.example.com" then None
  else Some (ErrDNS (mkDNSError true false)).

Definition fooLookup (r : unit) (name : string) (_ : Z) : option error * unit :=
  (fooOracle name, r).

Definition noFile (_ : string) : option (list string) := None.

Definition fooBar : list string := ["foo.example.com"; "bar.example.com"].

(** Two workers, each name by its own worker, answers sent in the
    opposite order. *)
Definition crossed : list action :=
  [AFeeder; AFeeder; AWorker 0; AWorker 1; AWorker 1; AWorker 0;
   AWorker 1; AWorker 0; AConsumer; AConsumer]
  ++ shutdown 2.

(** The batch of one name against [fatalLookup]: its first state and the
    state the one-by-one schedule leaves. *)
Definition fatalStart : config * @state unit :=
  (mkConfig 2 1 5 true,
   mkState tt ["db.example.com"] false [] [WRange] [] false 0 [] []
     [OutBruteForcing 1] Running [] []).

Definition fatalEnd : @state unit :=
  mkState tt [] false [] [WRange] [] false 1 [] []
    [OutBruteForcing 1; OutErrorQuerying; OutTrySettingNS] (Exited 1)
    ["db.example.com"] [breakout].

(** A classifier that asks for breakout on every result. *)
Definition alwaysAbort (r : HTTPBatch.HttpResult) (cb : unit) : bool * unit := (true, cb).

Definition ok200 : HTTPBatch.reply := HTTPBatch.Response "http://a.example.com" 200 "200 OK" "".

Definition twoURLs : list string := ["a.example.com"; "b.example.com"].

(** One worker. The first URL is requested and answered; the worker takes
    the second URL and tests [aborted], which is still clear; only then
    does the consuming loop run the classifier on the first result and set
    [aborted]; the worker goes on and requests the second URL. *)
Definition lateSchedule : list HTTPBatch.action :=
  let w := HTTPBatch.AWorker 0 ok200 in
  [HTTPBatch.AFeeder; HTTPBatch.AFeeder; w; w; w; w; w; w;
   HTTPBatch.AFeeder; HTTPBatch.AFeeder; w; w;
   HTTPBatch.AConsumer; w; w].

(** A list with an entry that has an empty label ("a..example.com") and
    an empty entry. *)
Definition mixedList : list string :=
  ["a.example.com"; "a..example.com"; ""; "b.example.com"].

Definition idleState : @HTTPBatch.state unit :=
  HTTPBatch.mkState zeroRate 0 [] false false [] [] [] false 0 tt [] HTTPBatch.Running
    [] [] [].

(** The batch of [twoURLs] with one worker: its configuration, its first
    state, and the state [lateSchedule] leaves. *)
Definition lateConfig : HTTPBatch.config :=
  Eval vm_compute in
    match HTTPBatch.start twoURLs false 1 zeroRate tt with
    | inr (c, _) => c
    | inl _ => HTTPBatch.mkConfig 0 0 ""
    end.

Definition lateFirst : @HTTPBatch.state unit :=
  Eval vm_compute in
    match HTTPBatch.start twoURLs false 1 zeroRate tt with
    | inr (_, s0) => s0
    | inl _ => idleState
    end.

Definition lateLast : @HTTPBatch.state unit :=
  Eval vm_compute in
    match HTTPBatch.run alwaysAbort lateConfig lateSchedule lateFirst with
    | Some s => s
    | None => idleState
    end.

(** The scenario of the cloud-function checks: one project name, whose
    region answers 302, then one function name tried in it; one worker,
    a threshold of 8000 requests. The first pass does not follow
    redirects, so the URL of its result is the URL requested. *)
Definition found302 : HTTPBatch.reply :=
  HTTPBatch.Response "http://us-central1-acme.cloudfunctions.net" 302 "302 Found" "".

(** One URL through a batch with one worker and a threshold configured:
    fed, received, tested, counted, requested, answered, delivered; then
    the shutdown. *)
Definition oneRequest (net : HTTPBatch.reply) : list HTTPBatch.action :=
  let w := HTTPBatch.AWorker 0 net in
  [HTTPBatch.AFeeder; HTTPBatch.AFeeder; w; w; w; w; w; w; w; HTTPBatch.AConsumer;
   HTTPBatch.AFeeder; w; HTTPBatch.ACloser; HTTPBatch.AConsumer].

(** The HTTP batch of [mixedList] with one worker under [lateSchedule]. *)
Definition mixedConfig : HTTPBatch.config :=
  Eval vm_compute in
    match HTTPBatch.start mixedList false 1 zeroRate tt with
    | inr (c, _) => c
    | inl _ => HTTPBatch.mkConfig 0 0 ""
    end.

Definition mixedFirst : @HTTPBatch.state unit :=
  Eval vm_compute in
    match HTTPBatch.start mixedList false 1 zeroRate tt with
    | inr (_, s0) => s0
    | inl _ => idleState
    end.

Definition mixedLast : @HTTPBatch.state unit :=
  Eval vm_compute in
    match HTTPBatch.run alwaysAbort mixedConfig lateSchedule mixedFirst with
    | Some s => s
    | None => idleState
    end.

Definition limiter8000 : RateState := InitRateLimiter 8000 240 zeroRate.

Definition scanGlobals : GCP.globals := GCP.mkGlobals limiter8000 [].

Definition scanOutcome : GCP.outcome :=
  GCP.Done
    (GCP.mkGlobals (mkRate 2 8000 240 0) ["http://us-central1-acme.cloudfunctions.net"])
    ["us-central1-acme.cloudfunctions.net"; "us-central1-acme.cloudfunctions.nethello/"].

End Mock.

(** ** Byte-level string helpers *)

Module Text.
Import Go.

(** [strings.HasPrefix]. *)
Definition HasPrefix (s p : string) : bool := String.prefix p s.

(** [strings.Contains]. *)
Fixpoint Contains (s sub : string) : bool :=
  String.prefix sub s ||
  match s with
  | EmptyString => false
  | String _ r => Contains r sub
  end.

(** [strings.Split(s, sep)] for a separator of one byte. *)
Fixpoint SplitOn (sep : ascii) (s : string) : list string :=
  match s with
  | EmptyString => [EmptyString]
  | String c r =>
      if Ascii.eqb c sep then EmptyString :: SplitOn sep r
      else match SplitOn sep r with
           | h :: t => String c h :: t
           | [] => [String c EmptyString]
           end
  end.

(** [strings.Join(ls, sep)] for a separator of one byte. *)
Fixpoint JoinWith (sep : ascii) (ls : list string) : string :=
  match ls with
  | [] => EmptyString
  | [l] => l
  | l :: rest => String.append l (String sep (JoinWith sep rest))
  end.

Definition newline : ascii := "010"%char.

Definition between (lo hi : N) (c : ascii) : bool :=
  (lo <=? N_of_ascii c)%N && (N_of_ascii c <=? hi)%N.

Definition isLower : ascii → bool := between 97 122.
Definition isUpper : ascii → bool := between 65 90.
Definition isDigit : ascii → bool := between 48 57.

(** What [regexp.MustCompile(`[^...]`).ReplaceAllString(s, "")] leaves of
    [s] for a negated class of ASCII characters: the bytes of the class.
    Every byte of a rune outside ASCII, and every byte that is not valid
    UTF-8, is 128 or more and matches the negated class. *)
Fixpoint keepOnly (keep : ascii → bool) (s : string) : string :=
  match s with
  | EmptyString => EmptyString
  | String c r => if keep c then String c (keepOnly keep r) else keepOnly keep r
  end.

Fixpoint allChars (P : ascii → bool) (s : string) : bool :=
  match s with
  | EmptyString => true
  | String c r => P c && allChars P r
  end.

(** [MatchString] for a negated class: some byte is outside the class. *)
Definition matchesOutside (keep : ascii → bool) (s : string) : bool :=
  negb (allChars keep s).

(** [strings.ToLower] and [strings.TrimSpace] on ASCII text. *)
Definition lowerByte (c : ascii) : ascii :=
  if isUpper c then ascii_of_N (N_of_ascii c + 32) else c.

Fixpoint asciiLower (s : string) : string :=
  match s with
  | EmptyString => EmptyString
  | String c r => String (lowerByte c) (asciiLower r)
  end.

Definition isSpace (c : ascii) : bool :=
  between 9 13 c || Ascii.eqb c " "%char.

Fixpoint trimLeft (s : string) : string :=
  match s with
  | EmptyString => EmptyString
  | String c r => if isSpace c then trimLeft r else s
  end.

Fixpoint trimRight (s : string) : string :=
  match s with
  | EmptyString => EmptyString
  | String c r =>
      match trimRight r with
      | EmptyString => if isSpace c then EmptyString else String c EmptyString
      | r' => String c r'
      end
  end.

Definition asciiTrim (s : string) : string := trimRight (trimLeft s).

End Text.

(** ** Brute-force wordlist helpers *)

Module Wordlist.
Import Go Text.

(** The class kept by [banned = `[^a-z0-9_-]`]. *)
Definition bruteChar (c : ascii) : bool :=
  isLower c || isDigit c || Ascii.eqb c "_"%char || Ascii.eqb c "-"%char.

Section GetBrute.
(** [strings.ToLower] and [strings.TrimSpace] work on runes, with
    Unicode's tables; they are left open. *)
Variable ToLower : string → string.
Variable TrimSpace : string → string.

(** The first two statements of the loop body. *)
Definition cleanLine (line : string) : string :=
  keepOnly bruteChar (TrimSpace (ToLower line)).

(** The loop body on [seen] and [clean]. *)
Definition addLine (mini maxi : Z) (st : gmap string bool * list string) (line : string)
  : gmap string bool * list string :=
  let name := cleanLine line in
  if String.eqb name "" then st
  else if (len name <? mini) || (len name >? maxi) then st
  else if default false (st.1 !! name) then st
  else (<[name := true]> st.1, st.2 ++ [name]).

Definition GetBrute (data : string) (mini maxi : Z) : list string :=
  (fold_left (addLine mini maxi) (SplitOn newline data) (∅, [])).2.

(** An entry the loop keeps when it has not seen it. *)
Definition wanted (mini maxi : Z) (name : string) : bool :=
  negb (String.eqb name "") && negb ((len name <? mini) || (len name >? maxi)).

End GetBrute.

(** [seen] holds exactly the entries of [clean]. *)
Definition seenInv (st : gmap string bool * list string) : Prop :=
  ∀ x, default false (st.1 !! x) = true ↔ x ∈ st.2.

End Wordlist.

(** ** Sample wordlists *)

Module WordlistScenario.
Import Go Text.

Definition mixedWords : string :=
  JoinWith newline ["Dev"; " test-1 "; "dev"; ""; "Ba ck.up!"].

Definition shortWords : string := JoinWith newline ["ab"; "Backup"; "x"].

(** A container name of six bytes and one of forty-two. *)
Definition containerWords : string :=
  JoinWith newline ["backup"; "a-container-name-of-more-than-thirty-bytes"].

End WordlistScenario.

(** ** Name building (the command line's [buildNames]) *)

Module Names.
Import Go Text.

(** The class kept by [banned = `[^a-z0-9.\-]`] in [cleanText]. *)
Definition textChar (c : ascii) : bool :=
  isLower c || isDigit c || Ascii.eqb c "."%char || Ascii.eqb c "-"%char.

Section BuildNames.
Variable ToLower : string → string.

Definition cleanText (text : string) : string := keepOnly textChar (ToLower text).

(** [appendName] on the slice it is given by pointer. *)
Definition appendName (name : string) (names : list string) : list string :=
  if len name <=? 63 then names ++ [name] else names.

(** The body of the loop over [mutations]. *)
Definition mutate (base : string) (names : list string) (mut : string) : list string :=
  let mut := cleanText mut in
  let names := appendName (String.append base mut) names in
  let names := appendName (String.append base (String.append "." mut)) names in
  let names := appendName (String.append base (String.append "-" mut)) names in
  let names := appendName (String.append mut base) names in
  let names := appendName (String.append mut (String.append "." base)) names in
  appendName (String.append mut (String.append "-" base)) names.

Definition buildNames (baseList mutations : list string) : list string :=
  fold_left (λ names base,
               let base := cleanText base in
               fold_left (mutate base) mutations (appendName base names))
            baseList [].

End BuildNames.

(** What every built name is: at most 63 bytes of a-z, 0-9, dot and
    hyphen. *)
Definition built (n : string) : Prop := len n ≤ 63 ∧ allChars textChar n = true.

End Names.

(** ** The candidates of the checks *)

Module Candidates.
Import Go Text Domain.

Definition s3URL : string := "s3.amazonaws.com".
Definition appsURL : string := "awsapps.com".

Definition blobURL : string := "blob.core.windows.net".
Definition fileURL : string := "file.core.windows.net".
Definition queueURL : string := "queue.core.windows.net".
Definition tableURL : string := "table.core.windows.net".
Definition mgmtURL : string := "scm.azurewebsites.net".
Definition vaultURL : string := "vault.azure.net".
Definition webappURL : string := "azurewebsites.net".
Definition databaseURL : string := "database.windows.net".
Definition vmURL : string := "cloudapp.azure.com".

Definition gcpURL : string := "storage.googleapis.com".
Definition fbrtdbURL : string := "firebaseio.com".
Definition appspotURL : string := "appspot.com".
Definition fbappURL : string := "firebaseapp.com".

(** [AzureRegions], the active subset of regions. *)
Definition AzureRegions : list string := ["eastus"].

(** [name + "." + domain], the candidate of [checkS3Buckets],
    [checkAWSApps], [checkAzureWebsites] and [checkAzureDatabases], and of
    [checkAzureAccountType]. *)
Definition withSuffix (domain name : string) : string :=
  String.append name (String.append "." domain).

Definition s3Candidates (names : list string) : list string :=
  map (withSuffix s3URL) names.

Definition appsCandidates (names : list string) : list string :=
  map (withSuffix appsURL) names.

Definition websiteCandidates (names : list string) : list string :=
  map (withSuffix webappURL) names.

Definition databaseCandidates (names : list string) : list string :=
  map (withSuffix databaseURL) names.

(** The candidates of [checkAzureVMs] for one region. *)
Definition vmCandidates (region : string) (names : list string) : list string :=
  map (λ n, String.append n (String.append "." (String.append region (String.append "." vmURL))))
      names.

(** The class of [alphaNum = `[^a-zA-Z0-9]`]: a name passes when the
    expression matches nowhere. *)
Definition alnumChar (c : ascii) : bool := isLower c || isUpper c || isDigit c.

(** The candidates of [checkAzureAccountType]. *)
Definition accountCandidates (names : list string) (domain : string) : list string :=
  fold_left (λ acc name, if negb (matchesOutside alnumChar name)
                         then acc ++ [withSuffix domain name] else acc)
            names [].

(** The account domains [RunAllAzure] passes to [checkAzureAccountType]. *)
Definition accountDomains : list string :=
  [blobURL; fileURL; queueURL; tableURL; mgmtURL; vaultURL].

(** One candidate of [bruteForceContainers]:
    [fmt.Sprintf("%s/%s/?restype=container&comp=list", acct, name)]. *)
Definition containerCandidate (acct name : string) : string :=
  String.append acct
    (String.append "/" (String.append name "/?restype=container&comp=list")).

Definition containerCandidates (acct : string) (cleanNames : list string) : list string :=
  map (containerCandidate acct) cleanNames.

(** One candidate of [checkGCPBuckets]. *)
Definition bucketCandidate (n : string) : string :=
  String.append gcpURL (String.append "/" n).

Definition bucketCandidates (names : list string) : list string :=
  map bucketCandidate names.

(** The candidates of [checkFBRTDB], [checkAppspot] and [CheckFBApp]:
    the names without a dot. *)
Definition dotless (tail : string) (names : list string) : list string :=
  fold_left (λ acc n, if negb (Contains n ".")
                      then acc ++ [String.append n (String.append "." tail)] else acc)
            names [].

Definition fbrtdbCandidates (names : list string) : list string :=
  dotless (String.append fbrtdbURL "/.json") names.

Definition appspotCandidates (names : list string) : list string :=
  dotless appspotURL names.

Definition fbappCandidates (names : list string) : list string :=
  dotless fbappURL names.

End Candidates.

(** ** The books of the DNS batch under any resolver *)

Module DNSLedger.
Import Go Domain DNS DNSBatch.

Section Ledger.
Context {R : Type}.

(** A progress line shows a count between zero and its total. *)
Definition withinTotal (l : line) : Prop :=
  match l with
  | OutProgress d t => 0 ≤ d ≤ t
  | _ => True
  end.

(** Whatever the resolver answers: the names kept so far and the names
    still on their way are among the filtered names, each as often as it
    was given at most; every filtered name is in one place; [done] counts
    the answers sent (as long as the list fits an [int]) and no progress
    line shows more than the total; channels are closed in order. *)
Record ledgerInv (filtered : list string) (n : nat) (s : @state R) : Prop := mkLedgerInv {
  led_sound :
    kept (received s) ++ kept (results s) ++ kept (sendingOf (workers s))
      ++ lookingOf (workers s) ++ jobs s ++ feed s ⊆+ filtered;
  led_count :
    (length (feed s) + length (jobs s) + length (lookingOf (workers s))
     + length (sendingOf (workers s)) + length (results s) + length (received s)
     = length filtered)%nat;
  led_done :
    Z.of_nat (length filtered) ≤ maxInt64 →
    done s = Z.of_nat (length (results s) + length (received s))
    ∧ Forall withinTotal (output s);
  led_workers : length (workers s) = n;
  led_jobsClosed : jobsClosed s = true → feed s = [];
  led_finished : ∀ i, workers s !! i = Some WDone → jobsClosed s = true ∧ jobs s = [];
  led_resultsClosed :
    resultsClosed s = true → ∀ i w, workers s !! i = Some w → w = WDone;
  led_returned : status s = Returned → results s = [] ∧ resultsClosed s = true
}.

End Ledger.

End DNSLedger.

(** ** The scenario of two names answered in the opposite order *)

Module DNSScenario.
Import Go Domain DNS DNSBatch Mock.

(** The batch of [fooBar] for one caller thread, with a callback: its
    configuration, its first state, and the state [crossed] leaves
    against [fooLookup]. *)
Definition crossedConfig : config :=
  Eval vm_compute in
    match start tt (λ _, tt) noFile fooBar "" "" true 1 with
    | inr (c, _) => c
    | inl _ => fatalStart.1
    end.

Definition crossedFirst : @state unit :=
  Eval vm_compute in
    match start tt (λ _, tt) noFile fooBar "" "" true 1 with
    | inr (_, s0) => s0
    | inl _ => fatalStart.2
    end.

Definition crossedLast : @state unit :=
  Eval vm_compute in
    match run fooLookup crossedConfig crossed crossedFirst with
    | Some s => s
    | None => fatalEnd
    end.

(** The same batch for zero caller threads. *)
Definition unmannedConfig : config :=
  Eval vm_compute in
    match start tt (λ _, tt) noFile fooBar "" "" false 0 with
    | inr (c, _) => c
    | inl _ => fatalStart.1
    end.

Definition unmannedFirst : @state unit :=
  Eval vm_compute in
    match start tt (λ _, tt) noFile fooBar "" "" false 0 with
    | inr (_, s0) => s0
    | inl _ => fatalStart.2
    end.

End DNSScenario.

(** ** The books of the HTTP batch *)

Module HTTPLedger.
Import Go Domain RateLimiter HTTPBatch.

(** A progress line shows a count between zero and its total. *)
Definition withinTotal (l : line) : Prop :=
  match l with
  | OutProgress d t => 0 ≤ d ≤ t
  | _ => True
  end.

(** The requests on the network, and the results workers are about to
    send. *)
Definition flightOf (ws : list wstate) : list string :=
  omap (λ w, match w with WFlight u => Some u | _ => None end) ws.

Definition sendingOf (ws : list wstate) : list HttpResult :=
  omap (λ w, match w with WSend r => Some r | _ => None end) ws.

(** A worker that holds an entry it has not counted in [done] yet. *)
Definition holding (w : wstate) : bool :=
  match w with
  | WRange | WDone => false
  | _ => true
  end.

Definition countHolding (ws : list wstate) : nat :=
  length (filter (λ w, holding w = true) ws).

Section Ledger.
Context {CB : Type}.
Variable callback : HttpResult → CB → bool * CB.

(** The consuming loop run on its own over the results [rs]: whether it
    has set [aborted], and the state the callback is left in. *)
Definition replay (cb0 : CB) (rs : list HttpResult) : bool * CB :=
  fold_left (λ acc r, let '(stop, cb') := callback r acc.2 in (acc.1 || stop, cb'))
            rs (false, cb0).

(** The entries of a batch: a URL on its way to a request or requested
    is one of the valid entries, as often as it was given at most, and
    as long as [aborted] is clear none is missing; [done] counts the
    entries that are through (as long as the list fits an [int]), and no
    progress line shows more than the total; channels are closed in
    order. *)
Record booksInv (valid : list string) (n : nat) (s : @state CB) : Prop := mkBooksInv {
  bk_once : handled s ⊆+ valid;
  bk_all : aborted s = 0 → handled s ≡ₚ valid;
  bk_count :
    Z.of_nat (length valid) ≤ maxInt64 →
    0 ≤ done s
    ∧ done s + Z.of_nat (length (feed s) + length (jobs s) + countHolding (workers s))
      ≤ Z.of_nat (length valid)
    ∧ (aborted s = 0 →
       done s + Z.of_nat (length (feed s) + length (jobs s) + countHolding (workers s))
       = Z.of_nat (length valid))
    ∧ Forall withinTotal (output s);
  bk_workers : length (workers s) = n;
  bk_jobsClosed : jobsClosed s = true → feed s = [];
  bk_finished : ∀ i, workers s !! i = Some WDone → jobsClosed s = true ∧ jobs s = [];
  bk_resultsClosed :
    resultsClosed s = true → ∀ i w, workers s !! i = Some w → w = WDone;
  bk_returned : status s = Returned → results s = [] ∧ resultsClosed s = true
}.

(** The results of a batch: every result delivered, queued or about to
    be sent, and every request on the network, answers a request of this
    batch, one result per request at most; a result carries at most 8192
    bytes of the body; and the callback's state and [aborted] are those
    of the consuming loop run over the delivered results. *)
Record deliveryInv (c : config) (cb0 : CB) (s : @state CB) : Prop := mkDeliveryInv {
  dl_answers :
    (OriginalURL <$> (delivered s ++ results s ++ sendingOf (workers s)))
      ++ (String.append (proto c) <$> flightOf (workers s))
    ⊆+ String.append (proto c) <$> dispatched s;
  dl_bodies :
    Forall (λ r, len (Body r) ≤ 8192)
           (delivered s ++ results s ++ sendingOf (workers s));
  dl_replay : (negb (aborted s =? 0), cbState s) = replay cb0 (delivered s)
}.

End Ledger.

End HTTPLedger.

(** ** The scenario of three requests across two pauses *)

Module HTTPScenario.
Import Go Domain RateLimiter HTTPBatch Mock.

Definition threeURLs : list string :=
  ["a.example.com"; "b.example.com"; "c.example.com"].

(** A limiter that pauses every second request, its counter at 1. *)
Definition limiter2 : RateState := mkRate 1 2 240 0.

(** A callback that keeps what it is given and never asks for breakout. *)
Definition keepAll (r : HttpResult) (seen : list HttpResult) : bool * list HttpResult :=
  (false, seen ++ [r]).

(** One URL through a batch with one worker: fed, then [k] steps of the
    worker (seven without a pause, nine with one), then delivered. *)
Definition requestIn (k : nat) : list action :=
  [AFeeder; AFeeder] ++ replicate k (AWorker 0 ok200) ++ [AConsumer].

(** The first and the third request cross a multiple of the threshold. *)
Definition pausedSchedule : list action :=
  requestIn 9 ++ requestIn 7 ++ requestIn 9
  ++ [AFeeder; AWorker 0 ok200; ACloser; AConsumer].

Definition pausedConfig : config :=
  Eval vm_compute in
    match start threeURLs false 1 limiter2 [] with
    | inr (c, _) => c
    | inl _ => mkConfig 0 0 ""
    end.

Definition pausedFirst : @state (list HttpResult) :=
  Eval vm_compute in
    match start threeURLs false 1 limiter2 [] with
    | inr (_, s0) => s0
    | inl _ => mkState zeroRate 0 [] false false [] [] [] false 0 [] [] Running [] [] []
    end.

Definition pausedLast : @state (list HttpResult) :=
  Eval vm_compute in
    match run keepAll pausedConfig pausedSchedule pausedFirst with
    | Some s => s
    | None => pausedFirst
    end.

(** The same batch for zero threads. *)
Definition unmannedConfig : config :=
  Eval vm_compute in
    match start threeURLs false 0 limiter2 [] with
    | inr (c, _) => c
    | inl _ => mkConfig 0 0 ""
    end.

Definition unmannedFirst : @state (list HttpResult) :=
  Eval vm_compute in
    match start threeURLs false 0 limiter2 [] with
    | inr (_, s0) => s0
    | inl _ => pausedFirst
    end.

End HTTPScenario.

(** ** Pauses of the rate limiter within a batch *)

Module HTTPPauses.
Import Go Domain RateLimiter HTTPBatch.

Definition isRateLimit (l : line) : bool :=
  match l with OutRateLimit _ _ => true | _ => false end.

(** The pauses a batch has announced. *)
Definition pausesPrinted (out : list line) : nat :=
  length (filter (λ l, isRateLimit l = true) out).

(** Workers that have crossed a multiple of the threshold and not yet
    announced their pause. *)
Definition storing (w : wstate) : bool :=
  match w with WRateStore _ _ => true | _ => false end.

Definition countStoring (ws : list wstate) : nat :=
  length (filter (λ w, storing w = true) ws).

(** A rate-limit line announces a multiple of the threshold [T] and the
    sleep [sl]. *)
Definition pauseLine (T sl : Z) (l : line) : Prop :=
  match l with
  | OutRateLimit count sleep => Z.rem count T = 0 ∧ sleep = sl
  | _ => True
  end.

(** Workers whose entry is not counted in [rlCount] yet. *)
Definition waiting (w : wstate) : bool :=
  match w with WCheck _ | WRate _ | WRateAdd _ => true | _ => false end.

Definition countWaiting (ws : list wstate) : nat :=
  length (filter (λ w, waiting w = true) ws).

Definition sleeping (w : wstate) : bool :=
  match w with WRateSleep _ => true | _ => false end.

Section Pauses.
Context {CB : Type}.

(** The limiter within a batch of [n] valid entries started with the
    limiter [r0], a threshold configured: the counter has room for the
    entries still to come; one pause is announced or about to be for
    every multiple of the threshold the counter has passed; the flag is
    set only while a worker sleeps. *)
Record pauseInv (r0 : RateState) (n : nat) (s : @state CB) : Prop := mkPauseInv {
  ps_threshold : rlThreshold (rate s) = rlThreshold r0;
  ps_sleep : rlSleep (rate s) = rlSleep r0;
  ps_low : rlCount r0 ≤ rlCount (rate s);
  ps_high :
    rlCount (rate s)
      + Z.of_nat (countWaiting (workers s) + length (jobs s) + length (feed s))
    ≤ rlCount r0 + Z.of_nat n;
  ps_count :
    Z.of_nat (pausesPrinted (output s) + countStoring (workers s))
    = rlCount (rate s) / rlThreshold r0 - rlCount r0 / rlThreshold r0;
  ps_lines : Forall (pauseLine (rlThreshold r0) (rlSleep r0)) (output s);
  ps_storing :
    ∀ i u count, workers s !! i = Some (WRateStore u count) →
                 Z.rem count (rlThreshold r0) = 0;
  ps_paused :
    rlPaused (rate s) = 0
    ∨ (rlPaused (rate s) = 1 ∧ ∃ i w, workers s !! i = Some w ∧ sleeping w = true)
}.

(** With no worker nothing is requested, delivered or counted. *)
Definition idleInv (r : RateState) (cb : CB) (s : @state CB) : Prop :=
  workers s = [] ∧ dispatched s = [] ∧ delivered s = [] ∧ results s = []
  ∧ rate s = r ∧ cbState s = cb ∧ done s = 0.

End Pauses.

End HTTPPauses.

(** ** The DNS batch without workers *)

Module DNSIdle.
Import Go Domain DNS DNSBatch.

Section Idle.
Context {R : Type}.

(** With no worker nothing is looked up, answered or kept. *)
Definition idleInv (s : @state R) : Prop :=
  workers s = [] ∧ looked s = [] ∧ results s = [] ∧ received s = []
  ∧ validNames s = [] ∧ called s = [] ∧ done s = 0
  ∧ (status s = Running ∨ status s = Returned).

End Idle.

End DNSIdle.

(** ** Complete executions of the HTTP batch *)

Module HTTPLive.
Import Go Domain RateLimiter HTTPBatch.

Section Live.
Context {CB : Type}.
Variable callback : HttpResult → CB → bool * CB.

(** The network as a function of the URL requested. *)
Variable answer : string → reply.

(** A schedule in which the network answers every request as [answer]
    says. *)
Fixpoint obeys (c : config) (acts : list action) (s : @state CB) : Prop :=
  match acts with
  | [] => True
  | a :: rest =>
      match a with
      | AWorker i net => ∀ u, workers s !! i = Some (WFlight u) → net = answer u
      | _ => True
      end
      ∧ match step callback c a s with
        | Some s' => obeys c rest s'
        | None => True
        end
  end.

(** An execution of [acts] from [s] to [s'] that obeys [answer]. *)
Definition runs (c : config) (acts : list action) (s s' : @state CB) : Prop :=
  run callback c acts s = Some s' ∧ obeys c acts s.

(** Between two entries of the one-by-one schedule: queues empty,
    channels open, every worker waiting for a job, the limiter not
    paused. *)
Definition quiescent (n : nat) (s : @state CB) : Prop :=
  status s = Running ∧ jobs s = [] ∧ results s = [] ∧ feedChecked s = false
  ∧ jobsClosed s = false ∧ resultsClosed s = false ∧ workers s = replicate n WRange
  ∧ (0 < rlThreshold (rate s) → rlPaused (rate s) = 0).

(** The steps of worker 0 inside [rateLimitCheck] for the limiter [r]. *)
Definition rateSteps (r : RateState) (net : reply) : list action :=
  if rlThreshold r <=? 0 then [AWorker 0 net]
  else if Z.rem (wrap64 (rlCount r + 1)) (rlThreshold r) =? 0
       then replicate 4 (AWorker 0 net)
       else replicate 2 (AWorker 0 net).

(** One entry through the pipeline with worker 0: the feeder's test and
    send, the worker's receive and test, [rateLimitCheck], the request and
    its answer, and for a response the send and the callback. *)
Definition oneURL (s : @state CB) (u : string) : list action :=
  if negb (aborted s =? 0) then [AFeeder]
  else
    let w := AWorker 0 (answer u) in
    [AFeeder; AFeeder; w; w] ++ rateSteps (rate s) (answer u) ++ [w; w]
    ++ match answer u with
       | TransportError _ => []
       | Response _ _ _ _ => [w; AConsumer]
       end.

(** The end of a batch: the feeder closes the job queue, every worker
    leaves its loop, the closer closes the results and the consuming loop
    returns. *)
Definition shutdown (n : nat) : list action :=
  [AFeeder] ++ map (λ i, AWorker i (TransportError true)) (seq 0 n)
  ++ [ACloser; AConsumer].

End Live.

End HTTPLive.

(** ** The callbacks of the checks *)

Module Callbacks.
Import Go Text HTTPBatch.

(** [OutputData] carries a single finding for display and logging. *)
Record OutputData := mkOutputData {
  Platform : string;
  Msg : string;
  Target : string;
  Access : string
}.

(** What a callback does besides giving its verdict, in order:
    [FmtOutput(data)]; [ListBucketContents(bucket)], which is an
    [http.Get] of [bucket]; the [Printf] of an unknown status code, with
    the text between code and reason; a [Println]; and the append to
    [hasFuncs]. *)
Inductive effect :=
| Finding (data : OutputData)
| Listing (bucket : string)
| Unknown (url : string) (code : Z) (sep : string) (reason : string)
| Notice (text : string)
| Recorded (url : string).

Definition isFinding (e : effect) : bool :=
  match e with Finding _ => true | _ => false end.

(** The URLs fetched by the [http.Get] of [ListBucketContents]: requests
    of the callback's own, outside the worker pool of the batch, without
    [rateLimitCheck] and not counted. *)
Definition listings (log : list effect) : list string :=
  flat_map (λ e, match e with Listing bucket => [bucket] | _ => [] end) log.

Definition found (platform msg target access : string) : effect :=
  Finding (mkOutputData platform msg target access).

Definition unknown (result : HttpResult) : effect :=
  Unknown (URL result) (StatusCode result) ": " (Reason result).

(** Either of [reason] and [body] contains [text]. *)
Definition says (result : HttpResult) (text : string) : bool :=
  Contains (Reason result) text || Contains (Body result) text.

Definition printS3Response (result : HttpResult) : bool * list effect :=
  if StatusCode result =? 404 then (false, [])
  else if Contains (Reason result) "Bad Request" then (false, [])
  else if StatusCode result =? 200
  then (false, [found "aws" "OPEN S3 BUCKET" (URL result) "public"; Listing (URL result)])
  else if StatusCode result =? 403
  then (false, [found "aws" "Protected S3 Bucket" (URL result) "protected"])
  else if Contains (Reason result) "Slow Down"
  then (true, [Notice "[!] You've been rate limited, skipping rest of check..."])
  else (false, [unknown result]).

Definition printAccountResponse (result : HttpResult) : bool * list effect :=
  if (StatusCode result =? 404)
     || Contains (Reason result) "The requested URI does not represent"
  then (false, [])
  else if says result "Server failed to authenticate the request"
  then (false, [found "azure" "Auth-Only Account" (URL result) "protected"])
  else if says result "The specified account is disabled"
  then (false, [found "azure" "Disabled Account" (URL result) "disabled"])
  else if says result "Value for one of the query"
  then (false, [found "azure" "HTTP-OK Account" (URL result) "public"])
  else if says result "The account being accessed"
  then (false, [found "azure" "HTTPS-Only Account" (URL result) "public"])
  else if says result "Unauthorized"
  then (false, [found "azure" "Unauthorized Account" (URL result) "public"])
  else (false, [Unknown (URL result) (StatusCode result) " : " (Reason result)]).

Definition printContainerResponse (result : HttpResult) : bool * list effect :=
  if says result "The specified account is disabled"
  then (true, [Notice "    [!] Breaking out early, account disabled."])
  else if Contains (Reason result) "not authorized to perform this operation"
          || Contains (Reason result) "not have sufficient permissions"
          || Contains (Reason result) "Public access is not permitted"
          || Contains (Reason result) "Server failed to authenticate the request"
          || Contains (Body result) "not authorized to perform this operation"
          || Contains (Body result) "not have sufficient permissions"
          || Contains (Body result) "Public access is not permitted"
          || Contains (Body result) "Server failed to authenticate the request"
  then (true, [Notice "    [!] Breaking out early, auth required."])
  else if says result "Blob API is not yet supported"
  then (true, [Notice "    [!] Breaking out early, Hierarchical namespace account"])
  else if StatusCode result =? 404 then (false, [])
  else if StatusCode result =? 200
  then (false, [found "azure" "OPEN AZURE CONTAINER" (URL result) "public";
                Listing (URL result)])
  else if says result "One of the request inputs is out of range" then (false, [])
  else if says result "The request URI is invalid" then (false, [])
  else (false, [unknown result]).

Definition printBucketResponse (result : HttpResult) : bool * list effect :=
  if StatusCode result =? 404 then (false, [])
  else if StatusCode result =? 200
  then (false, [found "gcp" "OPEN GOOGLE BUCKET" (URL result) "public";
                Listing (String.append (URL result) "/")])
  else if StatusCode result =? 403
  then (false, [found "gcp" "Protected Google Bucket" (URL result) "protected"])
  else (false, [unknown result]).

Definition printFBRTDBResponse (result : HttpResult) : bool * list effect :=
  if StatusCode result =? 404 then (false, [])
  else if StatusCode result =? 200
  then (false, [found "gcp" "OPEN GOOGLE FIREBASE RTDB" (URL result) "public"])
  else if StatusCode result =? 401
  then (false, [found "gcp" "Protected Google Firebase RTDB" (URL result) "protected"])
  else if StatusCode result =? 402
  then (false, [found "gcp" "Payment required on Google Firebase RTDB" (URL result)
                  "disabled"])
  else if StatusCode result =? 423
  then (false, [found "gcp" "The Firebase database has been deactivated." (URL result)
                  "disabled"])
  else (false, [unknown result]).

Definition printFBAppResponse (result : HttpResult) : bool * list effect :=
  if StatusCode result =? 404 then (false, [])
  else if StatusCode result =? 200
  then (false, [found "gcp" "OPEN GOOGLE FIREBASE APP" (URL result) "public"])
  else (false, [unknown result]).

(** [result.StatusCode/100] is Go's division, which truncates. *)
Definition printAppspotResponse (result : HttpResult) : bool * list effect :=
  if StatusCode result =? 404 then (false, [])
  else if StatusCode result ÷ 100 =? 5
  then (false, [found "gcp" "Google App Engine app with a 50x error" (URL result) "public"])
  else if (StatusCode result =? 200) || (StatusCode result =? 302)
  then if Contains (URL result) "accounts.google.com"
       then (false, [found "gcp" "Protected Google App Engine app" (OriginalURL result)
                       "protected"])
       else (false, [found "gcp" "Open Google App Engine app" (URL result) "public"])
  else (false, [unknown result]).

Definition printFunctionsResponse1 (result : HttpResult) : bool * list effect :=
  if StatusCode result =? 404 then (false, [])
  else if StatusCode result =? 302
  then (false, [found "gcp" "Contains at least 1 Cloud Function" (URL result) "public";
                Recorded (URL result)])
  else (false, [unknown result]).

Definition printFunctionsResponse2 (result : HttpResult) : bool * list effect :=
  if Contains (URL result) "accounts.google.com/ServiceLogin" then (false, [])
  else if (StatusCode result =? 403) || (StatusCode result =? 401)
  then (false, [found "gcp" "Auth required Cloud Function" (URL result) "protected"])
  else if StatusCode result =? 405
  then (false, [found "gcp" "UNAUTHENTICATED Cloud Function (POST-Only)" (URL result)
                  "public"])
  else if (StatusCode result =? 200) || (StatusCode result =? 404)
  then (false, [found "gcp" "UNAUTHENTICATED Cloud Function (GET-OK)" (URL result)
                  "public"])
  else (false, [unknown result]).

(** A callback as [GetURLBatch] runs it: its effects are added to those
    of the run so far. *)
Definition logging (f : HttpResult → bool * list effect)
    (result : HttpResult) (log : list effect) : bool * list effect :=
  ((f result).1, log ++ (f result).2).

(** The callbacks that have no [return true]. *)
Definition quietCallbacks : list (HttpResult → bool * list effect) :=
  [printAccountResponse; printBucketResponse; printFBRTDBResponse; printFBAppResponse;
   printAppspotResponse; printFunctionsResponse1; printFunctionsResponse2].

Definition allCallbacks : list (HttpResult → bool * list effect) :=
  printS3Response :: printContainerResponse :: quietCallbacks.

(** The messages on which [printContainerResponse] breaks out. *)
Definition containerStops : list string :=
  ["The specified account is disabled";
   "not authorized to perform this operation";
   "not have sufficient permissions";
   "Public access is not permitted";
   "Server failed to authenticate the request";
   "Blob API is not yet supported"].

(** The results on which [printS3Response] and [printContainerResponse]
    return true. *)
Definition s3Stop (result : HttpResult) : Prop :=
  StatusCode result ≠ 404 ∧ StatusCode result ≠ 200 ∧ StatusCode result ≠ 403
  ∧ Contains (Reason result) "Bad Request" = false
  ∧ Contains (Reason result) "Slow Down" = true.

Definition containerStop (result : HttpResult) : Prop :=
  Exists (λ text, says result text = true) containerStops.

(** The URL [printS3Response] fetches once more: the bucket's, when it is
    open. *)
Definition s3Again (result : HttpResult) : list string :=
  if (StatusCode result =? 200) && negb (Contains (Reason result) "Bad Request")
  then [URL result] else [].

(** The URL [printBucketResponse] fetches: the open bucket's with a
    slash added. *)
Definition bucketAgain (result : HttpResult) : list string :=
  if StatusCode result =? 200 then [String.append (URL result) "/"] else [].

End Callbacks.

(** ** The checks that are one HTTP batch *)

Module Checks.
Import Go Text Domain RateLimiter HTTPBatch Candidates Callbacks.

(** The banner and the timer of a check are left out; [sched] is the
    interleaving of the batch, [r] the limiter it finds and [log] the
    effects of the run so far. *)
Definition checkS3Buckets (names : list string) (threads : Z)
    (sched : list action) (r : RateState) (log : list effect) :=
  GetURLBatch (logging printS3Response) (s3Candidates names) false threads sched r log.

Definition checkGCPBuckets (names : list string) (threads : Z)
    (sched : list action) (r : RateState) (log : list effect) :=
  GetURLBatch (logging printBucketResponse) (bucketCandidates names) false threads sched r log.

Definition checkFBRTDB (names : list string) (threads : Z)
    (sched : list action) (r : RateState) (log : list effect) :=
  GetURLBatch (logging printFBRTDBResponse) (fbrtdbCandidates names) true threads sched r log.

Definition CheckFBApp (names : list string) (threads : Z)
    (sched : list action) (r : RateState) (log : list effect) :=
  GetURLBatch (logging printFBAppResponse) (fbappCandidates names) true threads sched r log.

Definition checkAppspot (names : list string) (threads : Z)
    (sched : list action) (r : RateState) (log : list effect) :=
  GetURLBatch (logging printAppspotResponse) (appspotCandidates names) false threads sched r log.

(** What a completed batch has added to the log: effects of which at
    most [n] are findings. *)
Definition addsFindings (log log' : list effect) (n : nat) : Prop :=
  ∃ news, log' = log ++ news ∧ (length (filter (λ e, isFinding e = true) news) ≤ n)%nat.

(** All the requests of a completed check whose batch has requested
    [reqs]: the answers delivered to the callback [f] answer each a
    request of its own, the log has grown by what [f] does on each of
    them, and the URLs [f] has fetched through [ListBucketContents] are
    those of [again] for each answer in turn. *)
Definition fetches (f : HttpResult → bool * list effect) (proto : string)
    (log log' : list effect) (reqs : list string) (again : HttpResult → list string) : Prop :=
  ∃ answers,
    OriginalURL <$> answers ⊆+ String.append proto <$> reqs
    ∧ log' = log ++ flat_map (λ res, (f res).2) answers
    ∧ listings (flat_map (λ res, (f res).2) answers) = flat_map again answers.

End Checks.

(** ** The Azure account checks *)

Module Azure.
Import Go Text Domain RateLimiter DNS Candidates Callbacks.

(** The de-duplication loop of [checkAzureAccountType]. *)
Definition addUnique (st : gmap string bool * list string) (n : string)
  : gmap string bool * list string :=
  if negb (default false (st.1 !! n)) then (<[n := true]> st.1, st.2 ++ [n]) else st.

Definition unique (validNames : list string) : list string :=
  (fold_left addUnique validNames (∅, [])).2.

(** What [checkAzureAccountType] amounts to: the accounts it returns,
    with the limiter, the log and the requests of its HTTP batch; the
    end of the process ([os.Exit] in [FastDNSLookup]); or a panic. *)
Inductive outcome :=
| Accounts (names : list string) (r : RateState) (log : list effect) (requested : list string)
| Exited (code : Z)
| Panicked.

Section Accounts.
Context {R : Type}.
Variable LookupHost : R → string → Z → option error * R.
Variable systemResolver : R.
Variable newResolver : list string → R.
Variable ReadNameservers : string → option (list string).

(** [checkAzureAccountType]: the DNS batch under [dnsSched] (without a
    callback), then the HTTP batch of the names that resolved under
    [httpSched]. *)
Definition checkAzureAccountType (names : list string) (threads : Z)
    (nameserver nameserverFile domain : string)
    (dnsSched : list DNSBatch.action) (httpSched : list HTTPBatch.action)
    (r : RateState) (log : list effect) : option outcome :=
  match DNSBatch.FastDNSLookup LookupHost systemResolver newResolver ReadNameservers
          (accountCandidates names domain) nameserver nameserverFile false threads dnsSched with
  | Some (DNSBatch.Return validNames) =>
      match HTTPBatch.GetURLBatch (logging printAccountResponse) validNames false threads
              httpSched r log with
      | Some (HTTPBatch.Finished r' log' reqs) =>
          Some (Accounts (unique validNames) r' log' reqs)
      | Some HTTPBatch.Panic => Some Panicked
      | None => None
      end
  | Some (DNSBatch.Exit code) => Some (Exited code)
  | Some DNSBatch.Panic => Some Panicked
  | None => None
  end.

End Accounts.

End Azure.

(** ** Scenarios of the checks *)

Module CheckScenario.
Import Go HTTPBatch.

(** One URL through a batch with one worker and no threshold
    configured, then the shutdown. *)
Definition plainSchedule (net : reply) : list action :=
  [AFeeder; AFeeder] ++ replicate 6 (AWorker 0 net) ++ [AConsumer]
  ++ [AFeeder; AWorker 0 net; ACloser; AConsumer].

Definition openBucket : reply :=
  Response "http://storage.googleapis.com/acme" 200 "200 OK" "".

Definition okAccount : reply :=
  Response "http://acme.blob.core.windows.net" 400
    "400 Value for one of the query parameters specified in the request URI is invalid." "".

Definition slowDown : reply :=
  Response "http://acme.s3.amazonaws.com" 503 "503 Slow Down" "".

Definition openS3 : reply :=
  Response "http://acme.s3.amazonaws.com" 200 "200 OK" "<ListBucketResult/>".

(** The batch of [checkS3Buckets] for the name "acme" with one thread,
    answered with [slowDown]. *)
Definition throttledConfig : config :=
  Eval vm_compute in
    match start (Candidates.s3Candidates ["acme"]) false 1 RateLimiter.zeroRate
            (@nil Callbacks.effect) with
    | inr (c, _) => c
    | inl _ => mkConfig 0 0 ""
    end.

Definition throttledFirst : @state (list Callbacks.effect) :=
  Eval vm_compute in
    match start (Candidates.s3Candidates ["acme"]) false 1 RateLimiter.zeroRate [] with
    | inr (_, s0) => s0
    | inl _ =>
        mkState RateLimiter.zeroRate 0 [] false false [] [] [] false 0 [] [] Running [] [] []
    end.

Definition throttledLast : @state (list Callbacks.effect) :=
  Eval vm_compute in
    match run (Callbacks.logging Callbacks.printS3Response) throttledConfig
            (plainSchedule slowDown) throttledFirst with
    | Some s => s
    | None => throttledFirst
    end.

(** The batch of [checkGCPBuckets] for the name "acme" with one thread,
    answered with [openBucket]. *)
Definition bucketConfig : config :=
  Eval vm_compute in
    match start (Candidates.bucketCandidates ["acme"]) false 1 RateLimiter.zeroRate
            (@nil Callbacks.effect) with
    | inr (c, _) => c
    | inl _ => mkConfig 0 0 ""
    end.

Definition bucketFirst : @state (list Callbacks.effect) :=
  Eval vm_compute in
    match start (Candidates.bucketCandidates ["acme"]) false 1 RateLimiter.zeroRate [] with
    | inr (_, s0) => s0
    | inl _ => throttledFirst
    end.

Definition bucketLast : @state (list Callbacks.effect) :=
  Eval vm_compute in
    match run (Callbacks.logging Callbacks.printBucketResponse) bucketConfig
            (plainSchedule openBucket) bucketFirst with
    | Some s => s
    | None => bucketFirst
    end.

End CheckScenario.

(** ** Custom nameservers *)

Module Nameservers.
Import Go Text.

Section ReadNameservers.
(** [strings.TrimSpace] works on runes; it is left open. *)
Variable TrimSpace : string → string.

(** The body of the scanning loop on one line of the file. *)
Definition keepLine (ns : list string) (text : string) : list string :=
  let line := TrimSpace text in
  if negb (String.eqb line "") && negb (HasPrefix line "#") then ns ++ [line] else ns.

(** [ReadNameservers] on the lines the scanner yields, [None] for a file
    that cannot be opened; the result is [None] when the process ends
    ([os.Exit(1)]). *)
Definition ReadNameservers (file : option (list string)) : option (list string) :=
  match file with
  | None => None
  | Some lines =>
      let ns := fold_left keepLine lines [] in
      if Z.of_nat (length ns) =? 0 then None else Some ns
  end.

End ReadNameservers.

(** One call of the [Dial] function of [newResolver(nameservers)] with
    the counter at [idx], a [uint64]: the address dialed and the counter
    it leaves; [None] for the panic of a division by zero or an index out
    of range. *)
Definition dial (nameservers : list string) (idx : Z) : option (string * Z) :=
  let idx' := (idx + 1) mod 2 ^ 64 in
  let i := (idx' - 1) mod 2 ^ 64 in
  if Z.of_nat (length nameservers) =? 0 then None
  else match nameservers !! Z.to_nat (i mod Z.of_nat (length nameservers)) with
       | Some ns => Some (String.append ns ":53", idx')
       | None => None
       end.

(** [k] calls in a row. *)
Fixpoint dials (nameservers : list string) (idx : Z) (k : nat) : option (list string * Z) :=
  match k with
  | O => Some ([], idx)
  | S k' =>
      match dial nameservers idx with
      | Some (a, idx') =>
          match dials nameservers idx' k' with
          | Some (rest, idx'') => Some (a :: rest, idx'')
          | None => None
          end
      | None => None
      end
  end.

End Nameservers.

(** ** Properties of the Go primitives *)

Module GoFacts.
Import Go.

Lemma Split_nonempty s : Split s ≠ [].
Proof. destruct s as [|c r]; simpl; [done|]. destruct (Ascii.eqb c dot); [done|]. by destruct (Split r). Qed.

Lemma Split_dot_free s : Forall (λ l, dot_free l = true) (Split s).
Proof.
  induction s as [|c r IH]; simpl.
  - by constructor.
  - destruct (Ascii.eqb c dot) eqn:E.
    + by constructor.
    + destruct (Split r) as [|h t]; inversion IH; subst; constructor; simpl; try done.
      * by rewrite E.
      * by rewrite E.
Qed.

Lemma Join_cons_cons l l' rest :
  Join (l :: l' :: rest) = String.append l (String dot (Join (l' :: rest))).
Proof. done. Qed.

Lemma Join_Split s : Join (Split s) = s.
Proof.
  induction s as [|c r IH]; [done|]. cbn [Split].
  pose proof (Split_nonempty r) as Hne.
  destruct (Ascii.eqb c dot) eqn:E.
  - apply Ascii.eqb_eq in E. subst c.
    destruct (Split r) as [|h t]; [done|].
    rewrite Join_cons_cons. by rewrite IH.
  - destruct (Split r) as [|h t]; [done|].
    destruct t as [|h' t].
    + cbn [Join] in *. by rewrite IH.
    + rewrite Join_cons_cons in IH. rewrite Join_cons_cons. by rewrite <- IH.
Qed.

Lemma append_nil s : String.append EmptyString s = s.
Proof. reflexivity. Qed.

Lemma append_cons c r s : String.append (String c r) s = String c (String.append r s).
Proof. reflexivity. Qed.

Lemma Split_dot r : Split (String dot r) = EmptyString :: Split r.
Proof. cbn [Split]. by rewrite Ascii.eqb_refl. Qed.

Lemma Split_other c r :
  Ascii.eqb c dot = false →
  Split (String c r) = match Split r with
                       | h :: t => String c h :: t
                       | [] => [String c EmptyString]
                       end.
Proof. intros E. cbn [Split]. by rewrite E. Qed.

(** Splitting is the only way to cut a string into dot-free labels. *)
Lemma Split_Join ls :
  ls ≠ [] → Forall (λ l, dot_free l = true) ls → Split (Join ls) = ls.
Proof.
  induction ls as [|l rest IH]; [done|]. intros _ Hdf.
  inversion Hdf as [|? ? Hl Hrest]; subst.
  destruct rest as [|l' rest].
  - cbn [Join]. clear IH Hdf Hrest. induction l as [|c r IHr]; [done|].
    cbn [dot_free] in Hl. apply andb_prop in Hl as [Hc Hr].
    apply negb_true_iff in Hc. rewrite (Split_other _ _ Hc). by rewrite (IHr Hr).
  - rewrite Join_cons_cons. specialize (IH ltac:(done) Hrest).
    clear Hdf Hrest. induction l as [|c r IHr].
    + rewrite append_nil, Split_dot. by rewrite IH.
    + cbn [dot_free] in Hl. apply andb_prop in Hl as [Hc Hr].
      apply negb_true_iff in Hc.
      rewrite append_cons, (Split_other _ _ Hc). by rewrite (IHr Hr).
Qed.

End GoFacts.

Module ListFacts.

Lemma elem_of_insert_inv {A} (l : list A) i x y :
  y ∈ <[i:=x]> l → y = x ∨ y ∈ l.
Proof.
  intros [j Hj]%list_elem_of_lookup.
  apply list_lookup_insert_Some in Hj as [(_ & -> & _)|[_ Hj]]; [by left|].
  right. apply list_elem_of_lookup. by exists j.
Qed.

Lemma omap_insert_elem {A B} (f : A → option B) (l : list A) i x y :
  y ∈ omap f (<[i:=x]> l) → f x = Some y ∨ y ∈ omap f l.
Proof.
  intros (z & Hz & Hf)%list_elem_of_omap.
  apply elem_of_insert_inv in Hz as [->|Hz]; [by left|].
  right. apply list_elem_of_omap. by exists z.
Qed.

End ListFacts.

Module DomainFacts.
Import Go Domain GoFacts.

Lemma filterValid_from acc names :
  fold_left (λ acc n, if IsValidDomain n then acc ++ [n] else acc) names acc
  = acc ++ filter (λ n, IsValidDomain n = true) names.
Proof.
  revert acc. induction names as [|n names IH]; intros acc; cbn [fold_left].
  - by rewrite filter_nil, app_nil_r.
  - rewrite IH, filter_cons. destruct (IsValidDomain n); case_decide; try done.
    by rewrite <- app_assoc.
Qed.

(** The filter loop keeps exactly the entries that pass the validator, in
    their order. *)
Lemma filterValid_filter names :
  filterValid names = filter (λ n, IsValidDomain n = true) names.
Proof. unfold filterValid. by rewrite filterValid_from. Qed.

Lemma elem_of_filterValid n names :
  n ∈ filterValid names ↔ IsValidDomain n = true ∧ n ∈ names.
Proof. rewrite filterValid_filter. by rewrite list_elem_of_filter. Qed.

Lemma labelsOK_Forall labels :
  labelsOK labels = true ↔ Forall (λ l, 1 ≤ len l ≤ 63) labels.
Proof.
  induction labels as [|l rest IH]; simpl.
  - split; [by constructor|done].
  - destruct (len l <? 1) eqn:E1; simpl.
    + apply Z.ltb_lt in E1. split; [done|]. inversion 1; subst. lia.
    + apply Z.ltb_ge in E1. destruct (len l >? 63) eqn:E2.
      * apply Z.gtb_lt in E2. split; [done|]. inversion 1; subst. lia.
      * assert (len l ≤ 63) by (rewrite Z.gtb_ltb in E2; by apply Z.ltb_ge in E2).
        rewrite IH. split.
        -- intros. constructor; [lia|done].
        -- by inversion 1.
Qed.

Example split_two_dots : Split "a..b" = ["a"; ""; "b"].
Proof. reflexivity. Qed.

Example split_empty : Split "" = [""].
Proof. reflexivity. Qed.

Example valid_plain : IsValidDomain "us-central1-acme.cloudfunctions.net" = true.
Proof. reflexivity. Qed.

Example invalid_empty : IsValidDomain "" = false.
Proof. reflexivity. Qed.

Example invalid_empty_label : IsValidDomain "a..example.com" = false.
Proof. reflexivity. Qed.

Example invalid_trailing_dot : IsValidDomain "example.com." = false.
Proof. reflexivity. Qed.

(** A label of 64 bytes is one too long; 63 bytes pass. *)
Example label_length_limit :
  let l63 := String.string_of_list_ascii (repeat "a"%char 63) in
  IsValidDomain l63 = true ∧ IsValidDomain (String "a" l63) = false.
Proof. by vm_compute. Qed.

(** C5. [IsValidDomain name] is true exactly when [name] is at most 253
    bytes long and each of its dot-separated labels has between 1 and 63
    bytes; the validator is a pure function of [name]. *)
Theorem IsValidDomain_iff (name : string) :
  IsValidDomain name = true ↔ ValidCandidate name.
Proof.
  unfold IsValidDomain, ValidCandidate. split.
  - destruct (len name >? 253) eqn:E; [done|].
    intros Hok. split.
    + rewrite Z.gtb_ltb in E. by apply Z.ltb_ge in E.
    + intros ls (Hne & Hdf & Hj). subst name.
      rewrite (Split_Join _ Hne Hdf) in Hok. by apply labelsOK_Forall.
  - intros [Hlen Hall].
    destruct (len name >? 253) eqn:E.
    + apply Z.gtb_lt in E. lia.
    + apply labelsOK_Forall, Hall.
      split; [apply Split_nonempty|]. split; [apply Split_dot_free|apply Join_Split].
Qed.

End DomainFacts.

Module RateLimiterFacts.
Import Go RateLimiter.

Lemma wrap64_small z : - 2 ^ 63 ≤ z ≤ maxInt64 → wrap64 z = z.
Proof. unfold wrap64, maxInt64. intros H. rewrite Z.mod_small; lia. Qed.

Lemma pauses_app tr1 tr2 : pauses (tr1 ++ tr2) = pauses tr1 + pauses tr2.
Proof. unfold pauses. rewrite filter_app, length_app. lia. Qed.

Lemma pausedAt_app tr1 tr2 : pausedAt (tr1 ++ tr2) = pausedAt tr1 ++ pausedAt tr2.
Proof. unfold pausedAt. apply omap_app. Qed.

(** With no threshold configured the call changes nothing. *)
Lemma rateLimitCheck_disabled s :
  rlThreshold s ≤ 0 → rateLimitCheck s = Some (s, []).
Proof. intros H. unfold rateLimitCheck. by rewrite (proj2 (Z.leb_le _ _) H). Qed.

(** One admitted request: the counter goes up by one, and the worker
    pauses exactly when the new count is a multiple of the threshold. *)
Lemma rateLimitCheck_step s :
  0 < rlThreshold s → rlPaused s = 0 → 0 ≤ rlCount s < maxInt64 →
  ∃ tr, rateLimitCheck s =
          Some (mkRate (rlCount s + 1) (rlThreshold s) (rlSleep s) 0, tr) ∧
        ((rlCount s + 1) mod rlThreshold s = 0 →
           tr = [RlStorePaused 1; RlPrint (rlCount s + 1) (rlSleep s);
                 RlSleepFor (rlSleep s); RlStorePaused 0]) ∧
        ((rlCount s + 1) mod rlThreshold s ≠ 0 → tr = []).
Proof.
  intros HT HP HC. unfold rateLimitCheck.
  rewrite (proj2 (Z.leb_gt _ _) HT), HP. cbn [Z.eqb negb].
  rewrite wrap64_small by (unfold maxInt64 in *; lia).
  rewrite Z.rem_mod_nonneg by lia.
  destruct (Z.eqb_spec ((rlCount s + 1) mod rlThreshold s) 0) as [E|E].
  - eexists. split; [done|]. split; [done|]. intros; done.
  - eexists. split; [done|]. split; [intros; done|done].
Qed.

Lemma div_succ n T :
  0 < T → 0 ≤ n →
  (n + 1) / T = n / T + (if (n + 1) mod T =? 0 then 1 else 0).
Proof.
  intros HT Hn.
  pose proof (Z.div_mod n T ltac:(lia)) as Hd.
  pose proof (Z.mod_pos_bound n T HT) as Hb.
  destruct (Z.eqb_spec ((n + 1) mod T) 0) as [E|E].
  - assert (n mod T = T - 1) as Hm.
    { destruct (Z.eq_dec (n mod T) (T - 1)) as [|Hne]; [done|].
      exfalso. rewrite <- Z.add_mod_idemp_l in E by lia.
      rewrite Z.mod_small in E by lia. lia. }
    symmetry. apply Z.div_unique with (r := 0); lia.
  - assert (n mod T ≠ T - 1) as Hm.
    { intros Hm. apply E. rewrite <- Z.add_mod_idemp_l by lia.
      rewrite Hm. replace (T - 1 + 1) with T by lia. apply Z.mod_same. lia. }
    symmetry. apply Z.div_unique with (r := n mod T + 1); lia.
Qed.

Lemma multiples_S T k : multiples T (S k) = multiples T k ++ [Z.of_nat (S k) * T].
Proof. unfold multiples. by rewrite seq_S, map_app. Qed.

Lemma admitRequests_spec T sleep (n : nat) :
  0 < T → Z.of_nat n ≤ maxInt64 →
  ∃ tr, admitRequests n (mkRate 0 T sleep 0) = Some (mkRate (Z.of_nat n) T sleep 0, tr) ∧
        pauses tr = Z.of_nat n / T ∧
        pausedAt tr = multiples T (Z.to_nat (Z.of_nat n / T)).
Proof.
  intros HT. induction n as [|k IH]; intros Hn.
  - exists []. split; [done|]. rewrite Z.div_0_l by lia. done.
  - destruct IH as (tr & Hrun & Hp & Hat); [lia|].
    cbn [admitRequests]. rewrite Hrun.
    destruct (rateLimitCheck_step (mkRate (Z.of_nat k) T sleep 0))
      as (tr2 & Hstep & Hyes & Hno); cbn [rlThreshold rlPaused rlCount rlSleep] in *;
      [lia|done|lia|].
    rewrite Hstep. exists (tr ++ tr2).
    replace (Z.of_nat (S k)) with (Z.of_nat k + 1) by lia.
    split; [done|].
    rewrite pauses_app, pausedAt_app, Hp, Hat, (div_succ (Z.of_nat k) T) by lia.
    destruct (Z.eqb_spec ((Z.of_nat k + 1) mod T) 0) as [E|E].
    + rewrite (Hyes E). split; [done|].
      pose proof (Z.div_pos (Z.of_nat k) T ltac:(lia) HT) as Hq.
      assert (Z.of_nat k + 1 = (Z.of_nat k / T + 1) * T) as Hmul.
      { pose proof (Z.div_mod (Z.of_nat k + 1) T ltac:(lia)) as Hd.
        rewrite E, (div_succ (Z.of_nat k) T), (proj2 (Z.eqb_eq _ _) E) in Hd by lia.
        lia. }
      rewrite Z2Nat.inj_add by lia. change (Z.to_nat 1) with 1%nat.
      rewrite Nat.add_1_r, multiples_S. f_equal. cbn [pausedAt omap].
      rewrite Nat2Z.inj_succ, Z2Nat.id by lia.
      unfold Z.succ. by rewrite <- Hmul.
    + rewrite (Hno E), app_nil_r. cbn [pauses filter length]. by rewrite !Z.add_0_r.
Qed.

(** C4. With a threshold [T] > 0, a call of [rateLimitCheck] by a worker
    running alone raises the counter by one and pauses (flag set, sleep,
    flag cleared) exactly when the new count is a multiple of [T]; [n]
    such calls from counter 0 pause [n / T] times, at the counts [T],
    [2T], ...; threshold 5 and 12 requests give 2 pauses, after requests
    5 and 10; and with a threshold of 0 or less the call does nothing.
    Counts are within the range of [int64]. *)
Theorem rate_governor_pauses (T sleep : Z) (n : nat) :
  0 < T ≤ maxInt64 → Z.of_nat n ≤ maxInt64 →
  (∀ s, rlThreshold s = T → rlPaused s = 0 → 0 ≤ rlCount s < maxInt64 →
     ∃ tr, rateLimitCheck s = Some (mkRate (rlCount s + 1) T (rlSleep s) 0, tr)
           ∧ tr = (if (rlCount s + 1) mod T =? 0
                   then [RlStorePaused 1; RlPrint (rlCount s + 1) (rlSleep s);
                         RlSleepFor (rlSleep s); RlStorePaused 0]
                   else [])
           ∧ pauses tr = (if (rlCount s + 1) mod T =? 0 then 1 else 0))
  ∧ (∃ tr, admitRequests n (InitRateLimiter T sleep zeroRate)
             = Some (mkRate (Z.of_nat n) T sleep 0, tr)
           ∧ pauses tr = Z.of_nat n / T
           ∧ pausedAt tr = multiples T (Z.to_nat (Z.of_nat n / T)))
  ∧ (∃ tr, admitRequests 12 (InitRateLimiter 5 sleep zeroRate)
             = Some (mkRate 12 5 sleep 0, tr)
           ∧ pauses tr = 2 ∧ pausedAt tr = [5; 10])
  ∧ (∀ s, rlThreshold s ≤ 0 → rateLimitCheck s = Some (s, [])).
Proof.
  intros HT Hn. split; [|split; [|split]].
  - intros s <- HP HC.
    destruct (rateLimitCheck_step s) as (tr & Hstep & Hyes & Hno); [lia|done|done|].
    exists tr. split; [done|].
    destruct (Z.eqb_spec ((rlCount s + 1) mod rlThreshold s) 0) as [E|E].
    + by rewrite (Hyes E).
    + by rewrite (Hno E).
  - unfold InitRateLimiter, zeroRate. cbn [rlCount rlPaused].
    rewrite wrap64_small by (unfold maxInt64 in *; lia).
    apply admitRequests_spec; lia.
  - eexists. by vm_compute.
  - apply rateLimitCheck_disabled.
Qed.

Lemma rate_governor_pauses_witness :
  0 < 5 ≤ maxInt64 ∧ Z.of_nat 12 ≤ maxInt64
  ∧ ∃ tr, admitRequests 12 (InitRateLimiter 5 240 zeroRate)
            = Some (mkRate (Z.of_nat 12) 5 240 0, tr)
          ∧ pauses tr = Z.of_nat 12 / 5.
Proof.
  assert (0 < 5 ≤ maxInt64) as HT by (unfold maxInt64; lia).
  assert (Z.of_nat 12 ≤ maxInt64) as Hn by (unfold maxInt64; lia).
  split; [exact HT|]. split; [exact Hn|].
  destruct (rate_governor_pauses 5 240 12 HT Hn) as (_ & (tr & Hrun & Hp & _) & _).
  by exists tr.
Defined.

End RateLimiterFacts.

(** ** The per-name policy of [dnsLookup] and the choice of resolver *)

Module DNSFacts.
Import Go Domain DNS Mock.

Section Policy.
Context {R : Type}.
Variable LookupHost : R → string → Z → option error * R.

Lemma outcomeOf_encode name o :
  name ≠ "" → name ≠ breakout →
  o = Resolved name ∨ o = NotFound ∨ o = Fatal →
  outcomeOf (encode o) = o.
Proof.
  intros H1 H2 [->|[->| ->]]; unfold outcomeOf; cbn [encode]; [|done|done].
  destruct (String.eqb_spec name ""); [done|].
  by destruct (String.eqb_spec name breakout).
Qed.

Lemma codeOutcome_cases name a b :
  codeOutcome name a b = Resolved name ∨ codeOutcome name a b = NotFound
  ∨ codeOutcome name a b = Fatal.
Proof. destruct a, b; cbn; auto. Qed.

Lemma dnsLookup_eq (r : R) (name : string) (timeout : Z) :
  let first := LookupHost r name timeout in
  let second := LookupHost first.2 name timeout in
  dnsLookup LookupHost r name timeout =
    (encode (codeOutcome name (classify first.1) (classify second.1)),
     match classify first.1 with Timeout => second.2 | _ => first.2 end).
Proof.
  intros first second. unfold dnsLookup, second, first. cbn [dnsLookupLoop].
  destruct (LookupHost r name timeout) as [e1 r1]. cbn [fst snd].
  destruct e1 as [e1|]; [|done]. cbn [classify].
  destruct (asDNSError e1) as [d1|]; [|done].
  destruct (IsNotFound d1); [done|]. destruct (IsTimeout d1); [|done].
  destruct (LookupHost r1 name timeout) as [e2 r2]. cbn [fst snd].
  destruct e2 as [e2|]; [|done]. cbn [classify].
  destruct (asDNSError e2) as [d2|]; [|done].
  destruct (IsNotFound d2); [done|]. by destruct (IsTimeout d2).
Qed.

(** Against a resolver that always gives the same answer for a name,
    [dnsLookup] is a function of the name. *)
Lemma dnsLookup_deterministic (oracle : string → option error) :
  (∀ r n t, (LookupHost r n t).1 = oracle n) →
  ∀ r n t, (dnsLookup LookupHost r n t).1 = resolveWith oracle n.
Proof.
  intros Hdet r n t. rewrite dnsLookup_eq. cbn [fst].
  unfold resolveWith. by rewrite !Hdet.
Qed.

(** Where no attempt ends in an error that is not a DNS error, the
    policy of the code is the stated one. *)
Lemma codeOutcome_specOutcome name a b :
  a ≠ NonDNSError → (a = Timeout → b ≠ NonDNSError) →
  codeOutcome name a b = specOutcome name a b.
Proof. destruct a, b; cbn; intros Ha Hb; try done; by destruct Hb. Qed.

(** Where every error is a DNS error, no attempt ends in another
    one. *)
Lemma classify_dns_error (r : R) (name : string) (timeout : Z) :
  (∀ r' n t e, (LookupHost r' n t).1 = Some e → is_Some (asDNSError e)) →
  classify (LookupHost r name timeout).1 ≠ NonDNSError.
Proof.
  intros Hdns. destruct (LookupHost r name timeout) as [[e|] r1] eqn:E; [|done].
  destruct (Hdns r name timeout e) as [d Hd]; [by rewrite E|].
  cbn [fst classify]. rewrite Hd. by destruct (IsNotFound d), (IsTimeout d).
Qed.

(** C1. Against a resolver whose every error is a [*net.DNSError], found
    directly or one [Unwrap] deep, which is how [*net.Resolver.LookupHost]
    reports its failures, [dnsLookup] follows the stated policy. It calls
    [LookupHost] once, and a second time, with the same timeout, exactly
    when the first answer is a timeout; it returns the name when an
    attempt succeeds, the empty string on a not-found error and on a
    second timeout, and the sentinel on any other error. The outcome is
    one of resolved, not-found and fatal, and for a name other than the
    two reserved strings the consuming loop reads exactly that outcome off
    the returned value. *)
Theorem dnsLookup_policy (r : R) (name : string) (timeout : Z) :
  (∀ r' n t e, (LookupHost r' n t).1 = Some e → is_Some (asDNSError e)) →
  let first := LookupHost r name timeout in
  let second := LookupHost first.2 name timeout in
  let outcome := specOutcome name (classify first.1) (classify second.1) in
  dnsLookup LookupHost r name timeout =
    (encode outcome,
     match classify first.1 with Timeout => second.2 | _ => first.2 end)
  ∧ (outcome = Resolved name ∨ outcome = NotFound ∨ outcome = Fatal)
  ∧ (name ≠ "" → name ≠ breakout →
     outcomeOf (dnsLookup LookupHost r name timeout).1 = outcome).
Proof.
  intros Hdns first second outcome.
  pose proof (dnsLookup_eq r name timeout) as Heq. cbn zeta in Heq.
  assert (codeOutcome name (classify first.1) (classify second.1) = outcome) as Hspec.
  { apply codeOutcome_specOutcome; [apply classify_dns_error, Hdns|].
    intros _. apply classify_dns_error, Hdns. }
  fold first second in Heq. rewrite Hspec in Heq.
  pose proof (codeOutcome_cases name (classify first.1) (classify second.1)) as Hcases.
  rewrite Hspec in Hcases.
  split; [done|]. split; [done|].
  intros H1 H2. rewrite Heq. cbn [fst]. by apply (outcomeOf_encode name).
Qed.

End Policy.

Lemma useCustomNS_true_iff ns nsf :
  useCustomNS ns nsf = true ↔ nsf ≠ "" ∨ (ns ≠ "" ∧ ns ≠ "1.1.1.1").
Proof.
  unfold useCustomNS.
  destruct (String.eqb_spec nsf ""), (String.eqb_spec ns ""),
    (String.eqb_spec ns "1.1.1.1"); cbn; intuition congruence.
Qed.

Section Selection.
Context {R : Type}.
Variable systemResolver : R.
Variable newResolver : list string → R.
Variable ReadNameservers : string → option (list string).

(** The two branches of the resolver selection. *)
Lemma selectResolver_spec (ns nsf : string) :
  (nsf = "" → ns = "" ∨ ns = nsFlagDefault →
     useCustomNS ns nsf = false ∧
     selectResolver systemResolver newResolver ReadNameservers ns nsf
       = UseResolver false systemResolver 5)
  ∧ (∀ custom r t,
       selectResolver systemResolver newResolver ReadNameservers ns nsf
         = UseResolver custom r t →
       if custom
       then t = 3 ∧ (nsf ≠ "" ∨ (ns ≠ "" ∧ ns ≠ "1.1.1.1")) ∧
            ∃ nsList, r = newResolver nsList
       else t = 5 ∧ r = systemResolver ∧ nsf = "" ∧ (ns = "" ∨ ns = "1.1.1.1")).
Proof.
  split.
  - intros -> Hns. unfold selectResolver.
    assert (useCustomNS ns "" = false) as ->; [|done].
    destruct Hns as [->| ->]; done.
  - intros custom r t. unfold selectResolver.
    destruct (useCustomNS ns nsf) eqn:E.
    + apply useCustomNS_true_iff in E.
      destruct (String.eqb_spec nsf "") as [->|Hne]; cbn [negb].
      * intros [= <- <- <-]. split; [done|]. split; [done|]. by eexists.
      * destruct (ReadNameservers nsf) as [l|]; [|done].
        intros [= <- <- <-]. split; [done|]. split; [done|]. by eexists.
    + intros [= <- <- <-]. split; [done|]. split; [done|].
      unfold useCustomNS in E.
      destruct (String.eqb_spec nsf ""), (String.eqb_spec ns ""),
        (String.eqb_spec ns "1.1.1.1"); cbn in E; intuition congruence.
Qed.

End Selection.

Lemma dnsLookup_policy_witness :
  (∀ r n t e, (retryLookup r n t).1 = Some e → is_Some (asDNSError e))
  ∧ dnsLookup retryLookup 0%nat "db.example.com" 5 = ("db.example.com", 2%nat)
  ∧ outcomeOf (dnsLookup retryLookup 0%nat "db.example.com" 5).1
    = Resolved "db.example.com".
Proof.
  assert (∀ r n t e, (retryLookup r n t).1 = Some e → is_Some (asDNSError e)) as Hdns.
  { intros [|r] n t e [= <-]. by eexists. }
  split; [exact Hdns|].
  destruct (dnsLookup_policy retryLookup 0%nat "db.example.com" 5 Hdns) as (Heq & _ & Hout).
  split; [exact Heq|]. by apply Hout.
Defined.

End DNSFacts.

(** ** The DNS batch *)

Module DNSBatchFacts.
Import Go Domain DNS DNSBatch Mock.

(** Reduce the projections of an updated state. *)
Tactic Notation "sstate" :=
  cbn [resolver feed jobsClosed jobs workers results resultsClosed done validNames called output status looked received set_resolver set_feed set_jobsClosed set_jobs set_workers set_results set_resultsClosed set_done set_validNames set_called set_output set_status set_looked set_received].
Tactic Notation "sstate" "in" hyp(H) :=
  cbn [resolver feed jobsClosed jobs workers results resultsClosed done validNames called output status looked received set_resolver set_feed set_jobsClosed set_jobs set_workers set_results set_resultsClosed set_done set_validNames set_called set_output set_status set_looked set_received] in H.

Lemma kept_snoc l x : kept (l ++ [x]) = kept l ++ (if isName x then [x] else []).
Proof.
  unfold kept. rewrite filter_app. f_equal.
  rewrite filter_cons, filter_nil. case_decide as H; destruct (isName x); done.
Qed.

Lemma omap_insert_perm {A B} (f : A → option B) (ws : list A) i w w' :
  ws !! i = Some w →
  option_list (f w) ++ omap f (<[i:=w']> ws) ≡ₚ option_list (f w') ++ omap f ws.
Proof.
  intros H. pose proof (lookup_lt_Some _ _ _ H) as Hlt.
  rewrite <- (take_drop_middle ws i w H) at 2.
  rewrite insert_take_drop by done. rewrite !omap_app. cbn.
  destruct (f w), (f w'); cbn; solve_Permutation.
Qed.

Lemma lookingOf_insert ws i w w' :
  ws !! i = Some w →
  option_list (match w with WLookup n => Some n | _ => None end)
    ++ lookingOf (<[i:=w']> ws)
  ≡ₚ option_list (match w' with WLookup n => Some n | _ => None end) ++ lookingOf ws.
Proof.
  exact (omap_insert_perm (λ w, match w with WLookup n => Some n | _ => None end) ws i w w').
Qed.

Lemma sendingOf_insert ws i w w' :
  ws !! i = Some w →
  option_list (match w with WSend r => Some r | _ => None end)
    ++ sendingOf (<[i:=w']> ws)
  ≡ₚ option_list (match w' with WSend r => Some r | _ => None end) ++ sendingOf ws.
Proof.
  exact (omap_insert_perm (λ w, match w with WSend r => Some r | _ => None end) ws i w w').
Qed.

Lemma all_done_nothing_held ws :
  (∀ i w, ws !! i = Some w → w = WDone) → lookingOf ws = [] ∧ sendingOf ws = [].
Proof.
  induction ws as [|w ws IH]; [done|]. intros H.
  rewrite (H 0%nat w eq_refl). cbn. apply IH. intros i w'. apply (H (S i)).
Qed.

Lemma forallb_isDone ws :
  forallb isDone ws = true → ∀ i w, ws !! i = Some w → w = WDone.
Proof.
  induction ws as [|w ws IH]; [done|]. cbn [forallb]. intros [Hw Hws]%andb_prop.
  intros [|i] w'; cbn.
  - intros [= <-]. by destruct w.
  - by apply IH.
Qed.

Lemma replicate_nothing_held n :
  lookingOf (replicate n WRange) = [] ∧ sendingOf (replicate n WRange) = [].
Proof. induction n as [|n IH]; [done|]. apply IH. Qed.

Lemma sameOutcome_refl r : sameOutcome r r.
Proof. destruct r; cbn; done. Qed.

Lemma sameOutcome_sym r1 r2 : sameOutcome r1 r2 → sameOutcome r2 r1.
Proof. destruct r1, r2; cbn; try done. Qed.

Lemma sameOutcome_trans r1 r2 r3 :
  sameOutcome r1 r2 → sameOutcome r2 r3 → sameOutcome r1 r3.
Proof.
  destruct r1, r2, r3; cbn; try done.
  - intros H1 H2. by rewrite H1.
  - congruence.
Qed.

Section Facts.
Context {R : Type}.
Variable LookupHost : R → string → Z → option error * R.

Lemma step_running c a s s' : step LookupHost c a s = Some s' → status s = Running.
Proof. unfold step. by destruct (status s). Qed.

Lemma step_stopped c a s : status s ≠ Running → step LookupHost c a s = None.
Proof. unfold step. by destruct (status s). Qed.

Lemma run_stopped c acts s s' :
  status s ≠ Running → run LookupHost c acts s = Some s' → acts = [] ∧ s' = s.
Proof.
  intros Hs. destruct acts as [|a rest]; cbn [run].
  - by intros [= ->].
  - by rewrite step_stopped.
Qed.

Lemma run_app c acts1 acts2 s :
  run LookupHost c (acts1 ++ acts2) s =
  match run LookupHost c acts1 s with
  | Some s1 => run LookupHost c acts2 s1
  | None => None
  end.
Proof.
  revert s. induction acts1 as [|a rest IH]; intros s; cbn [run app]; [done|].
  destruct (step LookupHost c a s); [apply IH|done].
Qed.

(** An invariant of every step is an invariant of every run. *)
Lemma run_invariant (P : state → Prop) c :
  (∀ a s s', step LookupHost c a s = Some s' → P s → P s') →
  ∀ acts s s', run LookupHost c acts s = Some s' → P s → P s'.
Proof.
  intros Hstep acts. induction acts as [|a rest IH]; intros s s'; cbn [run].
  - by intros [= ->].
  - destruct (step LookupHost c a s) as [s1|] eqn:E; [|done]. eauto.
Qed.

Lemma stepWorker_frame c i s s' :
  stepWorker LookupHost c i s = Some s' →
  status s' = status s ∧ received s' = received s ∧ validNames s' = validNames s
  ∧ called s' = called s ∧ output s' = output s ∧ feed s' = feed s
  ∧ jobsClosed s' = jobsClosed s ∧ resultsClosed s' = resultsClosed s.
Proof.
  unfold stepWorker. destruct (workers s !! i) as [[| name | res |]|]; try done.
  - destruct (jobs s); [destruct (jobsClosed s) eqn:E|]; [| done |]; by intros [= <-].
  - destruct (dnsLookup _ _ _ _). by intros [= <-].
  - destruct (_ <? _); [|done]. by intros [= <-].
Qed.

Lemma consumerInv_step c a s s' :
  step LookupHost c a s = Some s' → consumerInv c s → consumerInv c s'.
Proof.
  intros Hstep. pose proof (step_running _ _ _ _ Hstep) as Hrun.
  unfold step in Hstep. rewrite Hrun in Hstep.
  unfold consumerInv at 1. rewrite Hrun. intros (Hnb & Hv & Hc).
  destruct a as [|i| | |].
  - unfold stepFeeder in Hstep.
    destruct (feed s); [destruct (jobsClosed s)|destruct (_ <? _)];
      try done; injection Hstep as <-; unfold consumerInv; cbn; by rewrite Hrun.
  - apply stepWorker_frame in Hstep as (Hs & Hr & Hvn & Hca & _).
    unfold consumerInv. by rewrite Hs, Hrun, Hr, Hvn, Hca.
  - unfold stepCloser in Hstep.
    destruct (resultsClosed s); [done|]. destruct (forallb _ _); [|done].
    injection Hstep as <-. unfold consumerInv; cbn; by rewrite Hrun.
  - injection Hstep as <-. unfold consumerInv; cbn; by rewrite Hrun.
  - unfold stepConsumer in Hstep. destruct (results s) as [|name rest].
    + destruct (resultsClosed s); [|done]. injection Hstep as <-.
      by unfold consumerInv; cbn.
    + injection Hstep as <-. unfold consumeOne, consumerInv.
      destruct (String.eqb_spec name "") as [->|Hne]; cbn.
      * rewrite Hrun, kept_snoc, app_nil_r. cbn.
        split; [|done]. rewrite elem_of_app, list_elem_of_singleton.
        by intros [?|?].
      * destruct (String.eqb_spec name breakout) as [->|Hnb']; cbn.
        -- split; [done|]. exists (received s), (output s). by rewrite Hv, Hc.
        -- assert (isName name = true) as Hn.
           { unfold isName. destruct (String.eqb_spec name ""); [done|].
             by destruct (String.eqb_spec name breakout). }
           destruct (hasCallback c); cbn; rewrite Hrun, kept_snoc, Hn, Hv, ?Hc;
             (split; [|done]); rewrite elem_of_app, list_elem_of_singleton;
             by intros [?|?].
Qed.

(** The enabled steps, one equation each. *)
Lemma step_feeder_push c (s : @state R) x rest :
  status s = Running → feed s = x :: rest → Z.of_nat (length (jobs s)) < cap c →
  step LookupHost c AFeeder s = Some (set_feed rest (set_jobs (jobs s ++ [x]) s)).
Proof.
  intros Hst Hfeed Hlt. unfold step, stepFeeder. rewrite Hst, Hfeed.
  by rewrite (proj2 (Z.ltb_lt _ _) Hlt).
Qed.

Lemma step_worker_recv c i (s : @state R) name rest :
  status s = Running → workers s !! i = Some WRange → jobs s = name :: rest →
  step LookupHost c (AWorker i) s
  = Some (set_jobs rest (set_workers (<[i := WLookup name]> (workers s)) s)).
Proof. intros Hst Hw Hjobs. unfold step, stepWorker. by rewrite Hst, Hw, Hjobs. Qed.

Lemma step_worker_lookup c i (s : @state R) name res r' :
  status s = Running → workers s !! i = Some (WLookup name) →
  dnsLookup LookupHost (resolver s) name (lookupTimeout c) = (res, r') →
  step LookupHost c (AWorker i) s
  = Some (set_resolver r' (set_looked (looked s ++ [name])
            (set_workers (<[i := WSend res]> (workers s)) s))).
Proof. intros Hst Hw Hlook. unfold step, stepWorker. by rewrite Hst, Hw, Hlook. Qed.

Lemma step_worker_send c i (s : @state R) res :
  status s = Running → workers s !! i = Some (WSend res) →
  Z.of_nat (length (results s)) < cap c →
  step LookupHost c (AWorker i) s
  = Some (set_results (results s ++ [res]) (set_done (wrap64 (done s + 1))
            (set_workers (<[i := WRange]> (workers s)) s))).
Proof.
  intros Hst Hw Hlt. unfold step, stepWorker. rewrite Hst, Hw.
  by rewrite (proj2 (Z.ltb_lt _ _) Hlt).
Qed.

Lemma step_consumer_recv c (s : @state R) name rest :
  status s = Running → results s = name :: rest →
  step LookupHost c AConsumer s
  = Some (consumeOne c name (set_results rest (set_received (received s ++ [name]) s))).
Proof. intros Hst Hres. unfold step, stepConsumer. by rewrite Hst, Hres. Qed.

(** One name through the pipeline: fed, received by worker 0, looked
    up, sent, consumed. *)
Lemma run_one_name c k x rest (s : @state R) :
  0 < cap c → quiescent (S k) s → feed s = x :: rest →
  ∃ s', run LookupHost c [AFeeder; AWorker 0; AWorker 0; AWorker 0; AConsumer] s = Some s'
        ∧ feed s' = rest
        ∧ (status s' ≠ Running ∨ quiescent (S k) s').
Proof.
  intros Hcap (Hst & Hjobs & Hres & Hjc & Hrc & Hws) Hfeed.
  destruct s as [r fd jc jb ws rs rc d vn cl out st lk rcv]. cbn in *. subst.
  destruct (dnsLookup LookupHost r x (lookupTimeout c)) as [res r'] eqn:Hlook.
  cbn [run].
  erewrite step_feeder_push by (sstate; cbn [length]; done || lia). sstate.
  erewrite step_worker_recv by (sstate; done). sstate.
  erewrite step_worker_lookup by (sstate; done). sstate.
  erewrite step_worker_send by (sstate; cbn [length]; done || lia). sstate.
  erewrite step_consumer_recv by (sstate; done). sstate.
  unfold consumeOne.
  destruct (String.eqb res "").
  { eexists. split; [done|]. split; [done|]. right. by repeat split. }
  destruct (String.eqb res breakout).
  { eexists. split; [done|]. split; [done|]. by left. }
  destruct (hasCallback c); eexists; (split; [done|]); (split; [done|]);
    right; by repeat split.
Qed.

Lemma run_workers_done c m : ∀ j (s : @state R),
  status s = Running → jobs s = [] → jobsClosed s = true →
  workers s = replicate j WDone ++ replicate m WRange →
  ∃ s', run LookupHost c (map AWorker (seq j m)) s = Some s'
        ∧ workers s' = replicate (j + m) WDone
        ∧ status s' = Running ∧ results s' = results s
        ∧ resultsClosed s' = resultsClosed s ∧ validNames s' = validNames s.
Proof.
  induction m as [|m IH]; intros j s Hst Hjobs Hjc Hws.
  - exists s. rewrite Nat.add_0_r. cbn in Hws. rewrite app_nil_r in Hws. done.
  - cbn [seq map run]. unfold step. rewrite Hst. unfold stepWorker.
    assert (workers s !! j = Some WRange) as ->.
    { rewrite Hws, lookup_app_r by (rewrite length_replicate; lia).
      rewrite length_replicate, Nat.sub_diag. done. }
    rewrite Hjobs, Hjc.
    destruct (IH (S j) (set_workers (<[j:=WDone]> (workers s)) s))
      as (s' & Hrun & Hws' & Hst' & Hres' & Hrc' & Hvn'); try done.
    { sstate. rewrite Hws. 
      rewrite insert_app_r_alt by (rewrite length_replicate; lia).
      rewrite length_replicate, Nat.sub_diag. cbn [replicate insert list_insert].
      change (WDone :: replicate j WDone) with (replicate (S j) WDone).
      rewrite replicate_S_end. by rewrite <- app_assoc. }
    exists s'. split; [done|]. rewrite <- Nat.add_succ_comm. done.
Qed.

Lemma run_shutdown c n (s : @state R) :
  quiescent n s → feed s = [] →
  ∃ s', run LookupHost c (shutdown n) s = Some s' ∧ status s' = Returned
        ∧ validNames s' = validNames s.
Proof.
  intros (Hst & Hjobs & Hres & Hjc & Hrc & Hws) Hfeed.
  unfold shutdown. cbn [app run]. unfold step at 1. rewrite Hst.
  unfold stepFeeder. rewrite Hfeed, Hjc.
  rewrite run_app.
  destruct (run_workers_done c n 0%nat (set_jobsClosed true s))
    as (s1 & -> & Hws1 & Hst1 & Hres1 & Hrc1 & Hvn1); try done.
  cbn [run]. unfold step. rewrite Hst1. unfold stepCloser.
  sstate in Hrc1. rewrite Hrc1, Hrc, Hws1.
  assert (forallb isDone (replicate (0 + n) WDone) = true) as ->.
  { clear. induction n as [|n IH]; [done|]. apply IH. }
  sstate. unfold stepConsumer. sstate. sstate in Hres1. rewrite Hres1, Hres.
  rewrite Hst1. eexists. split; [done|]. sstate. done.
Qed.

(** From a quiescent state with at least one worker there is a schedule
    that runs the batch to its end. *)
Lemma run_to_end c k : ∀ l (s : @state R),
  0 < cap c → quiescent (S k) s → feed s = l →
  ∃ acts s', run LookupHost c acts s = Some s' ∧ status s' ≠ Running.
Proof.
  induction l as [|x rest IH]; intros s Hcap Hq Hfeed.
  - destruct (run_shutdown c (S k) s Hq Hfeed) as (s' & Hrun & Hst & _).
    exists (shutdown (S k)), s'. by rewrite Hst.
  - destruct (run_one_name c k x rest s Hcap Hq Hfeed) as (s1 & Hrun1 & Hfeed1 & [Hend|Hq1]).
    + by exists [AFeeder; AWorker 0; AWorker 0; AWorker 0; AConsumer], s1.
    + destruct (IH s1 Hcap Hq1 Hfeed1) as (acts & s' & Hrun & Hend).
      exists ([AFeeder; AWorker 0; AWorker 0; AWorker 0; AConsumer] ++ acts), s'.
      rewrite run_app, Hrun1. done.
Qed.

(** With no worker the closer closes the result queue at once, and the
    consuming loop returns. *)
Lemma run_no_worker c (s : @state R) :
  quiescent 0 s →
  ∃ s', run LookupHost c [ACloser; AConsumer] s = Some s' ∧ status s' = Returned.
Proof.
  intros (Hst & Hjobs & Hres & Hjc & Hrc & Hws).
  cbn [run]. unfold step. rewrite Hst. unfold stepCloser. rewrite Hrc, Hws.
  cbn [replicate forallb]. sstate. rewrite Hst. unfold stepConsumer. sstate.
  rewrite Hres. eexists. split; [done|]. done.
Qed.

Variable systemResolver : R.
Variable newResolver : list string → R.
Variable ReadNameservers : string → option (list string).

Local Abbreviation start := (start systemResolver newResolver ReadNameservers).
Local Abbreviation FastDNSLookup :=
  (FastDNSLookup LookupHost systemResolver newResolver ReadNameservers).

(** What the prologue hands to the pipeline. *)
Lemma start_inr names ns nsf cb threads c s0 :
  start names ns nsf cb threads = inr (c, s0) →
  ∃ custom r t out,
    selectResolver systemResolver newResolver ReadNameservers ns nsf
      = UseResolver custom r t ∧
    let filtered := filterValid names in
    let total := Z.of_nat (length filtered) in
    let n := dnsConcurrency threads total in
    filtered ≠ [] ∧ 0 ≤ wrap64 (n * 2) ∧
    c = mkConfig (wrap64 (n * 2)) total t cb ∧
    s0 = mkState r filtered false [] (replicate (Z.to_nat n) WRange)
           [] false 0 [] [] out Running [] [].
Proof.
  unfold start. destruct (_ =? 0); [done|].
  destruct (selectResolver _ _ _ _ _) as [custom r t|]; [|done].
  destruct (Z.eqb_spec (Z.of_nat (length (filterValid names))) 0) as [|Hne]; [done|].
  destruct (Z.ltb_spec (wrap64 (dnsConcurrency threads (Z.of_nat (length (filterValid names))) * 2)) 0);
    [done|].
  intros [= <- <-]. exists custom, r, t. eexists. split; [done|].
  cbn zeta. split; [|done]. intros E. rewrite E in Hne. done.
Qed.

Lemma dnsConcurrency_le threads total :
  dnsConcurrency threads total ≤ 500 ∧ dnsConcurrency threads total ≤ total.
Proof.
  unfold dnsConcurrency.
  destruct (Z.gtb_spec (wrap64 (threads * 10)) 500);
    match goal with |- context [?a >? ?b] => destruct (Z.gtb_spec a b) end; lia.
Qed.

(** Under some schedule the call comes to an end: there is a complete
    execution, whatever the resolver answers. *)
Lemma FastDNSLookup_completes names ns nsf cb threads :
  ∃ sched res, FastDNSLookup names ns nsf cb threads sched = Some res.
Proof.
  unfold DNSBatch.FastDNSLookup.
  destruct (start names ns nsf cb threads) as [early|[c s0]] eqn:Hstart.
  { by exists [], early. }
  apply start_inr in Hstart as (custom & r & t & out & _ & _ & Hcap & -> & ->).
  pose proof (dnsConcurrency_le threads (Z.of_nat (length (filterValid names)))) as [Hle _].
  set (n := dnsConcurrency threads (Z.of_nat (length (filterValid names)))) in *.
  set (c := mkConfig (wrap64 (n * 2)) (Z.of_nat (length (filterValid names))) t cb).
  set (s0 := mkState r (filterValid names) false [] (replicate (Z.to_nat n) WRange)
               [] false 0 [] [] out Running [] []).
  assert (quiescent (Z.to_nat n) s0) as Hq by (by repeat split).
  assert (∃ acts s', run LookupHost c acts s0 = Some s' ∧ status s' ≠ Running)
    as (acts & s' & Hrun & Hend).
  { destruct (Z.to_nat n) as [|k] eqn:Hn.
    - destruct (run_no_worker c s0 Hq) as (s' & Hrun & Hst).
      exists [ACloser; AConsumer], s'. by rewrite Hrun, Hst.
    - apply (run_to_end c k (filterValid names) s0); [|done|done]. cbn [cap c].
      assert (1 ≤ n) by lia. unfold wrap64. rewrite Z.mod_small; lia. }
  exists acts. rewrite Hrun. destruct (status s'); [done| |]; by eexists.
Qed.

Lemma dnsConcurrency_in_range threads total :
  1 ≤ threads → threads * 10 ≤ maxInt64 → 1 ≤ total →
  dnsConcurrency threads total = Z.min 500 (Z.min (Z.max (threads * 10) 1) total)
  ∧ 1 ≤ dnsConcurrency threads total.
Proof.
  intros Ht Hmax Htot. unfold dnsConcurrency.
  rewrite RateLimiterFacts.wrap64_small by (unfold maxInt64 in *; lia).
  destruct (Z.gtb_spec (threads * 10) 500);
    match goal with |- context [?a >? ?b] => destruct (Z.gtb_spec a b) end; lia.
Qed.

(** C6, as the code has it. For at least one caller thread (and
    [threads * 10] within the range of [int]) the pool has
    min(500, threads×10, number of valid names) workers, which is what
    the stated formula gives there and is at least 1; with zero caller
    threads the pool is empty. *)
Theorem dns_worker_pool_size
    (names : list string) (ns nsf : string) (cb : bool) (threads : Z)
    (c : config) (s0 : state) :
  start names ns nsf cb threads = inr (c, s0) →
  let valid := Z.of_nat (length (filterValid names)) in
  (1 ≤ threads → threads * 10 ≤ maxInt64 →
     Z.of_nat (length (workers s0))
       = Z.min 500 (Z.min (Z.max (threads * 10) 1) valid)
     ∧ Z.of_nat (length (workers s0)) = Z.min 500 (Z.min (threads * 10) valid)
     ∧ 1 ≤ Z.of_nat (length (workers s0)))
  ∧ (threads = 0 → workers s0 = []).
Proof.
  intros (custom & r & t & out & _ & Hne & _ & _ & ->)%start_inr valid. sstate.
  rewrite length_replicate. split.
  - intros Ht Hmax.
    assert (1 ≤ valid) as Hvalid.
    { unfold valid. destruct (filterValid names); [done|]. cbn [length]. lia. }
    destruct (dnsConcurrency_in_range threads valid Ht Hmax Hvalid) as [Heq Hone].
    fold valid. rewrite Z2Nat.id by lia. rewrite Heq. lia.
  - intros ->. unfold dnsConcurrency. cbn. by destruct (Z.of_nat _).
Qed.

(** The resolver, the timeout and the banner a batch starts with are
    those of the selection. *)
Lemma start_selection names ns nsf cb threads c (s0 : @state R) :
  start names ns nsf cb threads = inr (c, s0) →
  ∃ custom,
    selectResolver systemResolver newResolver ReadNameservers ns nsf
      = UseResolver custom (resolver s0) (lookupTimeout c)
    ∧ output s0 = (if custom then [OutCustomNS] else [])
                    ++ [OutBruteForcing (Z.of_nat (length names))].
Proof.
  unfold DNSBatch.start. destruct (_ =? 0); [done|].
  destruct (selectResolver _ _ _ _ _) as [custom r t|]; [|done].
  destruct (_ =? 0); [done|]. destruct (_ <? 0); [done|].
  intros [= <- <-]. by exists custom.
Qed.

(** C10. With no nameserver file, the nameserver [""] and the [-ns]
    default ["1.1.1.1"] make [useCustomNS] false, and a batch then runs on
    the system resolver with the 5-second timeout, without the
    custom-nameserver banner. A batch runs on a resolver built by
    [newResolver], with the 3-second timeout, only when a nameserver file
    was given or the nameserver is neither [""] nor ["1.1.1.1"]. *)
Theorem default_nameserver_uses_system_resolver (ns nsf : string) :
  (useCustomNS ns nsf = true ↔ nsf ≠ "" ∨ (ns ≠ "" ∧ ns ≠ "1.1.1.1"))
  ∧ (nsf = "" → ns = "" ∨ ns = nsFlagDefault →
       useCustomNS ns nsf = false
       ∧ ∀ names cb threads c s0,
           start names ns nsf cb threads = inr (c, s0) →
           resolver s0 = systemResolver ∧ lookupTimeout c = 5
           ∧ output s0 = [OutBruteForcing (Z.of_nat (length names))])
  ∧ (∀ names cb threads c s0,
       start names ns nsf cb threads = inr (c, s0) →
       (useCustomNS ns nsf = false ∧ resolver s0 = systemResolver ∧ lookupTimeout c = 5)
       ∨ (useCustomNS ns nsf = true ∧ (nsf ≠ "" ∨ (ns ≠ "" ∧ ns ≠ "1.1.1.1"))
          ∧ (∃ nsList, resolver s0 = newResolver nsList) ∧ lookupTimeout c = 3
          ∧ OutCustomNS ∈ output s0)).
Proof.
  pose proof (DNSFacts.selectResolver_spec systemResolver newResolver ReadNameservers ns nsf)
    as [Hdefault Hsel].
  split; [apply DNSFacts.useCustomNS_true_iff|]. split.
  - intros Hnsf Hns. destruct (Hdefault Hnsf Hns) as [Hcustom Hselect].
    split; [done|]. intros names cb threads c s0 (custom & Hs & Hout)%start_selection.
    rewrite Hselect in Hs. injection Hs as <- <- <-. by rewrite Hout.
  - intros names cb threads c s0 (custom & Hs & Hout)%start_selection.
    specialize (Hsel _ _ _ Hs). destruct custom.
    + right. destruct Hsel as (Ht & Hwhich & Hr).
      split; [by apply DNSFacts.useCustomNS_true_iff|].
      repeat split; try done. rewrite Hout. apply list_elem_of_here.
    + left. destruct Hsel as (Ht & Hr & Hnsf & Hns). split; [|done].
      destruct (useCustomNS ns nsf) eqn:E; [|done].
      apply DNSFacts.useCustomNS_true_iff in E. subst nsf.
      destruct E as [?|[? ?]]; [done|]. by destruct Hns.
Qed.

Lemma consumerInv_start names ns nsf cb threads c s0 :
  start names ns nsf cb threads = inr (c, s0) → consumerInv c s0.
Proof.
  intros (custom & r & t & out & _ & _ & _ & -> & ->)%start_inr.
  unfold consumerInv; cbn. split; [apply not_elem_of_nil|]. by destruct cb.
Qed.

Lemma handled_step c a (s s' : @state R) :
  step LookupHost c a s = Some s' → ∀ n, n ∈ handled s' → n ∈ handled s.
Proof.
  unfold step. destruct (status s); try done. unfold handled.
  destruct a as [|i| | |].
  - unfold stepFeeder. destruct (feed s) as [|x rest] eqn:Hfeed.
    + destruct (jobsClosed s); [done|]. intros [= <-] n. sstate. by rewrite Hfeed.
    + destruct (_ <? _); [|done]. intros [= <-] n. sstate.
      rewrite !elem_of_app, list_elem_of_singleton, elem_of_cons. tauto.
  - unfold stepWorker. destruct (workers s !! i) as [[|name|res|]|] eqn:Hi; try done.
    + destruct (jobs s) as [|name rest] eqn:Hjobs.
      * destruct (jobsClosed s); [|done]. intros [= <-] n. sstate.
        rewrite !elem_of_app, Hjobs.
        intros [?|[[[=]|?]%ListFacts.omap_insert_elem|?]]; tauto.
      * intros [= <-] n. sstate. rewrite !elem_of_app, elem_of_cons.
        intros [?|[[[= <-]|?]%ListFacts.omap_insert_elem|?]]; tauto.
    + destruct (dnsLookup _ _ _ _). intros [= <-] n. sstate.
      rewrite !elem_of_app, list_elem_of_singleton.
      intros [[?| ->]|[[[=]|?]%ListFacts.omap_insert_elem|?]]; try tauto.
      right. left. apply list_elem_of_omap. exists (WLookup name).
      split; [|done]. apply list_elem_of_lookup. by exists i.
    + destruct (_ <? _); [|done]. intros [= <-] n. sstate.
      rewrite !elem_of_app.
      intros [?|[[[=]|?]%ListFacts.omap_insert_elem|?]]; tauto.
  - unfold stepCloser. destruct (resultsClosed s); [done|].
    destruct (forallb _ _); [|done]. by intros [= <-].
  - by intros [= <-].
  - unfold stepConsumer. destruct (results s) as [|name rest].
    + destruct (resultsClosed s); [|done]. by intros [= <-].
    + intros [= <-] n. unfold consumeOne.
      destruct (String.eqb name ""); [done|].
      destruct (String.eqb name breakout); [done|].
      by destruct (hasCallback c).
Qed.

Lemma output_step c a (s s' : @state R) :
  step LookupHost c a s = Some s' →
  Forall (showsTotal c) (output s) → Forall (showsTotal c) (output s').
Proof.
  unfold step. destruct (status s); try done.
  destruct a as [|i| | |].
  - unfold stepFeeder. destruct (feed s).
    + destruct (jobsClosed s); [done|]. by intros [= <-].
    + destruct (_ <? _); [|done]. by intros [= <-].
  - by intros (_ & _ & _ & _ & -> & _)%stepWorker_frame.
  - unfold stepCloser. destruct (resultsClosed s); [done|].
    destruct (forallb _ _); [|done]. by intros [= <-].
  - intros [= <-] H. sstate. apply Forall_app. split; [done|]. by constructor.
  - unfold stepConsumer. destruct (results s) as [|name rest].
    + destruct (resultsClosed s); [|done]. intros [= <-] H. sstate.
      apply Forall_app. split; [done|]. by repeat constructor.
    + intros [= <-] H. unfold consumeOne.
      destruct (String.eqb name ""); [done|].
      destruct (String.eqb name breakout).
      * sstate. apply Forall_app. split; [done|]. by repeat constructor.
      * by destruct (hasCallback c).
Qed.

(** The lines of the prologue are not progress lines. *)
Lemma start_output names ns nsf cb threads c (s0 : @state R) :
  start names ns nsf cb threads = inr (c, s0) → Forall (showsTotal c) (output s0).
Proof.
  unfold DNSBatch.start. destruct (_ =? 0); [done|].
  destruct (selectResolver _ _ _ _ _) as [custom r t|]; [|done].
  destruct (_ =? 0); [done|]. destruct (_ <? 0); [done|].
  intros [= <- <-]. sstate. by destruct custom; repeat constructor.
Qed.

(** The DNS half of C7. *)
Lemma dns_invalid_never_looked_up names ns nsf cb threads c s0 acts (s : @state R) :
  start names ns nsf cb threads = inr (c, s0) →
  run LookupHost c acts s0 = Some s →
  total c = Z.of_nat (length (filter (λ n, IsValidDomain n = true) names))
  ∧ (∀ n, n ∈ handled s → IsValidDomain n = true ∧ n ∈ names)
  ∧ Forall (showsTotal c) (output s).
Proof.
  intros Hstart Hrun. pose proof (start_output _ _ _ _ _ _ _ Hstart) as Hout.
  apply start_inr in Hstart as (custom & r & t & out & _ & _ & _ & -> & ->).
  split; [by rewrite <- DomainFacts.filterValid_filter|].
  split.
  - intros n Hn. apply DomainFacts.elem_of_filterValid.
    revert n Hn.
    apply (run_invariant (λ s, ∀ n, n ∈ handled s → n ∈ filterValid names) _
             (λ a s s' Hs H n Hn, H n (handled_step _ a s s' Hs n Hn)) acts _ s Hrun).
    intros n. unfold handled. sstate.
    destruct (replicate_nothing_held
      (Z.to_nat (dnsConcurrency threads (Z.of_nat (length (filterValid names))))))
      as [-> _].
    by rewrite !app_nil_l.
  - apply (run_invariant _ _ (output_step _) acts _ s Hrun). sstate.
    by apply Hout.
Qed.

(** C2. Once the consuming loop has received a fatal outcome, the
    process has exited with code 1 right after printing the two lines of
    guidance: the fatal outcome is the last value ever received, only
    the names received before it were passed to the callback, no
    goroutine takes another step, and the call returns no list. *)
Theorem fatal_outcome_terminates_process
    (names : list string) (ns nsf : string) (cb : bool) (threads : Z)
    (c : config) (s0 : state) (acts : list action) (s : state) :
  start names ns nsf cb threads = inr (c, s0) →
  run LookupHost c acts s0 = Some s →
  breakout ∈ received s →
  status s = Exited 1
  ∧ (∃ pre out, received s = pre ++ [breakout] ∧ (breakout ∉ pre) ∧
                validNames s = kept pre ∧
                called s = (if cb then kept pre else []) ∧
                output s = out ++ [OutErrorQuerying; OutTrySettingNS])
  ∧ (∀ a, step LookupHost c a s = None)
  ∧ FastDNSLookup names ns nsf cb threads acts = Some (Exit 1).
Proof.
  intros Hstart Hrun Hin.
  assert (consumerInv c s) as Hinv.
  { apply (run_invariant (consumerInv c) c (consumerInv_step c) acts s0 s Hrun).
    by eapply consumerInv_start. }
  assert (hasCallback c = cb) as Hcb.
  { apply start_inr in Hstart as (? & ? & ? & ? & _ & _ & _ & -> & _). done. }
  unfold consumerInv in Hinv.
  destruct (status s) as [|code|] eqn:Hst; [by destruct Hinv| |by destruct Hinv].
  destruct Hinv as (-> & pre & out & Hrec & Hpre & Hv & Hc & Hout).
  split; [done|]. split.
  { exists pre, out. by rewrite <- Hcb. }
  split.
  { intros a. apply step_stopped. by rewrite Hst. }
  unfold DNSBatch.FastDNSLookup. by rewrite Hstart, Hrun, Hst.
Qed.

End Facts.

Section Deterministic.
Context {R : Type}.
Variable LookupHost : R → string → Z → option error * R.
Variable oracle : string → option error.
Hypothesis Hdet : ∀ r n t, (LookupHost r n t).1 = oracle n.

Local Abbreviation resolve := (resolveWith oracle).

Lemma consumeOne_frame c name (s : @state R) :
  let s' := consumeOne c name s in
  feed s' = feed s ∧ jobs s' = jobs s ∧ workers s' = workers s
  ∧ results s' = results s ∧ received s' = received s
  ∧ jobsClosed s' = jobsClosed s ∧ resultsClosed s' = resultsClosed s
  ∧ (status s = Running → status s' ≠ Returned).
Proof.
  unfold consumeOne. destruct (String.eqb name ""); [by repeat split; try congruence|].
  destruct (String.eqb name breakout); [done|].
  destruct (hasCallback c); cbn; repeat split; congruence.
Qed.

Lemma pipelineInv_feeder F n c (s s' : @state R) :
  stepFeeder c s = Some s' → pipelineInv resolve F n s → pipelineInv resolve F n s'.
Proof.
  unfold stepFeeder. intros Hstep [Hperm Hw Hjc Hd Hrc Hret Hidle].
  destruct (feed s) as [|x rest] eqn:Hfeed.
  - destruct (jobsClosed s) eqn:Hclosed; [done|]. injection Hstep as <-.
    split; cbn; try done.
    + by rewrite Hfeed.
    + intros i Hi. by destruct (Hd i Hi).
  - destruct (_ <? _); [|done]. injection Hstep as <-.
    split; cbn; try done.
    + rewrite <- Hperm. repeat (rewrite fmap_app || rewrite fmap_cons). solve_Permutation.
    + intros Hc. by specialize (Hjc Hc).
    + intros i Hi. destruct (Hd i Hi) as [Hc _]. by specialize (Hjc Hc).
Qed.

Lemma pipelineInv_worker F n c i (s s' : @state R) :
  status s = Running →
  stepWorker LookupHost c i s = Some s' →
  pipelineInv resolve F n s → pipelineInv resolve F n s'.
Proof.
  unfold stepWorker. intros Hrun Hstep [Hperm Hw Hjc Hd Hrc Hret Hidle].
  destruct (workers s !! i) as [w|] eqn:Hi; [|done].
  pose proof (λ w', lookingOf_insert (workers s) i w w' Hi) as HL.
  pose proof (λ w', sendingOf_insert (workers s) i w w' Hi) as HS.
  assert (resultsClosed s = true → w = WDone) as Hrc' by (intros Hc; by eapply Hrc).
  assert (∀ w' j, w' ≠ WDone → <[i:=w']> (workers s) !! j = Some WDone →
                  workers s !! j = Some WDone) as Hother.
  { intros w' j Hne [(_ & -> & _)|[_ Hj]]%list_lookup_insert_Some; done. }
  assert (n ≠ 0%nat) as Hn.
  { intros ->. apply lookup_lt_Some in Hi. lia. }
  destruct w as [|name|res|]; [| | |done].
  - destruct (jobs s) as [|name rest] eqn:Hjobs.
    + destruct (jobsClosed s) eqn:Hclosed; [|done]. injection Hstep as <-.
      specialize (HL WDone). specialize (HS WDone). cbn [option_list option_rect app] in HL, HS.
      split; sstate.
      * by rewrite Hjobs, HL, HS.
      * by rewrite length_insert.
      * eauto.
      * by rewrite Hjobs.
      * intros Hc. by specialize (Hrc' Hc).
      * eauto.
      * eauto.
    + injection Hstep as <-.
      specialize (HL (WLookup name)). specialize (HS (WLookup name)).
      cbn [option_list option_rect app] in HL, HS.
      split; sstate.
      * rewrite <- Hperm, HL, HS. repeat (rewrite fmap_app || rewrite fmap_cons).
        solve_Permutation.
      * by rewrite length_insert.
      * eauto.
      * intros j Hj. apply Hother in Hj; [|done]. by destruct (Hd j Hj) as [_ Hnil].
      * intros Hc. by specialize (Hrc' Hc).
      * eauto.
      * eauto.
  - pose proof (DNSFacts.dnsLookup_deterministic LookupHost oracle Hdet (resolver s) name
                  (lookupTimeout c)) as Hres.
    destruct (dnsLookup LookupHost (resolver s) name (lookupTimeout c)) as [res r'].
    cbn [fst] in Hres. subst res. injection Hstep as <-.
    specialize (HL (WSend (resolve name))). specialize (HS (WSend (resolve name))).
    cbn [option_list option_rect app] in HL, HS.
    split; sstate.
    + rewrite <- Hperm, <- HL, HS. repeat (rewrite fmap_app || rewrite fmap_cons).
      solve_Permutation.
    + by rewrite length_insert.
    + eauto.
    + intros j Hj. apply Hother in Hj; [|done]. by apply (Hd j).
    + intros Hc. by specialize (Hrc' Hc).
    + eauto.
    + eauto.
  - destruct (_ <? _); [|done]. injection Hstep as <-.
    specialize (HL WRange). specialize (HS WRange). cbn [option_list option_rect app] in HL, HS.
    split; sstate.
    + rewrite <- Hperm, HL, <- HS. solve_Permutation.
    + by rewrite length_insert.
    + eauto.
    + intros j Hj. apply Hother in Hj; [|done]. by apply (Hd j).
    + intros Hc. by specialize (Hrc' Hc).
    + intros Hst. congruence.
    + done.
Qed.

Lemma pipelineInv_consumer F n c (s s' : @state R) :
  status s = Running →
  stepConsumer c s = Some s' →
  pipelineInv resolve F n s → pipelineInv resolve F n s'.
Proof.
  unfold stepConsumer. intros Hrun Hstep [Hperm Hw Hjc Hd Hrc Hret Hidle].
  destruct (results s) as [|name rest] eqn:Hres.
  - destruct (resultsClosed s) eqn:Hclosed; [|done]. injection Hstep as <-.
    split; sstate; rewrite ?Hres, ?Hclosed; eauto.
  - injection Hstep as <-.
    destruct (consumeOne_frame c name
                (set_results rest (set_received (received s ++ [name]) s)))
      as (Hf & Hj & Hws & Hr & Hrec & Hjcl & Hrcl & Hst).
    sstate in Hf. sstate in Hj. sstate in Hws. sstate in Hr. sstate in Hrec.
    sstate in Hjcl. sstate in Hrcl. sstate in Hst.
    split; rewrite ?Hf, ?Hj, ?Hws, ?Hr, ?Hrec, ?Hjcl, ?Hrcl; eauto.
    + rewrite <- Hperm. solve_Permutation.
    + intros Hret'. by destruct (Hst Hrun).
    + intros Hn. by destruct (Hidle Hn).
Qed.

Lemma pipelineInv_step F n c a (s s' : @state R) :
  step LookupHost c a s = Some s' →
  pipelineInv resolve F n s → pipelineInv resolve F n s'.
Proof.
  intros Hstep. pose proof (step_running _ _ _ _ _ Hstep) as Hrun.
  unfold step in Hstep. rewrite Hrun in Hstep.
  destruct a as [|i| | |].
  - by apply pipelineInv_feeder with (c := c).
  - by apply pipelineInv_worker with (c := c) (i := i).
  - unfold stepCloser in Hstep. intros [Hperm Hw Hjc Hd Hrc Hret Hidle].
    destruct (resultsClosed s) eqn:Hclosed; [done|].
    destruct (forallb isDone (workers s)) eqn:Hall; [|done]. injection Hstep as <-.
    split; sstate; eauto.
    + intros _. by apply forallb_isDone.
    + intros Hst. congruence.
  - injection Hstep as <-. intros [Hperm Hw Hjc Hd Hrc Hret Hidle].
    split; sstate; eauto.
  - by apply pipelineInv_consumer with (c := c).
Qed.

Variable systemResolver : R.
Variable newResolver : list string → R.
Variable ReadNameservers : string → option (list string).

Local Abbreviation start := (start systemResolver newResolver ReadNameservers).
Local Abbreviation FastDNSLookup :=
  (FastDNSLookup LookupHost systemResolver newResolver ReadNameservers).

Lemma pipelineInv_start names ns nsf cb threads c s0 :
  start names ns nsf cb threads = inr (c, s0) →
  pipelineInv resolve (filterValid names)
    (Z.to_nat (dnsConcurrency threads (Z.of_nat (length (filterValid names))))) s0.
Proof.
  intros (custom & r & t & out & _ & _ & _ & _ & ->)%start_inr.
  destruct (replicate_nothing_held
              (Z.to_nat (dnsConcurrency threads (Z.of_nat (length (filterValid names))))))
    as [HL HS].
  split; sstate; try done.
  - rewrite HL, HS. by rewrite !app_nil_r.
  - apply length_replicate.
  - intros i [[=] _]%lookup_replicate.
Qed.

Lemma terminal_expected F n c (s : @state R) :
  pipelineInv resolve F n s → consumerInv c s →
  match status s with
  | Running => True
  | Returned =>
      match n with
      | O => validNames s = []
      | S _ => (breakout ∉ resolve <$> F) ∧ validNames s ≡ₚ kept (resolve <$> F)
      end
  | Exited code => code = 1 ∧ n ≠ 0%nat ∧ breakout ∈ resolve <$> F
  end.
Proof.
  intros [Hperm Hw Hjc Hd Hrc Hret Hidle]. unfold consumerInv.
  destruct (status s) as [|code|] eqn:Hst; [done| |].
  - intros (-> & pre & out & Hrec & _). split; [done|].
    assert (breakout ∈ resolve <$> F) as Hin.
    { rewrite <- Hperm, Hrec. rewrite !elem_of_app, list_elem_of_singleton. auto. }
    split; [|done]. intros ->. destruct (Hidle eq_refl) as [_ Hnil].
    rewrite Hnil in Hrec. by destruct pre.
  - intros (Hnb & Hv & _). destruct (Hret eq_refl) as [Hres Hclosed].
    destruct n as [|n'].
    + destruct (Hidle eq_refl) as [_ Hnil]. by rewrite Hv, Hnil.
    + specialize (Hrc Hclosed).
      destruct (workers s) as [|w ws] eqn:Hws; [done|].
      pose proof (Hrc 0%nat w eq_refl) as ->.
      destruct (Hd 0%nat eq_refl) as [Hjcl Hjobs].
      destruct (all_done_nothing_held _ Hrc) as [HL HS].
      rewrite (Hjc Hjcl), Hjobs, HL, HS, Hres in Hperm. cbn in Hperm.
      split; [by rewrite <- Hperm|]. rewrite Hv. unfold kept. by rewrite Hperm.
Qed.

Lemma FastDNSLookup_expected names ns nsf cb threads sched res :
  FastDNSLookup names ns nsf cb threads sched = Some res →
  match start names ns nsf cb threads with
  | inl early => res = early
  | inr _ => sameOutcome res (expected resolve names threads)
  end.
Proof.
  unfold DNSBatch.FastDNSLookup.
  destruct (start names ns nsf cb threads) as [early|[c s0]] eqn:Hstart;
    [by intros [= <-]|].
  destruct (run LookupHost c sched s0) as [s|] eqn:Hrun; [|done].
  pose proof (run_invariant LookupHost _ c (pipelineInv_step _ _ c) sched s0 s Hrun
                (pipelineInv_start _ _ _ _ _ _ _ Hstart)) as Hpipe.
  pose proof (run_invariant LookupHost _ c (consumerInv_step LookupHost c) sched s0 s Hrun
                (consumerInv_start _ _ _ _ _ _ _ _ _ _ Hstart)) as Hcons.
  pose proof (terminal_expected _ _ _ _ Hpipe Hcons) as Hterm.
  unfold expected.
  destruct (status s) as [|code|]; [done| |].
  - destruct Hterm as (-> & Hn & Hin). intros [= <-].
    destruct (Z.to_nat _); [done|]. rewrite decide_True by done. by cbn.
  - intros [= <-]. destruct (Z.to_nat _).
    + rewrite Hterm. by cbn.
    + destruct Hterm as [Hnot Hperm]. rewrite decide_False by done. by cbn.
Qed.

(** C8. Against a resolver that always gives the same answer for a
    name, a call of [FastDNSLookup] comes to an end under some schedule,
    and any two complete executions on the same list agree: both return,
    with the same names up to order (hence the same set), or both end
    the process. *)
Theorem FastDNSLookup_idempotent
    (names : list string) (ns nsf : string) (cb : bool) (threads : Z) :
  (∃ sched res, FastDNSLookup names ns nsf cb threads sched = Some res)
  ∧ ∀ sched1 sched2 res1 res2,
      FastDNSLookup names ns nsf cb threads sched1 = Some res1 →
      FastDNSLookup names ns nsf cb threads sched2 = Some res2 →
      sameOutcome res1 res2
      ∧ ∀ l1 l2, res1 = Return l1 → res2 = Return l2 →
                 l1 ≡ₚ l2 ∧ ∀ x, x ∈ l1 ↔ x ∈ l2.
Proof.
  split; [apply FastDNSLookup_completes|].
  intros sched1 sched2 res1 res2 H1 H2.
  assert (sameOutcome res1 res2) as Hsame.
  { apply FastDNSLookup_expected in H1, H2.
    destruct (start names ns nsf cb threads).
    - subst. apply sameOutcome_refl.
    - eapply sameOutcome_trans; [done|]. by apply sameOutcome_sym. }
  split; [done|]. intros l1 l2 -> ->. cbn in Hsame.
  split; [done|]. intros x. by rewrite Hsame.
Qed.

End Deterministic.

Lemma FastDNSLookup_idempotent_witness :
  (∀ r n t, (fooLookup r n t).1 = fooOracle n)
  ∧ FastDNSLookup fooLookup tt (λ _, tt) noFile fooBar "" "" true 1
      (oneByOne 2 ++ shutdown 2) = Some (Return ["foo.example.com"])
  ∧ FastDNSLookup fooLookup tt (λ _, tt) noFile fooBar "" "" true 1 crossed
      = Some (Return ["foo.example.com"])
  ∧ sameOutcome (Return ["foo.example.com"]) (Return ["foo.example.com"]).
Proof.
  split; [done|]. split; [by vm_compute|]. split; [by vm_compute|].
  apply (proj2 (FastDNSLookup_idempotent fooLookup fooOracle (λ _ _ _, eq_refl) tt
                  (λ _, tt) noFile fooBar "" "" true 1)
           (oneByOne 2 ++ shutdown 2) crossed);
    by vm_compute.
Defined.

Lemma fatal_outcome_witness :
  start tt (λ _, tt) noFile ["db.example.com"] "" "" true 1 = inr fatalStart
  ∧ run fatalLookup fatalStart.1 (oneByOne 1) fatalStart.2 = Some fatalEnd
  ∧ breakout ∈ received fatalEnd
  ∧ status fatalEnd = Exited 1
  ∧ FastDNSLookup fatalLookup tt (λ _, tt) noFile ["db.example.com"] "" "" true 1
      (oneByOne 1) = Some (Exit 1).
Proof.
  assert (start tt (λ _, tt) noFile ["db.example.com"] "" "" true 1
          = inr (fatalStart.1, fatalStart.2)) as Hstart by reflexivity.
  assert (run fatalLookup fatalStart.1 (oneByOne 1) fatalStart.2 = Some fatalEnd)
    as Hrun by reflexivity.
  assert (breakout ∈ received fatalEnd) as Hin by apply list_elem_of_here.
  split; [exact Hstart|]. split; [exact Hrun|]. split; [exact Hin|].
  destruct (fatal_outcome_terminates_process fatalLookup tt (λ _, tt) noFile
              ["db.example.com"] "" "" true 1 _ _ _ _ Hstart Hrun Hin)
    as (Hst & _ & _ & Hres).
  by split.
Defined.

(** C6 fails as stated: with zero caller threads and one valid name the
    stated formula gives one worker, the code spawns none. *)
Lemma no_worker_for_zero_threads :
  ∃ c s0,
    start tt (λ _, tt) noFile ["db.example.com"] "" "" false 0 = inr (c, s0)
    ∧ filterValid ["db.example.com"] = ["db.example.com"]
    ∧ Z.min 500 (Z.min (Z.max (0 * 10) 1) 1) = 1
    ∧ length (workers s0) = 0%nat.
Proof. eexists _, _. by vm_compute. Qed.

Lemma dns_worker_pool_size_witness :
  ∃ c s0,
    start tt (λ _, tt) noFile fooBar "" "" false 25 = inr (c, s0)
    ∧ 1 ≤ 25 ∧ 25 * 10 ≤ maxInt64
    ∧ Z.of_nat (length (workers s0)) = 2.
Proof.
  eexists _, _. split; [by vm_compute|]. split; [lia|]. split; [by vm_compute|].
  edestruct (dns_worker_pool_size tt (λ _, tt) noFile fooBar "" "" false 25)
    as [Hsize _]; [by vm_compute|].
  destruct Hsize as (Heq & _); [lia|by vm_compute|]. rewrite Heq. by vm_compute.
Defined.

Lemma default_nameserver_witness :
  "" = "" ∧ ("1.1.1.1" = "" ∨ "1.1.1.1" = nsFlagDefault)
  ∧ start tt (λ _, tt) noFile ["db.example.com"] "1.1.1.1" "" true 1 = inr fatalStart
  ∧ resolver fatalStart.2 = tt ∧ lookupTimeout fatalStart.1 = 5.
Proof.
  assert ("1.1.1.1" = "" ∨ "1.1.1.1" = nsFlagDefault) as Hns by (by right).
  assert (start tt (λ _, tt) noFile ["db.example.com"] "1.1.1.1" "" true 1
          = inr (fatalStart.1, fatalStart.2)) as Hstart by reflexivity.
  split; [done|]. split; [exact Hns|]. split; [exact Hstart|].
  destruct (proj1 (proj2 (default_nameserver_uses_system_resolver tt (λ _, tt) noFile
                            "1.1.1.1" "")) eq_refl Hns) as [_ Hbatch].
  destruct (Hbatch _ _ _ _ _ Hstart) as (Hr & Ht & _). by split.
Defined.

(** The scenario of the specification: of ["foo.example.com"] and
    ["bar.example.com"] only the first resolves; whatever the order of the
    answers, it is returned and the callback is called once. *)
Example scenario_foo_bar :
  match start tt (λ _, tt) noFile fooBar "" "" true 1 with
  | inr (c, s0) =>
      match run fooLookup c crossed s0 with
      | Some s =>
          status s = Returned ∧ received s = [""; "foo.example.com"]
          ∧ validNames s = ["foo.example.com"] ∧ called s = ["foo.example.com"]
      | None => False
      end
  | inl _ => False
  end.
Proof. by vm_compute. Qed.

End DNSBatchFacts.

(** ** The HTTP batch *)

Module HTTPBatchFacts.
Import Go Domain RateLimiter HTTPBatch Mock.

(** Reduce the projections of an updated state. *)
Tactic Notation "hstate" :=
  cbn [rate aborted feed feedChecked jobsClosed jobs workers results resultsClosed done cbState output status dispatched late delivered set_rate set_aborted set_feed set_feedChecked set_jobsClosed set_jobs set_workers set_results set_resultsClosed set_done set_cbState set_output set_status set_dispatched set_late set_delivered setWorker countDone].
Tactic Notation "hstate" "in" hyp(H) :=
  cbn [rate aborted feed feedChecked jobsClosed jobs workers results resultsClosed done cbState output status dispatched late delivered set_rate set_aborted set_feed set_feedChecked set_jobsClosed set_jobs set_workers set_results set_resultsClosed set_done set_cbState set_output set_status set_dispatched set_late set_delivered setWorker countDone] in H.

Lemma filter_insert_length {A} (P : A → bool) (ws : list A) i w w' :
  ws !! i = Some w →
  (length (filter (λ x, P x = true) (<[i:=w']> ws)) + (if P w then 1 else 0)
   = length (filter (λ x, P x = true) ws) + (if P w' then 1 else 0))%nat.
Proof.
  intros H. pose proof (lookup_lt_Some _ _ _ H) as Hlt.
  rewrite <- (take_drop_middle ws i w H) at 2.
  rewrite insert_take_drop by done.
  rewrite !filter_app, !filter_cons, !length_app.
  destruct (P w), (P w'); repeat case_decide; try done; cbn [length]; lia.
Qed.

Lemma filter_length_le {A} (P : A → Prop) `{∀ x, Decision (P x)} (l : list A) :
  (length (filter P l) ≤ length l)%nat.
Proof.
  induction l as [|x l IH]; [done|]. rewrite filter_cons.
  destruct (decide (P x)); cbn [length]; lia.
Qed.

Lemma wrap64_succ z : wrap64 (wrap64 z + 1) = wrap64 (z + 1).
Proof.
  unfold wrap64. f_equal.
  replace ((z + 2 ^ 63) mod 2 ^ 64 - 2 ^ 63 + 1 + 2 ^ 63)
    with ((z + 2 ^ 63) mod 2 ^ 64 + 1) by lia.
  rewrite Z.add_mod_idemp_l by lia. f_equal. lia.
Qed.

Lemma replicate_no_url n : omap urlOf (replicate n WRange) = [].
Proof. induction n as [|n IH]; [done|]. apply IH. Qed.

Lemma wrap64_range z : inInt64 (wrap64 z).
Proof.
  unfold inInt64, wrap64, maxInt64.
  pose proof (Z.mod_pos_bound (z + 2 ^ 63) (2 ^ 64) ltac:(lia)). lia.
Qed.

Lemma wrap64_add_l a b : wrap64 (wrap64 a + b) = wrap64 (a + b).
Proof.
  unfold wrap64. f_equal.
  replace ((a + 2 ^ 63) mod 2 ^ 64 - 2 ^ 63 + b + 2 ^ 63)
    with ((a + 2 ^ 63) mod 2 ^ 64 + b) by lia.
  rewrite Z.add_mod_idemp_l by lia. f_equal. lia.
Qed.

Section Facts.
Context {CB : Type}.
Variable callback : HttpResult → CB → bool * CB.

Lemma lookup_insert_inv (ws : list wstate) i w' j w0 :
  <[i:=w']> ws !! j = Some w0 → w0 = w' ∨ ws !! j = Some w0.
Proof. intros [(_ & -> & _)|[_ Hj]]%list_lookup_insert_Some; auto. Qed.

Lemma http_step_running c a (s s' : @state CB) :
  step callback c a s = Some s' → status s = Running.
Proof. unfold step. by destruct (status s). Qed.

Lemma http_run_app c acts1 acts2 (s : @state CB) :
  run callback c (acts1 ++ acts2) s =
  match run callback c acts1 s with
  | Some s1 => run callback c acts2 s1
  | None => None
  end.
Proof.
  revert s. induction acts1 as [|a rest IH]; intros s; cbn [run app]; [done|].
  destruct (step callback c a s); [apply IH|done].
Qed.

Lemma http_run_invariant (P : @state CB → Prop) c :
  (∀ a s s', step callback c a s = Some s' → P s → P s') →
  ∀ acts s s', run callback c acts s = Some s' → P s → P s'.
Proof.
  intros Hstep acts. induction acts as [|a rest IH]; intros s s'; cbn [run].
  - by intros [= ->].
  - destruct (step callback c a s) as [s1|] eqn:E; [|done]. eauto.
Qed.

(** A worker whose test finds [aborted] set drains its entry: it counts
    it as done and goes back for the next one; nothing is requested. *)
Lemma aborted_entry_is_drained c i net (s : @state CB) url :
  status s = Running → workers s !! i = Some (WCheck url) → aborted s ≠ 0 →
  step callback c (AWorker i net) s
  = Some (countDone (setWorker i WRange s)).
Proof.
  intros Hst Hw Hab. unfold step, stepWorker. rewrite Hst, Hw.
  by destruct (Z.eqb_spec (aborted s) 0).
Qed.

Lemma abortInv_step c a (s s' : @state CB) :
  step callback c a s = Some s' → abortInv s → abortInv s'.
Proof.
  intros Hstep. pose proof (http_step_running _ _ _ _ Hstep) as Hrun.
  unfold step in Hstep. rewrite Hrun in Hstep. intros [Hlate Hle].
  destruct a as [|i net| | |].
  - unfold stepFeeder in Hstep.
    destruct (feed s); [destruct (jobsClosed s)|destruct (feedChecked s)]; try done.
    + by injection Hstep as <-.
    + destruct (_ <? _); [|done]. by injection Hstep as <-.
    + destruct (negb _); by injection Hstep as <-.
  - unfold stepWorker in Hstep.
    destruct (workers s !! i) as [w|] eqn:Hi; [|done].
    pose proof (λ w', filter_insert_length admitted (workers s) i w w' Hi) as Hins.
    pose proof (filter_length_le (λ w, admitted w = true) (workers s)) as Hbound.
    fold (countAdmitted (workers s)) in Hbound.
    assert (∀ w', (countAdmitted (<[i:=w']> (workers s)) ≤ length (workers s))%nat)
      as Hbound'.
    { intros w'. rewrite <- (length_insert (workers s) i w').
      apply filter_length_le. }
    destruct w as [|url|url|url|url count|url|url|url|r|]; cbn [admitted] in Hins.
    + destruct (jobs s); [destruct (jobsClosed s); [|done]|]; injection Hstep as <-;
        [specialize (Hins WDone)|specialize (Hins (WCheck s0))]; cbn [admitted] in Hins;
        split; hstate; rewrite ?length_insert; try done;
        unfold countAdmitted in *; lia.
    + destruct (Z.eqb_spec (aborted s) 0) as [Hz|Hnz]; injection Hstep as <-.
      * specialize (Hlate Hz). specialize (Hbound' (WRate url)).
        split; hstate; rewrite ?length_insert, ?Hlate; [done|]. cbn [length]. lia.
      * specialize (Hins WRange). cbn [admitted] in Hins.
        split; hstate; rewrite ?length_insert; [done|]. unfold countAdmitted in *. lia.
    + destruct (_ <=? _); [|destruct (negb _)]; injection Hstep as <-; try done;
        [specialize (Hins (WGet url))|specialize (Hins (WRateAdd url))];
        cbn [admitted] in Hins;
        split; hstate; rewrite ?length_insert; try done; unfold countAdmitted in *; lia.
    + cbn zeta in Hstep. destruct (_ =? 0); injection Hstep as <-;
        [specialize (Hins (WRateStore url (wrap64 (rlCount (rate s) + 1))))
        |specialize (Hins (WGet url))]; cbn [admitted] in Hins;
        split; hstate; rewrite ?length_insert; try done; unfold countAdmitted in *; lia.
    + injection Hstep as <-. specialize (Hins (WRateSleep url)). cbn [admitted] in Hins.
      split; hstate; rewrite ?length_insert; try done. unfold countAdmitted in *. lia.
    + injection Hstep as <-. specialize (Hins (WGet url)). cbn [admitted] in Hins.
      split; hstate; rewrite ?length_insert; try done. unfold countAdmitted in *. lia.
    + injection Hstep as <-. specialize (Hins (WFlight url)). cbn [admitted] in Hins.
      destruct (Z.eqb_spec (aborted s) 0) as [Hz|Hnz]; cbn [negb];
        split; hstate; rewrite ?length_insert, ?length_app; try done;
        cbn [length]; unfold countAdmitted in *; lia.
    + destruct net as [canceled|finalURL code statusLine read]; injection Hstep as <-;
        [specialize (Hins WRange)|specialize (Hins (WSend (mkHttpResult finalURL code (extractReason statusLine) (String.substring 0 (Z.to_nat 8192) read) (String.append (proto c) url))))];
        cbn [admitted] in Hins;
        split; hstate; rewrite ?length_insert; try done; unfold countAdmitted in *; lia.
    + destruct (_ <? _); [|done]. injection Hstep as <-.
      specialize (Hins WRange). cbn [admitted] in Hins.
      split; hstate; rewrite ?length_insert; try done. unfold countAdmitted in *. lia.
    + done.
  - unfold stepCloser in Hstep.
    destruct (resultsClosed s); [done|]. destruct (forallb _ _); [|done].
    by injection Hstep as <-.
  - by injection Hstep as <-.
  - unfold stepConsumer in Hstep. destruct (results s) as [|r rest].
    + destruct (resultsClosed s); [|done]. by injection Hstep as <-.
    + destruct (callback r (cbState s)) as [stop cb']. injection Hstep as <-.
      by destruct stop; split; hstate.
Qed.

Lemma http_start_inr urlList useSSL threads r cb c (s0 : @state CB) :
  start urlList useSSL threads r cb = inr (c, s0) →
  filterValid urlList ≠ [] ∧ 0 ≤ wrap64 (threads * 2) ∧
  c = mkConfig (wrap64 (threads * 2)) (Z.of_nat (length (filterValid urlList)))
        (if useSSL then "https://" else "http://") ∧
  s0 = mkState r 0 (filterValid urlList) false false []
         (replicate (Z.to_nat threads) WRange) [] false 0 cb [] Running [] [] [].
Proof.
  unfold start. destruct (_ =? 0); [done|].
  destruct (Z.eqb_spec (Z.of_nat (length (filterValid urlList))) 0) as [|Hne]; [done|].
  destruct (Z.ltb_spec (wrap64 (threads * 2)) 0); [done|].
  intros [= <- <-]. split; [|done]. intros E. by rewrite E in Hne.
Qed.

Lemma workers_length_step c a (s s' : @state CB) :
  step callback c a s = Some s' → length (workers s') = length (workers s).
Proof.
  unfold step. destruct (status s); [|done]. destruct a as [|i net| | |].
  - unfold stepFeeder.
    destruct (feed s); [destruct (jobsClosed s)|destruct (feedChecked s)]; try done.
    + by intros [= <-].
    + destruct (_ <? _); [|done]. by intros [= <-].
    + destruct (negb _); by intros [= <-].
  - unfold stepWorker.
    destruct (workers s !! i) as [[|url|url|url|url count|url|url|url|r|]|]; try done.
    + destruct (jobs s); [destruct (jobsClosed s); [|done]|]; intros [= <-];
        hstate; by rewrite length_insert.
    + destruct (negb _); intros [= <-]; hstate; by rewrite length_insert.
    + destruct (_ <=? _); [|destruct (negb _)]; intros [= <-]; hstate;
        by rewrite ?length_insert.
    + cbn zeta. destruct (_ =? 0); intros [= <-]; hstate; by rewrite length_insert.
    + intros [= <-]; hstate; by rewrite length_insert.
    + intros [= <-]; hstate; by rewrite length_insert.
    + intros [= <-]; hstate; by rewrite length_insert.
    + destruct net; intros [= <-]; hstate; by rewrite length_insert.
    + destruct (_ <? _); [|done]. intros [= <-]; hstate; by rewrite length_insert.
  - unfold stepCloser.
    destruct (resultsClosed s); [done|]. destruct (forallb _ _); [|done].
    by intros [= <-].
  - by intros [= <-].
  - unfold stepConsumer. destruct (results s) as [|r rest].
    + destruct (resultsClosed s); [|done]. by intros [= <-].
    + destruct (callback r (cbState s)) as [[] cb']; by intros [= <-].
Qed.

Lemma http_handled_step c a (s s' : @state CB) :
  step callback c a s = Some s' → ∀ u, u ∈ handled s' → u ∈ handled s.
Proof.
  unfold step. destruct (status s); try done. unfold handled.
  destruct a as [|i net| | |].
  - unfold stepFeeder. destruct (feed s) as [|x rest] eqn:Hfeed.
    + destruct (jobsClosed s); [done|]. intros [= <-] u. hstate. by rewrite Hfeed.
    + destruct (feedChecked s).
      * destruct (_ <? _); [|done]. intros [= <-] u. hstate.
        rewrite !elem_of_app, list_elem_of_singleton, elem_of_cons. tauto.
      * destruct (negb _); intros [= <-] u; hstate; rewrite ?Hfeed; [|done].
        rewrite !elem_of_app, elem_of_nil. tauto.
  - unfold stepWorker.
    destruct (workers s !! i) as [w|] eqn:Hi; [|done].
    assert (∀ u, urlOf w = Some u → u ∈ omap urlOf (workers s)) as Hheld.
    { intros u Hu. apply list_elem_of_omap. exists w. split; [|done].
      apply list_elem_of_lookup. by exists i. }
    destruct w as [|url|url|url|url count|url|url|url|r|]; cbn [urlOf] in Hheld.
    + destruct (jobs s) as [|url rest] eqn:Hjobs.
      * destruct (jobsClosed s); [|done]. intros [= <-] u. hstate.
        rewrite !elem_of_app, Hjobs.
        intros [?|[[[=]|?]%ListFacts.omap_insert_elem|?]]; tauto.
      * intros [= <-] u. hstate. rewrite !elem_of_app, elem_of_cons.
        intros [?|[[[= <-]|?]%ListFacts.omap_insert_elem|?]]; tauto.
    + destruct (negb _); intros [= <-] u; hstate; rewrite !elem_of_app;
        intros [?|[[[=]|?]%ListFacts.omap_insert_elem|?]]; subst;
        try tauto; right; left; by apply Hheld.
    + destruct (_ <=? _); [|destruct (negb _)]; intros [= <-] u; hstate; try done;
        rewrite !elem_of_app;
        intros [?|[[[=]|?]%ListFacts.omap_insert_elem|?]]; subst;
        try tauto; right; left; by apply Hheld.
    + cbn zeta. destruct (_ =? 0); intros [= <-] u; hstate; rewrite !elem_of_app;
        intros [?|[[[=]|?]%ListFacts.omap_insert_elem|?]]; subst;
        try tauto; right; left; by apply Hheld.
    + intros [= <-] u; hstate; rewrite !elem_of_app;
        intros [?|[[[=]|?]%ListFacts.omap_insert_elem|?]]; subst;
        try tauto; right; left; by apply Hheld.
    + intros [= <-] u; hstate; rewrite !elem_of_app;
        intros [?|[[[=]|?]%ListFacts.omap_insert_elem|?]]; subst;
        try tauto; right; left; by apply Hheld.
    + intros [= <-] u; hstate; rewrite !elem_of_app, list_elem_of_singleton;
        intros [[?| ->]|[[[=]|?]%ListFacts.omap_insert_elem|?]];
        try tauto; right; left; by apply Hheld.
    + destruct net; intros [= <-] u; hstate; rewrite !elem_of_app;
        intros [?|[[[=]|?]%ListFacts.omap_insert_elem|?]]; tauto.
    + destruct (_ <? _); [|done]. intros [= <-] u; hstate; rewrite !elem_of_app;
        intros [?|[[[=]|?]%ListFacts.omap_insert_elem|?]]; tauto.
    + done.
  - unfold stepCloser. destruct (resultsClosed s); [done|].
    destruct (forallb _ _); [|done]. by intros [= <-].
  - by intros [= <-].
  - unfold stepConsumer. destruct (results s) as [|r rest].
    + destruct (resultsClosed s); [|done]. by intros [= <-].
    + destruct (callback r (cbState s)) as [[] cb']; by intros [= <-].
Qed.

Lemma http_output_step c a (s s' : @state CB) :
  step callback c a s = Some s' →
  Forall (showsTotal c) (output s) → Forall (showsTotal c) (output s').
Proof.
  unfold step. destruct (status s); try done.
  destruct a as [|i net| | |].
  - unfold stepFeeder.
    destruct (feed s); [destruct (jobsClosed s)|destruct (feedChecked s)]; try done.
    + by intros [= <-].
    + destruct (_ <? _); [|done]. by intros [= <-].
    + destruct (negb _); by intros [= <-].
  - unfold stepWorker.
    destruct (workers s !! i) as [[|url|url|url|url count|url|url|url|r|]|]; try done.
    + destruct (jobs s); [destruct (jobsClosed s); [|done]|]; by intros [= <-].
    + destruct (negb _); by intros [= <-].
    + destruct (_ <=? _); [|destruct (negb _)]; by intros [= <-].
    + cbn zeta. destruct (_ =? 0); by intros [= <-].
    + intros [= <-] H. hstate. apply Forall_app. split; [done|]. by repeat constructor.
    + by intros [= <-].
    + by intros [= <-].
    + destruct net as [[]|]; intros [= <-] H; hstate; try done.
      apply Forall_app. split; [done|]. by repeat constructor.
    + destruct (_ <? _); [|done]. by intros [= <-].
  - unfold stepCloser. destruct (resultsClosed s); [done|].
    destruct (forallb _ _); [|done]. by intros [= <-].
  - intros [= <-] H. hstate. apply Forall_app. split; [done|]. by repeat constructor.
  - unfold stepConsumer. destruct (results s) as [|r rest].
    + destruct (resultsClosed s); [|done]. intros [= <-] H. hstate.
      apply Forall_app. split; [done|]. by repeat constructor.
    + destruct (callback r (cbState s)) as [[] cb']; by intros [= <-].
Qed.

(** A connection error is printed only for a URL that was requested. *)
Lemma quietInv_step c a (s s' : @state CB) :
  step callback c a s = Some s' → quietInv s → quietInv s'.
Proof.
  unfold step. destruct (status s); try done. intros Hstep [Hout Hfl].
  destruct a as [|i net| | |].
  - unfold stepFeeder in Hstep.
    destruct (feed s); [destruct (jobsClosed s)|destruct (feedChecked s)]; try done.
    + by injection Hstep as <-.
    + destruct (_ <? _); [|done]. by injection Hstep as <-.
    + destruct (negb _); by injection Hstep as <-.
  - unfold stepWorker in Hstep.
    destruct (workers s !! i) as [w|] eqn:Hi; [|done].
    (* a step that prints nothing and requests nothing *)
    assert (∀ w' (s1 : @state CB),
              output s1 = output s → dispatched s1 = dispatched s →
              workers s1 = <[i:=w']> (workers s) →
              (∀ u, w' ≠ WFlight u) → quietInv s1) as Hsame.
    { intros w' s1 Ho Hd Hw Hw'. unfold quietInv. rewrite Ho, Hd, Hw.
      split; [done|]. intros j u [Hj|Hj]%lookup_insert_inv; [by destruct (Hw' u)|].
      by apply (Hfl j). }
    destruct w as [|url|url|url|url count|url|url|url|r|].
    + destruct (jobs s); [destruct (jobsClosed s); [|done]|]; injection Hstep as <-;
        by eapply Hsame.
    + destruct (negb _); injection Hstep as <-; by eapply Hsame.
    + destruct (_ <=? _); [|destruct (negb _)]; injection Hstep as <-;
        [by eapply Hsame|done|by eapply Hsame].
    + cbn zeta in Hstep. destruct (_ =? 0); injection Hstep as <-; by eapply Hsame.
    + injection Hstep as <-. split; hstate.
      * intros u. rewrite omap_app. cbn [omap mentions]. rewrite app_nil_r. apply Hout.
      * intros j u [Hj|Hj]%lookup_insert_inv; [done|]. by apply (Hfl j).
    + injection Hstep as <-. by eapply Hsame.
    + injection Hstep as <-. split; hstate.
      * intros u Hu. apply elem_of_app. left. by apply Hout.
      * intros j u [[= ->]|Hj]%lookup_insert_inv; apply elem_of_app.
        -- right. apply list_elem_of_here.
        -- left. by apply (Hfl j).
    + destruct net as [canceled|finalURL code statusLine read]; injection Hstep as <-.
      * split; hstate.
        -- intros u. destruct canceled; [apply Hout|].
           rewrite omap_app, elem_of_app.
           change (omap mentions [OutConnError url]) with [url].
           rewrite list_elem_of_singleton. intros [Hu| ->]; [by apply Hout|].
           by apply (Hfl i).
        -- intros j u [Hj|Hj]%lookup_insert_inv; [done|]. by apply (Hfl j).
      * by eapply Hsame.
    + destruct (_ <? _); [|done]. injection Hstep as <-. by eapply Hsame.
    + done.
  - unfold stepCloser in Hstep. destruct (resultsClosed s); [done|].
    destruct (forallb _ _); [|done]. by injection Hstep as <-.
  - injection Hstep as <-. split; hstate; [|done].
    intros u. rewrite omap_app. cbn [omap mentions]. rewrite app_nil_r. apply Hout.
  - unfold stepConsumer in Hstep. destruct (results s) as [|r rest].
    + destruct (resultsClosed s); [|done]. injection Hstep as <-. split; hstate; [|done].
      intros u. rewrite omap_app. cbn [omap mentions]. rewrite app_nil_r. apply Hout.
    + destruct (callback r (cbState s)) as [[] cb']; by injection Hstep as <-.
Qed.

(** The HTTP half of C7. *)
Lemma http_invalid_never_dispatched urlList useSSL threads r cb c s0 acts
    (s : @state CB) :
  start urlList useSSL threads r cb = inr (c, s0) →
  run callback c acts s0 = Some s →
  total c = Z.of_nat (length (filter (λ u, IsValidDomain u = true) urlList))
  ∧ (∀ u, u ∈ handled s → IsValidDomain u = true ∧ u ∈ urlList)
  ∧ Forall (showsTotal c) (output s).
Proof.
  intros (_ & _ & -> & ->)%http_start_inr Hrun.
  split; [by rewrite <- DomainFacts.filterValid_filter|].
  split.
  - intros u Hu. apply DomainFacts.elem_of_filterValid.
    revert u Hu.
    apply (http_run_invariant (λ s, ∀ u, u ∈ handled s → u ∈ filterValid urlList) _
             (λ a s s' Hs H u Hu, H u (http_handled_step _ a s s' Hs u Hu)) acts _ s Hrun).
    intros u. unfold handled. hstate.
    rewrite replicate_no_url. by rewrite !app_nil_l.
  - apply (http_run_invariant _ _ (http_output_step _) acts _ s Hrun). hstate. constructor.
Qed.

Lemma rateInv_worker r0 c i net (s s' : @state CB) :
  status s = Running →
  stepWorker c i net s = Some s' → rateInv r0 s → rateInv r0 s'.
Proof.
  intros Hrun Hstep Hinv. pose proof Hinv as (HT & HS & Hcount & Hrc & Hret).
  unfold stepWorker in Hstep.
  destruct (workers s !! i) as [w|] eqn:Hi; [|done].
  pose proof (λ w', filter_insert_length counted (workers s) i w w' Hi) as Hins.
  assert (resultsClosed s = true → w = WDone) as Hrc' by (intros Hc; by eapply Hrc).
  assert (∀ w', inRate w' = false →
            (∀ j w0, workers s !! j = Some w0 → inRate w0 = false) →
            ∀ j w0, <[i:=w']> (workers s) !! j = Some w0 → inRate w0 = false) as Hkeep.
  { intros w' Hw' Hall j w0 [->|Hj]%lookup_insert_inv; eauto. }
  assert (inRate w = true → (rlThreshold r0 <=? 0) = false) as Hpos.
  { intros Hw. destruct (rlThreshold r0 <=? 0); [|done].
    destruct Hcount as (_ & _ & Hall). specialize (Hall i w Hi). congruence. }
  (* a step that leaves the limiter alone and changes worker [i] to [w'] *)
  assert (∀ w' (s1 : @state CB),
            rate s1 = rate s → workers s1 = <[i:=w']> (workers s) →
            resultsClosed s1 = resultsClosed s → status s1 = status s →
            inRate w' = false → w ≠ WDone →
            (Z.of_nat (length (dispatched s1)) + (if counted w' then 1 else 0)
             = Z.of_nat (length (dispatched s)) + (if counted w then 1 else 0)) →
            rateInv r0 s1) as Hsame.
  { intros w' s1 Hr Hw Hc Hst Hw' Hnd Hd. unfold rateInv.
    rewrite Hr, Hw, Hc, Hst. repeat split; try done; try (intros Hcl; by specialize (Hrc' Hcl)).
    - destruct (rlThreshold r0 <=? 0).
      + destruct Hcount as (? & ? & Hall). repeat split; try done; try (intros Hcl; by specialize (Hrc' Hcl)). by apply Hkeep.
      + rewrite Hcount. f_equal. specialize (Hins w'). unfold countCounted.
        destruct (counted w), (counted w'); lia. }
  destruct w as [|url|url|url|url count|url|url|url|r|].
  - destruct (jobs s) as [|u rest]; [destruct (jobsClosed s); [|done]|];
      injection Hstep as <-.
    + apply (Hsame WDone); hstate; cbn [counted inRate]; done.
    + apply (Hsame (WCheck u)); hstate; cbn [counted inRate]; done.
  - destruct (negb _); injection Hstep as <-.
    + apply (Hsame WRange); hstate; cbn [counted inRate]; done.
    + apply (Hsame (WRate url)); hstate; cbn [counted inRate]; done.
  - rewrite HT in Hstep. destruct (rlThreshold r0 <=? 0) eqn:HT0.
    + injection Hstep as <-. unfold rateInv. hstate. rewrite HT0.
      destruct Hcount as (? & ? & Hall). repeat split; try done; try (intros Hcl; by specialize (Hrc' Hcl)).
      * by apply Hkeep.
    + destruct (negb _); injection Hstep as <-; [exact Hinv|].
      unfold rateInv. hstate. rewrite HT0. repeat split; try done; try (intros Hcl; by specialize (Hrc' Hcl)).
      * rewrite Hcount. f_equal. specialize (Hins (WRateAdd url)). unfold countCounted.
        cbn [counted] in Hins. lia.
  - cbn zeta in Hstep. specialize (Hpos eq_refl). rewrite Hpos in Hcount.
    remember (wrap64 (rlCount (rate s) + 1)) as cnt eqn:Hcnt.
    destruct (_ =? 0); injection Hstep as <-; unfold rateInv; hstate;
      cbn [rlThreshold rlSleep rlCount]; rewrite Hpos;
      (repeat split; try done; try (intros Hcl; by specialize (Hrc' Hcl)));
      (etransitivity; [exact Hcnt|]); rewrite Hcount, wrap64_succ; f_equal.
    + specialize (Hins (WRateStore url cnt)).
      unfold countCounted. cbn [counted] in Hins. lia.
    + specialize (Hins (WGet url)). unfold countCounted. cbn [counted] in Hins. lia.
  - specialize (Hpos eq_refl). rewrite Hpos in Hcount. injection Hstep as <-.
    unfold rateInv; hstate; cbn [rlThreshold rlSleep rlCount]; rewrite Hpos.
    repeat split; try done; try (intros Hcl; by specialize (Hrc' Hcl)).
    + rewrite Hcount. f_equal. specialize (Hins (WRateSleep url)). unfold countCounted.
      cbn [counted] in Hins. lia.
  - specialize (Hpos eq_refl). rewrite Hpos in Hcount. injection Hstep as <-.
    unfold rateInv; hstate; cbn [rlThreshold rlSleep rlCount]; rewrite Hpos.
    repeat split; try done; try (intros Hcl; by specialize (Hrc' Hcl)).
    + rewrite Hcount. f_equal. specialize (Hins (WGet url)). unfold countCounted.
      cbn [counted] in Hins. lia.
  - injection Hstep as <-. apply (Hsame (WFlight url)); hstate; try done.
    rewrite length_app. cbn [length counted]. lia.
  - destruct net as [canceled|finalURL code statusLine read]; injection Hstep as <-.
    + apply (Hsame WRange); hstate; cbn [counted inRate]; done.
    + eapply (Hsame (WSend _)); hstate; cbn [counted inRate]; done.
  - destruct (_ <? _); [|done]. injection Hstep as <-.
    apply (Hsame WRange); hstate; cbn [counted inRate]; done.
  - done.
Qed.

Lemma rateInv_step r0 c a (s s' : @state CB) :
  step callback c a s = Some s' → rateInv r0 s → rateInv r0 s'.
Proof.
  intros Hstep. pose proof (http_step_running _ _ _ _ Hstep) as Hrun.
  unfold step in Hstep. rewrite Hrun in Hstep.
  destruct a as [|i net| | |].
  - unfold stepFeeder in Hstep.
    destruct (feed s); [destruct (jobsClosed s)|destruct (feedChecked s)]; try done.
    + by injection Hstep as <-.
    + destruct (_ <? _); [|done]. by injection Hstep as <-.
    + destruct (negb _); by injection Hstep as <-.
  - by apply rateInv_worker with (c := c) (i := i) (net := net).
  - unfold stepCloser in Hstep. intros (HT & HS & Hcount & Hrc & Hret).
    destruct (resultsClosed s); [done|].
    destruct (forallb isDone (workers s)) eqn:Hall; [|done]. injection Hstep as <-.
    unfold rateInv. hstate. repeat split; try done.
    intros _ j w Hj. apply (Forall_lookup_1 _ _ _ _ (proj1 (forallb_True _ _)
      (Is_true_true_2 _ Hall)) ) in Hj. by destruct w.
  - by injection Hstep as <-.
  - unfold stepConsumer in Hstep. intros (HT & HS & Hcount & Hrc & Hret).
    destruct (results s) as [|r rest].
    + destruct (resultsClosed s) eqn:Hcl; [|done]. injection Hstep as <-.
      unfold rateInv. hstate. rewrite Hcl. by repeat split.
    + destruct (callback r (cbState s)) as [[] cb']; injection Hstep as <-;
        unfold rateInv; hstate; by repeat split.
Qed.

Lemma all_done_none_counted (ws : list wstate) :
  (∀ i w, ws !! i = Some w → w = WDone) → countCounted ws = 0%nat.
Proof.
  unfold countCounted. induction ws as [|w ws IH]; [done|]. intros H.
  rewrite (H 0%nat w eq_refl), filter_cons. cbn [counted].
  case_decide; [done|]. apply IH. intros i w'. apply (H (S i)).
Qed.

Lemma replicate_none_counted n : countCounted (replicate n WRange) = 0%nat.
Proof.
  unfold countCounted. induction n as [|n IH]; [done|].
  cbn [replicate]. rewrite filter_cons. cbn [counted]. by case_decide.
Qed.

Lemma rateInv_start urlList useSSL threads r cb c (s0 : @state CB) :
  inInt64 (rlCount r) →
  start urlList useSSL threads r cb = inr (c, s0) → rateInv r s0.
Proof.
  intros Hr (_ & _ & -> & ->)%http_start_inr. unfold rateInv. hstate.
  repeat split; try done.
  destruct (rlThreshold r <=? 0).
  - repeat split; try done. by intros i w [-> _]%lookup_replicate.
  - rewrite replicate_none_counted. cbn [length]. rewrite !Z.add_0_r.
    symmetry. by apply RateLimiterFacts.wrap64_small.
Qed.

(** A batch takes the limiter as it finds it and hands it back with the
    same threshold and sleep, and the counter higher by the number of
    requests it has issued. *)
Lemma GetURLBatch_rate urlList useSSL threads sched r cb r' cb' reqs :
  inInt64 (rlCount r) →
  GetURLBatch callback urlList useSSL threads sched r cb = Some (Finished r' cb' reqs) →
  rlThreshold r' = rlThreshold r ∧ rlSleep r' = rlSleep r
  ∧ rlCount r' = countAfter r (length reqs) ∧ inInt64 (rlCount r').
Proof.
  intros Hr. unfold GetURLBatch, countAfter.
  destruct (start urlList useSSL threads r cb) as [early|[c s0]] eqn:Hstart.
  - unfold start in Hstart.
    assert (early = Finished r cb [] ∨ early = Panic) as [->| ->].
    { destruct (_ =? 0); [left; congruence|]. destruct (_ =? 0); [left; congruence|].
      destruct (_ <? 0); [right; congruence|done]. }
    + intros [= <- <- <-]. cbn [length]. rewrite Z.add_0_r.
      rewrite RateLimiterFacts.wrap64_small by done. by destruct (_ <=? _).
    + done.
  - destruct (run callback c sched s0) as [s|] eqn:Hrun; [|done].
    pose proof (http_run_invariant (rateInv r) c (rateInv_step r c) sched s0 s Hrun
                  (rateInv_start _ _ _ _ _ _ _ Hr Hstart))
      as (HT & HS & Hcount & Hrc & Hret).
    destruct (status s) eqn:Hst; [done|]. intros [= <- <- <-].
    split; [done|]. split; [done|].
    rewrite (all_done_none_counted _ (Hrc (Hret eq_refl))) in Hcount.
    destruct (rlThreshold r <=? 0).
    + destruct Hcount as (-> & _). done.
    + rewrite Z.add_0_r in Hcount. rewrite Hcount. split; [done|].
      apply wrap64_range.
Qed.

Lemma http_quiet urlList useSSL threads r cb c s0 acts (s : @state CB) :
  start urlList useSSL threads r cb = inr (c, s0) →
  run callback c acts s0 = Some s →
  ∀ u, u ∈ omap mentions (output s) → u ∈ dispatched s.
Proof.
  intros (_ & _ & -> & ->)%http_start_inr Hrun.
  apply (http_run_invariant quietInv _ (quietInv_step _) acts _ s Hrun).
  split; hstate; [done|]. by intros i u [[=] _]%lookup_replicate.
Qed.

Lemma step_worker c i net (s : @state CB) :
  status s = Running → step callback c (AWorker i net) s = stepWorker c i net s.
Proof. intros Hst. unfold step. by rewrite Hst. Qed.

(** The operations of a worker inside [rateLimitCheck], run without
    interference from a state where the flag is clear, amount to one call
    of the function: same limiter after, same line printed, and the
    worker is ready to issue its request. *)
Lemma worker_runs_rateLimitCheck c i net (s : @state CB) url :
  status s = Running → workers s !! i = Some (WRate url) → rlPaused (rate s) = 0 →
  ∃ k s' tr,
    run callback c (replicate k (AWorker i net)) s = Some s'
    ∧ rateLimitCheck (rate s) = Some (rate s', tr)
    ∧ workers s' = <[i := WGet url]> (workers s)
    ∧ output s' = output s ++ printedBy tr
    ∧ dispatched s' = dispatched s ∧ status s' = Running.
Proof.
  intros Hst Hi Hp. pose proof (lookup_lt_Some _ _ _ Hi) as Hlt.
  unfold rateLimitCheck. rewrite Hp. cbn [Z.eqb negb].
  destruct (rlThreshold (rate s) <=? 0) eqn:HT.
  { exists 1%nat. eexists _, []. cbn [replicate run].
    rewrite step_worker by done. unfold stepWorker. rewrite Hi, HT.
    split; [done|]. hstate. split; [done|]. split; [done|].
    by rewrite app_nil_r. }
  set (count := wrap64 (rlCount (rate s) + 1)).
  set (s1 := setWorker i (WRateAdd url) s).
  assert (step callback c (AWorker i net) s = Some s1) as Hstep1.
  { rewrite step_worker by done. unfold stepWorker. by rewrite Hi, HT, Hp. }
  assert (workers s1 !! i = Some (WRateAdd url)) as Hi1
    by (by apply list_lookup_insert_eq).
  destruct (Z.rem count (rlThreshold (rate s)) =? 0) eqn:Hrem.
  - set (r2 := mkRate count (rlThreshold (rate s)) (rlSleep (rate s)) (rlPaused (rate s))).
    set (s2 := set_rate r2 (setWorker i (WRateStore url count) s1)).
    assert (step callback c (AWorker i net) s1 = Some s2) as Hstep2.
    { rewrite step_worker by done. unfold stepWorker. rewrite Hi1. cbn zeta.
      unfold s2, r2, s1. hstate. fold count. by rewrite Hrem. }
    assert (workers s2 !! i = Some (WRateStore url count)) as Hi2.
    { unfold s2, s1. hstate. apply list_lookup_insert_eq. by rewrite length_insert. }
    set (s3 := set_rate (mkRate count (rlThreshold (rate s)) (rlSleep (rate s)) 1)
                 (set_output (output s ++ [OutRateLimit count (rlSleep (rate s))])
                    (setWorker i (WRateSleep url) s2))).
    assert (step callback c (AWorker i net) s2 = Some s3) as Hstep3.
    { rewrite step_worker by done. unfold stepWorker. by rewrite Hi2. }
    assert (workers s3 !! i = Some (WRateSleep url)) as Hi3.
    { unfold s3, s2, s1. hstate. apply list_lookup_insert_eq. by rewrite !length_insert. }
    exists 4%nat. eexists _, _. cbn [replicate run].
    rewrite Hstep1, Hstep2, Hstep3, step_worker by done.
    unfold stepWorker. rewrite Hi3. split; [done|].
    unfold s3, s2, r2, s1. hstate. cbn [rlCount rlThreshold rlSleep].
    split; [done|]. split; [by rewrite !list_insert_insert_eq|]. done.
  - set (r2 := mkRate count (rlThreshold (rate s)) (rlSleep (rate s)) (rlPaused (rate s))).
    exists 2%nat. eexists _, _. cbn [replicate run].
    rewrite Hstep1, step_worker by done. unfold stepWorker. rewrite Hi1. cbn zeta.
    unfold s1. hstate. fold count. rewrite Hrem. split; [done|]. hstate.
    rewrite Hp. split; [done|]. split; [by rewrite !list_insert_insert_eq|].
    by rewrite app_nil_r.
Qed.

(** C3, as the code has it. A worker tests [aborted] before every
    entry; an entry tested after the flag is set is drained, not
    requested. A request can still go out after the flag is set only
    from a worker that had passed the test before, so at most one per
    worker, no more than [threads] in all; and none as long as the flag
    is clear. *)
Theorem abort_stops_new_dispatch
    (urlList : list string) (useSSL : bool) (threads : Z) (r : RateState) (cb : CB)
    (c : config) (s0 : @state CB) (acts : list action) (s : @state CB) :
  start urlList useSSL threads r cb = inr (c, s0) →
  run callback c acts s0 = Some s →
  (aborted s = 0 → late s = [])
  ∧ (length (late s) + countAdmitted (workers s) ≤ Z.to_nat threads)%nat
  ∧ (aborted s ≠ 0 → status s = Running →
     ∀ i net url, workers s !! i = Some (WCheck url) →
       ∃ s', step callback c (AWorker i net) s = Some s'
             ∧ workers s' !! i = Some WRange
             ∧ dispatched s' = dispatched s ∧ late s' = late s
             ∧ done s' = wrap64 (done s + 1)).
Proof.
  intros Hstart Hrun.
  apply http_start_inr in Hstart as (_ & _ & -> & ->).
  match type of Hrun with run _ ?c _ ?s0 = _ =>
    pose proof (http_run_invariant abortInv c (abortInv_step c) acts s0 s Hrun) as Hinv;
    pose proof (http_run_invariant (λ s, length (workers s) = Z.to_nat threads) c
                  (λ a s s' Hs Hl, eq_trans (workers_length_step c a s s' Hs) Hl)
                  acts s0 s Hrun) as Hlen
  end.
  destruct Hinv as [Hlate Hle].
  { split; [done|]. hstate. cbn [length]. rewrite length_replicate.
    unfold countAdmitted. pose proof (filter_length_le (λ w, admitted w = true)
      (replicate (Z.to_nat threads) WRange)) as Hb. by rewrite length_replicate in Hb. }
  specialize (Hlen (length_replicate _ _)).
  split; [done|]. split; [by rewrite <- Hlen|].
  intros Hab Hst i net url Hi. eexists. split.
  { by apply (aborted_entry_is_drained _ i net s url). }
  hstate. split; [|done].
  apply list_lookup_insert_eq. by eapply lookup_lt_Some.
Qed.

End Facts.

(** C3 fails as stated: a worker that tested [aborted] just before the
    flag was set issues its request after it. *)
Lemma request_after_abort :
  start twoURLs false 1 zeroRate tt = inr (lateConfig, lateFirst)
  ∧ run alwaysAbort lateConfig lateSchedule lateFirst = Some lateLast
  ∧ aborted lateLast = 1
  ∧ dispatched lateLast = ["a.example.com"; "b.example.com"]
  ∧ late lateLast = ["b.example.com"].
Proof. repeat split; vm_compute; reflexivity. Qed.

Lemma abort_stops_new_dispatch_witness :
  start twoURLs false 1 zeroRate tt = inr (lateConfig, lateFirst)
  ∧ run alwaysAbort lateConfig lateSchedule lateFirst = Some lateLast
  ∧ (length (late lateLast) + countAdmitted (workers lateLast) ≤ Z.to_nat 1)%nat.
Proof.
  assert (start twoURLs false 1 zeroRate tt = inr (lateConfig, lateFirst)) as Hstart
    by (vm_compute; reflexivity).
  assert (run alwaysAbort lateConfig lateSchedule lateFirst = Some lateLast) as Hrun
    by (vm_compute; reflexivity).
  split; [exact Hstart|]. split; [exact Hrun|].
  exact (proj1 (proj2 (abort_stops_new_dispatch alwaysAbort twoURLs false 1 zeroRate tt
                         lateConfig lateFirst lateSchedule lateLast Hstart Hrun))).
Defined.

End HTTPBatchFacts.

(** ** The rate limiter across the batches of a run *)

Module GCPFacts.
Import Go Domain RateLimiter HTTPBatch GCP Mock.

Lemma countAfter_add r r' n m :
  rlThreshold r' = rlThreshold r → rlCount r' = countAfter r n →
  countAfter r' m = countAfter r (n + m).
Proof.
  unfold countAfter. intros -> ->. destruct (rlThreshold r <=? 0); [done|].
  rewrite HTTPBatchFacts.wrap64_add_l. f_equal. lia.
Qed.

Lemma bruteForce_rate found bruteStrings threads : ∀ scheds g requested g' reqs,
  inInt64 (rlCount (rl g)) →
  bruteForce found bruteStrings threads scheds g requested = Some (Done g' reqs) →
  ∃ extra, reqs = requested ++ extra
           ∧ rlThreshold (rl g') = rlThreshold (rl g)
           ∧ rlSleep (rl g') = rlSleep (rl g)
           ∧ rlCount (rl g') = countAfter (rl g) (length extra).
Proof.
  induction found as [|fn rest IH]; intros scheds g requested g' reqs Hr;
    cbn [bruteForce].
  - intros [= <- <-]. exists []. rewrite app_nil_r. repeat split; try done.
    unfold countAfter. cbn [length]. rewrite Z.add_0_r.
    rewrite RateLimiterFacts.wrap64_small by done. by destruct (_ <=? _).
  - destruct scheds as [|sched scheds']; [done|].
    destruct (GetURLBatch _ _ _ _ _ _ _) as [[r funcs batch|]|] eqn:Hbatch; [|done|done].
    apply HTTPBatchFacts.GetURLBatch_rate in Hbatch as (HT & HS & Hc & Hr'); [|done].
    intros (extra & -> & HT' & HS' & Hc')%IH; [|done]. cbn [rl] in *.
    exists (batch ++ extra). rewrite app_assoc. split; [done|].
    split; [congruence|]. split; [congruence|].
    rewrite Hc', length_app. by apply countAfter_add.
Qed.

(** C9, as the code has it. The rate limiter is one for the whole run and
    nothing resets it: [InitRateLimiter] sets threshold and sleep only;
    every HTTP batch starts from the counter it finds and leaves it higher
    by the requests it issued; and in [checkFunctions] the one reset is
    that of [hasFuncs], so that after the scan, re-scan included, the
    counter is its value before plus the requests of all its batches. *)
Theorem rate_limiter_never_reset
    (names bruteStrings : list string) (quickscan : bool) (threads : Z)
    (sched : list action) (scheds : list (list action))
    (g g' : globals) (reqs : list string) :
  inInt64 (rlCount (rl g)) →
  checkFunctions names bruteStrings quickscan threads sched scheds g = Some (Done g' reqs) →
  rl (resetHasFuncs g) = rl g
  ∧ rlThreshold (rl g') = rlThreshold (rl g)
  ∧ rlSleep (rl g') = rlSleep (rl g)
  ∧ rlCount (rl g') = countAfter (rl g) (length reqs)
  ∧ (∀ threshold sleep r,
       rlCount (InitRateLimiter threshold sleep r) = rlCount r
       ∧ rlPaused (InitRateLimiter threshold sleep r) = rlPaused r)
  ∧ (∀ (CB : Type) (callback : HttpResult → CB → bool * CB) urlList useSSL n batchSched
       r cb r' cb' batch,
       inInt64 (rlCount r) →
       GetURLBatch callback urlList useSSL n batchSched r cb = Some (Finished r' cb' batch) →
       rlThreshold r' = rlThreshold r ∧ rlSleep r' = rlSleep r
       ∧ rlCount r' = countAfter r (length batch)).
Proof.
  intros Hr Hscan.
  assert (∀ (CB : Type) (callback : HttpResult → CB → bool * CB) urlList useSSL n batchSched
            r cb r' cb' batch,
            inInt64 (rlCount r) →
            GetURLBatch callback urlList useSSL n batchSched r cb
              = Some (Finished r' cb' batch) →
            rlThreshold r' = rlThreshold r ∧ rlSleep r' = rlSleep r
            ∧ rlCount r' = countAfter r (length batch)) as Hevery.
  { intros CB callback urlList useSSL n batchSched r cb r' cb' batch Hin Hbatch.
    by destruct (HTTPBatchFacts.GetURLBatch_rate callback _ _ _ _ _ _ _ _ _ Hin Hbatch)
      as (? & ? & ? & _). }
  revert Hscan. unfold checkFunctions.
  destruct (GetURLBatch _ _ _ _ _ _ _) as [[r funcs batch|]|] eqn:Hbatch; [|done|done].
  apply HTTPBatchFacts.GetURLBatch_rate in Hbatch as (HT & HS & Hc & Hr'); [|done].
  cbn [rl resetHasFuncs] in *. intros Hscan.
  split; [done|].
  assert (rlThreshold (rl g') = rlThreshold (rl g) ∧ rlSleep (rl g') = rlSleep (rl g)
          ∧ rlCount (rl g') = countAfter (rl g) (length reqs)) as Hgoal;
    [|by destruct Hgoal as (? & ? & ?)].
  destruct (_ =? 0); [by injection Hscan as <- <-|].
  destruct quickscan; [by injection Hscan as <- <-|].
  apply bruteForce_rate in Hscan as (extra & -> & HT' & HS' & Hc'); [|done].
  cbn [rl] in *. split; [congruence|]. split; [congruence|].
  rewrite Hc', length_app. by apply countAfter_add.
Qed.

(** C9 fails as stated: the limiter starts the scan at 0, the first pass
    issues one request and finds a project with functions, the re-scan of
    that project issues one more, and the counter ends at 2; a reset
    before the re-scan would have left it at 1. *)
Lemma counter_survives_rescan :
  checkFunctions ["acme"] ["hello"] false 1 (oneRequest found302) [oneRequest ok200]
    scanGlobals = Some scanOutcome
  ∧ rlCount (rl scanGlobals) = 0
  ∧ match scanOutcome with
    | Done g' reqs => rlCount (rl g') = 2 ∧ length reqs = 2%nat
    | Panicked => False
    end.
Proof. repeat split; vm_compute; reflexivity. Qed.

Lemma rate_limiter_never_reset_witness :
  inInt64 (rlCount (rl scanGlobals))
  ∧ checkFunctions ["acme"] ["hello"] false 1 (oneRequest found302) [oneRequest ok200]
      scanGlobals = Some scanOutcome
  ∧ countAfter (rl scanGlobals) 2 = 2.
Proof.
  assert (inInt64 (rlCount (rl scanGlobals))) as Hr by (by vm_compute).
  assert (checkFunctions ["acme"] ["hello"] false 1 (oneRequest found302)
            [oneRequest ok200] scanGlobals = Some scanOutcome) as Hscan
    by (vm_compute; reflexivity).
  split; [exact Hr|]. split; [exact Hscan|].
  destruct (rate_limiter_never_reset ["acme"] ["hello"] false 1 (oneRequest found302)
              [oneRequest ok200] scanGlobals _ _ Hr Hscan) as (_ & _ & _ & Hc & _ & _).
  symmetry. exact Hc.
Defined.

End GCPFacts.

(** ** Both batch engines drop invalid entries *)

Module BatchFacts.
Import Go Domain RateLimiter DNS Mock.

Section Engines.
Context {CB R : Type}.
Variable callback : HTTPBatch.HttpResult → CB → bool * CB.
Variable LookupHost : R → string → Z → option error * R.
Variable systemResolver : R.
Variable newResolver : list string → R.
Variable ReadNameservers : string → option (list string).

(** C7. In a batch of either engine, [total] counts the entries that
    pass the validator and no others; an entry that fails it is at no
    time in the feeder's list, in the job queue or with a worker, and is
    never requested or looked up; every progress line shows that
    [total]; and the only lines that name an entry are connection
    errors of requested, hence valid, URLs. *)
Theorem invalid_entries_never_scheduled (entries : list string) :
  (∀ useSSL threads r cb c s0 acts s,
     HTTPBatch.start entries useSSL threads r cb = inr (c, s0) →
     HTTPBatch.run callback c acts s0 = Some s →
     HTTPBatch.total c
       = Z.of_nat (length (filter (λ u, IsValidDomain u = true) entries))
     ∧ (∀ u, IsValidDomain u = false → u ∉ HTTPBatch.handled s)
     ∧ (∀ u, u ∈ HTTPBatch.dispatched s → u ∈ entries ∧ IsValidDomain u = true)
     ∧ Forall (HTTPBatch.showsTotal c) (HTTPBatch.output s)
     ∧ (∀ u, u ∈ omap HTTPBatch.mentions (HTTPBatch.output s) →
             IsValidDomain u = true))
  ∧ (∀ ns nsf cb threads c s0 acts s,
       DNSBatch.start systemResolver newResolver ReadNameservers
         entries ns nsf cb threads = inr (c, s0) →
       DNSBatch.run LookupHost c acts s0 = Some s →
       DNSBatch.total c
         = Z.of_nat (length (filter (λ n, IsValidDomain n = true) entries))
       ∧ (∀ n, IsValidDomain n = false → n ∉ DNSBatch.handled s)
       ∧ (∀ n, n ∈ DNSBatch.looked s → n ∈ entries ∧ IsValidDomain n = true)
       ∧ Forall (DNSBatch.showsTotal c) (DNSBatch.output s)).
Proof.
  split.
  - intros useSSL threads r cb c s0 acts s Hstart Hrun.
    destruct (HTTPBatchFacts.http_invalid_never_dispatched callback _ _ _ _ _ _ _ _ _
                Hstart Hrun) as (Htotal & Hvalid & Hout).
    assert (∀ u, u ∈ HTTPBatch.dispatched s → u ∈ entries ∧ IsValidDomain u = true)
      as Hdisp.
    { intros u Hu. destruct (Hvalid u) as [? ?]; [|done].
      unfold HTTPBatch.handled. apply elem_of_app. by left. }
    split; [done|]. split; [|split; [done|split; [done|]]].
    + intros u Hbad Hin. destruct (Hvalid u Hin). congruence.
    + intros u Hu. apply Hdisp.
      by apply (HTTPBatchFacts.http_quiet callback _ _ _ _ _ _ _ _ _ Hstart Hrun).
  - intros ns nsf cb threads c s0 acts s Hstart Hrun.
    destruct (DNSBatchFacts.dns_invalid_never_looked_up LookupHost _ _ _ _ _ _ _ _ _ _ _ _
                Hstart Hrun) as (Htotal & Hvalid & Hout).
    split; [done|]. split; [|split; [|done]].
    + intros n Hbad Hin. destruct (Hvalid n Hin). congruence.
    + intros n Hn. destruct (Hvalid n) as [? ?]; [|done].
      unfold DNSBatch.handled. apply elem_of_app. by left.
Qed.

End Engines.

Lemma invalid_entries_never_scheduled_witness :
  HTTPBatch.start mixedList false 1 zeroRate tt = inr (mixedConfig, mixedFirst)
  ∧ HTTPBatch.run alwaysAbort mixedConfig lateSchedule mixedFirst = Some mixedLast
  ∧ HTTPBatch.total mixedConfig = 2
  ∧ HTTPBatch.dispatched mixedLast = ["a.example.com"; "b.example.com"]
  ∧ IsValidDomain "a..example.com" = false
  ∧ "a..example.com" ∉ HTTPBatch.handled mixedLast.
Proof.
  assert (HTTPBatch.start mixedList false 1 zeroRate tt = inr (mixedConfig, mixedFirst))
    as Hstart by (vm_compute; reflexivity).
  assert (HTTPBatch.run alwaysAbort mixedConfig lateSchedule mixedFirst = Some mixedLast)
    as Hrun by (vm_compute; reflexivity).
  assert (IsValidDomain "a..example.com" = false) as Hbad by (vm_compute; reflexivity).
  split; [exact Hstart|]. split; [exact Hrun|].
  split; [vm_compute; reflexivity|]. split; [vm_compute; reflexivity|].
  split; [exact Hbad|].
  destruct (proj1 (invalid_entries_never_scheduled alwaysAbort okLookup tt (λ _, tt)
                     noFile mixedList) false 1 zeroRate tt _ _ _ _ Hstart Hrun)
    as (_ & Hnot & _).
  exact (Hnot _ Hbad).
Defined.

End BatchFacts.

Module TextFacts.
Import Go Text.

Lemma keepOnly_allChars keep s : allChars keep (keepOnly keep s) = true.
Proof.
  induction s as [|c r IH]; simpl; [done|].
  destruct (keep c) eqn:Hk; simpl; [by rewrite Hk|done].
Qed.

Lemma keepOnly_id keep s : allChars keep s = true → keepOnly keep s = s.
Proof.
  induction s as [|c r IH]; simpl; [done|].
  intros [Hc Hr]%andb_true_iff. rewrite Hc. by rewrite IH.
Qed.

Lemma keepOnly_length keep s : len (keepOnly keep s) ≤ len s.
Proof.
  unfold len. induction s as [|c r IH]; simpl; [done|].
  destruct (keep c); simpl; lia.
Qed.

Lemma allChars_impl (P Q : ascii → bool) s :
  (∀ c, P c = true → Q c = true) → allChars P s = true → allChars Q s = true.
Proof.
  intros HPQ. induction s as [|c r IH]; simpl; [done|].
  intros [Hc Hr]%andb_true_iff. rewrite (HPQ _ Hc). by rewrite IH.
Qed.

Lemma allChars_app P s t :
  allChars P (String.append s t) = allChars P s && allChars P t.
Proof.
  induction s as [|c r IH]; simpl; [done|]. by rewrite IH, andb_assoc.
Qed.

Lemma len_append s t : len (String.append s t) = len s + len t.
Proof.
  unfold len. induction s as [|c r IH]; simpl; [done|]. lia.
Qed.

Lemma filter_ext_Forall {A} (P Q : A → Prop)
    `{∀ x, Decision (P x)} `{∀ x, Decision (Q x)} (l : list A) :
  Forall (λ x, P x ↔ Q x) l → filter P l = filter Q l.
Proof.
  induction 1 as [|x l Hx _ IH]; [done|].
  rewrite !filter_cons, IH. repeat case_decide; naive_solver.
Qed.

Lemma append_empty_r s : String.append s EmptyString = s.
Proof. induction s as [|c r IH]; [done|]. rewrite GoFacts.append_cons. by rewrite IH. Qed.

Lemma len_nonneg s : 0 ≤ len s.
Proof. unfold len. lia. Qed.

Lemma len_zero s : len s = 0 → s = EmptyString.
Proof. unfold len. by destruct s. Qed.

Lemma SplitOn_nonempty sep s : SplitOn sep s ≠ [].
Proof.
  destruct s as [|c r]; simpl; [done|].
  destruct (Ascii.eqb c sep); [done|]. by destruct (SplitOn sep r).
Qed.

Lemma SplitOn_sep_free sep s :
  Forall (λ l, allChars (λ c, negb (Ascii.eqb c sep)) l = true) (SplitOn sep s).
Proof.
  induction s as [|c r IH]; simpl; [by repeat constructor|].
  destruct (Ascii.eqb c sep) eqn:Hc; [by constructor|].
  destruct (SplitOn sep r) as [|h t]; [by repeat constructor; simpl; rewrite Hc|].
  inversion IH; subst. constructor; [|done]. simpl. by rewrite Hc.
Qed.

Lemma JoinWith_cons_cons sep l l' rest :
  JoinWith sep (l :: l' :: rest) = String.append l (String sep (JoinWith sep (l' :: rest))).
Proof. done. Qed.

Lemma SplitOn_sep sep r : SplitOn sep (String sep r) = EmptyString :: SplitOn sep r.
Proof. cbn [SplitOn]. by rewrite Ascii.eqb_refl. Qed.

Lemma SplitOn_other sep c r :
  Ascii.eqb c sep = false →
  SplitOn sep (String c r) = match SplitOn sep r with
                             | h :: t => String c h :: t
                             | [] => [String c EmptyString]
                             end.
Proof. intros E. cbn [SplitOn]. by rewrite E. Qed.

Lemma JoinWith_SplitOn sep s : JoinWith sep (SplitOn sep s) = s.
Proof.
  induction s as [|c r IH]; [done|]. cbn [SplitOn].
  pose proof (SplitOn_nonempty sep r) as Hne.
  destruct (Ascii.eqb c sep) eqn:E.
  - apply Ascii.eqb_eq in E. subst c.
    destruct (SplitOn sep r) as [|h t]; [done|].
    rewrite JoinWith_cons_cons. by rewrite IH.
  - destruct (SplitOn sep r) as [|h t]; [done|].
    destruct t as [|h' t].
    + cbn [JoinWith] in *. by rewrite IH.
    + rewrite JoinWith_cons_cons in IH. rewrite JoinWith_cons_cons. by rewrite <- IH.
Qed.

(** Splitting a list of separator-free strings joined by the separator
    gives the list back, provided the list is not empty. *)
Lemma SplitOn_JoinWith sep ls :
  ls ≠ [] → Forall (λ l, allChars (λ c, negb (Ascii.eqb c sep)) l = true) ls →
  SplitOn sep (JoinWith sep ls) = ls.
Proof.
  induction ls as [|l rest IH]; [done|]. intros _ Hdf.
  inversion Hdf as [|? ? Hl Hrest]; subst.
  destruct rest as [|l' rest].
  - cbn [JoinWith]. clear IH Hdf Hrest. induction l as [|c r IHr]; [done|].
    cbn [allChars] in Hl. apply andb_prop in Hl as [Hc Hr].
    apply negb_true_iff in Hc. rewrite (SplitOn_other _ _ _ Hc). by rewrite (IHr Hr).
  - rewrite JoinWith_cons_cons. specialize (IH ltac:(done) Hrest).
    clear Hdf Hrest. induction l as [|c r IHr].
    + rewrite GoFacts.append_nil, SplitOn_sep. by rewrite IH.
    + cbn [allChars] in Hl. apply andb_prop in Hl as [Hc Hr].
      apply negb_true_iff in Hc.
      rewrite GoFacts.append_cons, (SplitOn_other _ _ _ Hc). by rewrite (IHr Hr).
Qed.

End TextFacts.

Module ReasonFacts.
Import Go Text HTTPBatch TextFacts.

Lemma afterSpace_append code rest :
  allChars (λ c, negb (Ascii.eqb c " "%char)) code = true →
  afterSpace (String.append code rest) = afterSpace rest.
Proof.
  induction code as [|c r IH]; simpl; [done|].
  intros [Hc Hr]%andb_true_iff. apply negb_true_iff in Hc. rewrite Hc. by apply IH.
Qed.

(** X1. extractReason: the status line of a response is its code, a space
    and the reason phrase; [extractReason] gives the reason phrase, spaces
    included, and a status without a space is given back whole. *)
Theorem extractReason_spec (code reason : string) :
  allChars (λ c, negb (Ascii.eqb c " "%char)) code = true →
  extractReason (String.append code (String " "%char reason)) = reason
  ∧ extractReason code = code.
Proof.
  intros Hcode. unfold extractReason. split.
  - rewrite afterSpace_append by done. simpl. done.
  - replace code with (String.append code EmptyString) at 1.
    + rewrite afterSpace_append by done. done.
    + apply append_empty_r.
Qed.

Lemma extractReason_spec_witness :
  extractReason "404 Not Found" = "Not Found" ∧ extractReason "404" = "404".
Proof.
  apply (extractReason_spec "404" "Not Found"). reflexivity.
Defined.

End ReasonFacts.

Module WordlistFacts.
Import Go Text Wordlist WordlistScenario TextFacts.

Section Facts.
Variable ToLower : string → string.
Variable TrimSpace : string → string.

Local Abbreviation cleanLine := (cleanLine ToLower TrimSpace).
Local Abbreviation addLine := (addLine ToLower TrimSpace).
Local Abbreviation GetBrute := (GetBrute ToLower TrimSpace).

Lemma seenInv_empty : seenInv (∅, []).
Proof. intros x. simpl. rewrite lookup_empty. simpl. split; [done|]. by intros ?%elem_of_nil. Qed.

Lemma addLine_cases mini maxi st line :
  seenInv st →
  seenInv (addLine mini maxi st line) ∧
  (addLine mini maxi st line).2
  = st.2 ++ (if bool_decide (wanted mini maxi (cleanLine line) = true ∧ cleanLine line ∉ st.2)
             then [cleanLine line] else []).
Proof.
  intros Hinv. unfold Wordlist.addLine, wanted.
  generalize (cleanLine line). intros name.
  destruct (String.eqb name "") eqn:He; cbv iota.
  { split; [done|]. rewrite bool_decide_eq_false_2; [by rewrite app_nil_r|]. by intros [? _]. }
  destruct ((len name <? mini) || (len name >? maxi)) eqn:Hb; cbv iota.
  { split; [done|]. rewrite bool_decide_eq_false_2; [by rewrite app_nil_r|]. by intros [? _]. }
  destruct (default false (st.1 !! name)) eqn:Hs; cbv iota.
  { split; [done|]. rewrite bool_decide_eq_false_2; [by rewrite app_nil_r|].
    intros [_ Hn]. apply Hn. by apply Hinv. }
  split.
  - intros x. cbn [fst snd]. destruct (decide (x = name)) as [->|Hne].
    + rewrite lookup_insert_eq. cbn [default]. split; [|done]. intros _. apply elem_of_app. right.
      by apply list_elem_of_singleton.
    + rewrite lookup_insert_ne by done. rewrite (Hinv x). rewrite elem_of_app.
      rewrite list_elem_of_singleton. naive_solver.
  - cbn [fst snd]. rewrite bool_decide_eq_true_2; [done|]. split; [done|].
    intros Hin. apply Hinv in Hin. congruence.
Qed.

Lemma fold_addLine mini maxi lines : ∀ st,
  seenInv st →
  let st' := fold_left (addLine mini maxi) lines st in
  seenInv st' ∧
  (NoDup st.2 → NoDup st'.2) ∧
  (∀ x, x ∈ st'.2 ↔
        x ∈ st.2 ∨ ∃ line, line ∈ lines ∧ cleanLine line = x ∧ wanted mini maxi x = true) ∧
  (∃ rest, st'.2 = st.2 ++ rest ∧ rest `sublist_of` (cleanLine <$> lines)).
Proof.
  induction lines as [|line lines IH]; intros st Hinv; simpl.
  - split; [done|]. split; [done|]. split.
    + intros x. split; [by left|].
      intros [?|(l & Hl & _)]; [done|]. by apply elem_of_nil in Hl.
    + exists []. by rewrite app_nil_r.
  - destruct (addLine_cases mini maxi st line Hinv) as [Hinv1 Heq].
    destruct (IH _ Hinv1) as (Hinv' & Hnd & Hmem & rest & Hrest & Hsub).
    split; [done|]. split; [|split].
    + intros Hnd0. apply Hnd. rewrite Heq. case_bool_decide as Hc; [|by rewrite app_nil_r].
      apply NoDup_app. split; [done|]. split; [|apply NoDup_singleton].
      intros x Hx ->%list_elem_of_singleton. by destruct Hc.
    + intros x. rewrite Hmem. rewrite Heq. rewrite elem_of_app.
      case_bool_decide as Hc.
      * rewrite list_elem_of_singleton. split.
        -- intros [[?| ->]|(l & Hl & ? & ?)].
           ++ by left.
           ++ right. exists line. split; [by left|]. by destruct Hc.
           ++ right. exists l. split; [by right|done].
        -- intros [?|(l & Hl & Hcl & Hw)]; [by left; left|].
           apply elem_of_cons in Hl as [->|Hl].
           ++ left. right. done.
           ++ right. by exists l.
      * split.
        -- intros [[?|Hn]|(l & Hl & ? & ?)].
           ++ by left.
           ++ by apply elem_of_nil in Hn.
           ++ right. exists l. split; [by right|done].
        -- intros [?|(l & Hl & Hcl & Hw)]; [by left; left|].
           apply elem_of_cons in Hl as [->|Hl].
           ++ left. left. apply not_and_l in Hc as [Hc|Hc].
              ** congruence.
              ** apply dec_stable in Hc. by rewrite <- Hcl.
           ++ right. by exists l.
    + rewrite Hrest, Heq. rewrite <- app_assoc. eexists. split; [done|].
      case_bool_decide.
      * simpl. by apply sublist_skip.
      * simpl. by apply sublist_cons.
Qed.

Lemma wanted_spec mini maxi x :
  wanted mini maxi x = true ↔ x ≠ EmptyString ∧ mini ≤ len x ≤ maxi.
Proof.
  unfold wanted. rewrite andb_true_iff, !negb_true_iff, orb_false_iff.
  rewrite Z.ltb_ge, Z.gtb_ltb, Z.ltb_ge.
  destruct (String.eqb_spec x ""); naive_solver.
Qed.

Lemma GetBrute_clean (data : string) (mini maxi : Z) :
  NoDup (GetBrute data mini maxi) ∧
  Forall (λ name, allChars bruteChar name = true ∧ name ≠ EmptyString
                  ∧ 1 ≤ len name ∧ mini ≤ len name ≤ maxi)
         (GetBrute data mini maxi).
Proof.
  unfold Wordlist.GetBrute.
  destruct (fold_addLine mini maxi (SplitOn newline data) (∅, []) seenInv_empty)
    as (_ & Hnd & Hmem & _).
  split; [apply Hnd; constructor|].
  apply Forall_forall. intros x Hx. apply Hmem in Hx as [Hx|(l & _ & <- & Hw)].
  { by apply elem_of_nil in Hx. }
  apply wanted_spec in Hw as [Hne Hlen].
  split; [apply keepOnly_allChars|]. split; [done|]. split; [|done].
  pose proof (len_nonneg (cleanLine l)).
  destruct (decide (len (cleanLine l) = 0)) as [Hz|]; [|lia].
  by apply len_zero in Hz.
Qed.

(** X2. GetBrute: every entry of the cleaned wordlist is made of the bytes
    a-z, 0-9, _ and - only, is not empty, has between mini and maxi bytes,
    and occurs once. *)
Theorem GetBrute_entries_clean (data : string) (mini maxi : Z) :
  NoDup (GetBrute data mini maxi) ∧
  Forall (λ name, allChars bruteChar name = true ∧ name ≠ EmptyString
                  ∧ 1 ≤ len name ∧ mini ≤ len name ≤ maxi)
         (GetBrute data mini maxi).
Proof. apply GetBrute_clean. Qed.

(** X3. GetBrute keeps exactly the cleaned lines that are not empty and
    within the length bounds, in the order of their first occurrence. *)
Theorem GetBrute_keeps_wanted_lines (data : string) (mini maxi : Z) (x : string) :
  (x ∈ GetBrute data mini maxi ↔
     ∃ line, line ∈ SplitOn newline data ∧ cleanLine line = x
             ∧ x ≠ EmptyString ∧ mini ≤ len x ≤ maxi)
  ∧ GetBrute data mini maxi `sublist_of` (cleanLine <$> SplitOn newline data).
Proof.
  unfold Wordlist.GetBrute.
  destruct (fold_addLine mini maxi (SplitOn newline data) (∅, []) seenInv_empty)
    as (_ & _ & Hmem & rest & Hrest & Hsub).
  split.
  - rewrite Hmem. split.
    + intros [Hx|(l & Hl & Hc & Hw)]; [by apply elem_of_nil in Hx|].
      exists l. apply wanted_spec in Hw. naive_solver.
    + intros (l & Hl & Hc & Hw). right. exists l. rewrite wanted_spec. naive_solver.
  - by rewrite Hrest.
Qed.

Lemma wanted_narrow mini maxi mini' maxi' x :
  mini' ≤ mini → maxi ≤ maxi' → wanted mini maxi x = true → wanted mini' maxi' x = true.
Proof. rewrite !wanted_spec. intros ? ? [? ?]. split; [done|lia]. Qed.

Lemma fold_addLine_narrow mini maxi mini' maxi' lines :
  mini' ≤ mini → maxi ≤ maxi' → ∀ st st',
  seenInv st → seenInv st' →
  st.2 = filter (λ x, wanted mini maxi x = true) st'.2 →
  (fold_left (addLine mini maxi) lines st).2
  = filter (λ x, wanted mini maxi x = true) (fold_left (addLine mini' maxi') lines st').2.
Proof.
  intros Hlo Hhi. induction lines as [|line lines IH]; intros st st' Hinv Hinv' Heq; [done|].
  cbn [fold_left].
  destruct (addLine_cases mini maxi st line Hinv) as [Hinv1 Heq1].
  destruct (addLine_cases mini' maxi' st' line Hinv') as [Hinv1' Heq1'].
  apply IH; [done..|].
  rewrite Heq1, Heq1', filter_app, <- Heq. f_equal.
  set (name := cleanLine line).
  destruct (wanted mini maxi name) eqn:Hw.
  - pose proof (wanted_narrow _ _ _ _ _ Hlo Hhi Hw) as Hw'.
    assert (name ∈ st.2 ↔ name ∈ st'.2) as Hiff.
    { rewrite Heq, list_elem_of_filter. naive_solver. }
    destruct (decide (name ∈ st'.2)) as [Hin|Hin].
    + rewrite !bool_decide_eq_false_2; [done|intros [_ ?]; done|].
      intros [_ Hn]. by apply Hn, Hiff.
    + rewrite !bool_decide_eq_true_2; [|done|].
      * by rewrite filter_cons_True.
      * split; [done|]. by rewrite Hiff.
  - rewrite bool_decide_eq_false_2 by naive_solver.
    destruct (bool_decide (wanted mini' maxi' name = true ∧ name ∉ st'.2)); [|done].
    rewrite filter_cons_False; [done|]. by rewrite Hw.
Qed.

(** X4. GetBrute: the list for narrower length bounds is the list for wider
    bounds without the entries outside the narrower ones, in the same
    order: the container names (3 to 63 bytes) are the function names
    (1 to 63 bytes) of 3 bytes or more. *)
Theorem GetBrute_narrower_bounds (data : string) (mini maxi mini' maxi' : Z) :
  mini' ≤ mini → maxi ≤ maxi' →
  GetBrute data mini maxi
  = filter (λ x, mini ≤ len x ≤ maxi) (GetBrute data mini' maxi').
Proof.
  intros Hlo Hhi. unfold Wordlist.GetBrute.
  rewrite (fold_addLine_narrow mini maxi mini' maxi' _ Hlo Hhi (∅, []) (∅, []));
    [|apply seenInv_empty..|done].
  destruct (fold_addLine mini' maxi' (SplitOn newline data) (∅, []) seenInv_empty)
    as (_ & _ & Hmem & _).
  apply filter_ext_Forall. apply Forall_forall. intros x Hx.
  apply Hmem in Hx as [Hx|(l & _ & _ & Hw)]; [by apply elem_of_nil in Hx|].
  rewrite wanted_spec. apply wanted_spec in Hw. naive_solver.
Qed.

Lemma fold_addLine_clean mini maxi (l : list string) : ∀ st,
  seenInv st →
  Forall (λ x, cleanLine x = x ∧ wanted mini maxi x = true ∧ x ∉ st.2) l → NoDup l →
  (fold_left (addLine mini maxi) l st).2 = st.2 ++ l.
Proof.
  induction l as [|x l IH]; intros st Hinv Hall Hnd; cbn [fold_left]; [by rewrite app_nil_r|].
  inversion Hall as [|? ? (Hx & Hw & Hnotin) Hall']; subst.
  inversion Hnd as [|? ? Hxl Hnd']; subst.
  destruct (addLine_cases mini maxi st x Hinv) as [Hinv1 Heq1].
  rewrite Hx in Heq1. rewrite bool_decide_eq_true_2 in Heq1 by done.
  rewrite IH; [by rewrite Heq1, <- app_assoc|done| |done].
  apply Forall_forall. intros y Hy.
  pose proof (proj1 (Forall_forall _ _) Hall' y Hy) as (? & ? & ?).
  repeat split; [done..|]. rewrite Heq1, elem_of_app, list_elem_of_singleton.
  intros [?| ->]; done.
Qed.

End Facts.

Lemma bruteChar_not_newline c : bruteChar c = true → negb (Ascii.eqb c newline) = true.
Proof. destruct c as [[] [] [] [] [] [] [] []]; by vm_compute. Qed.

Lemma bruteChar_lowerByte c : bruteChar c = true → lowerByte c = c.
Proof. destruct c as [[] [] [] [] [] [] [] []]; by vm_compute. Qed.

Lemma bruteChar_not_space c : bruteChar c = true → isSpace c = false.
Proof. destruct c as [[] [] [] [] [] [] [] []]; by vm_compute. Qed.

Lemma asciiLower_clean s : allChars bruteChar s = true → asciiLower s = s.
Proof.
  induction s as [|c r IH]; [done|]. cbn [allChars asciiLower].
  intros [Hc Hr]%andb_true_iff. by rewrite bruteChar_lowerByte, IH.
Qed.

Lemma trimRight_clean s : allChars bruteChar s = true → trimRight s = s.
Proof.
  induction s as [|c r IH]; [done|]. cbn [allChars trimRight].
  intros [Hc Hr]%andb_true_iff. rewrite (IH Hr), (bruteChar_not_space _ Hc).
  by destruct r.
Qed.

Lemma asciiTrim_clean s : allChars bruteChar s = true → asciiTrim s = s.
Proof.
  intros Hs. unfold asciiTrim.
  assert (trimLeft s = s) as ->; [|by apply trimRight_clean].
  destruct s as [|c r]; [done|]. cbn [allChars] in Hs. apply andb_true_iff in Hs as [Hc _].
  cbn [trimLeft]. by rewrite (bruteChar_not_space _ Hc).
Qed.

(** X5. GetBrute on its own output: a wordlist that is already clean (one
    entry per line) comes back unchanged, provided lower-casing and
    trimming leave strings of the bytes a-z, 0-9, _ and - alone. *)
Theorem GetBrute_round_trip (ToLower TrimSpace : string → string)
    (data : string) (mini maxi : Z) :
  (∀ s, allChars bruteChar s = true → ToLower s = s) →
  (∀ s, allChars bruteChar s = true → TrimSpace s = s) →
  GetBrute ToLower TrimSpace
    (JoinWith newline (GetBrute ToLower TrimSpace data mini maxi)) mini maxi
  = GetBrute ToLower TrimSpace data mini maxi.
Proof.
  intros HL HT.
  destruct (GetBrute_clean ToLower TrimSpace data mini maxi) as [Hnd Hall].
  set (L := GetBrute ToLower TrimSpace data mini maxi) in *.
  assert (∀ s, allChars bruteChar s = true → cleanLine ToLower TrimSpace s = s) as Hclean.
  { intros s Hs. unfold cleanLine. rewrite (HL s Hs), (HT s Hs). by apply keepOnly_id. }
  destruct L as [|x L'] eqn:EL.
  - unfold GetBrute at 1. cbn [JoinWith SplitOn fold_left].
    unfold addLine. rewrite (Hclean EmptyString) by done. done.
  - rewrite <- EL in *. unfold GetBrute at 1. rewrite SplitOn_JoinWith.
    + rewrite (fold_addLine_clean ToLower TrimSpace mini maxi L (∅, []));
        [done|apply seenInv_empty| |done].
      apply Forall_forall. intros y Hy.
      pose proof (proj1 (Forall_forall _ _) Hall y Hy) as (Hc & Hne & _ & Hlen).
      split; [by apply Hclean|]. split; [by apply wanted_spec|]. cbn [snd].
      by intros ?%elem_of_nil.
    + by rewrite EL.
    + eapply Forall_impl; [exact Hall|]. intros y (Hc & _). cbn beta.
      eapply allChars_impl; [|exact Hc]. apply bruteChar_not_newline.
Qed.

Lemma GetBrute_round_trip_witness :
  GetBrute asciiLower asciiTrim
    (JoinWith newline (GetBrute asciiLower asciiTrim mixedWords 1 63)) 1 63
  = GetBrute asciiLower asciiTrim mixedWords 1 63.
Proof.
  apply (GetBrute_round_trip asciiLower asciiTrim _ 1 63 asciiLower_clean asciiTrim_clean).
Defined.

Lemma GetBrute_narrower_bounds_witness :
  3 ≤ 3 ∧ 1 ≤ 3 ∧ 63 ≤ 63
  ∧ GetBrute asciiLower asciiTrim shortWords 3 63
    = filter (λ x, 3 ≤ len x ≤ 63) (GetBrute asciiLower asciiTrim shortWords 1 63).
Proof.
  split; [lia|]. split; [lia|]. split; [lia|].
  apply (GetBrute_narrower_bounds asciiLower asciiTrim _ 3 63 1 63); lia.
Defined.

Example GetBrute_sample :
  GetBrute asciiLower asciiTrim mixedWords 3 63 = ["dev"; "test-1"; "backup"].
Proof. by vm_compute. Qed.

End WordlistFacts.

Module NamesFacts.
Import Go Text Names TextFacts.

Section Facts.
Variable ToLower : string → string.

Local Abbreviation cleanText := (cleanText ToLower).
Local Abbreviation buildNames := (buildNames ToLower).

Lemma cleanText_chars text : allChars textChar (cleanText text) = true.
Proof. apply keepOnly_allChars. Qed.

Lemma appendName_spec name names :
  appendName name names = names ++ (if bool_decide (len name ≤ 63) then [name] else []).
Proof.
  unfold appendName. destruct (Z.leb_spec (len name) 63).
  - by rewrite bool_decide_eq_true_2.
  - rewrite bool_decide_eq_false_2 by lia. by rewrite app_nil_r.
Qed.

Lemma appendName_built name names :
  allChars textChar name = true → Forall built names → Forall built (appendName name names).
Proof.
  intros Hc Hall. rewrite appendName_spec. apply Forall_app. split; [done|].
  case_bool_decide; [|done]. by repeat constructor.
Qed.

Lemma appendName_length name names :
  (length names ≤ length (appendName name names) ≤ length names + 1)%nat.
Proof.
  rewrite appendName_spec, length_app. case_bool_decide; simpl; lia.
Qed.

Lemma mutate_built base names mut :
  allChars textChar base = true → Forall built names →
  Forall built (mutate ToLower base names mut).
Proof.
  intros Hb Hall. unfold mutate.
  pose proof (cleanText_chars mut) as Hm.
  repeat apply appendName_built; try done;
    rewrite ?allChars_app, ?Hb, ?Hm; done.
Qed.

Lemma appendName_length_within name names (names0 : list string) k :
  (length names0 ≤ length names ≤ length names0 + k)%nat →
  (length names0 ≤ length (appendName name names) ≤ length names0 + S k)%nat.
Proof. pose proof (appendName_length name names). lia. Qed.

Lemma mutate_length base names mut :
  (length names ≤ length (mutate ToLower base names mut) ≤ length names + 6)%nat.
Proof. unfold mutate. do 6 apply appendName_length_within. lia. Qed.

Lemma mutations_built base mutations : ∀ names,
  allChars textChar base = true → Forall built names →
  Forall built (fold_left (mutate ToLower base) mutations names).
Proof.
  induction mutations as [|mut mutations IH]; intros names Hb Hall; [done|].
  cbn [fold_left]. apply IH; [done|]. by apply mutate_built.
Qed.

Lemma mutations_length base mutations : ∀ names,
  (length names ≤ length (fold_left (mutate ToLower base) mutations names)
   ≤ length names + 6 * length mutations)%nat.
Proof.
  induction mutations as [|mut mutations IH]; intros names; cbn [fold_left length]; [lia|].
  pose proof (IH (mutate ToLower base names mut)).
  pose proof (mutate_length base names mut). lia.
Qed.

Lemma buildNames_from baseList mutations : ∀ names,
  Forall built names →
  let out := fold_left (λ names base,
                          let base := cleanText base in
                          fold_left (mutate ToLower base) mutations (appendName base names))
                       baseList names in
  Forall built out ∧
  (length out ≤ length names + length baseList * (1 + 6 * length mutations))%nat.
Proof.
  induction baseList as [|base baseList IH]; intros names Hall; cbn [fold_left length].
  - split; [done|lia].
  - cbn zeta.
    set (names1 := fold_left _ mutations _).
    assert (Forall built names1) as Hall1.
    { apply mutations_built; [apply cleanText_chars|].
      apply appendName_built; [apply cleanText_chars|done]. }
    destruct (IH names1 Hall1) as [Hb Hlen]. split; [done|].
    pose proof (mutations_length (cleanText base) mutations (appendName (cleanText base) names)).
    pose proof (appendName_length (cleanText base) names).
    fold names1 in H. cbn zeta in Hlen. lia.
Qed.

(** X6. buildNames: every name it builds has at most 63 bytes, all of them
    among a-z, 0-9, "." and "-", and it builds at most 1 + 6m names per
    keyword, m being the number of mutations. *)
Theorem buildNames_entries (baseList mutations : list string) :
  Forall (λ n, len n ≤ 63 ∧ allChars textChar n = true) (buildNames baseList mutations)
  ∧ (length (buildNames baseList mutations)
     ≤ length baseList * (1 + 6 * length mutations))%nat.
Proof.
  destruct (buildNames_from baseList mutations [] ltac:(done)) as [Hb Hlen].
  split; [exact Hb|]. cbn [length] in Hlen. exact Hlen.
Qed.

Lemma buildNames_nil_from baseList : ∀ names,
  fold_left (λ names base,
               let base := cleanText base in
               fold_left (mutate ToLower base) [] (appendName base names))
            baseList names
  = names ++ filter (λ n, len n ≤ 63) (cleanText <$> baseList).
Proof.
  induction baseList as [|base baseList IH]; intros names; cbn [fold_left fmap list_fmap].
  - by rewrite filter_nil, app_nil_r.
  - cbn zeta. cbn [fold_left]. rewrite IH, appendName_spec, filter_cons.
    case_bool_decide; case_decide; try done; try lia.
    + by rewrite <- app_assoc.
    + by rewrite app_nil_r.
Qed.

(** X7. buildNames without mutations (the quick scan): the cleaned keywords of
    at most 63 bytes, in their order and with their repetitions. *)
Theorem buildNames_without_mutations (baseList : list string) :
  buildNames baseList [] = filter (λ n, len n ≤ 63) (cleanText <$> baseList).
Proof. unfold Names.buildNames. by rewrite buildNames_nil_from. Qed.

End Facts.

Example buildNames_sample :
  buildNames asciiLower ["Acme"] ["dev"]
  = ["acme"; "acmedev"; "acme.dev"; "acme-dev"; "devacme"; "dev.acme"; "dev-acme"].
Proof. by vm_compute. Qed.

End NamesFacts.

Module CandidateFacts.
Import Go Text Domain Names Candidates Wordlist GoFacts TextFacts DomainFacts.

Lemma append_assoc a b c :
  String.append (String.append a b) c = String.append a (String.append b c).
Proof. induction a as [|x a IH]; [done|]. rewrite !append_cons. by rewrite IH. Qed.

Lemma Split_append_dot a b :
  Split (String.append a (String dot b)) = Split a ++ Split b.
Proof.
  induction a as [|c r IH].
  - by rewrite append_nil, Split_dot.
  - rewrite append_cons. destruct (Ascii.eqb c dot) eqn:E.
    + apply Ascii.eqb_eq in E. subst c. by rewrite !Split_dot, IH.
    + rewrite !(Split_other _ _ E), IH.
      pose proof (Split_nonempty r). by destruct (Split r).
Qed.

Lemma dot_free_Split s : dot_free s = true → Split s = [s].
Proof.
  induction s as [|c r IH]; [done|]. cbn [dot_free].
  intros [Hc Hr]%andb_prop. apply negb_true_iff in Hc.
  by rewrite (Split_other _ _ Hc), (IH Hr).
Qed.

Lemma Split_dot_free_append a b :
  dot_free a = true →
  Split (String.append a b) = String.append a (hd EmptyString (Split b)) :: tail (Split b).
Proof.
  induction a as [|c r IH]; intros Ha.
  - rewrite !append_nil. pose proof (Split_nonempty b). by destruct (Split b).
  - cbn [dot_free] in Ha. apply andb_prop in Ha as [Hc Hr]. apply negb_true_iff in Hc.
    rewrite !append_cons, (Split_other _ _ Hc), (IH Hr). done.
Qed.

Lemma labelsOK_app l1 l2 : labelsOK (l1 ++ l2) = labelsOK l1 && labelsOK l2.
Proof.
  induction l1 as [|l l1 IH]; [done|]. cbn [app labelsOK].
  by destruct ((len l <? 1) || (len l >? 63)).
Qed.

Lemma labelsOK_cons l rest :
  labelsOK (l :: rest) = (1 <=? len l) && (len l <=? 63) && labelsOK rest.
Proof.
  cbn [labelsOK]. rewrite Z.gtb_ltb.
  destruct (Z.ltb_spec (len l) 1), (Z.ltb_spec 63 (len l)),
    (Z.leb_spec 1 (len l)), (Z.leb_spec (len l) 63); try lia; done.
Qed.

Lemma IsValidDomain_eq d : IsValidDomain d = (len d <=? 253) && labelsOK (Split d).
Proof.
  unfold IsValidDomain. rewrite Z.gtb_ltb.
  destruct (Z.ltb_spec 253 (len d)), (Z.leb_spec (len d) 253); try lia; done.
Qed.

Lemma dot_free_app a b : dot_free (String.append a b) = dot_free a && dot_free b.
Proof. induction a as [|c r IH]; [done|]. rewrite append_cons. cbn [dot_free]. by rewrite IH, andb_assoc. Qed.

Lemma allChars_dot_free (P : ascii → bool) s :
  P dot = false → allChars P s = true → dot_free s = true.
Proof.
  intros Hdot. induction s as [|c r IH]; [done|]. cbn [allChars dot_free].
  intros [Hc Hr]%andb_prop. rewrite (IH Hr), andb_true_r. apply negb_true_iff.
  destruct (Ascii.eqb_spec c dot) as [->|]; [congruence|done].
Qed.

Lemma Contains_dot n : Contains n "." = negb (dot_free n).
Proof.
  induction n as [|c r IH]; [done|]. cbn [Contains dot_free String.prefix].
  rewrite IH. destruct (ascii_dec "." c) as [<-|Hne].
  - by destruct r.
  - destruct (Ascii.eqb_spec c dot) as [->|]; [done|]. simpl. by destruct (dot_free r).
Qed.

(** The loops that build candidates, as filters. *)
Lemma candidates_fold (keep : string → bool) (f : string → string) names : ∀ acc,
  fold_left (λ acc n, if keep n then acc ++ [f n] else acc) names acc
  = acc ++ (f <$> filter (λ n, keep n = true) names).
Proof.
  induction names as [|n names IH]; intros acc; cbn [fold_left].
  - by rewrite filter_nil, app_nil_r.
  - rewrite IH, filter_cons. destruct (keep n); case_decide; try done.
    by rewrite fmap_cons, <- app_assoc.
Qed.

Lemma filterValid_fmap (f : string → string) (P : string → Prop)
    `{∀ n, Decision (P n)} names :
  Forall (λ n, IsValidDomain (f n) = true ↔ P n) names →
  filterValid (f <$> names) = f <$> filter P names.
Proof.
  rewrite filterValid_filter. induction 1 as [|n names Hn _ IH]; [done|].
  rewrite fmap_cons, !filter_cons, IH. repeat case_decide; naive_solver.
Qed.

Lemma IsValidDomain_withSuffix domain n :
  IsValidDomain domain = true → len domain ≤ 189 → len n ≤ 63 →
  IsValidDomain (withSuffix domain n) = IsValidDomain n.
Proof.
  intros Hd Hlen Hn. rewrite IsValidDomain_eq in Hd. apply andb_prop in Hd as [_ Hd].
  rewrite !IsValidDomain_eq. unfold withSuffix.
  change (String.append "." domain) with (String dot domain).
  rewrite Split_append_dot, labelsOK_app, Hd, andb_true_r, len_append.
  change (len (String dot domain)) with (Z.of_nat (S (String.length domain))).
  unfold len in *.
  destruct (Z.leb_spec (Z.of_nat (String.length n) + Z.of_nat (S (String.length domain))) 253),
    (Z.leb_spec (Z.of_nat (String.length n)) 253); try lia; done.
Qed.

Lemma filterValid_withSuffix domain names :
  IsValidDomain domain = true → len domain ≤ 189 → Forall (λ n, len n ≤ 63) names →
  filterValid (withSuffix domain <$> names) = withSuffix domain <$> filterValid names.
Proof.
  intros Hd Hlen Hall. rewrite (filterValid_filter names).
  apply filterValid_fmap. eapply Forall_impl; [exact Hall|].
  intros n Hn. cbn beta. by rewrite IsValidDomain_withSuffix.
Qed.

Lemma IsValidDomain_label domain n :
  IsValidDomain domain = true → len domain ≤ 189 → dot_free n = true →
  IsValidDomain (withSuffix domain n) = true ↔ 1 ≤ len n ≤ 63.
Proof.
  intros Hd Hlen Hn. rewrite IsValidDomain_eq in Hd. apply andb_prop in Hd as [_ Hd].
  rewrite IsValidDomain_eq. unfold withSuffix.
  change (String.append "." domain) with (String dot domain).
  rewrite Split_append_dot, labelsOK_app, Hd, andb_true_r, len_append.
  rewrite (dot_free_Split _ Hn), labelsOK_cons, andb_true_r.
  change (len (String dot domain)) with (Z.of_nat (S (String.length domain))).
  unfold len in *. rewrite !andb_true_iff, !Z.leb_le. lia.
Qed.

Section Built.
Variable ToLower : string → string.

Lemma buildNames_short baseList mutations :
  Forall (λ n, len n ≤ 63) (buildNames ToLower baseList mutations).
Proof.
  destruct (NamesFacts.buildNames_from ToLower baseList mutations [] ltac:(done)) as [Hb _].
  eapply Forall_impl; [exact Hb|]. by intros n [? _].
Qed.

(** X8. checkS3Buckets, checkAWSApps, checkAzureWebsites, checkAzureDatabases
    and checkAzureVMs: of the names built from the keywords, the batch
    engines are left with the candidates of exactly those that are valid
    domain names themselves (no empty label), in their order. *)
Theorem suffix_checks_try_valid_names (baseList mutations : list string) :
  let names := buildNames ToLower baseList mutations in
  filterValid (s3Candidates names) = s3Candidates (filterValid names)
  ∧ filterValid (appsCandidates names) = appsCandidates (filterValid names)
  ∧ filterValid (websiteCandidates names) = websiteCandidates (filterValid names)
  ∧ filterValid (databaseCandidates names) = databaseCandidates (filterValid names)
  ∧ Forall (λ region, filterValid (vmCandidates region names)
                      = vmCandidates region (filterValid names)) AzureRegions.
Proof.
  intros names. pose proof (buildNames_short baseList mutations) as Hshort.
  fold names in Hshort.
  repeat split; try (apply filterValid_withSuffix; [by vm_compute|by vm_compute|done]).
  repeat constructor.
  apply (filterValid_withSuffix "eastus.cloudapp.azure.com"); [by vm_compute|by vm_compute|done].
Qed.

End Built.

(** X9. checkFBRTDB, checkAppspot and CheckFBApp: of the names they are given,
    the batch engine is left with the candidates of exactly those that
    have no dot and 1 to 63 bytes. *)
Theorem dotless_checks_try_single_labels (names : list string) :
  let single := filter (λ n, dot_free n = true ∧ 1 ≤ len n ≤ 63) names in
  filterValid (fbrtdbCandidates names) = withSuffix "firebaseio.com/.json" <$> single
  ∧ filterValid (appspotCandidates names) = withSuffix appspotURL <$> single
  ∧ filterValid (fbappCandidates names) = withSuffix fbappURL <$> single.
Proof.
  intros single.
  assert (∀ tail, IsValidDomain tail = true → len tail ≤ 189 →
            filterValid (dotless tail names) = withSuffix tail <$> single) as Hgen.
  { intros tail Hd Hlen. unfold dotless.
    rewrite (candidates_fold (λ n, negb (Contains n ".")) (withSuffix tail)), app_nil_l.
    rewrite (filterValid_fmap (withSuffix tail) (λ n, 1 ≤ len n ≤ 63)).
    - unfold single. rewrite list_filter_filter. f_equal. apply list_filter_iff.
      intros n. rewrite Contains_dot, negb_involutive. naive_solver.
    - apply Forall_forall. intros n [Hn _]%list_elem_of_filter.
      rewrite Contains_dot, negb_involutive in Hn. by apply IsValidDomain_label. }
  repeat split; apply Hgen; by vm_compute.
Qed.

Lemma alnum_dot_free n : allChars alnumChar n = true → dot_free n = true.
Proof. by apply allChars_dot_free. Qed.

(** X10. checkAzureAccountType: FastDNSLookup is left with the candidates of
    exactly the names that have 1 to 63 bytes, all of them letters or
    digits, whatever the account domain. *)
Theorem account_checks_try_alphanumeric_names (names : list string) :
  Forall (λ domain,
            filterValid (accountCandidates names domain)
            = withSuffix domain
                <$> filter (λ n, allChars alnumChar n = true ∧ 1 ≤ len n ≤ 63) names)
         accountDomains.
Proof.
  assert (∀ domain, IsValidDomain domain = true → len domain ≤ 189 →
            filterValid (accountCandidates names domain)
            = withSuffix domain
                <$> filter (λ n, allChars alnumChar n = true ∧ 1 ≤ len n ≤ 63) names) as Hgen.
  { intros domain Hd Hlen. unfold accountCandidates.
    rewrite (candidates_fold (λ n, negb (matchesOutside alnumChar n)) (withSuffix domain)).
    rewrite app_nil_l.
    rewrite (filterValid_fmap (withSuffix domain) (λ n, 1 ≤ len n ≤ 63)).
    - rewrite list_filter_filter. f_equal. apply list_filter_iff.
      intros n. unfold matchesOutside. rewrite negb_involutive. naive_solver.
    - apply Forall_forall. intros n [Hn _]%list_elem_of_filter.
      unfold matchesOutside in Hn. rewrite negb_involutive in Hn.
      apply IsValidDomain_label; [done..|]. by apply alnum_dot_free. }
  repeat constructor; apply Hgen; by vm_compute.
Qed.

Lemma bruteChar_dot_free b : allChars bruteChar b = true → dot_free b = true.
Proof. by apply allChars_dot_free. Qed.

Lemma len_String c s : len (String c s) = 1 + len s.
Proof. unfold len. cbn [String.length]. lia. Qed.

Lemma len_empty : len EmptyString = 0.
Proof. done. Qed.

Ltac lens := repeat (rewrite len_append || rewrite len_String || rewrite len_empty).

Lemma IsValidDomain_containerCandidate n b :
  allChars alnumChar n = true → 1 ≤ len n ≤ 63 →
  allChars bruteChar b = true → 1 ≤ len b ≤ 63 →
  IsValidDomain (containerCandidate (withSuffix blobURL n) b) = true ↔ len b ≤ 30.
Proof.
  intros Hn Hlen Hb Hblen.
  pose proof (alnum_dot_free _ Hn) as Hdn. pose proof (bruteChar_dot_free _ Hb) as Hdb.
  set (last := String.append "net/" (String.append b "/?restype=container&comp=list")).
  assert (containerCandidate (withSuffix blobURL n) b
          = String.append n (String dot (String.append "blob" (String dot
              (String.append "core" (String dot (String.append "windows"
                (String dot last))))))) ) as ->.
  { unfold containerCandidate, withSuffix. by rewrite append_assoc. }
  assert (dot_free last = true) as Hdl.
  { unfold last. by rewrite !dot_free_app, Hdb. }
  assert (len last = len b + 33) as Hlast.
  { unfold last. lens. lia. }
  rewrite IsValidDomain_eq, !Split_append_dot.
  rewrite (dot_free_Split _ Hdn), (dot_free_Split _ Hdl).
  change (Split "blob") with ["blob"]. change (Split "core") with ["core"].
  change (Split "windows") with ["windows"]. cbn [app].
  rewrite !labelsOK_cons. cbn [labelsOK].
  rewrite !andb_true_iff, !Z.leb_le. lens. rewrite Hlast. lia.
Qed.

Section Containers.
Variable ToLower : string → string.
Variable TrimSpace : string → string.

(** X11. bruteForceContainers: of the cleaned wordlist (container names of 3 to
    63 bytes), GetURLBatch is left with the candidates of the names of at
    most 30 bytes: the candidate's last label is "net/", the name and
    "/?restype=container&comp=list", and a label has at most 63 bytes. *)
Theorem container_names_over_30_bytes_skipped (n bruteData : string) :
  allChars alnumChar n = true → 1 ≤ len n ≤ 63 →
  let acct := withSuffix blobURL n in
  let cleanNames := GetBrute ToLower TrimSpace bruteData 3 63 in
  filterValid (containerCandidates acct cleanNames)
  = containerCandidates acct (filter (λ b, len b ≤ 30) cleanNames).
Proof.
  intros Hn Hlen acct cleanNames. unfold containerCandidates.
  apply (filterValid_fmap (containerCandidate acct) (λ b, len b ≤ 30)).
  destruct (WordlistFacts.GetBrute_clean ToLower TrimSpace bruteData 3 63) as [_ Hall].
  eapply Forall_impl; [exact Hall|]. intros b (Hb & _ & ? & ?). cbn beta.
  apply IsValidDomain_containerCandidate; [done..|lia].
Qed.

End Containers.

Lemma container_names_witness :
  allChars alnumChar "acme" = true ∧ 1 ≤ len "acme" ≤ 63
  ∧ filterValid (containerCandidates (withSuffix blobURL "acme")
                   (GetBrute asciiLower asciiTrim WordlistScenario.containerWords 3 63))
    = containerCandidates (withSuffix blobURL "acme")
        (filter (λ b, len b ≤ 30)
           (GetBrute asciiLower asciiTrim WordlistScenario.containerWords 3 63)).
Proof.
  assert (allChars alnumChar "acme" = true) as Hn by reflexivity.
  assert (1 ≤ len "acme" ≤ 63) as Hlen by (by vm_compute).
  split; [exact Hn|]. split; [exact Hlen|].
  exact (container_names_over_30_bytes_skipped asciiLower asciiTrim "acme" _ Hn Hlen).
Defined.

Example container_names_sample :
  filterValid (containerCandidates (withSuffix blobURL "acme")
                 (GetBrute asciiLower asciiTrim WordlistScenario.containerWords 3 63))
  = ["acme.blob.core.windows.net/backup/?restype=container&comp=list"].
Proof. by vm_compute. Qed.

(** X12. checkGCPBuckets: the candidate of a name passes the batch engine's
    filter exactly when the name has at most 230 bytes, its first label at
    most 59 (it shares a label with "com/") and every further label 1 to
    63; the candidate of the empty name passes. *)
Theorem bucket_candidate_valid (n : string) :
  IsValidDomain (bucketCandidate n)
  = (len n <=? 230) && (len (hd EmptyString (Split n)) <=? 59) && labelsOK (tail (Split n))
  ∧ IsValidDomain (bucketCandidate EmptyString) = true.
Proof.
  split; [|by vm_compute].
  assert (bucketCandidate n
          = String.append "storage" (String dot (String.append "googleapis"
              (String dot (String.append "com/" n))))) as -> by done.
  rewrite IsValidDomain_eq, !Split_append_dot.
  rewrite (Split_dot_free_append "com/" n) by done.
  change (Split "storage") with ["storage"]. change (Split "googleapis") with ["googleapis"].
  cbn [app]. rewrite !labelsOK_cons. lens.
  pose proof (len_nonneg n). pose proof (len_nonneg (hd EmptyString (Split n))).
  destruct (labelsOK (tail (Split n))); rewrite ?andb_true_r, ?andb_false_r; [|done].
  apply eq_true_iff_eq. rewrite !andb_true_iff, !Z.leb_le. lia.
Qed.

(** X13. checkFunctions: of the names it is given, GetURLBatch is left with the
    candidates of those of at most 222 bytes whose first label has at most
    51 bytes (it follows "us-central1-" in a label) and whose further
    labels have 1 to 63. *)
Theorem function_candidates_valid (names : list string) :
  filterValid (GCP.candidates names)
  = GCP.candidates
      (filter (λ n, len n ≤ 222 ∧ len (hd EmptyString (Split n)) ≤ 51
                    ∧ labelsOK (tail (Split n)) = true) names).
Proof.
  unfold GCP.candidates, GCP.GCPRegions. cbn [flat_map]. rewrite !app_nil_r.
  apply (filterValid_fmap _ (λ n, len n ≤ 222 ∧ len (hd EmptyString (Split n)) ≤ 51
                                  ∧ labelsOK (tail (Split n)) = true)).
  apply Forall_forall. intros n _.
  assert (String.append "us-central1"
            (String.append "-" (String.append n (String.append "." GCP.funcURL)))
          = String.append (String.append "us-central1-" n) (String dot GCP.funcURL)) as ->.
  { by rewrite append_assoc. }
  rewrite IsValidDomain_eq, Split_append_dot.
  rewrite (Split_dot_free_append "us-central1-" n) by done.
  change (Split GCP.funcURL) with ["cloudfunctions"; "net"].
  rewrite labelsOK_app. cbn [app]. rewrite !labelsOK_cons.
  change (labelsOK ["cloudfunctions"; "net"]) with true. unfold GCP.funcURL. lens.
  pose proof (len_nonneg n). pose proof (len_nonneg (hd EmptyString (Split n))).
  rewrite !andb_true_iff, !Z.leb_le. intuition lia.
Qed.

End CandidateFacts.

Module DNSLedgerFacts.
Import Go Domain DNS DNSBatch DNSLedger DNSBatchFacts Mock DNSScenario.

Lemma kept_app l1 l2 : kept (l1 ++ l2) = kept l1 ++ kept l2.
Proof. unfold kept. apply filter_app. Qed.

Lemma kept_perm l1 l2 : l1 ≡ₚ l2 → kept l1 ≡ₚ kept l2.
Proof. unfold kept. by intros ->. Qed.

Lemma kept_cons x l : kept (x :: l) = (if isName x then [x] else []) ++ kept l.
Proof. unfold kept. rewrite filter_cons. by destruct (isName x); case_decide. Qed.

Lemma kept_answer name a b :
  kept [encode (codeOutcome name a b)] ⊆+ [name].
Proof.
  rewrite kept_cons, app_nil_r.
  destruct (DNSFacts.codeOutcome_cases name a b) as [->|[->| ->]]; cbn [encode].
  - destruct (isName name); [done|]. apply submseteq_nil_l.
  - apply submseteq_nil_l.
  - apply submseteq_nil_l.
Qed.

Section Facts.
Context {R : Type}.
Variable LookupHost : R → string → Z → option error * R.
Variable filtered : list string.
Variable n : nat.
Variable c : config.
Hypothesis Htotal : total c = Z.of_nat (length filtered).

Lemma ledgerInv_feeder (s s' : @state R) :
  stepFeeder c s = Some s' → ledgerInv filtered n s → ledgerInv filtered n s'.
Proof.
  unfold stepFeeder. intros Hstep [Hsound Hcount Hdone Hw Hjc Hfin Hrc Hret].
  destruct (feed s) as [|x rest] eqn:Hfeed.
  - destruct (jobsClosed s) eqn:Hclosed; [done|]. injection Hstep as <-.
    split; sstate; try done.
    + by rewrite Hfeed.
    + by rewrite Hfeed.
    + intros i Hi. by destruct (Hfin i Hi).
  - destruct (_ <? _); [|done]. injection Hstep as <-.
    split; sstate; try done.
    + etrans; [apply Permutation_submseteq|exact Hsound]. solve_Permutation.
    + rewrite <- Hcount, length_app. cbn [length]. lia.
    + intros Hc. by specialize (Hjc Hc).
    + intros i Hi. destruct (Hfin i Hi) as [Hc _]. by specialize (Hjc Hc).
Qed.

Lemma ledgerInv_worker i (s s' : @state R) :
  status s = Running →
  stepWorker LookupHost c i s = Some s' →
  ledgerInv filtered n s → ledgerInv filtered n s'.
Proof.
  unfold stepWorker. intros Hrun Hstep [Hsound Hcount Hdone Hw Hjc Hfin Hrc Hret].
  destruct (workers s !! i) as [w|] eqn:Hi; [|done].
  pose proof (λ w', lookingOf_insert (workers s) i w w' Hi) as HL.
  pose proof (λ w', sendingOf_insert (workers s) i w w' Hi) as HS.
  assert (resultsClosed s = true → w = WDone) as Hrc' by (intros Hc; by eapply Hrc).
  assert (∀ w' j, w' ≠ WDone → <[i:=w']> (workers s) !! j = Some WDone →
                  workers s !! j = Some WDone) as Hother.
  { intros w' j Hne [(_ & -> & _)|[_ Hj]]%list_lookup_insert_Some; done. }
  destruct w as [|name|res|]; [| | |done].
  - destruct (jobs s) as [|name rest] eqn:Hjobs.
    + destruct (jobsClosed s) eqn:Hclosed; [|done]. injection Hstep as <-.
      specialize (HL WDone). specialize (HS WDone). cbn [option_list option_rect app] in HL, HS.
      split; sstate.
      * by rewrite Hjobs, HL, (kept_perm _ _ HS).
      * by rewrite Hjobs, HL, HS.
      * done.
      * by rewrite length_insert.
      * eauto.
      * by rewrite Hjobs.
      * intros Hc. by specialize (Hrc' Hc).
      * eauto.
    + injection Hstep as <-.
      specialize (HL (WLookup name)). specialize (HS (WLookup name)).
      cbn [option_list option_rect app] in HL, HS.
      split; sstate.
      * etrans; [apply Permutation_submseteq|exact Hsound].
        rewrite HL, (kept_perm _ _ HS). solve_Permutation.
      * rewrite <- Hcount, HL, HS. cbn [length]. lia.
      * done.
      * by rewrite length_insert.
      * eauto.
      * intros j Hj. apply Hother in Hj; [|done]. by destruct (Hfin j Hj) as [_ Hnil].
      * intros Hc. by specialize (Hrc' Hc).
      * eauto.
  - pose proof (DNSFacts.dnsLookup_eq LookupHost (resolver s) name (lookupTimeout c)) as Hres.
    cbn zeta in Hres.
    destruct (dnsLookup LookupHost (resolver s) name (lookupTimeout c)) as [res r'].
    injection Hres as -> _. injection Hstep as <-.
    match goal with
    | |- context [WSend ?x] => set (res := x)
    end.
    specialize (HL (WSend res)). specialize (HS (WSend res)).
    cbn [option_list option_rect app] in HL, HS.
    split; sstate.
    + assert (kept [res] ⊆+ [name]) as Hans by apply kept_answer.
      etrans; [|exact Hsound]. rewrite <- HL, (kept_perm _ _ HS).
      apply submseteq_app; [done|]. apply submseteq_app; [done|].
      change (res :: sendingOf (workers s)) with ([res] ++ sendingOf (workers s)).
      rewrite kept_app, <- app_assoc.
      assert (kept (sendingOf (workers s))
                ++ (name :: lookingOf (<[i:=WSend res]> (workers s))) ++ jobs s ++ feed s
              ≡ₚ [name] ++ kept (sendingOf (workers s))
                   ++ lookingOf (<[i:=WSend res]> (workers s)) ++ jobs s ++ feed s) as ->
        by solve_Permutation.
      by apply submseteq_app.
    + rewrite <- Hcount, <- HL, HS. cbn [length]. lia.
    + done.
    + by rewrite length_insert.
    + eauto.
    + intros j Hj. apply Hother in Hj; [|done]. by apply (Hfin j).
    + intros Hc. by specialize (Hrc' Hc).
    + eauto.
  - destruct (_ <? _); [|done]. injection Hstep as <-.
    specialize (HL WRange). specialize (HS WRange). cbn [option_list option_rect app] in HL, HS.
    assert (Z.of_nat (length (results s) + length (received s)) + 1
            ≤ Z.of_nat (length filtered)) as Hroom.
    { rewrite <- Hcount, <- HS. cbn [length]. lia. }
    split; sstate.
    + etrans; [apply Permutation_submseteq|exact Hsound].
      rewrite HL, <- (kept_perm _ _ HS), kept_app.
      change (res :: sendingOf (<[i:=WRange]> (workers s)))
        with ([res] ++ sendingOf (<[i:=WRange]> (workers s))).
      rewrite kept_app. solve_Permutation.
    + rewrite <- Hcount, HL, <- HS, length_app. cbn [length]. lia.
    + intros Hfit. destruct (Hdone Hfit) as [Hd Hout]. split; [|done].
      rewrite Hd, RateLimiterFacts.wrap64_small, length_app; [cbn [length]; lia|].
      unfold maxInt64 in *. lia.
    + by rewrite length_insert.
    + eauto.
    + intros j Hj. apply Hother in Hj; [|done]. by apply (Hfin j).
    + intros Hc. by specialize (Hrc' Hc).
    + intros Hst. congruence.
Qed.

Lemma consumeOne_keeps name (s : @state R) :
  let s' := consumeOne c name s in
  feed s' = feed s ∧ jobs s' = jobs s ∧ workers s' = workers s
  ∧ results s' = results s ∧ received s' = received s ∧ done s' = done s
  ∧ jobsClosed s' = jobsClosed s ∧ resultsClosed s' = resultsClosed s
  ∧ (status s = Running → status s' ≠ Returned)
  ∧ (Forall withinTotal (output s) → Forall withinTotal (output s')).
Proof.
  unfold consumeOne. destruct (String.eqb name ""); [by repeat split; try congruence|].
  destruct (String.eqb name breakout).
  { sstate. repeat split; try done. intros H. apply Forall_app. by repeat constructor. }
  destruct (hasCallback c); cbn; repeat split; congruence.
Qed.

Lemma ledgerInv_consumer (s s' : @state R) :
  status s = Running →
  stepConsumer c s = Some s' →
  ledgerInv filtered n s → ledgerInv filtered n s'.
Proof.
  unfold stepConsumer. intros Hrun Hstep [Hsound Hcount Hdone Hw Hjc Hfin Hrc Hret].
  destruct (results s) as [|name rest] eqn:Hres.
  - destruct (resultsClosed s) eqn:Hclosed; [|done]. injection Hstep as <-.
    split; sstate; rewrite ?Hres, ?Hclosed; eauto.
    intros Hfit. destruct (Hdone Hfit) as [Hd Hout]. split; [done|].
    apply Forall_app. by repeat constructor.
  - injection Hstep as <-.
    destruct (consumeOne_keeps name
                (set_results rest (set_received (received s ++ [name]) s)))
      as (Hf & Hj & Hws & Hr & Hrec & Hd & Hjcl & Hrcl & Hst & Ho).
    sstate in Hf. sstate in Hj. sstate in Hws. sstate in Hr. sstate in Hrec.
    sstate in Hjcl. sstate in Hrcl. sstate in Hst. sstate in Hd. sstate in Ho.
    split; rewrite ?Hf, ?Hj, ?Hws, ?Hr, ?Hrec, ?Hjcl, ?Hrcl, ?Hd; eauto.
    + etrans; [apply Permutation_submseteq|exact Hsound].
      change (name :: rest) with ([name] ++ rest). rewrite !kept_app. solve_Permutation.
    + rewrite <- Hcount, length_app. cbn [length]. lia.
    + intros Hfit. destruct (Hdone Hfit) as [Hd' Hout]. split; [|by apply Ho].
      rewrite Hd', length_app. cbn [length]. lia.
    + intros Hret'. by destruct (Hst Hrun).
Qed.

Lemma ledgerInv_step a (s s' : @state R) :
  step LookupHost c a s = Some s' →
  ledgerInv filtered n s → ledgerInv filtered n s'.
Proof.
  intros Hstep. pose proof (step_running _ _ _ _ _ Hstep) as Hrun.
  unfold step in Hstep. rewrite Hrun in Hstep.
  destruct a as [|i| | |].
  - by apply ledgerInv_feeder.
  - by apply ledgerInv_worker with (i := i).
  - unfold stepCloser in Hstep. intros [Hsound Hcount Hdone Hw Hjc Hfin Hrc Hret].
    destruct (resultsClosed s) eqn:Hclosed; [done|].
    destruct (forallb isDone (workers s)) eqn:Hall; [|done]. injection Hstep as <-.
    split; sstate; eauto.
    + intros _. by apply forallb_isDone.
    + intros Hst. congruence.
  - injection Hstep as <-. intros [Hsound Hcount Hdone Hw Hjc Hfin Hrc Hret].
    split; sstate; eauto.
    intros Hfit. destruct (Hdone Hfit) as [Hd Hout]. split; [done|].
    apply Forall_app. split; [done|]. apply Forall_singleton. unfold withinTotal.
    rewrite Hd, Htotal, <- Hcount. lia.
  - by apply ledgerInv_consumer.
Qed.

(** When the call has returned with at least one worker, nothing is left
    anywhere but in the consuming loop's history. *)
Lemma ledgerInv_returned (s : @state R) :
  ledgerInv filtered n s → status s = Returned → n ≠ 0%nat →
  feed s = [] ∧ jobs s = [] ∧ lookingOf (workers s) = [] ∧ sendingOf (workers s) = []
  ∧ results s = [].
Proof.
  intros [Hsound Hcount Hdone Hw Hjc Hfin Hrc Hret] Hst Hn.
  destruct (Hret Hst) as [Hres Hclosed]. specialize (Hrc Hclosed).
  destruct (workers s) as [|w ws] eqn:Hws; [cbn in Hw; congruence|].
  pose proof (Hrc 0%nat w eq_refl) as ->.
  destruct (Hfin 0%nat eq_refl) as [Hjcl Hjobs].
  destruct (all_done_nothing_held _ Hrc) as [HL HS].
  by rewrite (Hjc Hjcl), Hjobs, HL, HS, Hres.
Qed.

End Facts.

Section Batch.
Context {R : Type}.
Variable LookupHost : R → string → Z → option error * R.
Variable systemResolver : R.
Variable newResolver : list string → R.
Variable ReadNameservers : string → option (list string).

Local Abbreviation start := (start systemResolver newResolver ReadNameservers).
Local Abbreviation FastDNSLookup :=
  (FastDNSLookup LookupHost systemResolver newResolver ReadNameservers).

Lemma ledgerInv_start names ns nsf cb threads c s0 :
  start names ns nsf cb threads = inr (c, s0) →
  total c = Z.of_nat (length (filterValid names)) ∧
  ledgerInv (filterValid names)
    (Z.to_nat (dnsConcurrency threads (Z.of_nat (length (filterValid names))))) s0.
Proof.
  intros Hstart.
  destruct (start_selection systemResolver newResolver ReadNameservers _ _ _ _ _ _ _ Hstart)
    as (custom' & _ & Hout).
  apply start_inr in Hstart as (custom & r & t & out & _ & _ & _ & -> & ->).
  split; [done|].
  destruct (replicate_nothing_held
              (Z.to_nat (dnsConcurrency threads (Z.of_nat (length (filterValid names))))))
    as [HL HS].
  split; sstate; try done.
  - rewrite HL, HS. by cbn.
  - rewrite HL, HS. cbn [length]. lia.
  - intros _. split; [done|]. sstate in Hout. rewrite Hout.
    by destruct custom'; repeat constructor.
  - apply length_replicate.
  - intros i [[=] _]%lookup_replicate.
Qed.

Lemma filterValid_length names :
  (length (filterValid names) ≤ length names)%nat.
Proof. rewrite DomainFacts.filterValid_filter. apply length_filter. Qed.

Lemma ledgerInv_run names ns nsf cb threads c s0 acts s :
  start names ns nsf cb threads = inr (c, s0) →
  run LookupHost c acts s0 = Some s →
  ledgerInv (filterValid names)
    (Z.to_nat (dnsConcurrency threads (Z.of_nat (length (filterValid names))))) s.
Proof.
  intros Hstart Hrun. destruct (ledgerInv_start _ _ _ _ _ _ _ Hstart) as [Htotal Hinv].
  refine (run_invariant LookupHost _ c _ acts s0 s Hrun Hinv).
  intros a s1 s2. by apply ledgerInv_step.
Qed.

Lemma returns_given_names names ns nsf cb threads sched l :
  FastDNSLookup names ns nsf cb threads sched = Some (Return l) →
  l ⊆+ filterValid names.
Proof.
  unfold DNSBatch.FastDNSLookup.
  destruct (start names ns nsf cb threads) as [early|[c s0]] eqn:Hstart.
  { intros [= ->]. unfold DNSBatch.start in Hstart.
    destruct (_ =? 0); [injection Hstart as <-; apply submseteq_nil_l|].
    destruct (selectResolver _ _ _ _ _); [|done].
    destruct (_ =? 0); [injection Hstart as <-; apply submseteq_nil_l|].
    by destruct (_ <? 0). }
  destruct (run LookupHost c sched s0) as [s|] eqn:Hrun; [|done].
  pose proof (ledgerInv_run _ _ _ _ _ _ _ _ _ Hstart Hrun) as [Hsound _ _ _ _ _ _ _].
  pose proof (run_invariant LookupHost _ c (consumerInv_step LookupHost c) sched s0 s Hrun
                (consumerInv_start _ _ _ _ _ _ _ _ _ _ Hstart)) as Hcons.
  unfold consumerInv in Hcons.
  destruct (status s); [done|done|]. intros [= <-]. destruct Hcons as (_ & -> & _).
  etrans; [|exact Hsound]. apply submseteq_inserts_r. done.
Qed.

(** X14. FastDNSLookup, whatever the resolver answers and whatever the
    interleaving: the names appended to [validNames] are among the names
    that pass the validator, each at most as often as it was given. *)
Theorem FastDNSLookup_returns_given_names
    (names : list string) (ns nsf : string) (cb : bool) (threads : Z)
    (sched : list action) (l : list string) :
  FastDNSLookup names ns nsf cb threads sched = Some (Return l) →
  l ⊆+ filterValid names.
Proof. apply returns_given_names. Qed.

(** X15. FastDNSLookup's progress display: at every moment of every execution
    the counter [done] is between zero and the number of valid names, so is
    the count of every progress line printed, and when the call returns
    from a pool of at least one worker the counter has reached the total. *)
Theorem dns_progress_within_total
    (names : list string) (ns nsf : string) (cb : bool) (threads : Z)
    (c : config) (s0 : state) (acts : list action) (s : state) :
  Z.of_nat (length names) ≤ maxInt64 →
  start names ns nsf cb threads = inr (c, s0) →
  run LookupHost c acts s0 = Some s →
  0 ≤ done s ≤ total c
  ∧ Forall withinTotal (output s)
  ∧ (status s = Returned → workers s ≠ [] → done s = total c).
Proof.
  intros Hfit Hstart Hrun.
  pose proof (ledgerInv_run _ _ _ _ _ _ _ _ _ Hstart Hrun) as Hinv.
  destruct (ledgerInv_start _ _ _ _ _ _ _ Hstart) as [Htotal _].
  pose proof Hinv as [Hsound Hcount Hdone Hw Hjc Hfin Hrc Hret].
  pose proof (filterValid_length names) as Hle.
  destruct Hdone as [Hdone Hout]; [lia|].
  split; [rewrite Hdone, Htotal, <- Hcount; lia|]. split; [done|].
  intros Hst Hne.
  destruct (ledgerInv_returned _ _ s Hinv Hst) as (Hf & Hj & HL & HS & Hr).
  { intros Hn. rewrite Hn in Hw. by destruct (workers s). }
  rewrite Hdone, Htotal, <- Hcount, Hf, Hj, HL, HS, Hr. cbn [length]. lia.
Qed.

(** X16. FastDNSLookup's callback: at every moment of every execution it has
    been called on exactly the names appended to [validNames] so far, in
    that order, and not at all when no callback was given; a call that
    returns hands back that list. *)
Theorem callback_follows_valid_names
    (names : list string) (ns nsf : string) (cb : bool) (threads : Z)
    (c : config) (s0 : state) (acts : list action) (s : state) :
  start names ns nsf cb threads = inr (c, s0) →
  run LookupHost c acts s0 = Some s →
  called s = (if cb then validNames s else [])
  ∧ (status s = Returned →
     FastDNSLookup names ns nsf cb threads acts = Some (Return (validNames s))).
Proof.
  intros Hstart Hrun.
  pose proof (run_invariant LookupHost _ c (consumerInv_step LookupHost c) acts s0 s Hrun
                (consumerInv_start _ _ _ _ _ _ _ _ _ _ Hstart)) as Hcons.
  assert (hasCallback c = cb) as Hcb.
  { apply start_inr in Hstart as (? & ? & ? & ? & _ & _ & _ & -> & _). done. }
  split.
  - unfold consumerInv in Hcons. rewrite Hcb in Hcons.
    destruct (status s).
    + destruct Hcons as (_ & -> & ->). done.
    + destruct Hcons as (_ & pre & out & _ & _ & -> & -> & _). done.
    + destruct Hcons as (_ & -> & ->). done.
  - intros Hst. unfold DNSBatch.FastDNSLookup. by rewrite Hstart, Hrun, Hst.
Qed.

End Batch.

Lemma FastDNSLookup_returns_given_names_witness :
  FastDNSLookup fooLookup tt (λ _, tt) noFile fooBar "" "" true 1 crossed
    = Some (Return ["foo.example.com"])
  ∧ ["foo.example.com"] ⊆+ filterValid fooBar.
Proof.
  assert (FastDNSLookup fooLookup tt (λ _, tt) noFile fooBar "" "" true 1 crossed
          = Some (Return ["foo.example.com"])) as Hcall by (vm_compute; reflexivity).
  split; [exact Hcall|].
  exact (FastDNSLookup_returns_given_names fooLookup tt (λ _, tt) noFile
           fooBar "" "" true 1 crossed _ Hcall).
Defined.

Lemma dns_progress_within_total_witness :
  Z.of_nat (length fooBar) ≤ maxInt64
  ∧ start tt (λ _, tt) noFile fooBar "" "" true 1 = inr (crossedConfig, crossedFirst)
  ∧ run fooLookup crossedConfig crossed crossedFirst = Some crossedLast
  ∧ 0 ≤ done crossedLast ≤ total crossedConfig
  ∧ Forall withinTotal (output crossedLast)
  ∧ (status crossedLast = Returned → workers crossedLast ≠ [] →
     done crossedLast = total crossedConfig).
Proof.
  assert (Z.of_nat (length fooBar) ≤ maxInt64) as Hfit by (by vm_compute).
  assert (start tt (λ _, tt) noFile fooBar "" "" true 1 = inr (crossedConfig, crossedFirst))
    as Hstart by (vm_compute; reflexivity).
  assert (run fooLookup crossedConfig crossed crossedFirst = Some crossedLast)
    as Hrun by (vm_compute; reflexivity).
  split; [exact Hfit|]. split; [exact Hstart|]. split; [exact Hrun|].
  exact (dns_progress_within_total fooLookup tt (λ _, tt) noFile fooBar "" "" true 1
           _ _ _ _ Hfit Hstart Hrun).
Defined.

Lemma callback_follows_valid_names_witness :
  start tt (λ _, tt) noFile fooBar "" "" true 1 = inr (crossedConfig, crossedFirst)
  ∧ run fooLookup crossedConfig crossed crossedFirst = Some crossedLast
  ∧ called crossedLast = validNames crossedLast
  ∧ (status crossedLast = Returned →
     FastDNSLookup fooLookup tt (λ _, tt) noFile fooBar "" "" true 1 crossed
       = Some (Return (validNames crossedLast))).
Proof.
  assert (start tt (λ _, tt) noFile fooBar "" "" true 1 = inr (crossedConfig, crossedFirst))
    as Hstart by (vm_compute; reflexivity).
  assert (run fooLookup crossedConfig crossed crossedFirst = Some crossedLast)
    as Hrun by (vm_compute; reflexivity).
  split; [exact Hstart|]. split; [exact Hrun|].
  exact (callback_follows_valid_names fooLookup tt (λ _, tt) noFile fooBar "" "" true 1
           _ _ _ _ Hstart Hrun).
Defined.

End DNSLedgerFacts.

Module HTTPLedgerFacts.
Import Go Domain RateLimiter HTTPBatch HTTPLedger HTTPBatchFacts Mock HTTPScenario.

Lemma http_all_done_nothing_held (ws : list wstate) :
  (∀ i w, ws !! i = Some w → w = WDone) →
  omap urlOf ws = [] ∧ flightOf ws = [] ∧ sendingOf ws = [] ∧ countHolding ws = 0%nat.
Proof.
  induction ws as [|w ws IH]; [done|]. intros H.
  rewrite (H 0%nat w eq_refl). unfold countHolding, flightOf, sendingOf in *.
  rewrite filter_cons. cbn [omap urlOf holding]. case_decide; [done|].
  apply IH. intros i w'. apply (H (S i)).
Qed.

Lemma http_replicate_nothing_held n :
  omap urlOf (replicate n WRange) = [] ∧ flightOf (replicate n WRange) = []
  ∧ sendingOf (replicate n WRange) = [] ∧ countHolding (replicate n WRange) = 0%nat.
Proof.
  unfold countHolding, flightOf, sendingOf.
  induction n as [|n IH]; [done|]. cbn [replicate]. rewrite filter_cons.
  cbn [omap urlOf holding]. case_decide; [done|]. apply IH.
Qed.

Lemma http_forallb_isDone (ws : list wstate) :
  forallb isDone ws = true → ∀ i w, ws !! i = Some w → w = WDone.
Proof.
  induction ws as [|w ws IH]; [done|]. cbn [forallb]. intros [Hw Hws]%andb_prop.
  intros [|i] w'; cbn.
  - intros [= <-]. by destruct w.
  - by apply IH.
Qed.

Lemma substring_length n s : (String.length (String.substring 0 n s) ≤ n)%nat.
Proof.
  revert s. induction n as [|n IH]; intros [|c s]; cbn; try lia.
  specialize (IH s). lia.
Qed.

Section Facts.
Context {CB : Type}.
Variable callback : HttpResult → CB → bool * CB.

Lemma replay_snoc cb0 rs r :
  replay callback cb0 (rs ++ [r])
  = let '(stop, cb') := callback r (replay callback cb0 rs).2 in
    ((replay callback cb0 rs).1 || stop, cb').
Proof. unfold replay. by rewrite fold_left_app. Qed.

Section Books.
Variable valid : list string.
Variable n : nat.
Variable c : config.
Hypothesis Htotal : total c = Z.of_nat (length valid).

Lemma booksInv_feeder (s s' : @state CB) :
  stepFeeder c s = Some s' → booksInv valid n s → booksInv valid n s'.
Proof.
  unfold stepFeeder. intros Hstep [Honce Hall Hcount Hw Hjc Hfin Hrc Hret].
  unfold handled in Honce, Hall.
  destruct (feed s) as [|x rest] eqn:Hfeed.
  - destruct (jobsClosed s) eqn:Hclosed; [done|]. injection Hstep as <-.
    split; hstate; unfold handled; hstate; rewrite ?Hfeed; try done.
    intros i Hi. by destruct (Hfin i Hi).
  - assert (jobsClosed s = false) as Hopen.
    { destruct (jobsClosed s); [|done]. by specialize (Hjc eq_refl). }
    assert (∀ i, workers s !! i ≠ Some WDone) as Hnone.
    { intros i Hi. destruct (Hfin i Hi). congruence. }
    destruct (feedChecked s).
    + destruct (_ <? _); [|done]. injection Hstep as <-.
      split; hstate; unfold handled; hstate; try done.
      * etrans; [apply Permutation_submseteq|exact Honce]. solve_Permutation.
      * intros Hz. rewrite <- (Hall Hz). solve_Permutation.
      * intros Hfit. destruct (Hcount Hfit) as (H0 & Hle & Heq & Hout).
        rewrite length_app. cbn [length] in *. split; [lia|]. split; [lia|]. split; [|done].
        intros Hz. specialize (Heq Hz). lia.
      * by rewrite Hopen.
      * intros i Hi. by destruct (Hnone i).
    + destruct (Z.eqb_spec (aborted s) 0) as [Hz|Hnz]; injection Hstep as <-.
      * split; hstate; unfold handled; hstate; rewrite ?Hfeed; done.
      * split; hstate; unfold handled; hstate; try done.
        -- etrans; [|exact Honce].
           do 2 (apply submseteq_app; [done|]). apply submseteq_app; [done|].
           apply submseteq_nil_l.
        -- intros Hfit. destruct (Hcount Hfit) as (H0 & Hle & Heq & Hout).
           cbn [length] in *. split; [lia|]. split; [lia|]. split; [|done].
           intros Hz. by destruct Hnz.
Qed.

Lemma booksInv_worker i net (s s' : @state CB) :
  status s = Running →
  stepWorker c i net s = Some s' → booksInv valid n s → booksInv valid n s'.
Proof.
  intros Hrun Hstep Hinv. pose proof Hinv as [Honce Hall Hcount Hw Hjc Hfin Hrc Hret].
  unfold handled in Honce, Hall.
  unfold stepWorker in Hstep.
  destruct (workers s !! i) as [w|] eqn:Hi; [|done].
  pose proof (λ w', DNSBatchFacts.omap_insert_perm urlOf (workers s) i w w' Hi) as HU.
  pose proof (λ w', filter_insert_length holding (workers s) i w w' Hi) as HH.
  fold (countHolding (workers s)) in HH.
  assert (resultsClosed s = true → w = WDone) as Hrc' by (intros Hc; by eapply Hrc).
  assert (∀ w' j, w' ≠ WDone → <[i:=w']> (workers s) !! j = Some WDone →
                  workers s !! j = Some WDone) as Hother.
  { intros w' j Hne [(_ & -> & _)|[_ Hj]]%list_lookup_insert_Some; done. }
  (* a step of worker [i] that keeps its entry and touches neither the
     queues nor the counters *)
  assert (∀ w' (s1 : @state CB),
            workers s1 = <[i:=w']> (workers s) →
            urlOf w' = urlOf w → holding w' = holding w → w ≠ WDone → w' ≠ WDone →
            dispatched s1 = dispatched s → jobs s1 = jobs s → feed s1 = feed s →
            aborted s1 = aborted s → done s1 = done s →
            jobsClosed s1 = jobsClosed s → resultsClosed s1 = resultsClosed s →
            results s1 = results s → status s1 = status s →
            (Forall withinTotal (output s) → Forall withinTotal (output s1)) →
            booksInv valid n s1) as Hsame.
  { intros w' s1 Hws Hu Hh Hnd Hnd' Hd Hj Hf Ha Hdn Hjcl Hrcl Hres Hst Hout.
    specialize (HU w'). specialize (HH w'). rewrite Hu in HU. rewrite Hh in HH.
    apply (inj (app _)) in HU. fold (countHolding (<[i:=w']> (workers s))) in HH.
    split; unfold handled; rewrite ?Hws, ?Hd, ?Hj, ?Hf, ?Ha, ?Hdn, ?Hjcl, ?Hrcl, ?Hres, ?Hst.
    - by rewrite HU.
    - intros Hz. rewrite HU. by apply Hall.
    - intros Hfit. destruct (Hcount Hfit) as (H0 & Hle & Heq & Ho).
      assert (countHolding (<[i:=w']> (workers s)) = countHolding (workers s)) as -> by lia.
      repeat split; try done. by apply Hout.
    - by rewrite length_insert.
    - first [done|eauto].
    - intros j Hj'. apply Hother in Hj'; [|done]. by apply (Hfin j).
    - intros Hc. by specialize (Hrc' Hc).
    - done. }
  destruct w as [|url|url|url|url count|url|url|url|r|].
  - (* the receive on [jobs] *)
    destruct (jobs s) as [|u rest] eqn:Hjobs; [destruct (jobsClosed s) eqn:Hcl; [|done]|];
      injection Hstep as <-.
    + specialize (HU WDone). specialize (HH WDone). cbn [urlOf holding option_list option_rect app] in HU, HH.
      fold (countHolding (<[i:=WDone]> (workers s))) in HH.
      split; hstate; unfold handled; hstate; rewrite ?Hjobs.
      * by rewrite HU.
      * intros Hz. rewrite HU. by apply Hall.
      * intros Hfit. destruct (Hcount Hfit) as (H0 & Hle & Heq & Ho).
        assert (countHolding (<[i:=WDone]> (workers s)) = countHolding (workers s)) as -> by lia.
        done.
      * by rewrite length_insert.
      * first [done|eauto].
      * first [done|eauto].
      * intros Hc. by specialize (Hrc' Hc).
      * first [done|eauto].
    + specialize (HU (WCheck u)). specialize (HH (WCheck u)).
      cbn [urlOf holding option_list option_rect app] in HU, HH.
      fold (countHolding (<[i:=WCheck u]> (workers s))) in HH.
      split; hstate; unfold handled; hstate.
      * etrans; [apply Permutation_submseteq|exact Honce]. rewrite HU. solve_Permutation.
      * intros Hz. rewrite <- (Hall Hz), HU. solve_Permutation.
      * intros Hfit. destruct (Hcount Hfit) as (H0 & Hle & Heq & Ho).
        cbn [length] in *. split; [lia|]. split; [lia|]. split; [|done].
        intros Hz. specialize (Heq Hz). lia.
      * by rewrite length_insert.
      * first [done|eauto].
      * intros j Hj. apply Hother in Hj; [|done]. by destruct (Hfin j Hj).
      * intros Hc. by specialize (Hrc' Hc).
      * first [done|eauto].
  - (* the test of [aborted] *)
    destruct (Z.eqb_spec (aborted s) 0) as [Hz|Hnz]; injection Hstep as <-.
    + by apply (Hsame (WRate url)).
    + specialize (HU WRange). specialize (HH WRange).
      cbn [urlOf holding option_list option_rect app] in HU, HH.
      fold (countHolding (<[i:=WRange]> (workers s))) in HH.
      split; hstate; unfold handled; hstate.
      * etrans; [|exact Honce]. rewrite <- HU.
        apply submseteq_app; [done|]. by apply submseteq_cons.
      * first [done|eauto].
      * intros Hfit. destruct (Hcount Hfit) as (H0 & Hle & Heq & Ho).
        rewrite RateLimiterFacts.wrap64_small by (unfold maxInt64 in *; lia).
        split; [lia|]. split; [lia|]. split; [|done]. intros Hz. by destruct Hnz.
      * by rewrite length_insert.
      * first [done|eauto].
      * intros j Hj. apply Hother in Hj; [|done]. by apply (Hfin j).
      * intros Hc. by specialize (Hrc' Hc).
      * first [done|eauto].
  - (* inside rateLimitCheck *)
    destruct (_ <=? _); [|destruct (negb _)]; injection Hstep as <-;
      [by apply (Hsame (WGet url))|done|by apply (Hsame (WRateAdd url))].
  - cbn zeta in Hstep. destruct (_ =? 0); injection Hstep as <-;
      [by apply (Hsame (WRateStore url (wrap64 (rlCount (rate s) + 1))))
      |by apply (Hsame (WGet url))].
  - injection Hstep as <-. apply (Hsame (WRateSleep url)); hstate; try done.
    intros Ho. apply Forall_app. split; [done|]. by repeat constructor.
  - injection Hstep as <-. by apply (Hsame (WGet url)).
  - (* the request *)
    injection Hstep as <-. specialize (HU (WFlight url)). specialize (HH (WFlight url)).
    cbn [urlOf holding option_list option_rect app] in HU, HH.
    fold (countHolding (<[i:=WFlight url]> (workers s))) in HH.
    split; hstate; unfold handled; hstate.
    + etrans; [apply Permutation_submseteq|exact Honce]. rewrite <- HU. solve_Permutation.
    + intros Hz. rewrite <- (Hall Hz), <- HU. solve_Permutation.
    + intros Hfit. destruct (Hcount Hfit) as (H0 & Hle & Heq & Ho).
      assert (countHolding (<[i:=WFlight url]> (workers s)) = countHolding (workers s))
        as -> by lia.
      done.
    + by rewrite length_insert.
    + first [done|eauto].
    + intros j Hj. apply Hother in Hj; [|done]. by apply (Hfin j).
    + intros Hc. by specialize (Hrc' Hc).
    + first [done|eauto].
  - (* the answer *)
    destruct net as [canceled|finalURL code statusLine read]; injection Hstep as <-.
    + specialize (HU WRange). specialize (HH WRange).
      cbn [urlOf holding option_list option_rect app] in HU, HH.
      fold (countHolding (<[i:=WRange]> (workers s))) in HH.
      split; hstate; unfold handled; hstate.
      * by rewrite HU.
      * intros Hz. rewrite HU. by apply Hall.
      * intros Hfit. destruct (Hcount Hfit) as (H0 & Hle & Heq & Ho).
        rewrite RateLimiterFacts.wrap64_small by (unfold maxInt64 in *; lia).
        split; [lia|]. split; [lia|]. split.
        -- intros Hz. specialize (Heq Hz). lia.
        -- destruct canceled; [done|]. apply Forall_app. split; [done|].
           by repeat constructor.
      * by rewrite length_insert.
      * first [done|eauto].
      * intros j Hj. apply Hother in Hj; [|done]. by apply (Hfin j).
      * intros Hc. by specialize (Hrc' Hc).
      * first [done|eauto].
    + by eapply (Hsame (WSend _)).
  - (* the send on [resultsCh] *)
    destruct (_ <? _); [|done]. injection Hstep as <-.
    specialize (HU WRange). specialize (HH WRange).
    cbn [urlOf holding option_list option_rect app] in HU, HH.
    fold (countHolding (<[i:=WRange]> (workers s))) in HH.
    split; hstate; unfold handled; hstate.
    + by rewrite HU.
    + intros Hz. rewrite HU. by apply Hall.
    + intros Hfit. destruct (Hcount Hfit) as (H0 & Hle & Heq & Ho).
      rewrite RateLimiterFacts.wrap64_small by (unfold maxInt64 in *; lia).
      split; [lia|]. split; [lia|]. split; [|done].
      intros Hz. specialize (Heq Hz). lia.
    + by rewrite length_insert.
    + first [done|eauto].
    + intros j Hj. apply Hother in Hj; [|done]. by apply (Hfin j).
    + intros Hc. by specialize (Hrc' Hc).
    + intros Hst. congruence.
  - first [done|eauto].
Qed.

Lemma booksInv_step a (s s' : @state CB) :
  step callback c a s = Some s' → booksInv valid n s → booksInv valid n s'.
Proof.
  intros Hstep. pose proof (http_step_running _ _ _ _ _ Hstep) as Hrun.
  unfold step in Hstep. rewrite Hrun in Hstep.
  destruct a as [|i net| | |].
  - by apply booksInv_feeder.
  - by apply booksInv_worker with (i := i) (net := net).
  - unfold stepCloser in Hstep. intros [Honce Hall Hcount Hw Hjc Hfin Hrc Hret].
    destruct (resultsClosed s) eqn:Hclosed; [done|].
    destruct (forallb isDone (workers s)) eqn:Hdone; [|done]. injection Hstep as <-.
    split; hstate; unfold handled; hstate; eauto.
    + intros _. by apply http_forallb_isDone.
    + intros Hst. congruence.
  - injection Hstep as <-. intros [Honce Hall Hcount Hw Hjc Hfin Hrc Hret].
    split; hstate; unfold handled; hstate; eauto.
    intros Hfit. destruct (Hcount Hfit) as (H0 & Hle & Heq & Ho).
    repeat split; try done. apply Forall_app. split; [done|].
    apply Forall_singleton. unfold withinTotal. rewrite Htotal. lia.
  - unfold stepConsumer in Hstep. intros [Honce Hall Hcount Hw Hjc Hfin Hrc Hret].
    destruct (results s) as [|r rest] eqn:Hres.
    + destruct (resultsClosed s) eqn:Hclosed; [|done]. injection Hstep as <-.
      split; hstate; unfold handled; hstate; rewrite ?Hres, ?Hclosed; eauto.
      intros Hfit. destruct (Hcount Hfit) as (H0 & Hle & Heq & Ho).
      repeat split; try done. apply Forall_app. split; [done|]. by repeat constructor.
    + destruct (callback r (cbState s)) as [[] cb']; injection Hstep as <-;
        split; hstate; unfold handled; hstate; eauto; try congruence.
      intros Hfit. destruct (Hcount Hfit) as (H0 & Hle & Heq & Ho). done.
Qed.

(** When the call has returned from a pool of at least one worker,
    nothing is left in the queues or with a worker. *)
Lemma booksInv_returned (s : @state CB) :
  booksInv valid n s → status s = Returned → n ≠ 0%nat →
  feed s = [] ∧ jobs s = [] ∧ omap urlOf (workers s) = []
  ∧ countHolding (workers s) = 0%nat ∧ results s = [].
Proof.
  intros [Honce Hall Hcount Hw Hjc Hfin Hrc Hret] Hst Hn.
  destruct (Hret Hst) as [Hres Hclosed]. specialize (Hrc Hclosed).
  destruct (workers s) as [|w ws] eqn:Hws; [cbn in Hw; congruence|].
  pose proof (Hrc 0%nat w eq_refl) as ->.
  destruct (Hfin 0%nat eq_refl) as [Hjcl Hjobs].
  destruct (http_all_done_nothing_held _ Hrc) as (HU & _ & _ & HH).
  by rewrite (Hjc Hjcl), Hjobs, HU, HH, Hres.
Qed.

End Books.

Section Delivery.
Variable c : config.
Variable cb0 : CB.

Lemma deliveryInv_worker i net (s s' : @state CB) :
  stepWorker c i net s = Some s' → deliveryInv callback c cb0 s → deliveryInv callback c cb0 s'.
Proof.
  intros Hstep Hinv. pose proof Hinv as [Hans Hbody Hrep].
  unfold stepWorker in Hstep.
  destruct (workers s !! i) as [w|] eqn:Hi; [|done].
  pose proof (λ w', DNSBatchFacts.omap_insert_perm
                (λ w, match w with WFlight u => Some u | _ => None end)
                (workers s) i w w' Hi) as HF.
  pose proof (λ w', DNSBatchFacts.omap_insert_perm
                (λ w, match w with WSend r => Some r | _ => None end)
                (workers s) i w w' Hi) as HS.
  fold (flightOf (workers s)) in HF. fold (sendingOf (workers s)) in HS.
  (* a step of worker [i] that neither requests nor answers *)
  assert (∀ w' (s1 : @state CB),
            workers s1 = <[i:=w']> (workers s) →
            (∀ u, w ≠ WFlight u) → (∀ u, w' ≠ WFlight u) →
            (∀ r, w ≠ WSend r) → (∀ r, w' ≠ WSend r) →
            dispatched s1 = dispatched s → delivered s1 = delivered s →
            results s1 = results s → aborted s1 = aborted s → cbState s1 = cbState s →
            deliveryInv callback c cb0 s1) as Hsame.
  { intros w' s1 Hws Hf Hf' Hs Hs' Hd Hdl Hres Ha Hcb.
    specialize (HF w'). specialize (HS w').
    fold (flightOf (<[i:=w']> (workers s))) in HF.
    fold (sendingOf (<[i:=w']> (workers s))) in HS.
    assert (flightOf (<[i:=w']> (workers s)) ≡ₚ flightOf (workers s)) as HF'.
    { destruct w, w'; cbn [option_list option_rect app] in HF; try done;
        exfalso; first [by eapply Hf|by eapply Hf']. }
    assert (sendingOf (<[i:=w']> (workers s)) ≡ₚ sendingOf (workers s)) as HS'.
    { destruct w, w'; cbn [option_list option_rect app] in HS; try done;
        exfalso; first [by eapply Hs|by eapply Hs']. }
    split; rewrite ?Hws, ?Hd, ?Hdl, ?Hres, ?Ha, ?Hcb; [| |done].
    - by rewrite HF', HS'.
    - by rewrite HS'. }
  destruct w as [|url|url|url|url count|url|url|url|r|].
  - destruct (jobs s) as [|u rest]; [destruct (jobsClosed s); [|done]|];
      injection Hstep as <-; [by apply (Hsame WDone)|by apply (Hsame (WCheck u))].
  - destruct (negb _); injection Hstep as <-;
      [by apply (Hsame WRange)|by apply (Hsame (WRate url))].
  - destruct (_ <=? _); [|destruct (negb _)]; injection Hstep as <-;
      [by apply (Hsame (WGet url))|done|by apply (Hsame (WRateAdd url))].
  - cbn zeta in Hstep. destruct (_ =? 0); injection Hstep as <-;
      [by apply (Hsame (WRateStore url (wrap64 (rlCount (rate s) + 1))))
      |by apply (Hsame (WGet url))].
  - injection Hstep as <-. by apply (Hsame (WRateSleep url)).
  - injection Hstep as <-. by apply (Hsame (WGet url)).
  - injection Hstep as <-. specialize (HF (WFlight url)). specialize (HS (WFlight url)).
    cbn [option_list option_rect app] in HF, HS.
    fold (flightOf (<[i:=WFlight url]> (workers s))) in HF.
    fold (sendingOf (<[i:=WFlight url]> (workers s))) in HS.
    split; hstate; [| |done].
    + rewrite HF, HS, !fmap_app, fmap_cons. rewrite !fmap_app in Hans.
      etrans; [apply Permutation_submseteq
              |apply (submseteq_app _ _ [String.append (proto c) url]
                        [String.append (proto c) url] Hans)]; [|done].
      cbn [fmap list_fmap]. solve_Permutation.
    + by rewrite HS.
  - destruct net as [canceled|finalURL code statusLine read]; injection Hstep as <-.
    + specialize (HF WRange). specialize (HS WRange). cbn [option_list option_rect app] in HF, HS.
      fold (flightOf (<[i:=WRange]> (workers s))) in HF.
      fold (sendingOf (<[i:=WRange]> (workers s))) in HS.
      split; hstate; [| |done].
      * etrans; [|exact Hans]. rewrite HS, <- HF, fmap_cons.
        apply submseteq_app; [done|]. by apply submseteq_cons.
      * by rewrite HS.
    + match goal with |- context [WSend ?x] => set (res := x) end.
      specialize (HF (WSend res)). specialize (HS (WSend res)).
      cbn [option_list option_rect app] in HF, HS.
      fold (flightOf (<[i:=WSend res]> (workers s))) in HF.
      fold (sendingOf (<[i:=WSend res]> (workers s))) in HS.
      split; hstate; [| |done].
      * etrans; [apply Permutation_submseteq|exact Hans].
        rewrite HS, <- HF. rewrite !fmap_app, !fmap_cons. cbn [OriginalURL res].
        solve_Permutation.
      * rewrite HS. rewrite !Forall_app in Hbody. rewrite !Forall_app, Forall_cons.
        destruct Hbody as (? & ? & ?). repeat split; try done.
        cbn [Body res]. unfold len.
        pose proof (substring_length (Z.to_nat 8192) read). lia.
  - destruct (_ <? _); [|done]. injection Hstep as <-.
    specialize (HF WRange). specialize (HS WRange). cbn [option_list option_rect app] in HF, HS.
    fold (flightOf (<[i:=WRange]> (workers s))) in HF.
    fold (sendingOf (<[i:=WRange]> (workers s))) in HS.
    split; hstate; [| |done].
    + etrans; [apply Permutation_submseteq|exact Hans].
      rewrite HF, <- HS. rewrite !fmap_app, !fmap_cons. solve_Permutation.
    + rewrite <- HS in Hbody. rewrite !Forall_app in Hbody. rewrite !Forall_app.
      destruct Hbody as (? & ? & [? ?]%Forall_cons). repeat split; try done.
      by repeat constructor.
  - done.
Qed.

Lemma deliveryInv_step a (s s' : @state CB) :
  step callback c a s = Some s' → deliveryInv callback c cb0 s → deliveryInv callback c cb0 s'.
Proof.
  intros Hstep. pose proof (http_step_running _ _ _ _ _ Hstep) as Hrun.
  unfold step in Hstep. rewrite Hrun in Hstep.
  destruct a as [|i net| | |].
  - unfold stepFeeder in Hstep.
    destruct (feed s); [destruct (jobsClosed s)|destruct (feedChecked s)]; try done.
    + injection Hstep as <-. intros [Hans Hbody Hrep]. split; hstate; done.
    + destruct (_ <? _); [|done]. injection Hstep as <-.
      intros [Hans Hbody Hrep]. split; hstate; done.
    + destruct (negb _); injection Hstep as <-; intros [Hans Hbody Hrep];
        split; hstate; done.
  - by apply deliveryInv_worker with (i := i) (net := net).
  - unfold stepCloser in Hstep. intros [Hans Hbody Hrep].
    destruct (resultsClosed s); [done|]. destruct (forallb _ _); [|done].
    injection Hstep as <-; split; hstate; done.
  - injection Hstep as <-. intros [Hans Hbody Hrep]. split; hstate; done.
  - unfold stepConsumer in Hstep. intros [Hans Hbody Hrep].
    destruct (results s) as [|r rest] eqn:Hres.
    + destruct (resultsClosed s); [|done]. injection Hstep as <-.
      split; hstate; rewrite ?Hres; done.
    + assert (replay callback cb0 (delivered s ++ [r])
              = let '(stop, cb') := callback r (cbState s) in
                (negb (aborted s =? 0) || stop, cb')) as Hnext.
      { by rewrite replay_snoc, <- Hrep. }
      destruct (callback r (cbState s)) as [stop cb']. cbn zeta in Hnext.
      assert (Hperm : delivered s ++ r :: rest ++ sendingOf (workers s)
                      ≡ₚ (delivered s ++ [r]) ++ rest ++ sendingOf (workers s))
        by solve_Permutation.
      destruct stop; injection Hstep as <-; split; hstate.
      * by rewrite <- Hperm.
      * by rewrite <- Hperm.
      * rewrite Hnext. by rewrite orb_true_r.
      * by rewrite <- Hperm.
      * by rewrite <- Hperm.
      * rewrite Hnext. by rewrite orb_false_r.
Qed.

End Delivery.

Lemma http_start_total urlList useSSL threads r cb c (s0 : @state CB) :
  start urlList useSSL threads r cb = inr (c, s0) →
  total c = Z.of_nat (length (filterValid urlList)).
Proof. by intros (_ & _ & -> & _)%http_start_inr. Qed.

Lemma booksInv_start urlList useSSL threads r cb c (s0 : @state CB) :
  start urlList useSSL threads r cb = inr (c, s0) →
  booksInv (filterValid urlList) (Z.to_nat threads) s0.
Proof.
  intros (_ & _ & -> & ->)%http_start_inr.
  destruct (http_replicate_nothing_held (Z.to_nat threads)) as (HU & _ & _ & HH).
  split; hstate; unfold handled; hstate; rewrite ?HU, ?HH; try done.
  - intros _. cbn [length]. repeat split; try done; try lia.
  - apply length_replicate.
  - intros i [[=] _]%lookup_replicate.
Qed.

Lemma deliveryInv_start urlList useSSL threads r cb c (s0 : @state CB) :
  start urlList useSSL threads r cb = inr (c, s0) → deliveryInv callback c cb s0.
Proof.
  intros (_ & _ & -> & ->)%http_start_inr.
  destruct (http_replicate_nothing_held (Z.to_nat threads)) as (_ & HF & HS & _).
  split; hstate; rewrite ?HF, ?HS; done.
Qed.

Lemma booksInv_run urlList useSSL threads r cb c s0 acts (s : @state CB) :
  start urlList useSSL threads r cb = inr (c, s0) →
  run callback c acts s0 = Some s →
  booksInv (filterValid urlList) (Z.to_nat threads) s.
Proof.
  intros Hstart Hrun.
  refine (http_run_invariant callback _ c _ acts s0 s Hrun (booksInv_start _ _ _ _ _ _ _ Hstart)).
  intros a s1 s2. apply booksInv_step. by eapply http_start_total.
Qed.

Lemma deliveryInv_run urlList useSSL threads r cb c s0 acts (s : @state CB) :
  start urlList useSSL threads r cb = inr (c, s0) →
  run callback c acts s0 = Some s →
  deliveryInv callback c cb s.
Proof.
  intros Hstart Hrun.
  refine (http_run_invariant callback _ c _ acts s0 s Hrun
            (deliveryInv_start _ _ _ _ _ _ _ Hstart)).
  intros a s1 s2. apply deliveryInv_step.
Qed.

Lemma replay_never cb0 rs :
  (∀ r st, (callback r st).1 = false) → (replay callback cb0 rs).1 = false.
Proof.
  intros Hnever. induction rs as [|r rs IH] using rev_ind; [done|].
  rewrite replay_snoc. specialize (Hnever r (replay callback cb0 rs).2).
  destruct (callback r _) as [stop cb']. cbn [fst] in *. by rewrite IH, Hnever.
Qed.

Lemma requests_at_most_once urlList useSSL threads sched r cb r' cb' reqs :
  GetURLBatch callback urlList useSSL threads sched r cb = Some (Finished r' cb' reqs) →
  reqs ⊆+ filterValid urlList.
Proof.
  unfold GetURLBatch.
  destruct (start urlList useSSL threads r cb) as [early|[c s0]] eqn:Hstart.
  { intros [= ->]. unfold start in Hstart.
    destruct (_ =? 0); [injection Hstart as <- <- <-; apply submseteq_nil_l|].
    destruct (_ =? 0); [injection Hstart as <- <- <-; apply submseteq_nil_l|].
    by destruct (_ <? 0). }
  destruct (run callback c sched s0) as [s|] eqn:Hrun; [|done].
  pose proof (booksInv_run _ _ _ _ _ _ _ _ _ Hstart Hrun) as [Honce _ _ _ _ _ _ _].
  destruct (status s); [done|]. intros [= <- <- <-].
  etrans; [|exact Honce]. unfold handled. by apply submseteq_inserts_r.
Qed.

(** X17. GetURLBatch, whatever the network answers and whatever the
    interleaving: the URLs requested are among the entries that pass the
    validator, each at most as often as it was given. *)
Theorem GetURLBatch_requests_at_most_once
    (urlList : list string) (useSSL : bool) (threads : Z) (sched : list action)
    (r : RateState) (cb : CB) (r' : RateState) (cb' : CB) (reqs : list string) :
  GetURLBatch callback urlList useSSL threads sched r cb = Some (Finished r' cb' reqs) →
  reqs ⊆+ filterValid urlList.
Proof. apply requests_at_most_once. Qed.

Lemma requests_all urlList useSSL threads sched r cb r' cb' reqs :
  (∀ res st, (callback res st).1 = false) → 1 ≤ threads →
  GetURLBatch callback urlList useSSL threads sched r cb = Some (Finished r' cb' reqs) →
  reqs ≡ₚ filterValid urlList.
Proof.
  intros Hnever Hthreads. unfold GetURLBatch.
  destruct (start urlList useSSL threads r cb) as [early|[c s0]] eqn:Hstart.
  { intros [= ->]. unfold start in Hstart.
    destruct (Z.eqb_spec (Z.of_nat (length urlList)) 0) as [Hz|].
    - injection Hstart as <- <- <-. destruct urlList; [done|]. cbn [length] in Hz. lia.
    - destruct (Z.eqb_spec (Z.of_nat (length (filterValid urlList))) 0) as [Hz|].
      + injection Hstart as <- <- <-. by destruct (filterValid urlList).
      + by destruct (_ <? 0). }
  destruct (run callback c sched s0) as [s|] eqn:Hrun; [|done].
  pose proof (booksInv_run _ _ _ _ _ _ _ _ _ Hstart Hrun) as Hbooks.
  pose proof (deliveryInv_run _ _ _ _ _ _ _ _ _ Hstart Hrun) as [_ _ Hrep].
  destruct (status s) eqn:Hst; [done|]. intros [= <- <- <-].
  assert (aborted s = 0) as Hz.
  { pose proof (replay_never cb (delivered s) Hnever) as Hno.
    rewrite <- Hrep in Hno. cbn [fst] in Hno. apply negb_false_iff in Hno.
    by apply Z.eqb_eq. }
  destruct (booksInv_returned _ _ s Hbooks Hst) as (Hf & Hj & HU & _ & _); [lia|].
  destruct Hbooks as [_ Hall _ _ _ _ _ _]. specialize (Hall Hz). unfold handled in Hall.
  by rewrite Hf, Hj, HU, !app_nil_r in Hall.
Qed.

(** X18. GetURLBatch with a callback that never asks for breakout, from a pool
    of at least one worker: when the call returns, every entry that
    passes the validator has been requested exactly as often as it was
    given. *)
Theorem GetURLBatch_requests_all_without_breakout
    (urlList : list string) (useSSL : bool) (threads : Z) (sched : list action)
    (r : RateState) (cb : CB) (r' : RateState) (cb' : CB) (reqs : list string) :
  (∀ res st, (callback res st).1 = false) → 1 ≤ threads →
  GetURLBatch callback urlList useSSL threads sched r cb = Some (Finished r' cb' reqs) →
  reqs ≡ₚ filterValid urlList.
Proof. apply requests_all. Qed.

(** X19. GetURLBatch's callback: at every moment of every execution the
    callback's state and [aborted] are those of the consuming loop run on
    its own over the results delivered so far; every result delivered
    answers a request of this batch, one result per request at most, and
    carries at most 8192 bytes of the body. *)
Theorem callback_sees_each_answer_once
    (urlList : list string) (useSSL : bool) (threads : Z) (r : RateState) (cb : CB)
    (c : config) (s0 : @state CB) (acts : list action) (s : @state CB) :
  start urlList useSSL threads r cb = inr (c, s0) →
  run callback c acts s0 = Some s →
  (negb (aborted s =? 0), cbState s) = replay callback cb (delivered s)
  ∧ OriginalURL <$> delivered s ⊆+ String.append (proto c) <$> dispatched s
  ∧ Forall (λ res, len (Body res) ≤ 8192) (delivered s).
Proof.
  intros Hstart Hrun.
  pose proof (deliveryInv_run _ _ _ _ _ _ _ _ _ Hstart Hrun) as [Hans Hbody Hrep].
  split; [done|]. split.
  - etrans; [|exact Hans]. rewrite !fmap_app, <- !app_assoc. by apply submseteq_inserts_r.
  - rewrite !Forall_app in Hbody. by destruct Hbody.
Qed.

(** X20. GetURLBatch's progress display: at every moment of every execution
    the counter [done] is between zero and the number of valid entries, so
    is the count of every progress line printed; when the call returns
    from a pool of at least one worker with [aborted] clear, the counter
    has reached the total. *)
Theorem http_progress_within_total
    (urlList : list string) (useSSL : bool) (threads : Z) (r : RateState) (cb : CB)
    (c : config) (s0 : @state CB) (acts : list action) (s : @state CB) :
  Z.of_nat (length urlList) ≤ maxInt64 →
  start urlList useSSL threads r cb = inr (c, s0) →
  run callback c acts s0 = Some s →
  0 ≤ done s ≤ total c
  ∧ Forall withinTotal (output s)
  ∧ (status s = Returned → 1 ≤ threads → aborted s = 0 → done s = total c).
Proof.
  intros Hfit Hstart Hrun.
  pose proof (booksInv_run _ _ _ _ _ _ _ _ _ Hstart Hrun) as Hbooks.
  pose proof (http_start_total _ _ _ _ _ _ _ Hstart) as Htotal.
  pose proof (DNSLedgerFacts.filterValid_length urlList) as Hle.
  pose proof Hbooks as [_ _ Hcount _ _ _ _ _].
  destruct Hcount as (H0 & Hsum & Heq & Hout); [lia|].
  split; [rewrite Htotal; lia|]. split; [done|].
  intros Hst Hthreads Hz.
  destruct (booksInv_returned _ _ s Hbooks Hst) as (Hf & Hj & _ & HH & _); [lia|].
  specialize (Heq Hz). rewrite Hf, Hj, HH in Heq. cbn [length] in Heq. rewrite Htotal. lia.
Qed.

End Facts.

Lemma GetURLBatch_requests_at_most_once_witness :
  GetURLBatch keepAll threeURLs false 1 pausedSchedule limiter2 []
    = Some (Finished (rate pausedLast) (cbState pausedLast) threeURLs)
  ∧ threeURLs ⊆+ filterValid threeURLs.
Proof.
  assert (GetURLBatch keepAll threeURLs false 1 pausedSchedule limiter2 []
          = Some (Finished (rate pausedLast) (cbState pausedLast) threeURLs)) as Hcall
    by (vm_compute; reflexivity).
  split; [exact Hcall|].
  exact (GetURLBatch_requests_at_most_once keepAll threeURLs false 1 pausedSchedule
           limiter2 [] _ _ _ Hcall).
Defined.

Lemma GetURLBatch_requests_all_witness :
  (∀ res st, (keepAll res st).1 = false) ∧ 1 ≤ 1
  ∧ GetURLBatch keepAll threeURLs false 1 pausedSchedule limiter2 []
    = Some (Finished (rate pausedLast) (cbState pausedLast) threeURLs)
  ∧ threeURLs ≡ₚ filterValid threeURLs.
Proof.
  assert (∀ res st, (keepAll res st).1 = false) as Hnever by (intros res st; reflexivity).
  assert (1 ≤ 1) as Hone by lia.
  assert (GetURLBatch keepAll threeURLs false 1 pausedSchedule limiter2 []
          = Some (Finished (rate pausedLast) (cbState pausedLast) threeURLs)) as Hcall
    by (vm_compute; reflexivity).
  split; [exact Hnever|]. split; [exact Hone|]. split; [exact Hcall|].
  exact (GetURLBatch_requests_all_without_breakout keepAll threeURLs false 1 pausedSchedule
           limiter2 [] _ _ _ Hnever Hone Hcall).
Defined.

Lemma callback_sees_each_answer_once_witness :
  start threeURLs false 1 limiter2 [] = inr (pausedConfig, pausedFirst)
  ∧ run keepAll pausedConfig pausedSchedule pausedFirst = Some pausedLast
  ∧ (negb (aborted pausedLast =? 0), cbState pausedLast)
    = replay keepAll [] (delivered pausedLast)
  ∧ OriginalURL <$> delivered pausedLast
    ⊆+ String.append (proto pausedConfig) <$> dispatched pausedLast
  ∧ Forall (λ res, len (Body res) ≤ 8192) (delivered pausedLast).
Proof.
  assert (start threeURLs false 1 limiter2 [] = inr (pausedConfig, pausedFirst)) as Hstart
    by (vm_compute; reflexivity).
  assert (run keepAll pausedConfig pausedSchedule pausedFirst = Some pausedLast) as Hrun
    by (vm_compute; reflexivity).
  split; [exact Hstart|]. split; [exact Hrun|].
  exact (callback_sees_each_answer_once keepAll threeURLs false 1 limiter2 []
           _ _ _ _ Hstart Hrun).
Defined.

Lemma http_progress_within_total_witness :
  Z.of_nat (length threeURLs) ≤ maxInt64
  ∧ start threeURLs false 1 limiter2 [] = inr (pausedConfig, pausedFirst)
  ∧ run keepAll pausedConfig pausedSchedule pausedFirst = Some pausedLast
  ∧ 0 ≤ done pausedLast ≤ total pausedConfig
  ∧ Forall withinTotal (output pausedLast)
  ∧ (status pausedLast = Returned → 1 ≤ 1 → aborted pausedLast = 0 →
     done pausedLast = total pausedConfig).
Proof.
  assert (Z.of_nat (length threeURLs) ≤ maxInt64) as Hfit by (by vm_compute).
  assert (start threeURLs false 1 limiter2 [] = inr (pausedConfig, pausedFirst)) as Hstart
    by (vm_compute; reflexivity).
  assert (run keepAll pausedConfig pausedSchedule pausedFirst = Some pausedLast) as Hrun
    by (vm_compute; reflexivity).
  split; [exact Hfit|]. split; [exact Hstart|]. split; [exact Hrun|].
  exact (http_progress_within_total keepAll threeURLs false 1 limiter2 []
           _ _ _ _ Hfit Hstart Hrun).
Defined.

End HTTPLedgerFacts.

Module ThreadFacts.
Import Go Domain RateLimiter.

Section DNS.
Import DNS DNSBatch DNSIdle DNSBatchFacts.
Context {R : Type}.
Variable LookupHost : R → string → Z → option error * R.
Variable systemResolver : R.
Variable newResolver : list string → R.
Variable ReadNameservers : string → option (list string).

Local Abbreviation start := (start systemResolver newResolver ReadNameservers).
Local Abbreviation FastDNSLookup :=
  (FastDNSLookup LookupHost systemResolver newResolver ReadNameservers).

Lemma dns_idleInv_step c a (s s' : @state R) :
  step LookupHost c a s = Some s' → idleInv s → idleInv s'.
Proof.
  intros Hstep. pose proof (step_running _ _ _ _ _ Hstep) as Hrun.
  unfold step in Hstep. rewrite Hrun in Hstep.
  intros (Hw & Hl & Hres & Hrec & Hv & Hc & Hd & Hst).
  destruct a as [|i| | |].
  - unfold stepFeeder in Hstep.
    destruct (feed s); [destruct (jobsClosed s)|destruct (_ <? _)]; try done;
      injection Hstep as <-; unfold idleInv; sstate; rewrite Hrun;
      (repeat split; try done); by left.
  - unfold stepWorker in Hstep. by rewrite Hw in Hstep.
  - unfold stepCloser in Hstep. destruct (resultsClosed s); [done|].
    destruct (forallb _ _); [|done]. injection Hstep as <-.
    unfold idleInv; sstate; rewrite Hrun; (repeat split; try done); by left.
  - injection Hstep as <-. unfold idleInv; sstate; rewrite Hrun;
      (repeat split; try done); by left.
  - unfold stepConsumer in Hstep. rewrite Hres in Hstep.
    destruct (resultsClosed s); [|done]. injection Hstep as <-.
    unfold idleInv; sstate. repeat split; try done. by right.
Qed.

Lemma dnsConcurrency_zero total : 0 ≤ total → dnsConcurrency 0 total = 0.
Proof.
  intros Ht. unfold dnsConcurrency. change (wrap64 (0 * 10)) with 0.
  change (0 >? 500) with false. cbv iota. by destruct (Z.gtb_spec 0 total); [lia|].
Qed.

Lemma dnsConcurrency_negative threads total :
  - 2 ^ 58 ≤ threads < 0 → 0 ≤ total →
  dnsConcurrency threads total = threads * 10.
Proof.
  intros Ht Htot. unfold dnsConcurrency.
  rewrite RateLimiterFacts.wrap64_small by (unfold maxInt64; lia).
  destruct (Z.gtb_spec (threads * 10) 500); [lia|].
  by destruct (Z.gtb_spec (threads * 10) total); [lia|].
Qed.

(** X21. FastDNSLookup with a thread count of zero or less. With zero
    threads no worker is started: no name is ever looked up, and the call
    returns an empty list (the closer finds nothing to wait for). With a
    negative count and at least one valid name, [make] is asked for a
    channel of negative size and the call panics; the command line does
    not check the value of -t. *)
Theorem dns_thread_count_edges
    (names : list string) (ns nsf : string) (cb : bool) (threads : Z) :
  (threads = 0 →
     ∀ c s0, start names ns nsf cb threads = inr (c, s0) →
       (∀ acts s, run LookupHost c acts s0 = Some s →
          looked s = [] ∧ validNames s = [] ∧ called s = [])
       ∧ (∀ sched res, FastDNSLookup names ns nsf cb threads sched = Some res →
            res = Return [])
       ∧ FastDNSLookup names ns nsf cb threads [ACloser; AConsumer] = Some (Return []))
  ∧ (- 2 ^ 58 ≤ threads < 0 → filterValid names ≠ [] →
     ∀ custom resolver timeout,
       selectResolver systemResolver newResolver ReadNameservers ns nsf
         = UseResolver custom resolver timeout →
       ∀ sched, FastDNSLookup names ns nsf cb threads sched = Some Panic).
Proof.
  split.
  - intros -> c s0 Hstart.
    assert (idleInv s0 ∧ quiescent 0 s0) as [Hidle Hq].
    { apply start_inr in Hstart as (custom & r & t & out & _ & _ & _ & -> & ->).
      rewrite dnsConcurrency_zero by lia. by repeat split; try left. }
    assert (∀ acts s, run LookupHost c acts s0 = Some s → idleInv s) as Hall.
    { intros acts s Hrun.
      exact (run_invariant LookupHost _ c (dns_idleInv_step c) acts s0 s Hrun Hidle). }
    split; [|split].
    + intros acts s Hrun. by destruct (Hall acts s Hrun) as (_ & ? & _ & _ & ? & ? & _).
    + intros sched res. unfold DNSBatch.FastDNSLookup. rewrite Hstart.
      destruct (run LookupHost c sched s0) as [s|] eqn:Hrun; [|done].
      destruct (Hall sched s Hrun) as (_ & _ & _ & _ & Hv & _ & _ & Hst).
      destruct (status s); [done| |]; [by destruct Hst|]. intros [= <-]. by rewrite Hv.
    + unfold DNSBatch.FastDNSLookup. rewrite Hstart.
      destruct (run_no_worker LookupHost c s0 Hq) as (s' & Hrun & Hst).
      rewrite Hrun, Hst.
      by destruct (Hall _ _ Hrun) as (_ & _ & _ & _ & -> & _).
  - intros Hneg Hvalid custom resolver timeout Hsel sched.
    unfold DNSBatch.FastDNSLookup, DNSBatch.start. rewrite Hsel.
    destruct (Z.eqb_spec (Z.of_nat (length names)) 0) as [Hz|_].
    { destruct names; [|cbn [length] in Hz; lia]. by destruct Hvalid. }
    destruct (Z.eqb_spec (Z.of_nat (length (filterValid names))) 0) as [Hz|_].
    { destruct (filterValid names); [done|]. cbn [length] in Hz. lia. }
    rewrite dnsConcurrency_negative by lia.
    rewrite RateLimiterFacts.wrap64_small by (unfold maxInt64; lia).
    by destruct (Z.ltb_spec (threads * 10 * 2) 0); [|lia].
Qed.

End DNS.

Section HTTP.
Import HTTPBatch HTTPPauses HTTPBatchFacts.
Context {CB : Type}.
Variable callback : HttpResult → CB → bool * CB.

Lemma http_idleInv_step r cb c a (s s' : @state CB) :
  step callback c a s = Some s' → idleInv r cb s → idleInv r cb s'.
Proof.
  intros Hstep. pose proof (http_step_running _ _ _ _ _ Hstep) as Hrun.
  unfold step in Hstep. rewrite Hrun in Hstep.
  intros (Hw & Hd & Hdl & Hres & Hr & Hcb & Hdn).
  destruct a as [|i net| | |].
  - unfold stepFeeder in Hstep.
    destruct (feed s); [destruct (jobsClosed s)|destruct (feedChecked s)]; try done.
    + by injection Hstep as <-.
    + destruct (_ <? _); [|done]. by injection Hstep as <-.
    + destruct (negb _); by injection Hstep as <-.
  - unfold stepWorker in Hstep. by rewrite Hw in Hstep.
  - unfold stepCloser in Hstep. destruct (resultsClosed s); [done|].
    destruct (forallb _ _); [|done]. by injection Hstep as <-.
  - by injection Hstep as <-.
  - unfold stepConsumer in Hstep. rewrite Hres in Hstep.
    destruct (resultsClosed s); [|done]. by injection Hstep as <-.
Qed.

(** X22. GetURLBatch with a thread count of zero or less. With zero threads
    no worker is started: nothing is requested, the callback is never
    called, the limiter is left as it was, and the call returns after
    printing that all entries are complete. With a negative count and at
    least one valid entry, [make] is asked for a channel of negative size
    and the call panics. *)
Theorem http_thread_count_edges
    (urlList : list string) (useSSL : bool) (threads : Z) (r : RateState) (cb : CB) :
  (threads = 0 →
     ∀ c s0, start urlList useSSL threads r cb = inr (c, s0) →
       (∀ acts s, run callback c acts s0 = Some s →
          dispatched s = [] ∧ delivered s = [] ∧ done s = 0)
       ∧ (∀ sched res, GetURLBatch callback urlList useSSL threads sched r cb = Some res →
            res = Finished r cb [])
       ∧ ∃ s, run callback c [ACloser; AConsumer] s0 = Some s ∧ status s = Returned
              ∧ output s = [OutComplete (total c); OutClearLine] ∧ 0 < total c)
  ∧ (- 2 ^ 62 ≤ threads < 0 → filterValid urlList ≠ [] →
     ∀ sched, GetURLBatch callback urlList useSSL threads sched r cb = Some Panic).
Proof.
  split.
  - intros -> c s0 Hstart.
    pose proof Hstart as (Hne & _ & -> & ->)%http_start_inr.
    match type of Hstart with _ = inr (?c, ?s) => set (c0 := c) in *; set (s0 := s) in * end.
    assert (idleInv r cb s0) as Hidle by done.
    assert (∀ acts s, run callback c0 acts s0 = Some s → idleInv r cb s) as Hall.
    { intros acts s Hrun.
      exact (http_run_invariant callback _ c0 (http_idleInv_step r cb c0) acts s0 s Hrun Hidle). }
    split; [|split].
    + intros acts s Hrun. by destruct (Hall acts s Hrun) as (_ & ? & ? & _ & _ & _ & ?).
    + intros sched res. unfold GetURLBatch. rewrite Hstart.
      destruct (run callback c0 sched s0) as [s|] eqn:Hrun; [|done].
      destruct (Hall sched s Hrun) as (_ & -> & _ & _ & -> & -> & _).
      destruct (status s); [done|]. by intros [= <-].
    + eexists. split; [reflexivity|]. hstate. split; [done|]. split; [done|].
      cbn [total c0]. destruct (filterValid urlList); [done|]. cbn [length]. lia.
  - intros Hneg Hvalid sched. unfold GetURLBatch, HTTPBatch.start.
    destruct (Z.eqb_spec (Z.of_nat (length urlList)) 0) as [Hz|_].
    { destruct urlList; [|cbn [length] in Hz; lia]. by destruct Hvalid. }
    destruct (Z.eqb_spec (Z.of_nat (length (filterValid urlList))) 0) as [Hz|_].
    { destruct (filterValid urlList); [done|]. cbn [length] in Hz. lia. }
    rewrite RateLimiterFacts.wrap64_small by (unfold maxInt64; lia).
    by destruct (Z.ltb_spec (threads * 2) 0); [|lia].
Qed.

End HTTP.

Lemma dns_thread_count_edges_witness :
  DNSBatch.start tt (λ _, tt) Mock.noFile Mock.fooBar "" "" false 0
    = inr (DNSScenario.unmannedConfig, DNSScenario.unmannedFirst)
  ∧ DNSBatch.FastDNSLookup Mock.fooLookup tt (λ _, tt) Mock.noFile Mock.fooBar "" "" false 0
      [DNSBatch.ACloser; DNSBatch.AConsumer] = Some (DNSBatch.Return [])
  ∧ DNSBatch.FastDNSLookup Mock.fooLookup tt (λ _, tt) Mock.noFile Mock.fooBar "" "" false (-1)
      [] = Some DNSBatch.Panic.
Proof.
  assert (DNSBatch.start tt (λ _, tt) Mock.noFile Mock.fooBar "" "" false 0
          = inr (DNSScenario.unmannedConfig, DNSScenario.unmannedFirst)) as Hstart
    by (vm_compute; reflexivity).
  split; [exact Hstart|]. split.
  - destruct (dns_thread_count_edges Mock.fooLookup tt (λ _, tt) Mock.noFile
                Mock.fooBar "" "" false 0) as [Hzero _].
    destruct (Hzero eq_refl _ _ Hstart) as (_ & _ & Hreturns). exact Hreturns.
  - destruct (dns_thread_count_edges Mock.fooLookup tt (λ _, tt) Mock.noFile
                Mock.fooBar "" "" false (-1)) as [_ Hneg].
    apply (Hneg ltac:(lia) ltac:(by vm_compute) false tt 5). by vm_compute.
Defined.

Lemma http_thread_count_edges_witness :
  HTTPBatch.start HTTPScenario.threeURLs false 0 HTTPScenario.limiter2 []
    = inr (HTTPScenario.unmannedConfig, HTTPScenario.unmannedFirst)
  ∧ (∃ s, HTTPBatch.run HTTPScenario.keepAll HTTPScenario.unmannedConfig
            [HTTPBatch.ACloser; HTTPBatch.AConsumer] HTTPScenario.unmannedFirst = Some s
          ∧ HTTPBatch.status s = HTTPBatch.Returned
          ∧ HTTPBatch.output s
            = [HTTPBatch.OutComplete (HTTPBatch.total HTTPScenario.unmannedConfig);
               HTTPBatch.OutClearLine]
          ∧ 0 < HTTPBatch.total HTTPScenario.unmannedConfig)
  ∧ HTTPBatch.GetURLBatch HTTPScenario.keepAll HTTPScenario.threeURLs false (-1)
      [] HTTPScenario.limiter2 [] = Some HTTPBatch.Panic.
Proof.
  assert (HTTPBatch.start HTTPScenario.threeURLs false 0 HTTPScenario.limiter2 []
          = inr (HTTPScenario.unmannedConfig, HTTPScenario.unmannedFirst)) as Hstart
    by (vm_compute; reflexivity).
  split; [exact Hstart|]. split.
  - destruct (http_thread_count_edges HTTPScenario.keepAll HTTPScenario.threeURLs false 0
                HTTPScenario.limiter2 []) as [Hzero _].
    destruct (Hzero eq_refl _ _ Hstart) as (_ & _ & Hreturns). exact Hreturns.
  - destruct (http_thread_count_edges HTTPScenario.keepAll HTTPScenario.threeURLs false (-1)
                HTTPScenario.limiter2 []) as [_ Hneg].
    apply (Hneg ltac:(lia) ltac:(by vm_compute)).
Defined.

End ThreadFacts.

Module HTTPPausesFacts.
Import Go Domain RateLimiter HTTPBatch HTTPLedger HTTPPauses HTTPBatchFacts
  HTTPLedgerFacts Mock HTTPScenario.

Lemma pausesPrinted_snoc out l :
  pausesPrinted (out ++ [l]) = (pausesPrinted out + (if isRateLimit l then 1 else 0))%nat.
Proof.
  unfold pausesPrinted. rewrite filter_app, length_app, filter_cons, filter_nil.
  case_decide as H; destruct (isRateLimit l); done.
Qed.

Lemma sleeper_insert (ws : list wstate) i w w' :
  ws !! i = Some w → sleeping w = false →
  (∃ j x, ws !! j = Some x ∧ sleeping x = true) →
  ∃ j x, <[i:=w']> ws !! j = Some x ∧ sleeping x = true.
Proof.
  intros Hi Hw (j & x & Hj & Hx). exists j, x. split; [|done].
  destruct (decide (i = j)) as [->|Hne]; [congruence|].
  by rewrite list_lookup_insert_ne.
Qed.

Lemma storing_insert (ws : list wstate) T i w' :
  (∀ j u count, ws !! j = Some (WRateStore u count) → Z.rem count T = 0) →
  (∀ u count, w' = WRateStore u count → Z.rem count T = 0) →
  ∀ j u count, <[i:=w']> ws !! j = Some (WRateStore u count) → Z.rem count T = 0.
Proof.
  intros Hws Hw' j u count Hj.
  destruct (decide (i = j)) as [->|Hne].
  - apply list_lookup_insert_Some in Hj as [(_ & E & _)|(? & _)]; [|done].
    by apply (Hw' u).
  - rewrite list_lookup_insert_ne in Hj by done. eauto.
Qed.

Lemma all_done_none_storing (ws : list wstate) :
  (∀ i w, ws !! i = Some w → w = WDone) →
  countStoring ws = 0%nat ∧ ∀ i w, ws !! i = Some w → sleeping w = false.
Proof.
  intros H. split.
  - unfold countStoring. induction ws as [|w ws IH]; [done|].
    rewrite (H 0%nat w eq_refl), filter_cons. cbn [storing].
    case_decide; [done|]. apply IH. intros i w'. apply (H (S i)).
  - intros i w Hi. by rewrite (H i w Hi).
Qed.

Section Facts.
Context {CB : Type}.
Variable callback : HttpResult → CB → bool * CB.
Variable r0 : RateState.
Variable n : nat.
Hypothesis Hpos : 0 < rlThreshold r0.
Hypothesis Hlow : 0 ≤ rlCount r0.
Hypothesis Hroom : rlCount r0 + Z.of_nat n ≤ maxInt64.

Lemma pauseInv_worker c i net (s s' : @state CB) :
  stepWorker c i net s = Some s' → pauseInv r0 n s → pauseInv r0 n s'.
Proof.
  unfold stepWorker. destruct (workers s !! i) as [w|] eqn:Hi; [|done].
  intros Hstep [HT HS Hlo Hhi Hcount Hlines Hst Hp].
  pose proof (λ w', filter_insert_length waiting (workers s) i w w' Hi) as Hwait.
  pose proof (λ w', filter_insert_length storing (workers s) i w w' Hi) as Hstore.
  fold (countWaiting (workers s)) in Hwait. fold (countStoring (workers s)) in Hstore.
  assert (∀ w' (s1 : @state CB),
            rate s1 = rate s → workers s1 = <[i:=w']> (workers s) →
            (output s1 = output s ∨ ∃ l, output s1 = output s ++ [l] ∧ isRateLimit l = false) →
            storing w = false → storing w' = false → sleeping w = false →
            (length (jobs s1) + length (feed s1) + (if waiting w' then 1 else 0)
             ≤ length (jobs s) + length (feed s) + (if waiting w then 1 else 0))%nat →
            pauseInv r0 n s1) as Hsame.
  { intros w' s1 Hr Hw Hout Hsw Hsw' Hsl Hlen.
    specialize (Hwait w'). specialize (Hstore w'). rewrite Hsw, Hsw' in Hstore.
    fold (countWaiting (<[i:=w']> (workers s))) in Hwait.
    fold (countStoring (<[i:=w']> (workers s))) in Hstore.
    split; rewrite ?Hr, ?Hw; try done.
    - lia.
    - assert (pausesPrinted (output s1) = pausesPrinted (output s)) as ->.
      { destruct Hout as [->|(l & -> & Hl)]; [done|].
        rewrite pausesPrinted_snoc, Hl. lia. }
      rewrite <- Hcount. lia.
    - destruct Hout as [->|(l & -> & Hl)]; [done|].
      apply Forall_app. split; [done|]. apply Forall_singleton. by destruct l.
    - apply storing_insert; [done|]. intros u count ->. done.
    - destruct Hp as [Hp|[Hp Hsleeper]]; [by left|right]. split; [done|].
      by eapply sleeper_insert. }
  destruct w as [|u|u|u|u count|u|u|u|r|].
  - destruct (jobs s) as [|u rest] eqn:Hjobs.
    + destruct (jobsClosed s); [|done]. injection Hstep as <-.
      apply (Hsame WDone); hstate; rewrite ?Hjobs; cbn [storing sleeping waiting]; auto.
    + injection Hstep as <-.
      apply (Hsame (WCheck u)); hstate; rewrite ?Hjobs;
        cbn [storing sleeping waiting length]; auto. lia.
  - destruct (negb _); injection Hstep as <-.
    + apply (Hsame WRange); hstate; cbn [storing sleeping waiting]; auto. lia.
    + apply (Hsame (WRate u)); hstate; cbn [storing sleeping waiting]; auto.
  - rewrite HT in Hstep. destruct (Z.leb_spec (rlThreshold r0) 0); [lia|].
    destruct (negb _); injection Hstep as <-.
    + by split.
    + apply (Hsame (WRateAdd u)); hstate; cbn [storing sleeping waiting]; auto.
  - cbv zeta in Hstep. rewrite HT in Hstep.
    specialize (Hwait (WGet u)) as Hwait1. specialize (Hstore (WGet u)) as Hstore1.
    specialize (Hwait (WRateStore u (rlCount (rate s) + 1))) as Hwait2.
    specialize (Hstore (WRateStore u (rlCount (rate s) + 1))) as Hstore2.
    cbn [waiting storing] in Hwait1, Hwait2, Hstore1, Hstore2.
    assert (wrap64 (rlCount (rate s) + 1) = rlCount (rate s) + 1) as Hw.
    { apply RateLimiterFacts.wrap64_small. unfold maxInt64 in *. lia. }
    rewrite Hw in Hstep.
    pose proof (RateLimiterFacts.div_succ (rlCount (rate s)) (rlThreshold r0) Hpos
                  ltac:(lia)) as Hdiv.
    rewrite <- Z.rem_mod_nonneg in Hdiv by lia.
    destruct (Z.eqb_spec (Z.rem (rlCount (rate s) + 1) (rlThreshold r0)) 0) as [Hrem|Hrem];
      injection Hstep as <-.
    + split; hstate; cbn [rlThreshold rlSleep rlCount rlPaused]; try done.
      * lia.
      * unfold countWaiting, countStoring in *. lia.
      * unfold countWaiting, countStoring in *. lia.
      * apply storing_insert; [done|]. by intros ? ? [= _ <-].
      * destruct Hp as [Hp|[Hp Hsleeper]]; [by left|right]. split; [done|].
        by eapply sleeper_insert.
    + split; hstate; cbn [rlThreshold rlSleep rlCount rlPaused]; try done.
      * lia.
      * unfold countWaiting, countStoring in *. lia.
      * unfold countWaiting, countStoring in *. lia.
      * by apply storing_insert.
      * destruct Hp as [Hp|[Hp Hsleeper]]; [by left|right]. split; [done|].
        by eapply sleeper_insert.
  - injection Hstep as <-.
    specialize (Hwait (WRateSleep u)). specialize (Hstore (WRateSleep u)).
    cbn [waiting storing] in Hwait, Hstore.
    split; hstate; cbn [rlThreshold rlSleep rlCount rlPaused]; try done.
    + unfold countWaiting in *. lia.
    + rewrite pausesPrinted_snoc. cbn [isRateLimit]. unfold countStoring in *. lia.
    + apply Forall_app. split; [done|]. apply Forall_singleton. cbn [pauseLine].
      split; [by eapply Hst|done].
    + by apply storing_insert.
    + right. split; [done|]. exists i, (WRateSleep u). split; [|done].
      apply list_lookup_insert_eq. by eapply lookup_lt_Some.
  - injection Hstep as <-.
    specialize (Hwait (WGet u)). specialize (Hstore (WGet u)).
    cbn [waiting storing] in Hwait, Hstore.
    split; hstate; cbn [rlThreshold rlSleep rlCount rlPaused]; try done.
    + unfold countWaiting in *. lia.
    + unfold countStoring in *. lia.
    + by apply storing_insert.
    + by left.
  - injection Hstep as <-.
    apply (Hsame (WFlight u)); hstate; cbn [storing sleeping waiting]; auto.
  - destruct net as [canceled|finalURL code statusLine read]; injection Hstep as <-.
    + apply (Hsame WRange); hstate; cbn [storing sleeping waiting]; auto.
      destruct canceled; [by left|right]. by eexists.
    + eapply (Hsame (WSend _)); hstate; cbn [storing sleeping waiting]; auto.
  - destruct (_ <? _); [|done]. injection Hstep as <-.
    apply (Hsame WRange); hstate; cbn [storing sleeping waiting]; auto.
  - done.
Qed.

Lemma pauseInv_step c a (s s' : @state CB) :
  step callback c a s = Some s' → pauseInv r0 n s → pauseInv r0 n s'.
Proof.
  intros Hstep. pose proof (http_step_running _ _ _ _ _ Hstep) as Hrun.
  unfold step in Hstep. rewrite Hrun in Hstep.
  destruct a as [|i net| | |].
  - intros [HT HS Hlo Hhi Hcount Hlines Hst Hp]. unfold stepFeeder in Hstep.
    destruct (feed s) as [|u rest] eqn:Hfeed.
    + destruct (jobsClosed s); [done|]. injection Hstep as <-.
      split; hstate; rewrite ?Hfeed; done.
    + destruct (feedChecked s).
      * destruct (_ <? _); [|done]. injection Hstep as <-.
        split; hstate; try done. rewrite length_app. cbn [length] in *. lia.
      * destruct (negb _); injection Hstep as <-; split; hstate; rewrite ?Hfeed; try done.
        cbn [length] in *. lia.
  - by apply pauseInv_worker with (c := c) (i := i) (net := net).
  - intros [HT HS Hlo Hhi Hcount Hlines Hst Hp]. unfold stepCloser in Hstep.
    destruct (resultsClosed s); [done|]. destruct (forallb _ _); [|done].
    injection Hstep as <-. by split.
  - intros [HT HS Hlo Hhi Hcount Hlines Hst Hp]. injection Hstep as <-.
    split; hstate; try done.
    + by rewrite pausesPrinted_snoc, Nat.add_0_r.
    + apply Forall_app. split; [done|]. by apply Forall_singleton.
  - intros [HT HS Hlo Hhi Hcount Hlines Hst Hp]. unfold stepConsumer in Hstep.
    destruct (results s) as [|r rest].
    + destruct (resultsClosed s); [|done]. injection Hstep as <-.
      split; hstate; try done.
      * change [OutComplete (total c); OutClearLine]
          with ([OutComplete (total c)] ++ [OutClearLine]).
        rewrite app_assoc, !pausesPrinted_snoc. cbn [isRateLimit].
        by rewrite !Nat.add_0_r.
      * apply Forall_app. split; [done|]. by repeat constructor.
    + destruct (callback r (cbState s)) as [stop cb']. injection Hstep as <-.
      destruct stop; by split.
Qed.

End Facts.

Section Run.
Context {CB : Type}.
Variable callback : HttpResult → CB → bool * CB.

Lemma pauseInv_start urlList useSSL threads r cb c (s0 : @state CB) :
  rlPaused r = 0 →
  start urlList useSSL threads r cb = inr (c, s0) →
  pauseInv r (length (filterValid urlList)) s0.
Proof.
  intros Hp (_ & _ & -> & ->)%http_start_inr.
  assert (∀ k, countWaiting (replicate k WRange) = 0%nat
               ∧ countStoring (replicate k WRange) = 0%nat) as Hrep.
  { unfold countWaiting, countStoring. induction k as [|k [IH1 IH2]]; [done|].
    cbn [replicate]. rewrite !filter_cons. cbn [waiting storing].
    split; by case_decide. }
  destruct (Hrep (Z.to_nat threads)) as [Hw Hs].
  split; hstate; try done.
  - rewrite Hw. cbn [length]. lia.
  - rewrite Hs. cbn. lia.
  - by intros i u count [? _]%lookup_replicate.
  - by left.
Qed.

(** X23. The pauses of a batch. With a threshold T configured, the limiter
    not paused and its counter at c ≥ 0 with room for the batch, a batch
    that has returned after n requests has announced
    ⌊(c+n)/T⌋ − ⌊c/T⌋ pauses, one for every multiple of T among the
    counts c+1 … c+n, under any interleaving of workers; every
    announcement, at any moment, shows a multiple of T and the
    configured sleep; and the limiter is left not paused, its counter at
    c+n. *)
Theorem batch_pauses_at_threshold_multiples
    (urlList : list string) (useSSL : bool) (threads : Z) (r : RateState) (cb : CB)
    (c : config) (s0 : @state CB) (acts : list action) (s : @state CB) :
  0 < rlThreshold r → rlPaused r = 0 → 0 ≤ rlCount r →
  rlCount r + Z.of_nat (length urlList) ≤ maxInt64 →
  start urlList useSSL threads r cb = inr (c, s0) →
  run callback c acts s0 = Some s →
  Forall (pauseLine (rlThreshold r) (rlSleep r)) (output s)
  ∧ (status s = Returned →
     rlCount (rate s) = rlCount r + Z.of_nat (length (dispatched s))
     ∧ Z.of_nat (pausesPrinted (output s))
       = (rlCount r + Z.of_nat (length (dispatched s))) / rlThreshold r
         - rlCount r / rlThreshold r
     ∧ rlPaused (rate s) = 0).
Proof.
  intros HT Hp Hlo Hroom Hstart Hrun.
  pose proof (DomainFacts.filterValid_filter urlList) as Hfilter.
  assert (length (filterValid urlList) ≤ length urlList)%nat as Hlen.
  { rewrite Hfilter. apply length_filter. }
  assert (rlCount r + Z.of_nat (length (filterValid urlList)) ≤ maxInt64) as Hroom' by lia.
  pose proof (http_run_invariant callback _ c
                (pauseInv_step callback r _ HT Hlo Hroom' c) acts s0 s Hrun
                (pauseInv_start _ _ _ _ _ _ _ Hp Hstart))
    as [_ _ Hlow Hhigh Hcount Hlines _ Hpaused].
  split; [done|]. intros Hret.
  assert (inInt64 (rlCount r)) as Hin by (unfold inInt64, maxInt64 in *; lia).
  pose proof (http_run_invariant callback (rateInv r) c (rateInv_step callback r c)
                acts s0 s Hrun (rateInv_start _ _ _ _ _ _ _ Hin Hstart))
    as (_ & _ & Hrate & Hrc & Hclosed).
  destruct (Z.leb_spec (rlThreshold r) 0); [lia|].
  specialize (Hrc (Hclosed Hret)).
  rewrite (all_done_none_counted _ Hrc), Z.add_0_r in Hrate.
  destruct (all_done_none_storing _ Hrc) as [Hstore Hawake].
  pose proof (booksInv_run callback _ _ _ _ _ _ _ _ _ Hstart Hrun) as [Honce _ _ _ _ _ _ _].
  apply submseteq_length in Honce. unfold handled in Honce.
  rewrite !length_app in Honce.
  rewrite RateLimiterFacts.wrap64_small in Hrate by (unfold maxInt64 in *; lia).
  split; [done|]. split.
  - rewrite <- Hrate, <- Hcount, Hstore. lia.
  - destruct Hpaused as [|(_ & i & w & Hi & Hw)]; [done|].
    by rewrite (Hawake i w Hi) in Hw.
Qed.

End Run.

Lemma batch_pauses_witness :
  0 < rlThreshold limiter2 ∧ rlPaused limiter2 = 0 ∧ 0 ≤ rlCount limiter2
  ∧ rlCount limiter2 + Z.of_nat (length threeURLs) ≤ maxInt64
  ∧ start threeURLs false 1 limiter2 [] = inr (pausedConfig, pausedFirst)
  ∧ run keepAll pausedConfig pausedSchedule pausedFirst = Some pausedLast
  ∧ status pausedLast = Returned
  ∧ Z.of_nat (pausesPrinted (output pausedLast)) = (1 + 3) / 2 - 1 / 2
  ∧ rlPaused (rate pausedLast) = 0.
Proof.
  assert (0 < rlThreshold limiter2) as HT by (by vm_compute).
  assert (rlPaused limiter2 = 0) as Hp by reflexivity.
  assert (0 ≤ rlCount limiter2) as Hlo by (by vm_compute).
  assert (rlCount limiter2 + Z.of_nat (length threeURLs) ≤ maxInt64) as Hroom
    by (by vm_compute).
  assert (start threeURLs false 1 limiter2 [] = inr (pausedConfig, pausedFirst)) as Hstart
    by (vm_compute; reflexivity).
  assert (run keepAll pausedConfig pausedSchedule pausedFirst = Some pausedLast) as Hrun
    by (vm_compute; reflexivity).
  assert (status pausedLast = Returned) as Hret by reflexivity.
  destruct (batch_pauses_at_threshold_multiples keepAll threeURLs false 1 limiter2 []
              _ _ _ _ HT Hp Hlo Hroom Hstart Hrun) as [_ Hend].
  destruct (Hend Hret) as (_ & Hpauses & Hawake).
  split; [exact HT|]. split; [exact Hp|]. split; [exact Hlo|]. split; [exact Hroom|].
  split; [exact Hstart|]. split; [exact Hrun|]. split; [exact Hret|].
  split; [exact Hpauses|exact Hawake].
Defined.

End HTTPPausesFacts.

Module HTTPLiveFacts.
Import Go Domain RateLimiter HTTPBatch HTTPLive HTTPBatchFacts Mock HTTPScenario.

Section Facts.
Context {CB : Type}.
Variable callback : HttpResult → CB → bool * CB.
Variable answer : string → reply.

Local Abbreviation runs := (runs callback answer).
Local Abbreviation obeys := (obeys callback answer).

Lemma runs_nil c (s : @state CB) : runs c [] s s.
Proof. by split. Qed.

Lemma runs_cons c a rest (s s1 s' : @state CB) :
  step callback c a s = Some s1 →
  match a with
  | AWorker i net => ∀ u, workers s !! i = Some (WFlight u) → net = answer u
  | _ => True
  end →
  runs c rest s1 s' → runs c (a :: rest) s s'.
Proof.
  intros Hstep Ha [Hrun Hob]. split; cbn [run HTTPLive.obeys]; rewrite Hstep; [done|].
  by split.
Qed.

Lemma runs_app c acts1 acts2 (s s1 s' : @state CB) :
  runs c acts1 s s1 → runs c acts2 s1 s' → runs c (acts1 ++ acts2) s s'.
Proof.
  revert s. induction acts1 as [|a rest IH]; intros s [Hrun Hob] H2.
  - cbn [run] in Hrun. injection Hrun as ->. done.
  - cbn [run HTTPLive.obeys] in Hrun, Hob. cbn [app].
    destruct (step callback c a s) as [s2|] eqn:Hstep; [|done].
    destruct Hob as [Ha Hob]. eapply runs_cons; [done|done|]. by apply IH.
Qed.

(** Worker 0 through [rateLimitCheck]. *)
Lemma runs_rate c k u (s : @state CB) :
  status s = Running → workers s = WRate u :: replicate k WRange →
  (0 < rlThreshold (rate s) → rlPaused (rate s) = 0) →
  ∃ s', runs c (rateSteps (rate s) (answer u)) s s'
        ∧ workers s' = WGet u :: replicate k WRange
        ∧ status s' = Running ∧ aborted s' = aborted s ∧ feed s' = feed s
        ∧ feedChecked s' = feedChecked s ∧ jobsClosed s' = jobsClosed s
        ∧ jobs s' = jobs s ∧ results s' = results s
        ∧ resultsClosed s' = resultsClosed s ∧ cbState s' = cbState s
        ∧ rlThreshold (rate s') = rlThreshold (rate s)
        ∧ (0 < rlThreshold (rate s') → rlPaused (rate s') = 0).
Proof.
  intros Hst Hws Hp. unfold rateSteps.
  destruct s as [r ab fd fc jc jb ws rs rc d cb out st disp lt dl]. cbn in Hst, Hws, Hp.
  subst st ws. hstate.
  destruct (Z.leb_spec (rlThreshold r) 0) as [HT|HT].
  - eexists. split.
    + eapply runs_cons; [|done|apply runs_nil].
      unfold step, stepWorker. hstate. cbn [lookup list_lookup].
      by rewrite (proj2 (Z.leb_le _ _) HT).
    + hstate. cbn [insert list_insert]. repeat split; try done; lia.
  - specialize (Hp HT).
    destruct (Z.eqb_spec (Z.rem (wrap64 (rlCount r + 1)) (rlThreshold r)) 0) as [Hrem|Hrem].
    + eexists. split.
      * cbn [replicate].
        eapply runs_cons; [|done|].
        { unfold step, stepWorker. hstate. cbn [lookup list_lookup].
          rewrite (proj2 (Z.leb_gt _ _) HT), Hp. reflexivity. }
        hstate. cbn [insert list_insert].
        eapply runs_cons; [|done|].
        { unfold step, stepWorker. hstate. cbn [lookup list_lookup].
          rewrite (proj2 (Z.eqb_eq _ _) Hrem). reflexivity. }
        hstate. cbn [insert list_insert].
        eapply runs_cons; [|done|].
        { unfold step, stepWorker. hstate. cbn [lookup list_lookup]. reflexivity. }
        hstate. cbn [insert list_insert rlCount rlThreshold rlSleep rlPaused].
        eapply runs_cons; [|done|apply runs_nil].
        unfold step, stepWorker. hstate. cbn [lookup list_lookup]. reflexivity.
      * hstate. cbn [insert list_insert rlCount rlThreshold rlSleep rlPaused]. done.
    + eexists. split.
      * cbn [replicate].
        eapply runs_cons; [|done|].
        { unfold step, stepWorker. hstate. cbn [lookup list_lookup].
          rewrite (proj2 (Z.leb_gt _ _) HT), Hp. reflexivity. }
        hstate. cbn [insert list_insert].
        eapply runs_cons; [|done|apply runs_nil].
        unfold step, stepWorker. hstate. cbn [lookup list_lookup].
        rewrite (proj2 (Z.eqb_neq _ _) Hrem). reflexivity.
      * hstate. cbn [insert list_insert rlCount rlThreshold rlSleep rlPaused]. done.
Qed.

(** One entry through the pipeline. *)
Lemma runs_one_url c k u rest (s : @state CB) :
  0 < cap c → quiescent (S k) s → feed s = u :: rest →
  ∃ s', runs c (oneURL answer s u) s s' ∧ quiescent (S k) s'
        ∧ (feed s' = rest ∨ feed s' = []).
Proof.
  intros Hcap (Hst & Hjobs & Hres & Hfc & Hjc & Hrc & Hws & Hp) Hfeed. unfold oneURL.
  assert ((Z.of_nat 0 <? cap c) = true) as Hroom by (by apply Z.ltb_lt).
  destruct s as [r ab fd fc jc jb ws rs rc d cb out st disp lt dl]. cbn in *. subst.
  destruct (Z.eqb_spec ab 0) as [->|Hab]; cbn [negb].
  - set (s2 := mkState r 0 rest false false [] (WRate u :: replicate k WRange) [] false d cb
                 out Running disp lt dl).
    destruct (runs_rate c k u s2) as (s3 & Hrate & Hws3 & Hst3 & Hab3 & Hfd3 & Hfc3 & Hjc3
                                      & Hjb3 & Hrs3 & Hrc3 & Hcb3 & HT3 & Hp3); [done..|].
    destruct s3 as [r3 ab3 fd3 fc3 jc3 jb3 ws3 rs3 rc3 d3 cb3 out3 st3 disp3 lt3 dl3].
    cbn in Hws3, Hst3, Hab3, Hfd3, Hfc3, Hjc3, Hjb3, Hrs3, Hrc3, Hcb3, HT3, Hp3. subst.
    assert (∀ tl s', runs c tl
              (mkState r3 0 rest false false [] (WFlight u :: replicate k WRange) [] false d3
                 cb out3 Running (disp3 ++ [u]) lt3 dl3) s' →
            runs c ([AFeeder; AFeeder; AWorker 0 (answer u); AWorker 0 (answer u)]
                    ++ rateSteps r (answer u) ++ AWorker 0 (answer u) :: tl)
              (mkState r 0 (u :: rest) false false [] (WRange :: replicate k WRange) [] false
                 d cb out Running disp lt dl) s') as Hprefix.
    { intros tl s' Htl.
      eapply runs_cons; [|done|].
      { unfold step, stepFeeder. hstate. reflexivity. }
      hstate.
      eapply runs_cons; [|done|].
      { unfold step, stepFeeder. hstate. cbn [length]. by rewrite Hroom. }
      hstate. cbn [app].
      eapply runs_cons; [|done|].
      { unfold step, stepWorker. hstate. cbn [lookup list_lookup]. reflexivity. }
      hstate. cbn [insert list_insert].
      eapply runs_cons; [|done|].
      { unfold step, stepWorker. hstate. cbn [lookup list_lookup]. reflexivity. }
      hstate. cbn [insert list_insert].
      eapply runs_app; [exact Hrate|].
      eapply runs_cons; [|done|exact Htl].
      unfold step, stepWorker. hstate. cbn [lookup list_lookup]. reflexivity. }
    destruct (answer u) as [canceled|finalURL code statusLine read] eqn:Hnet.
    + eexists. split.
      * apply Hprefix.
        eapply runs_cons; [| |apply runs_nil].
        { unfold step, stepWorker. hstate. cbn [lookup list_lookup]. reflexivity. }
        hstate. cbn [lookup list_lookup]. by intros ? [= <-].
      * hstate. cbn [insert list_insert]. split; [|by left].
        by repeat split.
    + destruct (callback (mkHttpResult finalURL code (extractReason statusLine)
                            (String.substring 0 (Z.to_nat 8192) read)
                            (String.append (proto c) u)) cb) as [stop cb'] eqn:Hcb.
      eexists. split.
      * apply Hprefix.
        eapply runs_cons; [| |].
        { unfold step, stepWorker. hstate. cbn [lookup list_lookup]. reflexivity. }
        { hstate. cbn [lookup list_lookup]. by intros ? [= <-]. }
        hstate. cbn [insert list_insert].
        eapply runs_cons; [|done|].
        { unfold step, stepWorker. hstate. cbn [lookup list_lookup length].
          by rewrite Hroom. }
        hstate. cbn [insert list_insert app].
        eapply runs_cons; [|done|apply runs_nil].
        unfold step, stepConsumer. hstate. rewrite Hcb. reflexivity.
      * destruct stop; hstate; (split; [|by left]); by repeat split.
  - eexists. split.
    + eapply runs_cons; [|done|apply runs_nil].
      unfold step, stepFeeder. hstate.
      rewrite (proj2 (Z.eqb_neq ab 0) Hab). reflexivity.
    + hstate. split; [|by right]. by repeat split.
Qed.

Lemma runs_workers_done c m : ∀ j (s : @state CB),
  status s = Running → jobs s = [] → jobsClosed s = true →
  workers s = replicate j WDone ++ replicate m WRange →
  ∃ s', runs c (map (λ i, AWorker i (TransportError true)) (seq j m)) s s'
        ∧ workers s' = replicate (j + m) WDone
        ∧ status s' = Running ∧ results s' = results s
        ∧ resultsClosed s' = resultsClosed s.
Proof.
  induction m as [|m IH]; intros j s Hst Hjobs Hjc Hws.
  - exists s. rewrite Nat.add_0_r. cbn in Hws. rewrite app_nil_r in Hws.
    split; [apply runs_nil|done].
  - assert (workers s !! j = Some WRange) as Hj.
    { rewrite Hws, lookup_app_r by (rewrite length_replicate; lia).
      rewrite length_replicate, Nat.sub_diag. done. }
    destruct (IH (S j) (setWorker j WDone s)) as (s' & Hrun & Hws' & Hst' & Hres' & Hrc');
      try done.
    { hstate. rewrite Hws.
      rewrite insert_app_r_alt by (rewrite length_replicate; lia).
      rewrite length_replicate, Nat.sub_diag. cbn [replicate insert list_insert].
      change (WDone :: replicate j WDone) with (replicate (S j) WDone).
      rewrite replicate_S_end. by rewrite <- app_assoc. }
    exists s'. split; [|by rewrite <- Nat.add_succ_comm].
    cbn [seq map]. eapply runs_cons; [| |exact Hrun].
    + unfold step, stepWorker. by rewrite Hst, Hj, Hjobs, Hjc.
    + intros u Hu. congruence.
Qed.

Lemma forallb_replicate_done n : forallb isDone (replicate n WDone) = true.
Proof. induction n as [|n IH]; [done|]. by cbn [replicate forallb isDone andb]. Qed.

Lemma runs_shutdown c n (s : @state CB) :
  quiescent n s → feed s = [] →
  ∃ s', runs c (shutdown n) s s' ∧ status s' = Returned.
Proof.
  intros (Hst & Hjobs & Hres & Hfc & Hjc & Hrc & Hws & Hp) Hfeed. unfold shutdown.
  destruct (runs_workers_done c n 0 (set_jobsClosed true s))
    as (s1 & Hrun & Hws1 & Hst1 & Hres1 & Hrc1); try done.
  hstate in Hres1. hstate in Hrc1.
  eexists. split.
  - eapply runs_cons; [|done|].
    { unfold step, stepFeeder. by rewrite Hst, Hfeed, Hjc. }
    eapply runs_app; [exact Hrun|].
    eapply runs_cons; [|done|].
    { unfold step, stepCloser. rewrite Hst1, Hrc1, Hrc, Hws1.
      by rewrite forallb_replicate_done. }
    eapply runs_cons; [|done|apply runs_nil].
    unfold step, stepConsumer. hstate. by rewrite Hst1, Hres1, Hres.
  - done.
Qed.

(** From a quiescent state with at least one worker there is a schedule
    that obeys the network and runs the batch to its end. *)
Lemma runs_to_end c k : ∀ n (s : @state CB),
  0 < cap c → quiescent (S k) s → (length (feed s) ≤ n)%nat →
  ∃ acts s', runs c acts s s' ∧ status s' = Returned.
Proof.
  induction n as [|n IH]; intros s Hcap Hq Hlen.
  - destruct (feed s) as [|u rest] eqn:Hfeed; [|cbn [length] in Hlen; lia].
    destruct (runs_shutdown c (S k) s Hq Hfeed) as (s' & Hrun & Hst). eauto.
  - destruct (feed s) as [|u rest] eqn:Hfeed.
    + destruct (runs_shutdown c (S k) s Hq Hfeed) as (s' & Hrun & Hst). eauto.
    + destruct (runs_one_url c k u rest s Hcap Hq Hfeed) as (s1 & Hrun1 & Hq1 & Hfeed1).
      destruct (IH s1 Hcap Hq1) as (acts & s' & Hrun & Hend).
      { cbn [length] in Hlen. destruct Hfeed1 as [-> | ->]; cbn [length]; lia. }
      exists (oneURL answer s u ++ acts), s'. split; [|done]. by eapply runs_app.
Qed.

(** X24. GetURLBatch comes to an end. For a pool of 1 to 65536 threads,
    whose two channels of capacity [threads*2] the runtime allocates (a
    larger [make] can panic or run out of memory, which the prologue
    [start] does not model), and a limiter that is not paused: whatever
    the callback does and whatever the network answers to each URL, there
    is a complete execution in which the network answers as given, and
    the call returns. *)
Theorem GetURLBatch_completes
    (urlList : list string) (useSSL : bool) (threads : Z) (r : RateState) (cb : CB) :
  1 ≤ threads ≤ 65536 →
  (0 < rlThreshold r → rlPaused r = 0) →
  ∃ sched r' cb' reqs,
    GetURLBatch callback urlList useSSL threads sched r cb = Some (Finished r' cb' reqs)
    ∧ ∀ c s0, start urlList useSSL threads r cb = inr (c, s0) →
              HTTPLive.obeys callback answer c sched s0.
Proof.
  intros Hthreads Hp. unfold GetURLBatch.
  destruct (start urlList useSSL threads r cb) as [early|[c s0]] eqn:Hstart.
  { exists [], r, cb, []. split; [|done]. unfold start in Hstart.
    destruct (_ =? 0); [congruence|]. destruct (_ =? 0); [congruence|].
    rewrite RateLimiterFacts.wrap64_small in Hstart by (unfold maxInt64 in *; lia).
    by destruct (Z.ltb_spec (threads * 2) 0); [lia|]. }
  pose proof Hstart as (_ & _ & Hc & Hs0)%http_start_inr.
  assert (0 < cap c) as Hcap.
  { rewrite Hc. cbn [cap]. rewrite RateLimiterFacts.wrap64_small by (unfold maxInt64 in *; lia).
    lia. }
  assert (∃ k, Z.to_nat threads = S k) as [k Hk] by (exists (Z.to_nat threads - 1)%nat; lia).
  assert (quiescent (S k) s0) as Hq.
  { rewrite Hs0, Hk. by repeat split. }
  destruct (runs_to_end c k _ s0 Hcap Hq (le_n _)) as (acts & s' & [Hrun Hob] & Hend).
  exists acts, (rate s'), (cbState s'), (dispatched s'). rewrite Hrun, Hend.
  split; [done|]. by intros c' s0' [= <- <-].
Qed.

End Facts.

Lemma GetURLBatch_completes_witness :
  1 ≤ 25 ≤ 65536 ∧ (0 < rlThreshold limiter2 → rlPaused limiter2 = 0)
  ∧ ∃ sched r' cb' reqs,
      GetURLBatch keepAll threeURLs false 25 sched limiter2 [] = Some (Finished r' cb' reqs)
      ∧ ∀ c s0, start threeURLs false 25 limiter2 [] = inr (c, s0) →
                HTTPLive.obeys keepAll (λ _, ok200) c sched s0.
Proof.
  assert (1 ≤ 25 ≤ 65536) as Hthreads by lia.
  assert (0 < rlThreshold limiter2 → rlPaused limiter2 = 0) as Hp by reflexivity.
  split; [exact Hthreads|]. split; [exact Hp|].
  exact (GetURLBatch_completes keepAll (λ _, ok200) threeURLs false 25 limiter2 []
           Hthreads Hp).
Defined.

End HTTPLiveFacts.

Module CallbackFacts.
Import Go Text HTTPBatch Callbacks.

Ltac each_callback :=
  repeat (apply List.Forall_cons || apply List.Forall_nil).

Ltac branches :=
  repeat match goal with
         | |- context [if ?b then _ else _] => destruct b eqn:?
         end.

Lemma quiet_never_stop (result : HttpResult) :
  Forall (λ f, (f result).1 = false) quietCallbacks.
Proof.
  unfold quietCallbacks.
  each_callback;
    unfold printAccountResponse, printBucketResponse, printFBRTDBResponse,
      printFBAppResponse, printAppspotResponse, printFunctionsResponse1,
      printFunctionsResponse2; branches; done.
Qed.

Lemma verdicts (result : HttpResult) :
  ((printS3Response result).1 = true ↔ s3Stop result)
  ∧ ((printContainerResponse result).1 = true ↔ containerStop result).
Proof.
  split.
  - unfold printS3Response, s3Stop.
    destruct (Z.eqb_spec (StatusCode result) 404); [cbn; naive_solver|].
    destruct (Contains (Reason result) "Bad Request"); [cbn; naive_solver|].
    destruct (Z.eqb_spec (StatusCode result) 200); [cbn; naive_solver|].
    destruct (Z.eqb_spec (StatusCode result) 403); [cbn; naive_solver|].
    destruct (Contains (Reason result) "Slow Down"); cbn; naive_solver.
  - unfold printContainerResponse, containerStop, containerStops, says.
    rewrite !Exists_cons, Exists_nil.
    destruct (Contains (Reason result) "The specified account is disabled"),
      (Contains (Body result) "The specified account is disabled"),
      (Contains (Reason result) "not authorized to perform this operation"),
      (Contains (Reason result) "not have sufficient permissions"),
      (Contains (Reason result) "Public access is not permitted"),
      (Contains (Reason result) "Server failed to authenticate the request"),
      (Contains (Body result) "not authorized to perform this operation"),
      (Contains (Body result) "not have sufficient permissions"),
      (Contains (Body result) "Public access is not permitted"),
      (Contains (Body result) "Server failed to authenticate the request"),
      (Contains (Reason result) "Blob API is not yet supported"),
      (Contains (Body result) "Blob API is not yet supported");
      cbn [orb fst]; try (split; [intros _|done]; tauto);
      branches; cbn [fst]; split; try done; intuition congruence.
Qed.

Lemma one_finding (result : HttpResult) :
  Forall (λ f, (length (filter (λ e, isFinding e = true) (f result).2) ≤ 1)%nat) allCallbacks.
Proof.
  unfold allCallbacks, quietCallbacks.
  each_callback;
    unfold printS3Response, printContainerResponse, printAccountResponse,
      printBucketResponse, printFBRTDBResponse, printFBAppResponse, printAppspotResponse,
      printFunctionsResponse1, printFunctionsResponse2, found, unknown; branches;
    cbn [snd]; rewrite ?filter_cons, ?filter_nil; cbn [isFinding];
    repeat case_decide; try done; cbn [length]; lia.
Qed.

Lemma findings (result : HttpResult) :
  Forall (λ f, (length (filter (λ e, isFinding e = true) (f result).2) ≤ 1)%nat
               ∧ ∀ data, Finding data ∈ (f result).2 →
                         Target data = URL result ∨ Target data = OriginalURL result)
         allCallbacks
  ∧ (StatusCode result = 404 →
     Forall (λ f, f = printFunctionsResponse2
                  ∨ ∀ e, e ∈ (f result).2 → isFinding e = false) allCallbacks
     ∧ (Contains (URL result) "accounts.google.com/ServiceLogin" = false →
        (printFunctionsResponse2 result).2
        = [found "gcp" "UNAUTHENTICATED Cloud Function (GET-OK)" (URL result) "public"])).
Proof.
  split.
  - apply Forall_and. split; [exact (one_finding result)|].
    unfold allCallbacks, quietCallbacks.
    each_callback; intros data;
      unfold printS3Response, printContainerResponse, printAccountResponse,
        printBucketResponse, printFBRTDBResponse, printFBAppResponse, printAppspotResponse,
        printFunctionsResponse1, printFunctionsResponse2, found, unknown; branches;
      cbn [snd]; intros H; set_unfold in H; naive_solver.
  - intros H404. split.
    + unfold allCallbacks, quietCallbacks.
      each_callback; try (by left); right; intros e;
        unfold printS3Response, printContainerResponse, printAccountResponse,
          printBucketResponse, printFBRTDBResponse, printFBAppResponse, printAppspotResponse,
          printFunctionsResponse1; rewrite H404; cbn [Z.eqb Pos.eqb orb]; branches;
        cbn [snd]; intros H; set_unfold in H; naive_solver.
    + intros Hlogin. unfold printFunctionsResponse2. rewrite Hlogin, H404. done.
Qed.

(** Which callbacks of the one-batch checks fetch a URL of their own, and
    which one. *)
Lemma refetched (result : HttpResult) :
  listings (printS3Response result).2 = s3Again result
  ∧ listings (printBucketResponse result).2 = bucketAgain result
  ∧ listings (printFBRTDBResponse result).2 = []
  ∧ listings (printFBAppResponse result).2 = []
  ∧ listings (printAppspotResponse result).2 = [].
Proof.
  unfold printS3Response, printBucketResponse, printFBRTDBResponse, printFBAppResponse,
    printAppspotResponse, s3Again, bucketAgain, found, unknown.
  repeat split.
  - destruct (Z.eqb_spec (StatusCode result) 404) as [H404|_]; [by rewrite H404|].
    destruct (Contains (Reason result) "Bad Request"); [by rewrite andb_false_r|].
    rewrite andb_true_r. branches; done.
  - destruct (Z.eqb_spec (StatusCode result) 404) as [H404|_]; [by rewrite H404|].
    branches; done.
  - branches; done.
  - branches; done.
  - branches; done.
Qed.

End CallbackFacts.

Module CheckFacts.
Import Go Text Domain RateLimiter HTTPBatch HTTPLedger Candidates Callbacks Checks
  HTTPBatchFacts HTTPLedgerFacts CallbackFacts.

Ltac listed :=
  unfold quietCallbacks; repeat (apply list_elem_of_here || apply list_elem_of_further).

Lemma replay_logging f log rs :
  replay (logging f) log rs
  = (existsb (λ r, (f r).1) rs, log ++ flat_map (λ r, (f r).2) rs).
Proof.
  induction rs as [|r rs IH] using rev_ind.
  - by rewrite app_nil_r.
  - rewrite replay_snoc, IH. unfold logging. cbn [fst snd].
    rewrite existsb_app, flat_map_app. cbn [existsb flat_map].
    by rewrite orb_false_r, app_nil_r, app_assoc.
Qed.

Lemma findings_flat_map (f : HttpResult → bool * list effect) rs :
  (∀ r, (length (filter (λ e, isFinding e = true) (f r).2) ≤ 1)%nat) →
  (length (filter (λ e, isFinding e = true) (flat_map (λ r, (f r).2) rs)) ≤ length rs)%nat.
Proof.
  intros Hone. induction rs as [|r rs IH]; [done|].
  cbn [flat_map length]. rewrite filter_app, length_app. specialize (Hone r). lia.
Qed.

(** What a completed batch of a check has added to the log. *)
Lemma batch_findings f urlList useSSL threads sched r log r' log' reqs :
  (∀ res, (length (filter (λ e, isFinding e = true) (f res).2) ≤ 1)%nat) →
  GetURLBatch (logging f) urlList useSSL threads sched r log = Some (Finished r' log' reqs) →
  addsFindings log log' (length reqs).
Proof.
  intros Hone. unfold GetURLBatch.
  destruct (start urlList useSSL threads r log) as [early|[c s0]] eqn:Hstart.
  { intros [= ->]. unfold start in Hstart. exists [].
    destruct (_ =? 0); [injection Hstart as <- <- <-; by rewrite app_nil_r|].
    destruct (_ =? 0); [injection Hstart as <- <- <-; by rewrite app_nil_r|].
    by destruct (_ <? 0). }
  destruct (run (logging f) c sched s0) as [s|] eqn:Hrun; [|done].
  pose proof (deliveryInv_run _ _ _ _ _ _ _ _ _ _ Hstart Hrun) as [Hans _ Hrep].
  destruct (status s); [done|]. intros [= <- <- <-].
  rewrite replay_logging in Hrep. injection Hrep as _ ->.
  eexists. split; [done|].
  etrans; [by apply findings_flat_map|].
  apply submseteq_length in Hans. rewrite !length_app, !length_fmap, !length_app in Hans. lia.
Qed.

Lemma listings_app (l1 l2 : list effect) :
  listings (l1 ++ l2) = listings l1 ++ listings l2.
Proof. apply flat_map_app. Qed.

Lemma listings_flat_map (f : HttpResult → bool * list effect) again rs :
  (∀ res, listings (f res).2 = again res) →
  listings (flat_map (λ res, (f res).2) rs) = flat_map again rs.
Proof.
  intros Hagain. induction rs as [|res rs IH]; [done|].
  cbn [flat_map]. by rewrite listings_app, Hagain, IH.
Qed.

(** The log of a completed batch, and what its callback has fetched. *)
Lemma batch_fetches f urlList useSSL threads sched r log r' log' reqs again :
  (∀ res, listings (f res).2 = again res) →
  GetURLBatch (logging f) urlList useSSL threads sched r log = Some (Finished r' log' reqs) →
  fetches f (if useSSL then "https://" else "http://") log log' reqs again.
Proof.
  intros Hagain. unfold GetURLBatch, fetches.
  destruct (start urlList useSSL threads r log) as [early|[c s0]] eqn:Hstart.
  { intros [= ->]. unfold start in Hstart. exists [].
    destruct (_ =? 0); [injection Hstart as <- <- <-; by rewrite app_nil_r|].
    destruct (_ =? 0); [injection Hstart as <- <- <-; by rewrite app_nil_r|].
    by destruct (_ <? 0). }
  destruct (run (logging f) c sched s0) as [s|] eqn:Hrun; [|done].
  pose proof (deliveryInv_run _ _ _ _ _ _ _ _ _ _ Hstart Hrun) as [Hans _ Hrep].
  apply http_start_inr in Hstart as (_ & _ & -> & _). cbn [proto] in Hans.
  destruct (status s); [done|]. intros [= <- <- <-].
  rewrite replay_logging in Hrep. injection Hrep as _ ->.
  exists (delivered s). split; [|split; [done|]].
  - etrans; [|exact Hans]. rewrite !fmap_app, <- !app_assoc. by apply submseteq_inserts_r.
  - by apply listings_flat_map.
Qed.

Lemma no_findings (l : list effect) :
  (∀ e, e ∈ l → isFinding e = false) → filter (λ e, isFinding e = true) l = [].
Proof.
  induction l as [|e l IH]; intros Hl; [done|].
  rewrite filter_cons_False.
  - apply IH. intros e' He'. apply Hl. by apply list_elem_of_further.
  - rewrite (Hl e (list_elem_of_here _ _)). done.
Qed.

Lemma elem_of_flat_map {A B} (g : A → list B) (l : list A) (y : B) :
  y ∈ flat_map g l ↔ ∃ x, x ∈ l ∧ y ∈ g x.
Proof.
  rewrite list_elem_of_In, in_flat_map. split; intros (x & Hx & Hy); exists x;
    by rewrite ?list_elem_of_In in *.
Qed.

Lemma findings_besides_404 (f : HttpResult → bool * list effect) rs :
  (∀ r, (length (filter (λ e, isFinding e = true) (f r).2) ≤ 1)%nat) →
  (∀ r, StatusCode r = 404 → ∀ e, e ∈ (f r).2 → isFinding e = false) →
  (length (filter (λ e, isFinding e = true) (flat_map (λ r, (f r).2) rs))
   ≤ length (filter (λ r, (StatusCode r ≠ 404)%Z) rs))%nat.
Proof.
  intros Hone H404. induction rs as [|r rs IH]; [done|].
  cbn [flat_map]. rewrite filter_app, length_app, filter_cons.
  destruct (decide (StatusCode r ≠ 404)) as [Hr|Hr].
  - cbn [length]. specialize (Hone r). lia.
  - assert (StatusCode r = 404) as Hr' by (by destruct (decide (StatusCode r = 404))).
    by rewrite (no_findings _ (H404 r Hr')).
Qed.

Section Batches.
Variable f : HttpResult → bool * list effect.

(** X25. Breakout in the batches of the checks. At every moment of every
    execution of a batch run with one of the callbacks, [aborted] is set
    exactly when one of the answers delivered so far made the callback
    return true: never with the seven callbacks that have no such
    return; with printS3Response exactly after an answer whose reason
    has "Slow Down", whose status is none of 404, 200 and 403 and whose
    reason has no "Bad Request"; with printContainerResponse exactly
    after an answer whose reason or body has one of its six messages,
    whatever its status. *)
Theorem breakout_follows_answers
    (urlList : list string) (useSSL : bool) (threads : Z) (r : RateState)
    (log : list effect) (c : config) (s0 : @state (list effect))
    (acts : list action) (s : @state (list effect)) :
  start urlList useSSL threads r log = inr (c, s0) →
  run (logging f) c acts s0 = Some s →
  (aborted s ≠ 0 ↔ ∃ res, res ∈ delivered s ∧ (f res).1 = true)
  ∧ (f ∈ quietCallbacks → aborted s = 0)
  ∧ (f = printS3Response →
     (aborted s ≠ 0 ↔ ∃ res, res ∈ delivered s ∧ s3Stop res))
  ∧ (f = printContainerResponse →
     (aborted s ≠ 0 ↔ ∃ res, res ∈ delivered s ∧ containerStop res)).
Proof.
  intros Hstart Hrun.
  pose proof (deliveryInv_run _ _ _ _ _ _ _ _ _ _ Hstart Hrun) as [_ _ Hrep].
  rewrite replay_logging in Hrep. injection Hrep as Hab _.
  assert (aborted s ≠ 0 ↔ ∃ res, res ∈ delivered s ∧ (f res).1 = true) as Hiff.
  { split.
    - intros Hne. destruct (Z.eqb_spec (aborted s) 0) as [|_]; [done|].
      symmetry in Hab. apply existsb_exists in Hab as (res & Hin & Hres).
      exists res. by rewrite list_elem_of_In.
    - intros (res & Hin & Hres) Hz. rewrite Hz in Hab. cbn in Hab.
      symmetry in Hab. apply not_true_iff_false in Hab. apply Hab.
      apply existsb_exists. exists res. by rewrite <- list_elem_of_In. }
  split; [exact Hiff|]. split; [|split].
  - intros Hf. destruct (Z.eq_dec (aborted s) 0) as [|Hne]; [done|].
    apply Hiff in Hne as (res & _ & Hres).
    by rewrite (proj1 (Forall_forall _ _) (quiet_never_stop res) f Hf) in Hres.
  - intros ->. rewrite Hiff. split; intros (res & Hin & Hres); exists res;
      (split; [done|]); by apply (verdicts res).
  - intros ->. rewrite Hiff. split; intros (res & Hin & Hres); exists res;
      (split; [done|]); by apply (verdicts res).
Qed.

(** X26. Findings in the batches of the checks. At every moment of every
    execution of a batch run with one of the callbacks, what has been
    printed and recorded is what the callback does on each answer
    delivered so far, in the order of delivery. There is at most one
    finding per answer, none for an answer with status 404 unless the
    callback is printFunctionsResponse2 (which reports a 404 as a function
    open to GET, unless the final URL is Google's login page), and the
    target of every finding is the final URL of a delivered answer, or the
    URL requested. *)
Theorem findings_follow_answers
    (urlList : list string) (useSSL : bool) (threads : Z) (r : RateState)
    (log : list effect) (c : config) (s0 : @state (list effect))
    (acts : list action) (s : @state (list effect)) :
  f ∈ allCallbacks →
  start urlList useSSL threads r log = inr (c, s0) →
  run (logging f) c acts s0 = Some s →
  let news := flat_map (λ res, (f res).2) (delivered s) in
  cbState s = log ++ news
  ∧ (length (filter (λ e, isFinding e = true) news) ≤ length (delivered s))%nat
  ∧ (f ≠ printFunctionsResponse2 →
     (length (filter (λ e, isFinding e = true) news)
      ≤ length (filter (λ res, (StatusCode res ≠ 404)%Z) (delivered s)))%nat)
  ∧ (f = printFunctionsResponse2 →
     ∀ res, res ∈ delivered s → StatusCode res = 404 →
       Contains (URL res) "accounts.google.com/ServiceLogin" = false →
       found "gcp" "UNAUTHENTICATED Cloud Function (GET-OK)" (URL res) "public" ∈ news)
  ∧ (∀ data, Finding data ∈ news →
       ∃ res, res ∈ delivered s
              ∧ (Target data = URL res ∨ Target data = OriginalURL res)).
Proof.
  intros Hf Hstart Hrun news.
  pose proof (deliveryInv_run _ _ _ _ _ _ _ _ _ _ Hstart Hrun) as [_ _ Hrep].
  rewrite replay_logging in Hrep. injection Hrep as _ Hlog.
  assert (∀ res, (length (filter (λ e, isFinding e = true) (f res).2) ≤ 1)%nat
                 ∧ ∀ data, Finding data ∈ (f res).2 →
                           Target data = URL res ∨ Target data = OriginalURL res) as Hres.
  { intros res. exact (proj1 (Forall_forall _ _) (proj1 (findings res)) f Hf). }
  split; [exact Hlog|]. split; [|split; [|split]].
  - apply findings_flat_map. intros res. apply Hres.
  - intros Hne. apply findings_besides_404; [intros res; apply Hres|].
    intros res H404.
    destruct (proj1 (Forall_forall _ _) (proj1 (proj2 (findings res) H404)) f Hf); done.
  - intros -> res Hin H404 Hlogin. unfold news. apply elem_of_flat_map.
    exists res. split; [done|].
    rewrite (proj2 (proj2 (findings res) H404) Hlogin). apply list_elem_of_here.
  - intros data (res & Hin & Hdata)%elem_of_flat_map.
    exists res. split; [done|]. by apply Hres.
Qed.

End Batches.

Lemma quiet_batch f urlList useSSL threads sched r log r' log' reqs :
  f ∈ quietCallbacks → 1 ≤ threads →
  GetURLBatch (logging f) urlList useSSL threads sched r log = Some (Finished r' log' reqs) →
  reqs ≡ₚ filterValid urlList ∧ addsFindings log log' (length reqs).
Proof.
  intros Hf Hthreads Hbatch. split.
  - eapply (requests_all (logging f)); [|done|done].
    intros res st. cbn [logging fst].
    exact (proj1 (Forall_forall _ _) (quiet_never_stop res) f Hf).
  - eapply batch_findings; [|done]. intros res.
    refine (proj1 (Forall_forall _ _) (one_finding res) f _).
    unfold allCallbacks. by do 2 apply list_elem_of_further.
Qed.

(** X27. All the requests of the checks that are one HTTP batch, with at
    least one thread, under any interleaving and whatever the network
    answers. The batch of a check that has returned has requested every
    candidate that passes the validator exactly as often as it was built
    (that of checkS3Buckets, whose callback can break out, at most as
    often); every answer delivered answers a request of its own, and at
    most one finding is reported per request. The callbacks of
    checkFBRTDB, checkAppspot and CheckFBApp make no request of their own.
    Those of the bucket checks do, through ListBucketContents, outside the
    batch and its rate limiter: printBucketResponse fetches the final URL
    plus a slash of every answer with status 200, and printS3Response
    fetches once more the final URL of every answer with status 200 whose
    reason has no "Bad Request", so that an open bucket is fetched
    twice. *)
Theorem checks_fetch_candidates
    (names : list string) (threads : Z) (sched : list action)
    (r : RateState) (log : list effect) (r' : RateState) (log' : list effect)
    (reqs : list string) :
  1 ≤ threads →
  (checkFBRTDB names threads sched r log = Some (Finished r' log' reqs) →
     reqs ≡ₚ filterValid (fbrtdbCandidates names) ∧ addsFindings log log' (length reqs)
     ∧ fetches printFBRTDBResponse "https://" log log' reqs (λ _, []))
  ∧ (checkAppspot names threads sched r log = Some (Finished r' log' reqs) →
     reqs ≡ₚ filterValid (appspotCandidates names) ∧ addsFindings log log' (length reqs)
     ∧ fetches printAppspotResponse "http://" log log' reqs (λ _, []))
  ∧ (CheckFBApp names threads sched r log = Some (Finished r' log' reqs) →
     reqs ≡ₚ filterValid (fbappCandidates names) ∧ addsFindings log log' (length reqs)
     ∧ fetches printFBAppResponse "https://" log log' reqs (λ _, []))
  ∧ (checkGCPBuckets names threads sched r log = Some (Finished r' log' reqs) →
     reqs ≡ₚ filterValid (bucketCandidates names) ∧ addsFindings log log' (length reqs)
     ∧ fetches printBucketResponse "http://" log log' reqs bucketAgain)
  ∧ (checkS3Buckets names threads sched r log = Some (Finished r' log' reqs) →
     reqs ⊆+ filterValid (s3Candidates names) ∧ addsFindings log log' (length reqs)
     ∧ fetches printS3Response "http://" log log' reqs s3Again).
Proof.
  intros Hthreads.
  split; [|split; [|split; [|split]]]; intros Hbatch.
  - destruct (quiet_batch printFBRTDBResponse _ _ _ _ _ _ _ _ _ ltac:(listed) Hthreads Hbatch) as [Hreqs Hlog].
    split; [done|]. split; [done|].
    apply (batch_fetches _ _ true _ _ _ _ _ _ _ _ (λ res, proj1 (proj2 (proj2 (refetched res)))) Hbatch).
  - destruct (quiet_batch printAppspotResponse _ _ _ _ _ _ _ _ _ ltac:(listed) Hthreads Hbatch) as [Hreqs Hlog].
    split; [done|]. split; [done|].
    apply (batch_fetches _ _ false _ _ _ _ _ _ _ _
             (λ res, proj2 (proj2 (proj2 (proj2 (refetched res))))) Hbatch).
  - destruct (quiet_batch printFBAppResponse _ _ _ _ _ _ _ _ _ ltac:(listed) Hthreads Hbatch) as [Hreqs Hlog].
    split; [done|]. split; [done|].
    apply (batch_fetches _ _ true _ _ _ _ _ _ _ _
             (λ res, proj1 (proj2 (proj2 (proj2 (refetched res))))) Hbatch).
  - destruct (quiet_batch printBucketResponse _ _ _ _ _ _ _ _ _ ltac:(listed) Hthreads Hbatch) as [Hreqs Hlog].
    split; [done|]. split; [done|].
    apply (batch_fetches _ _ false _ _ _ _ _ _ _ _
             (λ res, proj1 (proj2 (refetched res))) Hbatch).
  - split; [|split].
    + by eapply (requests_at_most_once (logging printS3Response)).
    + eapply batch_findings; [|done]. intros res.
      refine (proj1 (Forall_forall _ _) (one_finding res) printS3Response _).
      apply list_elem_of_here.
    + apply (batch_fetches _ _ false _ _ _ _ _ _ _ _ (λ res, proj1 (refetched res)) Hbatch).
Qed.

Lemma breakout_follows_answers_witness :
  start (s3Candidates ["acme"]) false 1 zeroRate []
    = inr (CheckScenario.throttledConfig, CheckScenario.throttledFirst)
  ∧ run (logging printS3Response) CheckScenario.throttledConfig
      (CheckScenario.plainSchedule CheckScenario.slowDown) CheckScenario.throttledFirst
    = Some CheckScenario.throttledLast
  ∧ aborted CheckScenario.throttledLast = 1
  ∧ (aborted CheckScenario.throttledLast ≠ 0 ↔
       ∃ res, res ∈ delivered CheckScenario.throttledLast ∧ s3Stop res).
Proof.
  assert (start (s3Candidates ["acme"]) false 1 zeroRate []
          = inr (CheckScenario.throttledConfig, CheckScenario.throttledFirst)) as Hstart
    by (vm_compute; reflexivity).
  assert (run (logging printS3Response) CheckScenario.throttledConfig
            (CheckScenario.plainSchedule CheckScenario.slowDown) CheckScenario.throttledFirst
          = Some CheckScenario.throttledLast) as Hrun by (vm_compute; reflexivity).
  split; [exact Hstart|]. split; [exact Hrun|]. split; [reflexivity|].
  destruct (breakout_follows_answers printS3Response _ _ _ _ _ _ _ _ _ Hstart Hrun)
    as (_ & _ & Hs3 & _).
  exact (Hs3 eq_refl).
Defined.

Lemma findings_follow_answers_witness :
  printBucketResponse ∈ allCallbacks
  ∧ start (bucketCandidates ["acme"]) false 1 zeroRate []
    = inr (CheckScenario.bucketConfig, CheckScenario.bucketFirst)
  ∧ run (logging printBucketResponse) CheckScenario.bucketConfig
      (CheckScenario.plainSchedule CheckScenario.openBucket) CheckScenario.bucketFirst
    = Some CheckScenario.bucketLast
  ∧ cbState CheckScenario.bucketLast
    = [] ++ flat_map (λ res, (printBucketResponse res).2)
              (delivered CheckScenario.bucketLast).
Proof.
  assert (printBucketResponse ∈ allCallbacks) as Hf.
  { unfold allCallbacks. do 2 apply list_elem_of_further. listed. }
  assert (start (bucketCandidates ["acme"]) false 1 zeroRate []
          = inr (CheckScenario.bucketConfig, CheckScenario.bucketFirst)) as Hstart
    by (vm_compute; reflexivity).
  assert (run (logging printBucketResponse) CheckScenario.bucketConfig
            (CheckScenario.plainSchedule CheckScenario.openBucket) CheckScenario.bucketFirst
          = Some CheckScenario.bucketLast) as Hrun by (vm_compute; reflexivity).
  split; [exact Hf|]. split; [exact Hstart|]. split; [exact Hrun|].
  destruct (findings_follow_answers printBucketResponse _ _ _ _ _ _ _ _ _ Hf Hstart Hrun)
    as (Hlog & _).
  exact Hlog.
Defined.

Lemma checks_fetch_candidates_witness :
  1 ≤ 1
  ∧ checkS3Buckets ["acme"] 1 (CheckScenario.plainSchedule CheckScenario.openS3) zeroRate []
    = Some (Finished zeroRate
              [found "aws" "OPEN S3 BUCKET" "http://acme.s3.amazonaws.com" "public";
               Listing "http://acme.s3.amazonaws.com"]
              ["acme.s3.amazonaws.com"])
  ∧ ["acme.s3.amazonaws.com"] ⊆+ filterValid (s3Candidates ["acme"])
  ∧ fetches printS3Response "http://" []
      [found "aws" "OPEN S3 BUCKET" "http://acme.s3.amazonaws.com" "public";
       Listing "http://acme.s3.amazonaws.com"]
      ["acme.s3.amazonaws.com"] s3Again.
Proof.
  assert (1 ≤ 1) as Hone by lia.
  assert (checkS3Buckets ["acme"] 1 (CheckScenario.plainSchedule CheckScenario.openS3)
            zeroRate []
          = Some (Finished zeroRate
              [found "aws" "OPEN S3 BUCKET" "http://acme.s3.amazonaws.com" "public";
               Listing "http://acme.s3.amazonaws.com"]
              ["acme.s3.amazonaws.com"])) as Hcheck by (vm_compute; reflexivity).
  split; [exact Hone|]. split; [exact Hcheck|].
  destruct (checks_fetch_candidates ["acme"] 1
              (CheckScenario.plainSchedule CheckScenario.openS3) zeroRate [] zeroRate
              [found "aws" "OPEN S3 BUCKET" "http://acme.s3.amazonaws.com" "public";
               Listing "http://acme.s3.amazonaws.com"]
              ["acme.s3.amazonaws.com"] Hone)
    as (_ & _ & _ & _ & Hs3).
  destruct (Hs3 Hcheck) as (Hreqs & _ & Hfetch).
  split; [exact Hreqs|exact Hfetch].
Defined.

End CheckFacts.

Module AzureFacts.
Import Go Text Domain RateLimiter DNS Candidates Callbacks Checks Azure
  DomainFacts CallbackFacts CheckFacts.

Lemma addUnique_spec st n :
  (∀ x, default false (st.1 !! x) = true ↔ x ∈ st.2) → NoDup st.2 →
  (∀ x, default false ((addUnique st n).1 !! x) = true ↔ x ∈ (addUnique st n).2)
  ∧ NoDup (addUnique st n).2
  ∧ ∀ x, x ∈ (addUnique st n).2 ↔ x ∈ st.2 ∨ x = n.
Proof.
  intros Hseen Hnd. unfold addUnique.
  destruct (default false (st.1 !! n)) eqn:Hn; cbn [negb fst snd].
  - split; [done|]. split; [done|]. intros x. split; [by left|].
    intros [?| ->]; [done|]. by apply Hseen.
  - assert (n ∉ st.2) as Hnot.
    { intros Hin. apply Hseen in Hin. congruence. }
    split; [|split].
    + intros x. rewrite elem_of_app, list_elem_of_singleton.
      destruct (decide (x = n)) as [->|Hne].
      * rewrite lookup_insert_eq. cbn. naive_solver.
      * rewrite lookup_insert_ne by done. rewrite Hseen. naive_solver.
    + apply NoDup_app. split; [done|]. split; [|apply NoDup_singleton].
      intros x Hx ->%list_elem_of_singleton. done.
    + intros x. by rewrite elem_of_app, list_elem_of_singleton.
Qed.

Lemma filter_all {A} (P : A → Prop) `{∀ x, Decision (P x)} (l : list A) :
  Forall P l → filter P l = l.
Proof.
  induction 1 as [|x l Hx Hl IH]; [done|]. by rewrite filter_cons_True, IH.
Qed.

Lemma unique_spec l : NoDup (unique l) ∧ ∀ x, x ∈ unique l ↔ x ∈ l.
Proof.
  unfold unique.
  assert (∀ st, (∀ x, default false (st.1 !! x) = true ↔ x ∈ st.2) → NoDup st.2 →
            NoDup (fold_left addUnique l st).2
            ∧ ∀ x, x ∈ (fold_left addUnique l st).2 ↔ x ∈ st.2 ∨ x ∈ l) as Hgen.
  { induction l as [|n l IH]; intros st Hseen Hnd; cbn [fold_left].
    - split; [done|]. intros x. rewrite elem_of_nil. naive_solver.
    - destruct (addUnique_spec st n Hseen Hnd) as (Hseen' & Hnd' & Hmem).
      destruct (IH _ Hseen' Hnd') as [Hnd'' Hmem'']. split; [done|].
      intros x. rewrite Hmem'', Hmem, elem_of_cons. naive_solver. }
  destruct (Hgen (∅, [])) as [Hnd Hmem].
  - intros x. cbn [fst snd]. rewrite lookup_empty, elem_of_nil. cbn. naive_solver.
  - constructor.
  - split; [done|]. intros x. rewrite Hmem. cbn [snd]. rewrite elem_of_nil. naive_solver.
Qed.

Section Accounts.
Context {R : Type}.
Variable LookupHost : R → string → Z → option error * R.
Variable systemResolver : R.
Variable newResolver : list string → R.
Variable ReadNameservers : string → option (list string).

Local Abbreviation checkAzureAccountType :=
  (checkAzureAccountType LookupHost systemResolver newResolver ReadNameservers).

(** X28. checkAzureAccountType with at least one thread, whatever the
    resolver and the network answer and whatever the interleavings: the
    accounts it returns are distinct and are exactly the hosts its HTTP
    batch has requested; these are candidates that pass the validator,
    each requested at most as often as it was built; and at most one
    finding is reported per request. *)
Theorem checkAzureAccountType_accounts
    (names : list string) (threads : Z) (nameserver nameserverFile domain : string)
    (dnsSched : list DNSBatch.action) (httpSched : list HTTPBatch.action)
    (r : RateState) (log : list effect)
    (accounts : list string) (r' : RateState) (log' : list effect) (reqs : list string) :
  1 ≤ threads →
  checkAzureAccountType names threads nameserver nameserverFile domain dnsSched httpSched r log
    = Some (Accounts accounts r' log' reqs) →
  NoDup accounts
  ∧ (∀ a, a ∈ accounts ↔ a ∈ reqs)
  ∧ reqs ⊆+ filterValid (accountCandidates names domain)
  ∧ addsFindings log log' (length reqs).
Proof.
  intros Hthreads. unfold Azure.checkAzureAccountType.
  destruct (DNSBatch.FastDNSLookup _ _ _ _ _ _ _ _ _ _) as [[validNames|code|]|] eqn:Hdns;
    [|done..].
  destruct (HTTPBatch.GetURLBatch _ _ _ _ _ _ _) as [[r1 log1 reqs1|]|] eqn:Hhttp; [|done..].
  intros [= <- <- <- <-].
  apply DNSLedgerFacts.returns_given_names in Hdns.
  assert (filterValid validNames = validNames) as Hvalid.
  { rewrite filterValid_filter. apply filter_all.
    apply Forall_forall. intros x Hx.
    assert (x ∈ filterValid (accountCandidates names domain)) as Hin.
    { eapply elem_of_submseteq; [exact Hx|exact Hdns]. }
    by apply elem_of_filterValid in Hin as [? _]. }
  destruct (quiet_batch printAccountResponse _ _ _ _ _ _ _ _ _ ltac:(listed) Hthreads Hhttp)
    as [Hperm Hfind].
  rewrite Hvalid in Hperm.
  destruct (unique_spec validNames) as [Hnd Hmem].
  split; [done|]. split; [|split; [|done]].
  - intros a. by rewrite Hmem, Hperm.
  - by rewrite Hperm.
Qed.

End Accounts.

Lemma checkAzureAccountType_witness :
  1 ≤ 1
  ∧ checkAzureAccountType Mock.okLookup tt (λ _, tt) Mock.noFile ["acme"; "a.b"] 1 "" "" blobURL
      (DNSBatch.oneByOne 1 ++ DNSBatch.shutdown 1)
      (CheckScenario.plainSchedule CheckScenario.okAccount) zeroRate []
    = Some (Accounts ["acme.blob.core.windows.net"] zeroRate
              [found "azure" "HTTP-OK Account" "http://acme.blob.core.windows.net" "public"]
              ["acme.blob.core.windows.net"])
  ∧ NoDup ["acme.blob.core.windows.net"]
  ∧ ["acme.blob.core.windows.net"]
    ⊆+ filterValid (accountCandidates ["acme"; "a.b"] blobURL).
Proof.
  assert (1 ≤ 1) as Hone by lia.
  assert (checkAzureAccountType Mock.okLookup tt (λ _, tt) Mock.noFile ["acme"; "a.b"] 1 "" ""
            blobURL (DNSBatch.oneByOne 1 ++ DNSBatch.shutdown 1)
            (CheckScenario.plainSchedule CheckScenario.okAccount) zeroRate []
          = Some (Accounts ["acme.blob.core.windows.net"] zeroRate
              [found "azure" "HTTP-OK Account" "http://acme.blob.core.windows.net" "public"]
              ["acme.blob.core.windows.net"])) as Hcheck by (vm_compute; reflexivity).
  split; [exact Hone|]. split; [exact Hcheck|].
  destruct (checkAzureAccountType_accounts Mock.okLookup tt (λ _, tt) Mock.noFile
              _ _ _ _ _ _ _ _ _ _ _ _ _ Hone Hcheck) as (Hnd & _ & Hsub & _).
  split; [exact Hnd|exact Hsub].
Defined.

End AzureFacts.

Module FunctionsFacts.
Import Go Text Domain RateLimiter HTTPBatch HTTPLedger GCP HTTPBatchFacts HTTPLedgerFacts.

(** What a completed batch leaves of the callback's state: that of the
    consuming loop run over the results delivered, each of which answers
    a request of its own. *)
Lemma batch_replay {CB} (callback : HttpResult → CB → bool * CB)
    urlList useSSL threads sched r cb r' cb' reqs :
  GetURLBatch callback urlList useSSL threads sched r cb = Some (Finished r' cb' reqs) →
  ∃ delivered, cb' = (replay callback cb delivered).2
               ∧ OriginalURL <$> delivered
                 ⊆+ String.append (if useSSL then "https://" else "http://") <$> reqs.
Proof.
  unfold GetURLBatch.
  destruct (start urlList useSSL threads r cb) as [early|[c s0]] eqn:Hstart.
  { intros [= ->]. unfold start in Hstart. exists [].
    destruct (_ =? 0); [injection Hstart as <- <- <-; split; [done|apply submseteq_nil_l]|].
    destruct (_ =? 0); [injection Hstart as <- <- <-; split; [done|apply submseteq_nil_l]|].
    by destruct (_ <? 0). }
  destruct (run callback c sched s0) as [s|] eqn:Hrun; [|done].
  pose proof (deliveryInv_run _ _ _ _ _ _ _ _ _ _ Hstart Hrun) as [Hans _ Hrep].
  apply http_start_inr in Hstart as (_ & _ & -> & _). cbn [proto] in Hans.
  destruct (status s); [done|]. intros [= <- <- <-].
  exists (delivered s). rewrite <- Hrep. split; [done|].
  etrans; [|exact Hans]. rewrite !fmap_app, <- !app_assoc. by apply submseteq_inserts_r.
Qed.

Lemma replay_first funcs rs :
  (replay printFunctionsResponse1 funcs rs).2
  = funcs ++ (URL <$> filter (λ r, StatusCode r = 302) rs).
Proof.
  induction rs as [|r rs IH] using rev_ind.
  - by rewrite app_nil_r.
  - rewrite replay_snoc. unfold printFunctionsResponse1 at 1. cbn [snd]. rewrite IH.
    rewrite filter_app, fmap_app, filter_cons, filter_nil.
    destruct (Z.eqb_spec (StatusCode r) 302); case_decide; try done.
    + by rewrite app_assoc.
    + by rewrite app_nil_r.
Qed.

Lemma replay_second funcs rs : (replay printFunctionsResponse2 funcs rs).2 = funcs.
Proof.
  induction rs as [|r rs IH] using rev_ind; [done|]. by rewrite replay_snoc.
Qed.

(** The candidates of the re-scan of one project/region. *)
Lemma bruteForce_requests bruteStrings threads : ∀ found scheds g reqs g' reqs',
  bruteForce found bruteStrings threads scheds g reqs = Some (Done g' reqs') →
  hasFuncs g' = hasFuncs g
  ∧ ∃ later, reqs' = reqs ++ later
      ∧ ∀ u, u ∈ later →
          ∃ fn b, fn ∈ found ∧ b ∈ bruteStrings
                  ∧ u = String.append (TrimPrefix (TrimPrefix fn "http://") "https://")
                          (String.append b "/").
Proof.
  induction found as [|fn rest IH]; intros scheds g reqs g' reqs'; cbn [bruteForce].
  - intros [= <- <-]. split; [done|]. exists []. rewrite app_nil_r. split; [done|].
    by intros u ?%elem_of_nil.
  - destruct scheds as [|sched scheds']; [done|].
    destruct (GetURLBatch _ _ _ _ _ _ _) as [[r funcs batch|]|] eqn:Hbatch; [|done|done].
    intros Hrest. apply IH in Hrest as (Hfuncs & later & -> & Hlater). cbn [hasFuncs] in Hfuncs.
    destruct (batch_replay _ _ _ _ _ _ _ _ _ _ Hbatch) as (dl & -> & _).
    rewrite replay_second in Hfuncs.
    apply (requests_at_most_once printFunctionsResponse2) in Hbatch.
    split; [done|]. exists (batch ++ later). rewrite app_assoc. split; [done|].
    intros u [Hu|Hu]%elem_of_app.
    + assert (u ∈ filterValid
                (map (λ b, String.append (TrimPrefix (TrimPrefix fn "http://") "https://")
                             (String.append b "/")) bruteStrings)) as Hin.
      { eapply elem_of_submseteq; [exact Hu|exact Hbatch]. }
      apply DomainFacts.elem_of_filterValid in Hin as [_ Hin].
      apply list_elem_of_fmap in Hin as (b & -> & Hb).
      exists fn, b. split; [apply list_elem_of_here|done].
    + destruct (Hlater u Hu) as (fn' & b & Hfn & Hb & ->).
      exists fn', b. split; [by apply list_elem_of_further|done].
Qed.

(** X29. checkFunctions with at least one thread, whatever the network
    answers and whatever the interleavings. The first pass requests every
    candidate that passes the validator exactly as often as it was built;
    [hasFuncs] ends as the final URLs of the answers with status 302 among
    answers to requests of that pass, one answer per request at most;
    under quick scan, or with none found, nothing more is requested;
    otherwise every later request is a found URL, without its protocol,
    followed by a brute-force name and a slash. *)
Theorem checkFunctions_scan
    (names bruteStrings : list string) (quickscan : bool) (threads : Z)
    (sched : list action) (scheds : list (list action))
    (g g' : globals) (reqs : list string) :
  1 ≤ threads →
  checkFunctions names bruteStrings quickscan threads sched scheds g = Some (Done g' reqs) →
  ∃ first later answers,
    reqs = first ++ later
    ∧ first ≡ₚ filterValid (candidates names)
    ∧ hasFuncs g' = URL <$> filter (λ res, StatusCode res = 302) answers
    ∧ OriginalURL <$> answers ⊆+ String.append "http://" <$> first
    ∧ (quickscan = true ∨ hasFuncs g' = [] → later = [])
    ∧ ∀ u, u ∈ later →
        ∃ fn b, fn ∈ hasFuncs g' ∧ b ∈ bruteStrings
                ∧ u = String.append (TrimPrefix (TrimPrefix fn "http://") "https://")
                        (String.append b "/").
Proof.
  intros Hthreads. unfold checkFunctions.
  destruct (GetURLBatch _ _ _ _ _ _ _) as [[r funcs first|]|] eqn:Hbatch; [|done|done].
  cbn [rl resetHasFuncs hasFuncs] in Hbatch.
  destruct (batch_replay _ _ _ _ _ _ _ _ _ _ Hbatch) as (answers & Hfuncs & Hans).
  rewrite replay_first, app_nil_l in Hfuncs.
  apply (requests_all printFunctionsResponse1) in Hbatch; [|done|done].
  assert (∀ g1 reqs1, g1 = mkGlobals r funcs → reqs1 = first →
            Some (Done g1 reqs1) = Some (Done g' reqs) →
            ∃ first later answers,
              reqs = first ++ later
              ∧ first ≡ₚ filterValid (candidates names)
              ∧ hasFuncs g' = URL <$> filter (λ res, StatusCode res = 302) answers
              ∧ OriginalURL <$> answers ⊆+ String.append "http://" <$> first
              ∧ (quickscan = true ∨ hasFuncs g' = [] → later = [])
              ∧ ∀ u, u ∈ later →
                  ∃ fn b, fn ∈ hasFuncs g' ∧ b ∈ bruteStrings
                          ∧ u = String.append (TrimPrefix (TrimPrefix fn "http://") "https://")
                                  (String.append b "/")) as Hending.
  { intros g1 reqs1 -> -> [= <- <-]. exists first, [], answers. rewrite app_nil_r.
    cbn [hasFuncs]. repeat split; try done. by intros u ?%elem_of_nil. }
  destruct (Z.eqb_spec (Z.of_nat (length funcs)) 0) as [Hnone|Hsome]; [by apply Hending|].
  destruct quickscan; [by apply Hending|].
  intros Hscan. apply bruteForce_requests in Hscan as (Hg' & later & -> & Hlater).
  cbn [hasFuncs] in Hg'. exists first, later, answers. rewrite Hg'.
  repeat split; try done.
  intros [?|Hnil]; [done|]. rewrite Hnil in Hsome. done.
Qed.

Lemma checkFunctions_scan_witness :
  1 ≤ 1
  ∧ checkFunctions ["acme"] ["hello"] false 1 (Mock.oneRequest Mock.found302)
      [Mock.oneRequest Mock.ok200] Mock.scanGlobals = Some Mock.scanOutcome
  ∧ ∃ first later answers,
      ["us-central1-acme.cloudfunctions.net"; "us-central1-acme.cloudfunctions.nethello/"]
      = first ++ later
      ∧ first ≡ₚ filterValid (candidates ["acme"])
      ∧ ["http://us-central1-acme.cloudfunctions.net"]
        = URL <$> filter (λ res, StatusCode res = 302) answers
      ∧ OriginalURL <$> answers ⊆+ String.append "http://" <$> first.
Proof.
  assert (1 ≤ 1) as Hone by lia.
  assert (checkFunctions ["acme"] ["hello"] false 1 (Mock.oneRequest Mock.found302)
            [Mock.oneRequest Mock.ok200] Mock.scanGlobals = Some Mock.scanOutcome) as Hscan
    by (vm_compute; reflexivity).
  split; [exact Hone|]. split; [exact Hscan|].
  destruct (checkFunctions_scan ["acme"] ["hello"] false 1 _ _ _ _ _ Hone Hscan)
    as (first & later & answers & Hreqs & Hfirst & Hfuncs & Hans & _).
  exists first, later, answers. split; [exact Hreqs|]. split; [exact Hfirst|].
  split; [exact Hfuncs|exact Hans].
Defined.

End FunctionsFacts.

Module NameserverFacts.
Import Go Text Nameservers.

Lemma dial_spec l idx :
  l ≠ [] → 0 ≤ idx < 2 ^ 64 →
  ∃ ns, l !! Z.to_nat (idx mod Z.of_nat (length l)) = Some ns
        ∧ dial l idx = Some (String.append ns ":53", (idx + 1) mod 2 ^ 64).
Proof.
  intros Hne Hidx. unfold dial.
  assert (0 < Z.of_nat (length l)) as Hn by (destruct l; [done|cbn [length]; lia]).
  destruct (Z.eqb_spec (Z.of_nat (length l)) 0); [lia|].
  assert (((idx + 1) mod 2 ^ 64 - 1) mod 2 ^ 64 = idx) as ->.
  { rewrite Zminus_mod_idemp_l. replace (idx + 1 - 1) with idx by lia.
    by apply Z.mod_small. }
  pose proof (Z.mod_pos_bound idx (Z.of_nat (length l)) Hn) as Hb.
  destruct (lookup_lt_is_Some_2 l (Z.to_nat (idx mod Z.of_nat (length l)))) as [ns Hns];
    [lia|].
  exists ns. by rewrite Hns.
Qed.

Lemma dials_lookup l : ∀ k idx,
  l ≠ [] → 0 ≤ idx → idx + Z.of_nat k ≤ 2 ^ 64 →
  ∃ addrs, dials l idx k = Some (addrs, if k is O then idx else (idx + Z.of_nat k) mod 2 ^ 64)
           ∧ length addrs = k
           ∧ ∀ j, (j < k)%nat →
               addrs !! j
               = (λ ns, String.append ns ":53")
                   <$> l !! Z.to_nat ((idx + Z.of_nat j) mod Z.of_nat (length l)).
Proof.
  induction k as [|k IH]; intros idx Hne H0 Hmax; cbn [dials].
  - exists []. split; [done|]. split; [done|]. lia.
  - destruct (dial_spec l idx Hne ltac:(lia)) as (ns & Hns & ->).
    assert ((idx + 1) mod 2 ^ 64 = idx + 1 ∨ k = 0%nat) as Hnext.
    { destruct k; [by right|left]. apply Z.mod_small. lia. }
    destruct k as [|k].
    + cbn [dials]. eexists. split; [done|]. split; [done|].
      intros [|j] Hj; [|lia]. cbn [lookup list_lookup]. by rewrite Z.add_0_r, Hns.
    + destruct Hnext as [Hnext|]; [|done]. rewrite Hnext.
      destruct (IH (idx + 1) Hne ltac:(lia) ltac:(lia)) as (rest & -> & Hlen & Hrest).
      eexists. split.
      * do 3 f_equal. lia.
      * split; [cbn [length]; by rewrite Hlen|].
        intros [|j] Hj.
        -- cbn [lookup list_lookup]. by rewrite Z.add_0_r, Hns.
        -- cbn [lookup list_lookup]. rewrite Hrest by lia. f_equal. f_equal. f_equal. f_equal. lia.
Qed.

Section Facts.
Variable TrimSpace : string → string.

Local Abbreviation ReadNameservers := (ReadNameservers TrimSpace).

Lemma keepLine_from lines : ∀ ns,
  Forall (λ n, n ≠ EmptyString ∧ HasPrefix n "#" = false) ns →
  Forall (λ n, n ≠ EmptyString ∧ HasPrefix n "#" = false)
         (fold_left (keepLine TrimSpace) lines ns).
Proof.
  induction lines as [|text lines IH]; intros ns Hns; cbn [fold_left]; [done|].
  apply IH. unfold keepLine.
  destruct (String.eqb_spec (TrimSpace text) ""); cbn [negb andb]; [done|].
  destruct (HasPrefix (TrimSpace text) "#") eqn:Hc; cbn [negb]; [done|].
  apply Forall_app. split; [done|]. by apply Forall_singleton.
Qed.

(** X30. Custom nameservers. A list [ReadNameservers] returns is not empty and
    holds no empty entry and no comment line; on such a list, and on the
    one-entry list of the -ns option, [Dial] does not panic; and with n
    nameservers, n calls in a row dial every nameserver once, on port 53,
    in the order of the list starting at entry (idx mod n), idx being the
    number of calls before. *)
Theorem nameservers_dialed_in_turn (nameservers : list string) (idx : Z) :
  (∀ file, ReadNameservers file = Some nameservers →
     nameservers ≠ []
     ∧ Forall (λ n, n ≠ EmptyString ∧ HasPrefix n "#" = false) nameservers)
  ∧ (nameservers ≠ [] → 0 ≤ idx < 2 ^ 64 → dial nameservers idx ≠ None)
  ∧ (nameservers ≠ [] → 0 ≤ idx → idx + Z.of_nat (length nameservers) ≤ 2 ^ 64 →
     ∃ addrs idx',
       dials nameservers idx (length nameservers) = Some (addrs, idx')
       ∧ addrs = (λ ns, String.append ns ":53")
                   <$> rotate (Z.to_nat (idx mod Z.of_nat (length nameservers))) nameservers
       ∧ addrs ≡ₚ (λ ns, String.append ns ":53") <$> nameservers)
  ∧ (∀ nameserver, 0 ≤ idx < 2 ^ 64 →
       ∃ idx', dial [nameserver] idx = Some (String.append nameserver ":53", idx')).
Proof.
  split; [|split; [|split]].
  - intros [lines|]; [|done]. unfold Nameservers.ReadNameservers.
    pose proof (keepLine_from lines [] ltac:(constructor)) as Hall.
    destruct (fold_left _ lines []) as [|n ns]; [done|].
    cbn [length]. destruct (Z.eqb_spec (Z.of_nat (S (length ns))) 0); [lia|].
    by intros [= <-].
  - intros Hne Hidx. by destruct (dial_spec nameservers idx Hne Hidx) as (ns & _ & ->).
  - intros Hne H0 Hmax.
    destruct (dials_lookup nameservers (length nameservers) idx Hne H0 Hmax)
      as (addrs & Hdials & Hlen & Hlook).
    assert (addrs = (λ ns, String.append ns ":53")
                      <$> rotate (Z.to_nat (idx mod Z.of_nat (length nameservers)))
                            nameservers) as Haddrs.
    { apply list_eq. intros j. rewrite list_lookup_fmap.
      destruct (decide (j < length nameservers)%nat) as [Hj|Hj].
      - rewrite Hlook by done. rewrite lookup_rotate_r by done. unfold rotate_nat_add.
        do 3 f_equal.
        assert (0 < Z.of_nat (length nameservers)) by lia.
        rewrite Z2Nat.id by (apply Z.mod_pos_bound; lia).
        by rewrite Z.add_mod_idemp_l by lia.
      - rewrite !lookup_ge_None_2; [done|rewrite length_rotate; lia|lia]. }
    eexists addrs, _. split; [exact Hdials|]. split; [exact Haddrs|].
    rewrite Haddrs. apply fmap_Permutation. unfold rotate.
    rewrite Permutation_app_comm. by rewrite take_drop.
  - intros nameserver Hidx.
    destruct (dial_spec [nameserver] idx ltac:(done) Hidx) as (ns & Hns & Hdial).
    cbn [length] in Hns. rewrite Z.mod_1_r in Hns. injection Hns as <-. eauto.
Qed.

End Facts.

Lemma nameservers_dialed_witness :
  ["8.8.8.8"; "9.9.9.9"; "1.0.0.1"] ≠ [] ∧ 0 ≤ 4
  ∧ 4 + Z.of_nat (length ["8.8.8.8"; "9.9.9.9"; "1.0.0.1"]) ≤ 2 ^ 64
  ∧ ∃ idx',
      dials ["8.8.8.8"; "9.9.9.9"; "1.0.0.1"] 4 3
      = Some ((λ ns, String.append ns ":53")
                <$> rotate (Z.to_nat (4 mod 3)) ["8.8.8.8"; "9.9.9.9"; "1.0.0.1"], idx').
Proof.
  assert (["8.8.8.8"; "9.9.9.9"; "1.0.0.1"] ≠ []) as Hne by done.
  assert (0 ≤ 4) as H0 by lia.
  assert (4 + Z.of_nat (length ["8.8.8.8"; "9.9.9.9"; "1.0.0.1"]) ≤ 2 ^ 64) as Hmax
    by (by vm_compute).
  split; [exact Hne|]. split; [exact H0|]. split; [exact Hmax|].
  destruct (nameservers_dialed_in_turn asciiTrim ["8.8.8.8"; "9.9.9.9"; "1.0.0.1"] 4)
    as (_ & _ & Hturn & _).
  destruct (Hturn Hne H0 Hmax) as (addrs & idx' & Hdials & -> & _).
  exists idx'. exact Hdials.
Defined.

Example nameservers_sample :
  ReadNameservers asciiTrim (Some ["# resolvers"; " 8.8.8.8 "; ""; "9.9.9.9"])
  = Some ["8.8.8.8"; "9.9.9.9"]
  ∧ ReadNameservers asciiTrim (Some ["# resolvers"; ""]) = None
  ∧ dials ["8.8.8.8"; "9.9.9.9"] 1 2 = Some (["9.9.9.9:53"; "8.8.8.8:53"], 3).
Proof. by vm_compute. Qed.

End NameserverFacts.
